(* ===== verification/_CoqProject ===== *)
-Q . S2P
Prelude.v
Lifecycle.v
PyStr.v
Paths.v
Json.v
JsonParse.v
JsonScan.v
JsonFacts.v
Canonical.v
Documents.v
PyRegex.v
Timestamp.v
TimestampFacts.v
Schema.v
Contracts.v
Equivalence.v
Models.v
ModelsFacts.v
ContractProps.v
EnvelopeProps.v
PyIp.v
PyUrl.v
PyUrlFacts.v
PathsFacts.v
Base64.v
PyIpFacts.v
ScopeGuard.v
ScopeGuardProps.v
Identity.v
IdentityProps.v
Egress.v
EgressSteps.v
EgressProps.v
Receipts.v
Authorization.v
AuthorizationProps.v
ApprovalStore.v
Files.v
Cleanup.v
RollbackOrder.v
Rollback.v
RollbackFacts.v
RollbackProps.v
RecoveryFacts.v
RecoveryEvents.v
RecoveryProps.v
ApprovalStoreProps.v
Gateway.v
Dispatch.v
DispatchProps.v
Transport.v
TransportProps.v
Broker.v
BrokerFacts.v
BrokerProps.v
Control.v
ControlProps.v
ControlLink.v
Budget.v
BudgetFacts.v
BudgetInv.v
BudgetProps.v
