(* ===== verification/Prelude.v ===== *)
(** * COPS verification library

    A model of the control plane of the security plugin (the Python package
    [src/cops]), with theorems on the parts that decide what may run, on whose
    authority, at what cost, where it may connect to and what it leaves behind.

    ** Parts of the program and how they interact

    A contract is a JSON document ([contracts/models.py]).  [validate_contract]
    ([contracts/validation.py]) checks it against the published schema
    ([evidence/validation.py]) and against the invariants of its type; its
    digests are over the canonical encoding ([evidence/canonical.py]).  An approved
    action plan gets an execution authorization, signed by an operator's key
    ([execution/authorization.py]), which the approval store
    ([execution/store.py]) keeps and consumes once, when a worker runs the plan: the
    worker asks the authority process for it over a local socket
    ([execution/control.py]).  Attempts of agents are charged to the assessment budget
    ([assessment_budget.py]), a ledger with a lifecycle of its own.

    While it runs, a worker checks destinations against the engagement's scope
    ([execution/scope_guard.py]).  An isolated adapter has no network: its requests go
    line by line to a broker, which has a mediator carry them out over connections that
    are pinned, in scope and authenticated ([execution/egress.py], with the policy of
    the operation from [execution/egress_policy.py]); a request to the operator's
    gateway is carried by a signed grant that is consumed once
    ([execution/gateway_dispatch.py]).  What a worker creates is recorded in a journal
    before it exists, and undone from it at the end or after a restart
    ([execution/cleanup.py], [execution/filesystem.py]).  The older receipts of
    [cops/authorization.py] are still accepted by one gate.

    ** Files

    The language and its standard library:

    - [Prelude]: exceptions and results of Python calls, calls that change a state with
      their postconditions ([eff], [post]), histories that only grow ([added]), the
      notations [let?], [do!] and [raise_if], association lists, sums, tactics.
    - [PyStr], [PyRegex]: the string methods and regular expressions in use.
    - [Json], [JsonParse], [JsonScan], [JsonFacts]: values, [json.dumps], [json.loads],
      that the decoder always answers, and that parsing inverts printing.
    - [Timestamp], [TimestampFacts]: [datetime.fromisoformat] as used by [timestamp],
      the calendar, [isoformat] and their round trip.
    - [PyIp], [PyIpFacts], [PyUrl], [PyUrlFacts], [Base64], [Paths], [PathsFacts]: the
      parts in use of [ipaddress], [urllib.parse], [base64], [os.path] and [pathlib].

    Contracts and authority:

    - [Lifecycle]: [contracts/lifecycle.py].
    - [Canonical], [Documents]: [evidence/canonical.py]; dicts by their items and what
      a digest of a part of a dict determines.
    - [Schema], [EnvelopeProps]: [evidence/validation.py].
    - [Contracts], [Models], [ModelsFacts], [Equivalence], [ContractProps]:
      [contracts/validation.py] and [contracts/models.py].  The class [ContractModel]
      is the interface of the nine contract types and [ContractModelOk] its laws;
      [Equivalence] shows that validation does not read key order, which the round
      trip of every type uses.
    - [Receipts]: [cops/authorization.py].
    - [Authorization], [AuthorizationProps]: [execution/authorization.py].
    - [ApprovalStore], [ApprovalStoreProps]: [execution/store.py], its refinement of a
      one-use register, and histories of calls.
    - [Transport], [TransportProps]: the sockets and frames of [execution/control.py];
      [Control], [ControlProps]: the authority, its server and the worker's client;
      [ControlLink]: the two connected, through the interface [Network].
    - [Budget], [BudgetFacts], [BudgetInv], [BudgetProps]: [assessment_budget.py]: the
      operations, the step relation they refine, the invariant of reachable ledgers,
      and the properties.

    Execution:

    - [ScopeGuard], [ScopeGuardProps]: [execution/scope_guard.py].
    - [Identity], [IdentityProps]: identities, allowlists, certificates and request
      targets of [execution/egress.py], and [execution/egress_policy.py].
    - [Egress], [EgressSteps], [EgressProps]: [HTTPSExecutionMediator] with what each of
      its steps may do; [Broker], [BrokerFacts], [BrokerProps]: the broker of an adapter
      and the effects of a run of it.
    - [Gateway], [Dispatch], [DispatchProps]: [execution/gateway_dispatch.py].
    - [Files]: system calls, and [execution/filesystem.py]; [Cleanup]: effects, the journal
      and its replay; [RollbackOrder], [Rollback], [RollbackFacts], [RollbackProps]: the
      ledger and the manager of [execution/cleanup.py]; [RecoveryFacts],
      [RecoveryEvents], [RecoveryProps]: the journal as a record of the ledger.

    ** Groups of theorems

    - encodings: the canonical encoder is the reference encoder within its limits,
      is injective up to key order, and its decoder is its inverse; frames and
      envelopes survive their transport;
    - contracts: round trips of the nine types that have a class, on complete documents;
      independence of key order for all but the report types; digests
      that bind plans, envelopes, receipts and signatures;
    - authority: no execution without approval in any run of a lifecycle, what a
      verified authorization guarantees, issue and verification agree, use at most
      once over any history, idempotent requests, migration of old tables; a receipt
      in a worker's hands is a verified consumption, and no peer can stop the
      authority;
    - budget: every reachable ledger is within the limits of the engagement and of each
      subtree, on tokens and cost up to what was reserved (a receipt may report more,
      and then nothing is admitted any more); failures are atomic, and of the documented
      classes but for two cases that the theorem names; retries do not charge twice,
      approvals are used once;
    - egress: which destinations are in scope, when a request leaves the mediator and
      to whom, how often a grant is released; a run of the broker ends, with one of two
      errors at worst, within its limits, and sends no dispatch that was not consumed;
    - cleanup: a rollback touches only what the worker created and still finds in
      place, takes effects in an order that empties directories first, and accounts
      for each of them in its receipt; and a journal gives back, after any failures, what
      the ledger held.

    ** Conventions

    A Python call is a function into [res]: a value or an exception with its class and
    an abbreviated message.  Messages are compared where the code compares them.
    Mutated objects are values threaded through the calls ([eff]); objects that are
    shared are named by their position in the list that holds them.  A SQL
    transaction is a function from tables to an outcome which either rolls back or
    commits; tables are lists in insertion order or finite maps by primary key;
    concurrent calls are ordered by the write lock, so a history is a list of calls.
    Ties of an [ORDER BY] keep the order of insertion.  Texts are lists of characters
    up to code point 255; columns hold texts, and [bind_text] refuses other values.
    Floats are reals of the form m*2^e with the three special values; their printing
    and parsing are functions of the class [Host], as are SHA-256, HMAC and the documents
    that exceed the recursion limit of [json].  Theorems
    that need a hash without collisions say so ([Inj]), and their witnesses use an
    injective text function.  Times are integers, in the unit of the code; the clock
    is an argument.

    What is outside the program answers through classes whose functions get the whole
    history of questions and answers: [Environment] (the mediator's clock, resolver,
    connections and callback), [World] (the broker's socket, clock and replay
    database), [Machine] (the worker's system calls, clock, identifiers and commits).
    So a name may resolve differently every time, a file may be replaced between two
    calls, and a commit may take effect and be reported as failed.  A control socket
    is the list of what arrives on it and when; Ed25519 is an interface of signing and
    verification.

    Loops of the code are structural recursions.  The exceptions have fuel: parsing
    (the length of the text), the regular expression matcher (pattern and text
    length), walks up the parents of an attempt (the number of rows), reading from a
    socket (the bytes and pauses that may still come: [read_fuel], [line_fuel]), the
    requests of a broker (the number allowed: [serve_fuel]), the drain of the ready
    heap (the number of effects); each comes with a theorem or lemma that the fuel
    suffices, and running out is the exception [OutOfFuel], which no theorem treats as
    a result.  Redirects are bounded by the code itself.

    Parameters: [read_schema] gives the schema files of [catalog/schemas];
    [report_semantics] the validators of [cops/reporting] that [validate_contract]
    calls for five report types; the classes [Host] and [HostOk] the functions of the
    standard library named above; files, terminals and clocks are arguments.

    ** Not modelled

    File permissions beyond what [stat] reports, SQLite itself, and [int] of digits other
    than ASCII.  The interpreter's recursion limit is modelled for the lines of the broker
    and the mappings given to the budget ledger, where its error leaves the code; elsewhere
    it is not.  The direct TLS connector
    with its bounded reading of response headers, the supervisor of the broker process,
    sandboxes, executables and the worker that strings these parts together: processes,
    sockets and an HTTP parser around the modelled decisions.  Handoff files and
    routing, the second schema vocabulary of [_schema_validation], connectors, retest
    and reporting semantics, goals and planning, the discovery reconciler, the laboratory
    journal and workflow playback have decisions of their own and are left out of this
    library for its size.  Collectors and parsers of external formats, the plugins' own
    scripts and the command lines are left out because they are input and output. *)

From stdpp Require Export base gmap strings list sorting.
From Stdlib Require Export ZArith Lia Ascii.

(** ** Python exceptions and results *)

(** The exception classes the modelled code raises or catches. *)
Inductive exc_class :=
| ValueError | TypeError | KeyError | AttributeError | RuntimeError | OverflowError | RecursionError
| ContractError | EvidenceError | SchemaValidationError
| BudgetDenied | BudgetStoreError
| AuthorizationError | AuthorizationRequiredError | AuthorizationDeniedError
| ApprovalStoreError | ApprovalStoreNotFoundError | ApprovalStoreAccessError | ApprovalStoreConflictError
| ApprovalControlError | ApprovalControlTransportError
| ScopeViolationError
| EgressMediationError | EgressProtocolError | AuthenticatedResourceScopeError | OperationEgressPolicyError
| GatewayDispatchError | GatewayDispatchValidationError | GatewayDispatchReplayError | GatewayDispatchStoreError
| LaboratoryGateError
| CleanupError | CleanupOwnershipError | CleanupPreconditionError | CleanupPersistenceError | CleanupQuarantineError
| ReportError
| EngagementIntakeError | GoalResolutionError | MissingOwnerError | ScopeAmbiguityError | IncompatibleWindowError
| IncompleteBudgetError | IncompleteLiveRequestError
| HandoffError | MissingCapabilityError | ConflictingEvidenceError | InvalidHandoffResultError
| AuthorizationExpansionError | MaterialPlanModifiedError
| OSError | TimeoutError | FileNotFoundError | ProcessLookupError | PermissionError | SecureDirectoryError
| AssertionError
| IntegrityError | SQLiteError
| OutOfFuel.

#[export] Instance exc_class_eq_dec : EqDecision exc_class.
Proof. solve_decision. Defined.

(** An exception value: its class and its code or (abbreviated) message. *)
Record exc := Exc { exc_cls : exc_class; exc_msg : string }.

#[export] Instance exc_eq_dec : EqDecision exc.
Proof. solve_decision. Defined.

(** The classes below [ValueError] in the class statements of the source. *)
Definition is_value_error (e : exc) : bool :=
  match exc_cls e with
  | ValueError | ContractError | EvidenceError | SchemaValidationError | BudgetDenied
  | AuthorizationError | AuthorizationRequiredError | AuthorizationDeniedError | ApprovalStoreError | ApprovalStoreNotFoundError
  | ApprovalStoreAccessError | ApprovalStoreConflictError | ScopeViolationError | OperationEgressPolicyError
  | ReportError | EngagementIntakeError | GoalResolutionError | MissingOwnerError | ScopeAmbiguityError
  | IncompatibleWindowError | IncompleteBudgetError | IncompleteLiveRequestError | HandoffError | MissingCapabilityError
  | ConflictingEvidenceError | InvalidHandoffResultError | AuthorizationExpansionError | MaterialPlanModifiedError => true
  | _ => false
  end.

(** [AuthorizationError] and its subclasses. *)
Definition is_authorization_error (e : exc) : bool :=
  match exc_cls e with
  | AuthorizationError | AuthorizationRequiredError | AuthorizationDeniedError => true
  | _ => false
  end.

(** [ApprovalControlError] and its private subclass. *)
Definition is_control_error (e : exc) : bool :=
  match exc_cls e with
  | ApprovalControlError | ApprovalControlTransportError => true
  | _ => false
  end.

(** [EgressMediationError] and its subclasses. *)
Definition is_mediation_error (e : exc) : bool :=
  match exc_cls e with
  | EgressMediationError | EgressProtocolError | AuthenticatedResourceScopeError => true
  | _ => false
  end.

(** [GatewayDispatchError] and its subclasses. *)
Definition is_dispatch_error (e : exc) : bool :=
  match exc_cls e with
  | GatewayDispatchError | GatewayDispatchValidationError | GatewayDispatchReplayError | GatewayDispatchStoreError => true
  | _ => false
  end.

(** [OSError] and its subclasses. *)
Definition is_os_error (e : exc) : bool :=
  match exc_cls e with
  | OSError | TimeoutError | FileNotFoundError | ProcessLookupError | PermissionError | SecureDirectoryError => true
  | _ => false
  end.

(** The outcome of a Python call: a value, or the exception it raised. *)
Inductive res (A : Type) : Type :=
| Ok (a : A)
| Raise (e : exc).
Arguments Ok {A} a.
Arguments Raise {A} e.

#[export] Instance res_eq_dec {A} `{EqDecision A} : EqDecision (res A).
Proof. solve_decision. Defined.

Definition raise {A} (c : exc_class) (m : string) : res A := Raise (Exc c m).

Definition res_bind {A B} (r : res A) (f : A -> res B) : res B :=
  match r with
  | Ok a => f a
  | Raise e => Raise e
  end.

Definition is_ok {A} (r : res A) : bool :=
  match r with
  | Ok _ => true
  | Raise _ => false
  end.

(** [try: r except <caught>: h]. *)
Definition catch {A} (caught : exc -> bool) (r : res A) (h : exc -> res A) : res A :=
  match r with
  | Ok a => Ok a
  | Raise e => if caught e then h e else Raise e
  end.

Declare Scope py_scope.
Delimit Scope py_scope with py.

Notation "'let?' x ':=' r 'in' k" := (res_bind r (fun x => k))
  (at level 10, x pattern, r at level 100, k at level 200) : py_scope.
Notation "r ;;? k" := (res_bind r (fun _ => k))
  (at level 100, k at level 200, right associativity) : py_scope.
(** [if b: raise c(m)] followed by the rest of the block. *)
Notation "'raise_if' b 'as' c 'msg' m ;; k" := (if b then raise c m else k)
  (at level 10, b at level 100, c at level 9, m at level 9, k at level 200) : py_scope.

(** ** Calls that change a state *)

(** A call that reads and updates an object of type [S], whether or not it raises. *)
Definition eff (S A : Type) : Type := S -> res A * S.

Definition eff_ret {S A} (a : A) : eff S A := fun s => (Ok a, s).
Definition eff_lift {S A} (r : res A) : eff S A := fun s => (r, s).
Definition eff_raise {S A} (c : exc_class) (m : string) : eff S A := eff_lift (raise c m).

Definition eff_bind {S A B} (m : eff S A) (f : A -> eff S B) : eff S B :=
  fun s => match m s with
           | (Ok a, s') => f a s'
           | (Raise e, s') => (Raise e, s')
           end.

(** [try: m except <caught>: h]. *)
Definition eff_catch {S A} (caught : exc -> bool) (m : eff S A) (h : exc -> eff S A) : eff S A :=
  fun s => match m s with
           | (Ok a, s') => (Ok a, s')
           | (Raise e, s') => if caught e then h e s' else (Raise e, s')
           end.

Notation "'do!' x ':=' m 'in' k" := (eff_bind m (fun x => k))
  (at level 10, x pattern, m at level 100, k at level 200) : py_scope.
Notation "'do_if' b 'as' c 'msg' m ;; k" := (if b then eff_raise c m else k)
  (at level 10, b at level 100, c at level 9, m at level 9, k at level 200) : py_scope.

Open Scope string_scope.
Open Scope Z_scope.
Open Scope list_scope.
Open Scope py_scope.

(** Let [simpl] compute concatenations whose first string is known. *)
#[global] Arguments String.append !_ _ /.

(** Python [==] on the first-order data of the model. *)
Definition eqb {A} `{EqDecision A} (a b : A) : bool := bool_decide (a = b).
Infix "==" := eqb (at level 70, no associativity) : py_scope.

(** [x in xs]. *)
Definition mem {A} `{EqDecision A} (x : A) (xs : list A) : bool := existsb (fun y => x == y) xs.

(** [d.get(k)] and [d.get(k, default)] on an association list. *)
Fixpoint assoc {A} (k : string) (d : list (string * A)) : option A :=
  match d with
  | [] => None
  | (k', v) :: d' => if k == k' then Some v else assoc k d'
  end.

Definition assoc_default {A} (k : string) (d : list (string * A)) (default : A) : A :=
  match assoc k d with
  | Some v => v
  | None => default
  end.

(** [len(s)]. *)
Definition slen (s : string) : Z := Z.of_nat (String.length s).

(** A loop that runs a fallible body on each element, as [for x in xs: body]. *)
Fixpoint for_each {A} (xs : list A) (body : A -> res unit) : res unit :=
  match xs with
  | [] => Ok tt
  | x :: xs' => body x ;;? for_each xs' body
  end.

(** [[f(x) for x in xs]] with a fallible [f]. *)
Fixpoint res_map {A B} (f : A -> res B) (xs : list A) : res (list B) :=
  match xs with
  | [] => Ok []
  | x :: xs' => let? y := f x in let? ys := res_map f xs' in Ok (y :: ys)
  end.

(** [sum(f(x) for x in xs)]. *)
Definition sumZ {A} (f : A -> Z) (xs : list A) : Z := foldr (fun x acc => f x + acc) 0 xs.

(** ** Lemmas *)

Create HintDb cops.
Create Rewrite HintDb cops.

Section Eqb.
Context {A : Type} `{EqDecision A}.

Lemma eqb_eq (a b : A) : (a == b) = true <-> a = b.
Proof. unfold eqb. apply bool_decide_eq_true. Qed.

Lemma eqb_neq (a b : A) : (a == b) = false <-> a <> b.
Proof. unfold eqb. apply bool_decide_eq_false. Qed.

Lemma eqb_true (a b : A) : (a == b) = true -> a = b.
Proof. by rewrite eqb_eq. Qed.

Lemma eqb_false (a b : A) : (a == b) = false -> a <> b.
Proof. by rewrite eqb_neq. Qed.

Lemma eqb_refl (a : A) : (a == a) = true.
Proof. by apply eqb_eq. Qed.

Lemma mem_In (x : A) xs : mem x xs = true <-> In x xs.
Proof.
  unfold mem. rewrite existsb_exists. split.
  - intros (y & Hy & ->%eqb_eq). done.
  - intros Hx. exists x. by rewrite eqb_refl.
Qed.

Lemma mem_not_In (x : A) xs : mem x xs = false <-> ~ In x xs.
Proof. rewrite <- mem_In. by destruct (mem x xs). Qed.
End Eqb.

Lemma existsb_false {A} (p : A -> bool) l : existsb p l = false <-> forall x, In x l -> p x = false.
Proof.
  induction l as [|x l IH]; simpl; [by split|]. rewrite orb_false_iff, IH. split.
  - intros [Hx Hl] y [<-|Hy]; auto.
  - intros H. split; auto.
Qed.

#[export] Hint Rewrite @eqb_refl : cops.

Lemma res_bind_ok {A B} (r : res A) (f : A -> res B) b :
  res_bind r f = Ok b <-> exists a, r = Ok a /\ f a = Ok b.
Proof.
  destruct r as [a|e]; simpl; split.
  - intros ?. by exists a.
  - by intros (? & [= <-] & ?).
  - done.
  - by intros (? & ? & ?).
Qed.

Lemma res_bind_assoc {A B C} (r : res A) (f : A -> res B) (g : B -> res C) :
  res_bind (res_bind r f) g = res_bind r (fun a => res_bind (f a) g).
Proof. by destruct r. Qed.

(** A [try] whose handler always raises succeeds only as its body does. *)
Lemma catch_ok {A} caught (r : res A) h a :
  (forall e, is_ok (h e) = false) -> catch caught r h = Ok a <-> r = Ok a.
Proof.
  intros Hh. destruct r as [b|e]; simpl; [done|]. destruct (caught e); [|done].
  specialize (Hh e). destruct (h e); split; done.
Qed.

Lemma eff_bind_ok {S A B} (m : eff S A) (f : A -> eff S B) s b s' :
  eff_bind m f s = (Ok b, s') <-> exists a s1, m s = (Ok a, s1) /\ f a s1 = (Ok b, s').
Proof.
  unfold eff_bind. destruct (m s) as [[a|e] s1]; split.
  - intros ?. by exists a, s1.
  - by intros (? & ? & [= <- <-] & ?).
  - done.
  - by intros (? & ? & ? & ?).
Qed.

Lemma eff_lift_ok {S A} (r : res A) (s s' : S) a : eff_lift r s = (Ok a, s') <-> r = Ok a /\ s' = s.
Proof. unfold eff_lift. split; [intros [= -> ->] | intros [-> ->]]; done. Qed.

(** *** Postconditions *)

(** The outcome of the call and the state it leaves satisfy [Q]. *)
Definition post {S A} (m : eff S A) (s : S) (Q : res A -> S -> Prop) : Prop := let (r, s') := m s in Q r s'.

Lemma post_run {S A} (m : eff S A) s (Q : res A -> S -> Prop) r s' : post m s Q -> m s = (r, s') -> Q r s'.
Proof. unfold post. intros Hq E. by rewrite E in Hq. Qed.

Lemma post_mono {S A} (m : eff S A) s (P Q : res A -> S -> Prop) :
  post m s P -> (forall r s', P r s' -> Q r s') -> post m s Q.
Proof. unfold post. destruct (m s). auto. Qed.

Lemma post_and {S A} (m : eff S A) s (P Q : res A -> S -> Prop) :
  post m s P -> post m s Q -> post m s (fun r s' => P r s' /\ Q r s').
Proof. unfold post. by destruct (m s). Qed.

Lemma post_bind {S A B} (m : eff S A) (f : A -> eff S B) s (Q : res B -> S -> Prop) :
  post m s (fun r s' => match r with Ok a => post (f a) s' Q | Raise e => Q (Raise e) s' end) ->
  post (eff_bind m f) s Q.
Proof. unfold post, eff_bind. by destruct (m s) as [[a|e] s']. Qed.

Lemma post_catch {S A} (caught : exc -> bool) (m : eff S A) (h : exc -> eff S A) s (Q : res A -> S -> Prop) :
  post m s (fun r s' => match r with
                        | Ok a => Q (Ok a) s'
                        | Raise e => if caught e then post (h e) s' Q else Q (Raise e) s'
                        end) ->
  post (eff_catch caught m h) s Q.
Proof. unfold post, eff_catch. destruct (m s) as [[a|e] s']; [done|]. by destruct (caught e). Qed.

(** Sequencing: what the first call guarantees, and the rest from there. *)
Lemma post_seq {S A B} (m : eff S A) (f : A -> eff S B) s (P : res A -> S -> Prop) (Q : res B -> S -> Prop) :
  post m s P -> (forall a s', P (Ok a) s' -> post (f a) s' Q) -> (forall e s', P (Raise e) s' -> Q (Raise e) s') ->
  post (eff_bind m f) s Q.
Proof. intros Hm Hok Hr. apply post_bind. eapply post_mono; [exact Hm|]. intros [a|e] s'; auto. Qed.

Lemma is_ok_iff {A} (r : res A) : is_ok r = true <-> exists a, r = Ok a.
Proof. destruct r; simpl; split; try done; [eauto | by intros []]. Qed.

Lemma for_each_ok {A} (xs : list A) body :
  for_each xs body = Ok tt <-> Forall (fun x => body x = Ok tt) xs.
Proof.
  induction xs as [|x xs IH]; simpl.
  - split; [constructor | done].
  - rewrite res_bind_ok, Forall_cons. split.
    + intros ([] & ? & ?%IH). done.
    + intros [? ?%IH]. by exists tt.
Qed.

Lemma res_map_ok {A B} (f : A -> res B) xs ys :
  res_map f xs = Ok ys <-> Forall2 (fun x y => f x = Ok y) xs ys.
Proof.
  revert ys. induction xs as [|x xs IH]; intros ys; simpl.
  - split; [intros [= <-]; constructor | by inversion 1].
  - rewrite res_bind_ok. split.
    + intros (y & Hy & (ys' & Hys & [= <-])%res_bind_ok). constructor; [done|]. by apply IH.
    + inversion 1 as [|? y ? ys' Hy Hys]; subst. exists y. split; [done|].
      apply res_bind_ok. exists ys'. split; [by apply IH | done].
Qed.

Lemma sumZ_app {A} (f : A -> Z) xs ys : sumZ f (xs ++ ys) = sumZ f xs + sumZ f ys.
Proof. induction xs; simpl; lia. Qed.

Lemma sumZ_map {A B} (f : B -> Z) (g : A -> B) xs : sumZ f (map g xs) = sumZ (fun x => f (g x)) xs.
Proof. induction xs; simpl; lia. Qed.

Lemma sumZ_perm {A} (f : A -> Z) xs ys : xs ≡ₚ ys -> sumZ f xs = sumZ f ys.
Proof. induction 1; simpl; lia. Qed.

Lemma sumZ_nonneg {A} (f : A -> Z) xs : (forall x, In x xs -> 0 <= f x) -> 0 <= sumZ f xs.
Proof.
  induction xs as [|x xs IH]; intros Hf; simpl; [lia|].
  pose proof (Hf x (or_introl eq_refl)).
  assert (0 <= sumZ f xs) by (apply IH; intros; apply Hf; by right). lia.
Qed.

Lemma sumZ_mono {A} (f g : A -> Z) xs :
  (forall x, In x xs -> f x <= g x) -> sumZ f xs <= sumZ g xs.
Proof.
  induction xs as [|x xs IH]; intros Hf; simpl; [lia|].
  pose proof (Hf x (or_introl eq_refl)).
  assert (sumZ f xs <= sumZ g xs) by (apply IH; intros; apply Hf; by right). lia.
Qed.

Lemma assoc_In {A} k (d : list (string * A)) v : assoc k d = Some v -> In (k, v) d.
Proof.
  induction d as [|[k' v'] d IH]; simpl; [done|].
  destruct (k == k') eqn:E.
  - apply eqb_eq in E as ->. intros [= ->]. by left.
  - intros ?. right. by apply IH.
Qed.

Lemma nodup_key_unique {A} (l : list (string * A)) k v w :
  NoDup (map fst l) -> In (k, v) l -> In (k, w) l -> v = w.
Proof.
  induction l as [|[k' u] l IH]; simpl; [done|].
  inversion 1 as [|? ? Hk Hnd]; subst. rewrite list_elem_of_In in Hk.
  intros [Hv|Hv] [Hw|Hw]; simplify_eq; [done|..].
  - destruct Hk. by apply (in_map fst) in Hw.
  - destruct Hk. by apply (in_map fst) in Hv.
  - by apply IH.
Qed.

Lemma assoc_In_nodup {A} k (d : list (string * A)) v :
  NoDup (map fst d) -> assoc k d = Some v <-> In (k, v) d.
Proof.
  intros Hnd. split; [apply assoc_In|]. intros Hin.
  destruct (assoc k d) as [w|] eqn:E.
  - apply assoc_In in E. f_equal. by apply (nodup_key_unique d k).
  - exfalso. induction d as [|[k' u] d IH]; simpl in *; [done|].
    inversion Hnd; subst. destruct (k == k') eqn:Ek; [done|].
    destruct Hin as [[= -> ->]|Hin]; [by rewrite eqb_refl in Ek | by apply IH].
Qed.

(** ** Automation *)

(** Turn boolean tests in the context into propositions. *)
Ltac simpl_bool :=
  repeat match goal with
  | H : (_ == _) = true |- _ => apply eqb_true in H
  | H : (_ == _) = false |- _ => apply eqb_false in H
  | H : _ && _ = true |- _ => apply andb_true_iff in H as [? ?]
  | H : _ || _ = false |- _ => apply orb_false_iff in H as [? ?]
  | H : negb _ = true |- _ => apply negb_true_iff in H
  | H : negb _ = false |- _ => apply negb_false_iff in H
  | H : (_ <=? _) = true |- _ => apply Z.leb_le in H
  | H : (_ <=? _) = false |- _ => apply Z.leb_gt in H
  | H : (_ <? _) = true |- _ => apply Z.ltb_lt in H
  | H : (_ <? _) = false |- _ => apply Z.ltb_ge in H
  | H : (_ >? _) = true |- _ => rewrite Z.gtb_ltb in H; apply Z.ltb_lt in H
  | H : (_ >? _) = false |- _ => rewrite Z.gtb_ltb in H; apply Z.ltb_ge in H
  | H : (_ >=? _) = true |- _ => rewrite Z.geb_leb in H; apply Z.leb_le in H
  | H : (_ >=? _) = false |- _ => rewrite Z.geb_leb in H; apply Z.leb_gt in H
  end.

(** Invert one step of a successful fallible computation. *)
Ltac inv_ok :=
  repeat match goal with
  | H : Ok _ = Ok _ |- _ => injection H as H; subst
  | H : Raise _ = Ok _ |- _ => discriminate H
  | H : raise _ _ = Ok _ |- _ => discriminate H
  | H : res_bind _ _ = Ok _ |- _ =>
      let a := fresh "a" in let Ha := fresh "Hr" in
      apply res_bind_ok in H as (a & Ha & H)
  | u : unit |- _ => destruct u
  end.

(** Case analysis on the guard at the head of a successful computation. *)
Ltac guard_ok H :=
  match type of H with
  | (if ?b then _ else _) = Ok _ => destruct b eqn:?; [try discriminate H | try discriminate H]
  | match ?o with _ => _ end = Ok _ => destruct o eqn:?; try discriminate H
  end.

(** ** Histories *)

(** [tr] is [tr0] and later events, the last first, each of which satisfies [P] of what
    came before. *)
Inductive added {E} (P : list E -> E -> Prop) (tr0 : list E) : list E -> Prop :=
| added_none : added P tr0 tr0
| added_one ev tr : added P tr0 tr -> P tr ev -> added P tr0 (ev :: tr).

Section Histories.
Context {E : Type}.
Implicit Types (P Q : list E -> E -> Prop) (tr : list E).

Lemma added_trans P tr0 tr1 tr2 : added P tr0 tr1 -> added P tr1 tr2 -> added P tr0 tr2.
Proof. induction 2; [done|]. by constructor. Qed.

Lemma added_suffix P tr0 tr : added P tr0 tr -> exists more, tr = more ++ tr0.
Proof. induction 1 as [|ev tr _ [more ->] _]; [by exists []|by exists (ev :: more)]. Qed.

Lemma added_mono P Q tr0 tr : (forall tr ev, P tr ev -> Q tr ev) -> added P tr0 tr -> added Q tr0 tr.
Proof. induction 2; constructor; auto. Qed.

(** Every event of an extension is one that [P] allowed. *)
Lemma added_event P tr0 tr later ev before :
  added P tr0 tr -> tr = later ++ ev :: before -> (length tr0 <= length before)%nat -> P before ev.
Proof.
  intros Ha. revert later. induction Ha as [|ev' tr Ha IH Hp]; intros later Heq Hlen.
  - subst tr0. rewrite length_app in Hlen. simpl in Hlen. lia.
  - destruct later as [|x later]; simpl in Heq; injection Heq as -> Heq; [by subst|]. by apply (IH later).
Qed.

(** Events by position. *)
Lemma added_positions Q tr0 more :
  (forall later ev before, more ++ tr0 = later ++ ev :: before -> (length tr0 <= length before)%nat -> Q before ev) ->
  added Q tr0 (more ++ tr0).
Proof.
  induction more as [|ev more IH]; intros Hq; [constructor|]. simpl. constructor.
  - apply IH. intros later ev' before Heq. apply (Hq (ev :: later)). simpl. by rewrite Heq.
  - apply (Hq []); [done|]. rewrite length_app. lia.
Qed.

(** What comes before a later event extends what there was. *)
Lemma added_since P tr0 tr :
  added P tr0 tr -> added (fun before ev => P before ev /\ exists recent, before = recent ++ tr0) tr0 tr.
Proof. intros Ha. induction Ha as [|ev tr Ha IH Hp]; [constructor|]. constructor; [done|]. split; [done|]. by eapply added_suffix. Qed.
End Histories.
