(* ===== verification/Lifecycle.v ===== *)
(** * Lifecycle state machines

    [src/cops/contracts/lifecycle.py]: the states and transitions of the five
    contract types that have a lifecycle, and [validate_transition], the only
    check through which any of them changes state.  The tables are the
    dictionaries of the source; a run is a sequence of accepted transitions. *)

From S2P Require Import Prelude.

(** ** The state tables *)

Definition ENGAGEMENT_STATES : list string := ["planned"; "active"; "completed"; "cancelled"; "aborted"].

Definition ENGAGEMENT_TRANSITIONS : list (string * list string) :=
  [("planned", ["active"; "cancelled"]);
   ("active", ["completed"; "cancelled"; "aborted"]);
   ("completed", []);
   ("cancelled", []);
   ("aborted", [])].

Definition ACTION_PLAN_STATES : list string :=
  ["draft"; "pending_approval"; "approved"; "executing"; "fulfilled"; "rejected"; "cancelled"].

Definition ACTION_PLAN_TRANSITIONS : list (string * list string) :=
  [("draft", ["pending_approval"; "cancelled"]);
   ("pending_approval", ["approved"; "rejected"; "cancelled"]);
   ("approved", ["executing"; "cancelled"]);
   ("executing", ["fulfilled"; "cancelled"]);
   ("fulfilled", []);
   ("rejected", []);
   ("cancelled", [])].

Definition EXECUTION_AUTHORIZATION_STATES : list string := ["approved"; "consumed"; "revoked"; "expired"].

Definition EXECUTION_AUTHORIZATION_TRANSITIONS : list (string * list string) :=
  [("approved", ["consumed"; "revoked"; "expired"]);
   ("consumed", []);
   ("revoked", []);
   ("expired", [])].

Definition SPECIALIST_HANDOFF_STATES : list string :=
  ["proposed"; "accepted"; "in_review"; "completed"; "rejected"].

Definition SPECIALIST_HANDOFF_TRANSITIONS : list (string * list string) :=
  [("proposed", ["accepted"; "rejected"]);
   ("accepted", ["in_review"; "rejected"]);
   ("in_review", ["completed"; "rejected"]);
   ("completed", []);
   ("rejected", [])].

Definition LABORATORY_ENVIRONMENT_STATES : list string :=
  ["registered"; "verified"; "active"; "resetting"; "torn_down"; "failed"].

Definition LABORATORY_ENVIRONMENT_TRANSITIONS : list (string * list string) :=
  [("registered", ["verified"; "failed"; "torn_down"]);
   ("verified", ["active"; "resetting"; "failed"; "torn_down"]);
   ("active", ["verified"; "resetting"; "failed"; "torn_down"]);
   ("resetting", ["verified"; "failed"; "torn_down"]);
   ("failed", ["resetting"; "torn_down"]);
   ("torn_down", [])].

Definition RUN_RESULT_STATUSES : list string :=
  ["success"; "partial"; "cancelled"; "failed"; "uncertain"; "not_assessed"].

(** The three checks each branch of [validate_transition] makes, in order. *)
Definition check_transition (states : list string) (transitions : list (string * list string))
    (current_state next_state : string) : res unit :=
  raise_if negb (mem current_state states) as ContractError msg "invalid_contract" ;;
  raise_if negb (mem next_state states) as ContractError msg "invalid_contract" ;;
  let allowed := assoc_default current_state transitions [] in
  raise_if negb (mem next_state allowed) as ContractError msg "illegal_transition" ;;
  Ok tt.

Definition validate_transition (current_state next_state contract_type : string) : res unit :=
  if contract_type == "engagement" then
    check_transition ENGAGEMENT_STATES ENGAGEMENT_TRANSITIONS current_state next_state
  else if mem contract_type ["action_plan"; "action-plan"] then
    check_transition ACTION_PLAN_STATES ACTION_PLAN_TRANSITIONS current_state next_state
  else if mem contract_type ["execution_authorization"; "execution-authorization"] then
    check_transition EXECUTION_AUTHORIZATION_STATES EXECUTION_AUTHORIZATION_TRANSITIONS
      current_state next_state
  else if mem contract_type ["specialist_handoff"; "specialist-handoff"] then
    check_transition SPECIALIST_HANDOFF_STATES SPECIALIST_HANDOFF_TRANSITIONS current_state next_state
  else if mem contract_type ["laboratory_environment"; "laboratory-environment"] then
    check_transition LABORATORY_ENVIRONMENT_STATES LABORATORY_ENVIRONMENT_TRANSITIONS
      current_state next_state
  else raise ContractError "invalid_contract".

(** ** Runs

    [run t s tr s']: the accepted transitions lead from [s] to [s'] through the
    states [tr] entered on the way, [s'] included. *)
Inductive run (t : string) : string -> list string -> string -> Prop :=
| run_nil s : run t s [] s
| run_step s s1 tr s' : validate_transition s s1 t = Ok tt -> run t s1 tr s' -> run t s (s1 :: tr) s'.

(** The contract types whose lifecycle has no cycle, with a bound on its runs. *)
Definition lifecycle_rank (t s : string) : nat :=
  if t == "engagement" then assoc_default s [("planned", 2%nat); ("active", 1%nat)] 0%nat
  else if t == "action_plan" then
    assoc_default s [("draft", 4%nat); ("pending_approval", 3%nat); ("approved", 2%nat); ("executing", 1%nat)] 0%nat
  else if t == "execution_authorization" then assoc_default s [("approved", 1%nat)] 0%nat
  else if t == "specialist_handoff" then
    assoc_default s [("proposed", 3%nat); ("accepted", 2%nat); ("in_review", 1%nat)] 0%nat
  else 0%nat.

Definition acyclic_lifecycles : list string :=
  ["engagement"; "action_plan"; "execution_authorization"; "specialist_handoff"].

(** ** Lemmas *)

(** All edges of a table, as pairs; the tables are closed, so facts about every
    accepted transition are checked edge by edge. *)
Definition edges (transitions : list (string * list string)) : list (string * string) :=
  flat_map (fun '(s, ns) => map (fun n => (s, n)) ns) transitions.

Lemma check_transition_ok states transitions s n :
  check_transition states transitions s n = Ok tt <->
  In s states /\ In n states /\ In n (assoc_default s transitions []).
Proof.
  unfold check_transition.
  destruct (mem s states) eqn:Hs; simpl; [|apply mem_not_In in Hs; split; [done|tauto]].
  destruct (mem n states) eqn:Hn; simpl; [|apply mem_not_In in Hn; split; [done|tauto]].
  destruct (mem n (assoc_default s transitions [])) eqn:Ha; simpl.
  - apply mem_In in Hs, Hn, Ha. tauto.
  - apply mem_not_In in Ha. split; [done|tauto].
Qed.

Lemma check_transition_edge states transitions s n :
  check_transition states transitions s n = Ok tt -> In (s, n) (edges transitions).
Proof.
  intros (_ & _ & Hin)%check_transition_ok. unfold assoc_default in Hin.
  destruct (assoc s transitions) as [ns|] eqn:E; [|done].
  apply in_flat_map. exists (s, ns). split; [by apply assoc_In|].
  by apply in_map.
Qed.

Lemma engagement_edge s n :
  validate_transition s n "engagement" = Ok tt -> In (s, n) (edges ENGAGEMENT_TRANSITIONS).
Proof. apply check_transition_edge. Qed.

Lemma action_plan_edge s n :
  validate_transition s n "action_plan" = Ok tt -> In (s, n) (edges ACTION_PLAN_TRANSITIONS).
Proof. apply check_transition_edge. Qed.

Lemma execution_authorization_edge s n :
  validate_transition s n "execution_authorization" = Ok tt ->
  In (s, n) (edges EXECUTION_AUTHORIZATION_TRANSITIONS).
Proof. apply check_transition_edge. Qed.

Lemma specialist_handoff_edge s n :
  validate_transition s n "specialist_handoff" = Ok tt -> In (s, n) (edges SPECIALIST_HANDOFF_TRANSITIONS).
Proof. apply check_transition_edge. Qed.

Lemma laboratory_environment_edge s n :
  validate_transition s n "laboratory_environment" = Ok tt ->
  In (s, n) (edges LABORATORY_ENVIRONMENT_TRANSITIONS).
Proof. apply check_transition_edge. Qed.

(** Enumerate a membership hypothesis in a closed list. *)
Ltac enum_edges H :=
  vm_compute in H;
  repeat match type of H with
  | _ \/ _ => destruct H as [H|H]; [simplify_eq; try done | ]
  | False => destruct H
  end.

Lemma rank_decreases t s n :
  In t acyclic_lifecycles -> validate_transition s n t = Ok tt ->
  (lifecycle_rank t n < lifecycle_rank t s)%nat.
Proof.
  intros Ht Hv. vm_compute in Ht.
  destruct Ht as [<-|[<-|[<-|[<-|[]]]]];
    first [apply engagement_edge in Hv | apply action_plan_edge in Hv
          | apply execution_authorization_edge in Hv | apply specialist_handoff_edge in Hv];
    enum_edges Hv; vm_compute; lia.
Qed.

Lemma run_length_rank t s tr s' :
  In t acyclic_lifecycles -> run t s tr s' -> (length tr + lifecycle_rank t s' <= lifecycle_rank t s)%nat.
Proof.
  intros Ht. induction 1 as [s|s s1 tr s' Hv _ IH]; simpl; [lia|].
  pose proof (rank_decreases t s s1 Ht Hv). lia.
Qed.

(** A run that has reached a state without successors goes no further. *)
Lemma run_terminal s tr s' :
  In s ["fulfilled"; "rejected"; "cancelled"] -> run "action_plan" s tr s' -> tr = [] /\ s' = s.
Proof.
  intros Hs Hrun. destruct Hrun as [|s s1 tr s' Hv _]; [done|].
  apply action_plan_edge in Hv. enum_edges Hv; simpl in Hs; naive_solver.
Qed.

(** ** Properties *)

(** C7. No lifecycle bypasses approval: every accepted sequence of transitions
    that takes an action plan from draft (or pending approval) to executing or
    fulfilled enters [approved] on the way, and from draft it also enters
    [pending_approval]. *)
Theorem plan_execution_requires_approval s tr s' :
  run "action_plan" s tr s' -> In s' ["executing"; "fulfilled"] ->
  (s = "draft" -> In "pending_approval" tr /\ In "approved" tr) /\
  (s = "pending_approval" -> In "approved" tr).
Proof.
  intros Hrun Hs'. induction Hrun as [s|s s1 tr s' Hv Hrun IH].
  - simpl in Hs'. naive_solver.
  - specialize (IH Hs').
    assert (Hterm : In s1 ["fulfilled"; "rejected"; "cancelled"] -> s' = s1).
    { intros H. by apply (run_terminal _ _ _ H Hrun). }
    apply action_plan_edge in Hv. clear Hrun.
    enum_edges Hv; split; intros Heq; simplify_eq; simpl in *; naive_solver.
Qed.

Lemma plan_execution_requires_approval_witness :
  In "approved" ["pending_approval"; "approved"; "executing"].
Proof.
  refine (proj2 (proj1 (plan_execution_requires_approval "draft"
    ["pending_approval"; "approved"; "executing"] "executing" _ _) eq_refl)).
  - repeat (eapply run_step; [vm_compute; reflexivity|]). apply run_nil.
  - by left.
Defined.

(** Termination of the acyclic lifecycles: an engagement, an action plan, an
    execution authorization and a specialist handoff accept at most 2, 4, 1 and 3
    transitions from any state, so an authorization is consumed, revoked or
    expired at most once and its outcome is final. *)
Theorem lifecycle_runs_bounded t s tr s' :
  run t s tr s' -> In t acyclic_lifecycles -> (length tr <= lifecycle_rank t s <= 4)%nat.
Proof.
  intros Hrun Ht. pose proof (run_length_rank t s tr s' Ht Hrun). split; [lia|].
  vm_compute in Ht. unfold lifecycle_rank, assoc_default.
  destruct Ht as [<-|[<-|[<-|[<-|[]]]]]; cbn -[eqb];
    repeat match goal with |- context [?a == ?b] => destruct (a == b) end; simpl; lia.
Qed.

Lemma lifecycle_runs_bounded_witness : (1 <= 1 <= 4)%nat.
Proof.
  apply (lifecycle_runs_bounded "execution_authorization" "approved" ["consumed"] "consumed").
  - eapply run_step; [vm_compute; reflexivity | apply run_nil].
  - right; right; by left.
Defined.

(** A laboratory environment can always be torn down, and teardown is final:
    every other state has a direct transition to [torn_down], none leaves it, and
    a run from [registered] becomes [active] only after entering [verified]. *)
Theorem laboratory_teardown s tr s' :
  run "laboratory_environment" s tr s' ->
  (In s' LABORATORY_ENVIRONMENT_STATES -> s' <> "torn_down" ->
   validate_transition s' "torn_down" "laboratory_environment" = Ok tt) /\
  (s = "torn_down" -> tr = []) /\
  (s <> "active" -> s <> "verified" -> In "active" tr -> In "verified" tr).
Proof.
  intros Hrun. repeat apply conj.
  - intros Hin Hne. vm_compute in Hin.
    repeat (destruct Hin as [<-|Hin]; [first [reflexivity | done]|]); done.
  - destruct Hrun as [|s s1 tr s' Hv _]; [done|]. intros ->.
    apply laboratory_environment_edge in Hv. enum_edges Hv.
  - induction Hrun as [s|s s1 tr s' Hv _ IH]; [done|]. intros Ha Hve [->|Hin].
    + apply laboratory_environment_edge in Hv. enum_edges Hv.
    + destruct (decide (s1 = "verified")) as [->|Hnv]; [by left|].
      destruct (decide (s1 = "active")) as [->|Hna].
      * apply laboratory_environment_edge in Hv. enum_edges Hv.
      * right. by apply IH.
Qed.

Lemma laboratory_teardown_witness :
  validate_transition "active" "torn_down" "laboratory_environment" = Ok tt.
Proof.
  refine (proj1 (laboratory_teardown "registered" ["verified"; "active"] "active" _) _ _).
  - repeat (eapply run_step; [vm_compute; reflexivity|]). apply run_nil.
  - vm_compute; tauto.
  - done.
Defined.
