(* ===== verification/PyStr.v ===== *)
(** * Python strings

    A [str] is modelled as a [string] whose characters are the code points below
    256 (Latin-1); on these the operations below are the ones of CPython's
    unicode type.  Only what the modelled code calls is here. *)

From S2P Require Import Prelude.

(** ** Characters *)

Definition code (c : ascii) : Z := Z.of_N (N_of_ascii c).
Definition chr (z : Z) : ascii := ascii_of_N (Z.to_N z).

Definition is_ascii_digit (c : ascii) : bool := (48 <=? code c) && (code c <=? 57).
Definition is_ascii_upper (c : ascii) : bool := (65 <=? code c) && (code c <=? 90).
Definition is_ascii_lower (c : ascii) : bool := (97 <=? code c) && (code c <=? 122).

(** [c.isspace()], which is what [str.strip()] removes. *)
Definition is_space (c : ascii) : bool :=
  let n := code c in
  ((9 <=? n) && (n <=? 13)) || ((28 <=? n) && (n <=? 32)) || (n =? 133) || (n =? 160).

(** [c.lower()]; 215 is the multiplication sign. *)
Definition lower_char (c : ascii) : ascii :=
  let n := code c in
  if is_ascii_upper c || ((192 <=? n) && (n <=? 222) && negb (n =? 215)) then chr (n + 32) else c.

(** [c.isalpha()]: ASCII letters, the ordinal indicators, the micro sign and the
    Latin-1 letters. *)
Definition is_alpha (c : ascii) : bool :=
  let n := code c in
  is_ascii_upper c || is_ascii_lower c || (n =? 170) || (n =? 181) || (n =? 186) ||
  ((192 <=? n) && negb (n =? 215) && negb (n =? 247)).

(** [c.isdigit()], which also accepts the superscripts two, three and one. *)
Definition is_digit_char (c : ascii) : bool :=
  is_ascii_digit c || (code c =? 178) || (code c =? 179) || (code c =? 185).

(** ** Strings *)

Fixpoint string_map (f : ascii -> ascii) (s : string) : string :=
  match s with
  | EmptyString => EmptyString
  | String c s' => String (f c) (string_map f s')
  end.

Fixpoint string_all (p : ascii -> bool) (s : string) : bool :=
  match s with
  | EmptyString => true
  | String c s' => p c && string_all p s'
  end.

Lemma string_all_app p a b : string_all p (a +:+ b) = string_all p a && string_all p b.
Proof. induction a as [|c a IH]; simpl; [done|]. by rewrite IH, andb_assoc. Qed.

Lemma string_length_app (a b : string) : String.length (a +:+ b) = (String.length a + String.length b)%nat.
Proof. induction a; simpl; congruence. Qed.

Definition string_any (p : ascii -> bool) (s : string) : bool := negb (string_all (fun c => negb (p c)) s).

Definition lower (s : string) : string := string_map lower_char s.

(** [s.isdigit()]. *)
Definition isdigit (s : string) : bool := negb (s == "") && string_all is_digit_char s.

Fixpoint lstrip_by (p : ascii -> bool) (s : string) : string :=
  match s with
  | EmptyString => EmptyString
  | String c s' => if p c then lstrip_by p s' else s
  end.

Fixpoint rstrip_by (p : ascii -> bool) (s : string) : string :=
  match s with
  | EmptyString => EmptyString
  | String c s' =>
      match rstrip_by p s' with
      | EmptyString => if p c then EmptyString else String c EmptyString
      | r => String c r
      end
  end.

Definition strip (s : string) : string := rstrip_by is_space (lstrip_by is_space s).

Definition is_char (c : ascii) (d : ascii) : bool := c == d.

(** [s.lstrip(c)] and [s.rstrip(c)] for a one-character argument. *)
Definition lstrip_char (c : ascii) (s : string) : string := lstrip_by (is_char c) s.
Definition rstrip_char (c : ascii) (s : string) : string := rstrip_by (is_char c) s.

(** [s.startswith(p)]. *)
Fixpoint startswith (p s : string) : bool :=
  match p, s with
  | EmptyString, _ => true
  | String a p', String b s' => (a == b) && startswith p' s'
  | String _ _, EmptyString => false
  end.

(** The rest of [s] after the prefix [p], if it has that prefix. *)
Fixpoint strip_prefix (p s : string) : option string :=
  match p, s with
  | EmptyString, _ => Some s
  | String a p', String b s' => if a == b then strip_prefix p' s' else None
  | String _ _, EmptyString => None
  end.

Fixpoint string_rev_app (s acc : string) : string :=
  match s with
  | EmptyString => acc
  | String c s' => string_rev_app s' (String c acc)
  end.

Definition string_rev (s : string) : string := string_rev_app s EmptyString.

(** [s.endswith(p)]. *)
Definition endswith (p s : string) : bool := startswith (string_rev p) (string_rev s).

(** [p in s]. *)
Fixpoint contains (p s : string) : bool :=
  startswith p s ||
  match s with
  | EmptyString => false
  | String _ s' => contains p s'
  end.

(** [s.split(c)] for a one-character separator. *)
Fixpoint split_char (c : ascii) (s : string) : list string :=
  match s with
  | EmptyString => [EmptyString]
  | String d s' =>
      if c == d then EmptyString :: split_char c s'
      else match split_char c s' with
           | w :: ws => String d w :: ws
           | [] => [String d EmptyString]
           end
  end.

(** [s.replace(a, b)] for one-character [a] and [b]. *)
Definition replace_char (a b : ascii) (s : string) : string :=
  string_map (fun c => if c == a then b else c) s.

(** [s.replace(a, r)] for a one-character [a]. *)
Fixpoint replace_by (a : ascii) (r s : string) : string :=
  match s with
  | EmptyString => EmptyString
  | String c s' => (if c == a then r else String c "") +:+ replace_by a r s'
  end.

(** [s.replace(p, e)] for a non-empty [p] and the empty string [e]; [skip] counts
    what is left of the occurrence being removed. *)
Fixpoint remove_sub (p : string) (skip : nat) (s : string) : string :=
  match s with
  | EmptyString => EmptyString
  | String c s' =>
      match skip with
      | S k => remove_sub p k s'
      | O => if startswith p s then remove_sub p (String.length p - 1) s' else String c (remove_sub p 0 s')
      end
  end.

(** [s.count(c)] for one character. *)
Fixpoint count_char (c : ascii) (s : string) : Z :=
  match s with
  | EmptyString => 0
  | String d s' => (if c == d then 1 else 0) + count_char c s'
  end.

(** [s[:n]] and [s[n:]]. *)
Fixpoint take_str (n : nat) (s : string) : string :=
  match n, s with
  | S n, String c s' => String c (take_str n s')
  | _, _ => EmptyString
  end.

Fixpoint drop_str (n : nat) (s : string) : string :=
  match n, s with
  | S n, String _ s' => drop_str n s'
  | _, _ => s
  end.

(** [sep.join(xs)]. *)
Fixpoint join (sep : string) (xs : list string) : string :=
  match xs with
  | [] => ""
  | [x] => x
  | x :: xs' => x +:+ sep +:+ join sep xs'
  end.

(** [s.encode("utf-8")], two bytes per code point above 127. *)
Fixpoint encode_utf8 (s : string) : string :=
  match s with
  | EmptyString => EmptyString
  | String c s' =>
      if code c <? 128 then String c (encode_utf8 s')
      else String (chr (192 + code c / 64)) (String (chr (128 + code c mod 64)) (encode_utf8 s'))
  end.

(** [sorted(xs)], in the order of code points. *)
Definition sorted_strings (xs : list string) : list string := merge_sort String.le xs.

(** ** Lemmas *)

Lemma code_chr z : 0 <= z < 256 -> code (chr z) = z.
Proof.
  intros Hz. unfold code, chr. rewrite N_ascii_embedding; [lia|]. lia.
Qed.

Lemma chr_code c : chr (code c) = c.
Proof. unfold code, chr. rewrite N2Z.id. apply ascii_N_embedding. Qed.

Lemma code_range c : 0 <= code c < 256.
Proof. unfold code. pose proof (N_ascii_bounded c). lia. Qed.

Lemma code_inj c d : code c = code d -> c = d.
Proof. intros H. rewrite <- (chr_code c), <- (chr_code d). by rewrite H. Qed.

Lemma string_app_assoc (a b c : string) : (a +:+ b) +:+ c = a +:+ (b +:+ c).
Proof. induction a; simpl; congruence. Qed.

Lemma string_app_nil_r (a : string) : a +:+ "" = a.
Proof. induction a; simpl; congruence. Qed.

Lemma startswith_spec p s : startswith p s = true <-> exists r, s = p +:+ r.
Proof.
  revert s. induction p as [|a p IH]; intros s; simpl.
  - split; [by exists s | done].
  - destruct s as [|b s]; [split; [done | by intros [? ?]]|].
    rewrite andb_true_iff, eqb_eq, IH. split.
    + intros [-> [r ->]]. by exists r.
    + intros [r [= -> ->]]. eauto.
Qed.

Lemma string_rev_app_spec s acc : string_rev_app s acc = string_rev_app s "" +:+ acc.
Proof.
  revert acc. induction s as [|c s IH]; intros acc; simpl; [done|].
  rewrite IH, (IH (String c "")), string_app_assoc. done.
Qed.

Lemma string_rev_app_distr a b : string_rev (a +:+ b) = string_rev b +:+ string_rev a.
Proof.
  unfold string_rev. induction a as [|c a IH]; simpl; [by rewrite string_app_nil_r|].
  rewrite string_rev_app_spec, IH, (string_rev_app_spec a (String c "")), string_app_assoc. done.
Qed.

Lemma string_rev_involutive s : string_rev (string_rev s) = s.
Proof.
  induction s as [|c s IH]; [done|].
  change (String c s) with (String c "" +:+ s).
  rewrite string_rev_app_distr, string_rev_app_distr, IH. done.
Qed.

Lemma endswith_spec p s : endswith p s = true <-> exists r, s = r +:+ p.
Proof.
  unfold endswith. rewrite startswith_spec. split.
  - intros [r Hr]. exists (string_rev r).
    rewrite <- (string_rev_involutive s), Hr, string_rev_app_distr, string_rev_involutive. done.
  - intros [r ->]. exists (string_rev r). by rewrite string_rev_app_distr.
Qed.

Lemma contains_spec p s : contains p s = true <-> exists a b, s = a +:+ p +:+ b.
Proof.
  induction s as [|c s IH]; simpl.
  - rewrite orb_false_r, startswith_spec. split.
    + intros [r Hr]. by exists "", r.
    + intros (a & b & H). destruct a; [|done]. by exists b.
  - rewrite orb_true_iff, startswith_spec, IH. split.
    + intros [[r Hr]|(a & b & ->)]; [by exists "", r | by exists (String c a), b].
    + intros (a & b & H). destruct a as [|c' a]; simpl in H.
      * left. by exists b.
      * right. injection H as -> ->. by exists a, b.
Qed.

Lemma sorted_strings_perm xs : sorted_strings xs ≡ₚ xs.
Proof. apply merge_sort_Permutation. Qed.

Lemma sorted_strings_sorted xs : Sorted String.le (sorted_strings xs).
Proof. apply Sorted_merge_sort. apply _. Qed.
