(* ===== verification/Paths.v ===== *)
(** * Paths

    [os.path.normpath] and [os.path.abspath] of POSIX, and the pure paths of [pathlib] as
    the modelled code uses them: parsing, printing, parents and containment. *)

From S2P Require Import Prelude PyStr.

(** A pure POSIX path: its root ([""], ["/"] or ["//"]) and its parts. *)
Record Path := { p_root : string; p_parts : list string }.

#[export] Instance Path_eq_dec : EqDecision Path.
Proof. solve_decision. Defined.

#[export] Program Instance Path_countable : Countable Path :=
  inj_countable' (fun p => (p_root p, p_parts p)) (fun rp => {| p_root := fst rp; p_parts := snd rp |}) _.
Next Obligation. by intros []. Qed.

(** Exactly two leading slashes are kept. *)
Definition leading_root (s : string) : string :=
  if startswith "/" s then (if startswith "//" s && negb (startswith "///" s) then "//" else "/") else "".

(** [PurePosixPath(s)]: empty and [.] components go, [..] stays. *)
Definition parse_path (s : string) : Path :=
  {| p_root := leading_root s; p_parts := List.filter (fun x => negb (mem x [""; "."])) (split_char "/" s) |}.

Definition path_text (p : Path) : string :=
  if p_root p == "" then (if p_parts p == [] then "." else join "/" (p_parts p)) else p_root p +:+ join "/" (p_parts p).

Definition is_absolute (p : Path) : bool := negb (p_root p == "").

(** [p.parts], with the root. *)
Definition path_parts (p : Path) : list string := if p_root p == "" then p_parts p else p_root p :: p_parts p.

Definition with_parts (p : Path) (parts : list string) : Path := {| p_root := p_root p; p_parts := parts |}.

(** [p.parent], [p.name], [p / name] for a name that is one component. *)
Definition parent (p : Path) : Path := with_parts p (List.removelast (p_parts p)).
Definition name (p : Path) : string := default "" (last (p_parts p)).
Definition child (p : Path) (x : string) : Path := with_parts p (p_parts p ++ [x]).

(** [p.parents], the nearest first. *)
Fixpoint parents_of (root : string) (reversed : list string) : list Path :=
  match reversed with
  | [] => []
  | _ :: above => {| p_root := root; p_parts := rev above |} :: parents_of root above
  end.
Definition parents (p : Path) : list Path := parents_of (p_root p) (rev (p_parts p)).

(** [p.is_relative_to(other)]; [relative_to] raises a [ValueError] otherwise. *)
Definition is_relative_to (p other : Path) : bool := (p == other) || mem other (parents p).

(** ** [os.path] *)

Fixpoint norm_components (rooted : bool) (done rest : list string) : list string :=
  match rest with
  | [] => rev done
  | comp :: rest =>
      if mem comp [""; "."] then norm_components rooted done rest
      else if negb (comp == "..") || (negb rooted && (done == [])) || (match done with ".." :: _ => true | _ => false end)
      then norm_components rooted (comp :: done) rest
      else norm_components rooted (match done with [] => [] | _ :: done => done end) rest
  end.

Definition normpath (s : string) : string :=
  let slashes := leading_root s in
  let path := slashes +:+ join "/" (norm_components (negb (slashes == "")) [] (split_char "/" s)) in
  if path == "" then "." else path.

(** [os.path.join(a, b)] of a relative [b]. *)
Definition path_join (a b : string) : string := if (a == "") || endswith "/" a then a +:+ b else a +:+ "/" +:+ b.

(** [os.path.abspath(s)] in the directory [cwd]. *)
Definition abspath (cwd s : string) : string := normpath (if startswith "/" s then s else path_join cwd s).

Example normpath_examples : map normpath ["/a/./b//c/../d"; "//x/y/.."; "///x"; "../a/.."; ""; "/.."] =
  ["/a/b/d"; "//x"; "/x"; ".."; "."; "/"].
Proof. reflexivity. Qed.

Example parents_example : map path_text (parents (parse_path "/a/b/c")) = ["/a/b"; "/a"; "/"].
Proof. reflexivity. Qed.

(** ** Facts *)

Lemma parents_of_iff root reversed q :
  In q (parents_of root reversed) <-> p_root q = root /\ exists x more, rev reversed = p_parts q ++ x :: more.
Proof.
  induction reversed as [|x above IH]; simpl.
  - split; [done|]. intros (_ & y & more & Heq). by destruct (p_parts q).
  - rewrite IH. split.
    + intros [<-|(Hr & y & more & Heq)].
      * split; [done|]. by exists x, [].
      * split; [done|]. exists y, (more ++ [x]). by rewrite Heq, <- app_assoc.
    + intros (Hr & y & more & Heq). destruct more as [|z more _] using rev_ind.
      * left. apply app_inj_tail in Heq as [Heq _]. destruct q as [r ps]. simpl in *. by subst.
      * right. split; [done|]. exists y, more. rewrite app_comm_cons, app_assoc in Heq. by apply app_inj_tail in Heq as [Heq _].
Qed.

(** The parents of a path are its proper prefixes. *)
Lemma parents_iff p q : In q (parents p) <-> p_root q = p_root p /\ exists x more, p_parts p = p_parts q ++ x :: more.
Proof. unfold parents. by rewrite parents_of_iff, rev_involutive. Qed.

Lemma parents_shorter p q : In q (parents p) -> (length (p_parts q) < length (p_parts p))%nat.
Proof. intros (_ & x & more & Heq)%parents_iff. rewrite Heq, length_app. simpl. lia. Qed.

Lemma parents_trans p q r : In q (parents p) -> In r (parents q) -> In r (parents p).
Proof.
  intros (Hr & x & more & Heq)%parents_iff (Hr' & y & more' & Heq')%parents_iff. apply parents_iff. split; [congruence|].
  exists y, (more' ++ x :: more). by rewrite Heq, Heq', <- app_assoc.
Qed.

Lemma parents_NoDup p : NoDup (parents p).
Proof.
  unfold parents. induction (rev (p_parts p)) as [|x above IH]; simpl; [constructor|]. constructor; [|done].
  rewrite list_elem_of_In, parents_of_iff. intros (_ & y & more & Heq). simpl in Heq.
  apply (f_equal length) in Heq. rewrite !length_app in Heq. simpl in Heq. lia.
Qed.

Lemma is_relative_to_iff p q : is_relative_to p q = true <-> p = q \/ In q (parents p).
Proof. unfold is_relative_to. by rewrite orb_true_iff, eqb_eq, mem_In. Qed.
