(* ===== verification/Json.v ===== *)
(** * JSON values, canonical text and its bounds

    The dynamically typed documents of the program, [json.dumps] and
    [json.loads] as the source calls them, and
    [src/cops/evidence/canonical.py]: the bounded canonical encoding, its
    iterative preflight and the hardened decoder.  [repr] and [float] on binary64
    values, SHA-256 and the recursion limit are the interpreter's: they are the
    fields of the class [Host]. *)

From stdpp Require Export pretty.
From S2P Require Export Prelude PyStr.

(** ** Values *)

(** A binary64 value: [PyFin m e] is [m * 2 ^ e]. *)
Inductive pyfloat :=
| PyFin (m e : Z)
| PyInf (negative : bool)
| PyNaN.

#[export] Instance pyfloat_eq_dec : EqDecision pyfloat.
Proof. solve_decision. Defined.

(** A dict is the list of its items in insertion order. *)
Inductive json :=
| JNull
| JBool (b : bool)
| JInt (z : Z)
| JFloat (f : pyfloat)
| JStr (s : string)
| JList (xs : list json)
| JObj (items : list (string * json)).

(** [dumps_recurses] and [loads_recurses] tell on which documents and texts the
    recursion of [json.dumps] and [json.loads] exceeds the interpreter's limit.
    They are used where a [RecursionError] leaves the modelled code; elsewhere the
    nesting is bounded before, or the error is not modelled. *)
Class Host := {
  float_repr : pyfloat -> string;
  float_parse : string -> pyfloat;
  sha256_hex : string -> string;
  hmac_sha256_hex : string -> string -> string;
  dumps_recurses : json -> bool;
  loads_recurses : string -> bool;
}.

(** [math.isfinite(f)]. *)
Definition isfinite (f : pyfloat) : bool :=
  match f with
  | PyFin _ _ => true
  | _ => false
  end.

(** [d.get(k)] for a dict document; anything else has no items. *)
Definition get (k : string) (v : json) : option json :=
  match v with
  | JObj items => assoc k items
  | _ => None
  end.

(** [d[k]]. *)
Definition getitem (k : string) (v : json) : res json :=
  match v with
  | JObj items =>
      match assoc k items with
      | Some x => Ok x
      | None => raise KeyError k
      end
  | _ => raise TypeError k
  end.

Definition is_dict (v : json) : bool := match v with JObj _ => true | _ => false end.
Definition is_list (v : json) : bool := match v with JList _ => true | _ => false end.
Definition is_str (v : json) : bool := match v with JStr _ => true | _ => false end.

(** [bool(v)]. *)
Definition truthy (v : json) : bool :=
  match v with
  | JNull => false
  | JBool b => b
  | JInt z => negb (z =? 0)
  | JFloat (PyFin m _) => negb (m =? 0)
  | JFloat _ => true
  | JStr s => negb (s == "")
  | JList xs => match xs with [] => false | _ => true end
  | JObj items => match items with [] => false | _ => true end
  end.

(** ** Python [==] on documents: [True == 1 == 1.0], and dicts are compared
    without regard to the order of their items. *)

Definition number_of (v : json) : option pyfloat :=
  match v with
  | JBool b => Some (PyFin (if b then 1 else 0) 0)
  | JInt z => Some (PyFin z 0)
  | JFloat f => Some f
  | _ => None
  end.

(** The exact comparison of two finite values over a common exponent. *)
Definition num_compare (a b : pyfloat) : option comparison :=
  match a, b with
  | PyNaN, _ | _, PyNaN => None
  | PyInf n1, PyInf n2 => Some (if n1 == n2 then Eq else if n1 then Lt else Gt)
  | PyInf n, PyFin _ _ => Some (if n then Lt else Gt)
  | PyFin _ _, PyInf n => Some (if n then Gt else Lt)
  | PyFin m1 e1, PyFin m2 e2 =>
      let e := Z.min e1 e2 in
      Some (Z.compare (Z.shiftl m1 (e1 - e)) (Z.shiftl m2 (e2 - e)))
  end.

Definition num_eqb (a b : pyfloat) : bool := num_compare a b == Some Eq.
Definition num_ltb (a b : pyfloat) : bool := num_compare a b == Some Lt.

Fixpoint py_eq (v w : json) {struct v} : bool :=
  match v, w with
  | JNull, JNull => true
  | JStr a, JStr b => a == b
  | JList xs, JList ys =>
      (fix list_eq (xs ys : list json) : bool :=
         match xs, ys with
         | [], [] => true
         | x :: xs', y :: ys' => py_eq x y && list_eq xs' ys'
         | _, _ => false
         end) xs ys
  | JObj xs, JObj ys =>
      Nat.eqb (length xs) (length ys) &&
      (fix items_eq (xs : list (string * json)) : bool :=
         match xs with
         | [] => true
         | (k, x) :: xs' =>
             match assoc k ys with
             | Some y => py_eq x y && items_eq xs'
             | None => false
             end
         end) xs
  | _, _ =>
      match number_of v, number_of w with
      | Some a, Some b => num_eqb a b
      | _, _ => false
      end
  end.

(** ** [json.dumps(v, sort_keys=True, separators=(",", ":"), ensure_ascii=a)] *)

Definition hex_digit (n : Z) : ascii := if n <? 10 then chr (48 + n) else chr (87 + n).

Definition unicode_escape (n : Z) : string :=
  String "092" (String "u" (String "0" (String "0"
    (String (hex_digit (n / 16)) (String (hex_digit (n mod 16)) EmptyString))))).

Definition escape_char (ensure_ascii : bool) (c : ascii) : string :=
  let n := code c in
  if n =? 34 then String "092" (String "034" EmptyString)
  else if n =? 92 then String "092" (String "092" EmptyString)
  else if n =? 10 then String "092" (String "n" EmptyString)
  else if n =? 13 then String "092" (String "r" EmptyString)
  else if n =? 9 then String "092" (String "t" EmptyString)
  else if n =? 12 then String "092" (String "f" EmptyString)
  else if n =? 8 then String "092" (String "b" EmptyString)
  else if (n <? 32) || (ensure_ascii && (126 <? n)) then unicode_escape n
  else String c EmptyString.

Fixpoint escape (ensure_ascii : bool) (s : string) : string :=
  match s with
  | EmptyString => EmptyString
  | String c s' => escape_char ensure_ascii c +:+ escape ensure_ascii s'
  end.

Definition quote (ensure_ascii : bool) (s : string) : string :=
  String "034" (escape ensure_ascii s +:+ String "034" EmptyString).

(** [sorted(d.items())] on a dict: the keys are distinct, so they decide. *)
Fixpoint insert_item {A} (kv : string * A) (items : list (string * A)) : list (string * A) :=
  match items with
  | [] => [kv]
  | kv' :: items' =>
      if bool_decide (String.le (fst kv) (fst kv')) then kv :: items else kv' :: insert_item kv items'
  end.

Definition sort_items {A} (items : list (string * A)) : list (string * A) := foldr insert_item [] items.

Section Dumps.
Context `{Host}.

Fixpoint dumps (ensure_ascii : bool) (v : json) : string :=
  match v with
  | JNull => "null"
  | JBool true => "true"
  | JBool false => "false"
  | JInt z => pretty z
  | JFloat f => float_repr f
  | JStr s => quote ensure_ascii s
  | JList xs => "[" +:+ join "," (map (dumps ensure_ascii) xs) +:+ "]"
  | JObj items =>
      let texts := sort_items (map (fun kv => (fst kv, dumps ensure_ascii (snd kv))) items) in
      "{" +:+ join "," (map (fun kt => quote ensure_ascii (fst kt) +:+ ":" +:+ snd kt) texts) +:+ "}"
  end.
End Dumps.

(** The interpreter refuses to print an integer of more than 4300 digits. *)
Definition int_print_limit : Z := 10 ^ 4300.

Fixpoint printable (v : json) : bool :=
  match v with
  | JInt z => Z.abs z <? int_print_limit
  | JList xs => forallb printable xs
  | JObj items => forallb (fun kv => printable (snd kv)) items
  | _ => true
  end.

Fixpoint all_finite (v : json) : bool :=
  match v with
  | JFloat f => isfinite f
  | JList xs => forallb all_finite xs
  | JObj items => forallb (fun kv => all_finite (snd kv)) items
  | _ => true
  end.

(** The number of enclosing containers on the deepest path, the node itself
    included when it is a container. *)
Fixpoint json_depth (v : json) : Z :=
  match v with
  | JList xs => 1 + foldr (fun x d => Z.max (json_depth x) d) 0 xs
  | JObj items => 1 + foldr (fun kv d => Z.max (json_depth (snd kv)) d) 0 items
  | _ => 0
  end.

Fixpoint json_nodes (v : json) : nat :=
  match v with
  | JList xs => S (foldr (fun x n => (json_nodes x + n)%nat) 0%nat xs)
  | JObj items => S (foldr (fun kv n => (json_nodes (snd kv) + n)%nat) 0%nat items)
  | _ => 1%nat
  end.

(** [i.bit_length()]. *)
Definition bit_length (z : Z) : Z := if z =? 0 then 0 else Z.log2 (Z.abs z) + 1.

(** ** [canonical] *)

Definition valid_limits (max_bytes max_depth : Z) : bool :=
  (0 <? max_bytes) && (1 <=? max_depth) && (max_depth <=? 64).

(** The inner loop over the keys of a dict. *)
Fixpoint count_keys (max_bytes minimum_bytes : Z) (keys : list string) : res Z :=
  match keys with
  | [] => Ok minimum_bytes
  | key :: keys' =>
      let minimum_bytes := minimum_bytes + (slen key + 3) in
      raise_if max_bytes <? minimum_bytes as EvidenceError msg "payload_limit" ;;
      count_keys max_bytes minimum_bytes keys'
  end.

Definition push (depth : Z) (children : list json) (pending : list (json * Z)) : list (json * Z) :=
  rev (map (fun x => (x, depth)) children) ++ pending.

(** One pass of the [while pending] loop: the new stack, and the bytes counted. *)
Definition scan_item (max_bytes max_depth nodes minimum_bytes : Z) (item : json) (depth : Z)
    (pending : list (json * Z)) : res (list (json * Z) * Z) :=
  match item with
  | JObj items =>
      let container_depth := depth + 1 in
      raise_if max_depth <? container_depth as EvidenceError msg "payload_limit" ;;
      let minimum_bytes := minimum_bytes + 1 in
      raise_if max_bytes <? nodes + Z.of_nat (length pending) + Z.of_nat (length items)
        as EvidenceError msg "payload_limit" ;;
      let? minimum_bytes := count_keys max_bytes minimum_bytes (map fst items) in
      Ok (push container_depth (map snd items) pending, minimum_bytes)
  | JList xs =>
      let container_depth := depth + 1 in
      raise_if max_depth <? container_depth as EvidenceError msg "payload_limit" ;;
      let minimum_bytes := minimum_bytes + 1 in
      raise_if max_bytes <? nodes + Z.of_nat (length pending) + Z.of_nat (length xs)
        as EvidenceError msg "payload_limit" ;;
      Ok (push container_depth xs pending, minimum_bytes)
  | JFloat f =>
      raise_if negb (isfinite f) as EvidenceError msg "invalid_json" ;;
      Ok (pending, minimum_bytes)
  | JStr s => Ok (pending, minimum_bytes + (slen s + 1))
  | JInt z =>
      Ok (pending, minimum_bytes + (Z.max 1 ((bit_length z + 3) / 4) - 1 + (if z <? 0 then 1 else 0)))
  | JNull | JBool _ => Ok (pending, minimum_bytes)
  end.

(** The [while pending] loop; [fuel] bounds the number of passes. *)
Fixpoint canonical_scan (fuel : nat) (max_bytes max_depth : Z) (pending : list (json * Z))
    (nodes minimum_bytes : Z) : res unit :=
  match pending with
  | [] => Ok tt
  | (item, depth) :: pending =>
      match fuel with
      | O => raise OutOfFuel "canonical_scan"
      | S fuel =>
          let nodes := nodes + 1 in
          let minimum_bytes := minimum_bytes + 1 in
          raise_if max_bytes <? nodes as EvidenceError msg "payload_limit" ;;
          let? (pending, minimum_bytes) :=
            scan_item max_bytes max_depth nodes minimum_bytes item depth pending in
          raise_if max_bytes <? minimum_bytes as EvidenceError msg "payload_limit" ;;
          canonical_scan fuel max_bytes max_depth pending nodes minimum_bytes
      end
  end.

Section Canonical.
Context `{Host}.

Definition canonical_bounded (value : json) (max_bytes max_depth : Z) : res string :=
  raise_if negb (valid_limits max_bytes max_depth) as EvidenceError msg "invalid_limit" ;;
  canonical_scan (json_nodes value) max_bytes max_depth [(value, 0)] 0 0 ;;?
  raise_if negb (printable value && all_finite value) as EvidenceError msg "invalid_json" ;;
  let result := encode_utf8 (dumps false value) in
  raise_if max_bytes <? slen result as EvidenceError msg "payload_limit" ;;
  Ok result.

(** [canonical(value)] with the default limits. *)
Definition canonical (value : json) : res string := canonical_bounded value (1024 * 1024) 32.

Definition digest_bounded (value : json) (max_bytes max_depth : Z) : res string :=
  let? text := canonical_bounded value max_bytes max_depth in Ok (sha256_hex text).

Definition digest (value : json) : res string := digest_bounded value (1024 * 1024) 32.
End Canonical.
