(* ===== verification/JsonParse.v ===== *)
(** * Decoding JSON text

    [json.loads] as [src/cops/evidence/canonical.py] (and every reader of a JSON
    column) uses it, and [decode_json] with its depth scan.  The decoder is
    CPython's: a recursive scanner over the text, whose object and constant hooks
    are arguments. *)

From S2P Require Import Prelude PyStr Json.

(** ** The scanner *)

Definition decode_error {A} : res A := raise ValueError "JSONDecodeError".

Definition is_ws (c : ascii) : bool :=
  (code c =? 32) || (code c =? 9) || (code c =? 10) || (code c =? 13).

Definition skip_ws (s : string) : string := lstrip_by is_ws s.

Definition hex_value (c : ascii) : option Z :=
  let n := code c in
  if is_ascii_digit c then Some (n - 48)
  else if (97 <=? n) && (n <=? 102) then Some (n - 87)
  else if (65 <=? n) && (n <=? 70) then Some (n - 55)
  else None.

(** The character of a four-digit escape; code points above 255 are outside the
    strings modelled here. *)
Definition unescape_hex (a b c d : ascii) : res ascii :=
  match hex_value a, hex_value b, hex_value c, hex_value d with
  | Some w, Some x, Some y, Some z =>
      let n := ((w * 16 + x) * 16 + y) * 16 + z in
      if n <? 256 then Ok (chr n) else decode_error
  | _, _, _, _ => decode_error
  end.

(** The rest of a string literal, after its opening quote (strict mode). *)
Fixpoint scan_string (s : string) : res (string * string) :=
  match s with
  | EmptyString => decode_error
  | String c s1 =>
      if code c =? 34 then Ok (EmptyString, s1)
      else if code c =? 92 then
        match s1 with
        | EmptyString => decode_error
        | String e s2 =>
            let simple d := let? (r, rest) := scan_string s2 in Ok (String d r, rest) in
            if code e =? 34 then simple "034"%char
            else if code e =? 92 then simple "092"%char
            else if code e =? 47 then simple "/"%char
            else if code e =? 98 then simple "008"%char
            else if code e =? 102 then simple "012"%char
            else if code e =? 110 then simple "010"%char
            else if code e =? 114 then simple "013"%char
            else if code e =? 116 then simple "009"%char
            else if code e =? 117 then
              match s2 with
              | String h1 (String h2 (String h3 (String h4 s3))) =>
                  let? d := unescape_hex h1 h2 h3 h4 in
                  let? (r, rest) := scan_string s3 in Ok (String d r, rest)
              | _ => decode_error
              end
            else decode_error
        end
      else if code c <? 32 then decode_error
      else let? (r, rest) := scan_string s1 in Ok (String c r, rest)
  end.

(** The longest prefix of digits, with the rest. *)
Fixpoint span_digits (s : string) : string * string :=
  match s with
  | String c s' =>
      if is_ascii_digit c then let '(d, r) := span_digits s' in (String c d, r) else (EmptyString, s)
  | EmptyString => (EmptyString, EmptyString)
  end.

Fixpoint digits_value (acc : Z) (s : string) : Z :=
  match s with
  | EmptyString => acc
  | String c s' => digits_value (acc * 10 + (code c - 48)) s'
  end.

(** [(\.[0-9]+)?] *)
Definition scan_fraction (s : string) : string * string :=
  match s with
  | String "." s' =>
      match span_digits s' with
      | (EmptyString, _) => (EmptyString, s)
      | (d, r) => (String "." d, r)
      end
  | _ => (EmptyString, s)
  end.

(** [([eE][-+]?[0-9]+)?] *)
Definition scan_exponent (s : string) : string * string :=
  match s with
  | String c s' =>
      if (code c =? 101) || (code c =? 69) then
        let '(sign, s2) :=
          match s' with
          | String "+" s2 => ("+", s2)
          | String "-" s2 => ("-", s2)
          | _ => ("", s')
          end in
        match span_digits s2 with
        | (EmptyString, _) => (EmptyString, s)
        | (d, r) => (String c sign +:+ d, r)
        end
      else (EmptyString, s)
  | EmptyString => (EmptyString, s)
  end.

Section Scanner.
Context `{Host}.
Context (object_hook : list (string * json) -> res json) (parse_constant : string -> res json).

(** A number, from its first digit on; [neg] if a minus sign came before. *)
Definition scan_number (neg : bool) (s : string) : res (json * string) :=
  let '(int_part, r) :=
    match s with
    | String "0" s' => ("0", s')
    | _ => span_digits s
    end in
  raise_if int_part == "" as ValueError msg "JSONDecodeError" ;;
  let '(frac, r) := scan_fraction r in
  let '(exp, r) := scan_exponent r in
  let sign := if neg then "-" else "" in
  if (frac == "") && (exp == "") then
    let n := digits_value 0 int_part in
    raise_if 4300 <? slen int_part as ValueError msg "int_max_str_digits" ;;
    Ok (JInt (if neg then - n else n), r)
  else Ok (JFloat (float_parse (sign +:+ int_part +:+ frac +:+ exp)), r).

Definition expect (lit : string) (v : res json) (s : string) : res (json * string) :=
  match strip_prefix lit s with
  | Some r => let? v := v in Ok (v, r)
  | None => decode_error
  end.

Fixpoint scan_value (fuel : nat) (s : string) {struct fuel} : res (json * string) :=
  match fuel with
  | O => raise OutOfFuel "scan_value"
  | S fuel =>
      match s with
      | EmptyString => decode_error
      | String c s' =>
          let n := code c in
          if n =? 34 then let? (t, r) := scan_string s' in Ok (JStr t, r)
          else if n =? 123 then
            match skip_ws s' with
            | String "}" r => let? v := object_hook [] in Ok (v, r)
            | r => let? (items, r) := scan_members fuel r in
                   let? v := object_hook items in Ok (v, r)
            end
          else if n =? 91 then
            match skip_ws s' with
            | String "]" r => Ok (JList [], r)
            | r => let? (xs, r) := scan_elements fuel r in Ok (JList xs, r)
            end
          else if n =? 110 then expect "null" (Ok JNull) s
          else if n =? 116 then expect "true" (Ok (JBool true)) s
          else if n =? 102 then expect "false" (Ok (JBool false)) s
          else if n =? 78 then expect "NaN" (parse_constant "NaN") s
          else if n =? 73 then expect "Infinity" (parse_constant "Infinity") s
          else if n =? 45 then
            match s' with
            | String "I" _ => expect "-Infinity" (parse_constant "-Infinity") s
            | _ => scan_number true s'
            end
          else if is_ascii_digit c then scan_number false s
          else decode_error
      end
  end
with scan_elements (fuel : nat) (s : string) {struct fuel} : res (list json * string) :=
  match fuel with
  | O => raise OutOfFuel "scan_elements"
  | S fuel =>
      let? (x, r) := scan_value fuel s in
      match skip_ws r with
      | String "]" r => Ok ([x], r)
      | String "," r => let? (xs, r) := scan_elements fuel (skip_ws r) in Ok (x :: xs, r)
      | _ => decode_error
      end
  end
with scan_members (fuel : nat) (s : string) {struct fuel} : res (list (string * json) * string) :=
  match fuel with
  | O => raise OutOfFuel "scan_members"
  | S fuel =>
      match s with
      | String c s' =>
          if code c =? 34 then
            let? (k, r) := scan_string s' in
            match skip_ws r with
            | String ":" r =>
                let? (x, r) := scan_value fuel (skip_ws r) in
                match skip_ws r with
                | String "}" r => Ok ([(k, x)], r)
                | String "," r => let? (xs, r) := scan_members fuel (skip_ws r) in Ok ((k, x) :: xs, r)
                | _ => decode_error
                end
            | _ => decode_error
            end
          else decode_error
      | EmptyString => decode_error
      end
  end.

(** [json.loads(s)]: one value between optional white space. *)
Definition loads_with (s : string) : res json :=
  let s := skip_ws s in
  let? (v, r) := scan_value (S (2 * String.length s)) s in
  match skip_ws r with
  | EmptyString => Ok v
  | _ => decode_error
  end.
End Scanner.

(** ** The hooks *)

(** [d[k] = v] on the item list: an existing key keeps its place. *)
Fixpoint dict_set {A} (k : string) (v : A) (d : list (string * A)) : list (string * A) :=
  match d with
  | [] => [(k, v)]
  | (k', v') :: d' => if k == k' then (k', v) :: d' else (k', v') :: dict_set k v d'
  end.

(** [dict(pairs)], the default hook: the last of equal keys wins. *)
Definition dict_of_pairs (pairs : list (string * json)) : json :=
  JObj (fold_left (fun d kv => dict_set (fst kv) (snd kv) d) pairs []).

(** [float("NaN")] and the infinities, the default constants. *)
Definition float_constant (name : string) : json :=
  JFloat (if name == "NaN" then PyNaN else PyInf (name == "-Infinity")).

(** The [pairs] hook of [decode_json]: a repeated key is an error. *)
Fixpoint reject_duplicates (seen : list (string * json)) (pairs : list (string * json)) : res json :=
  match pairs with
  | [] => Ok (JObj seen)
  | (key, item) :: pairs' =>
      raise_if mem key (map fst seen) as EvidenceError msg "duplicate_key" ;;
      reject_duplicates (seen ++ [(key, item)]) pairs'
  end.

(** [raw.decode("utf-8")], for text within the modelled code points. *)
Fixpoint decode_utf8 (raw : string) : option string :=
  match raw with
  | EmptyString => Some EmptyString
  | String a raw1 =>
      if code a <? 128 then String a <$> decode_utf8 raw1
      else match raw1 with
           | String b raw2 =>
               if ((code a =? 194) || (code a =? 195)) && (128 <=? code b) && (code b <? 192)
               then String (chr ((code a - 192) * 64 + (code b - 128))) <$> decode_utf8 raw2
               else None
           | EmptyString => None
           end
  end.

(** [json.detect_encoding(b)]. *)
Inductive encoding := Utf8 | Utf8Sig | Utf16 | Utf16BE | Utf16LE | Utf32 | Utf32BE | Utf32LE.

Definition bytes (codes : list Z) : string := String.string_of_list_ascii (map chr codes).

Definition detect_encoding (raw : string) : encoding :=
  if startswith (bytes [0; 0; 254; 255]) raw || startswith (bytes [255; 254; 0; 0]) raw then Utf32
  else if startswith (bytes [254; 255]) raw || startswith (bytes [255; 254]) raw then Utf16
  else if startswith (bytes [239; 187; 191]) raw then Utf8Sig
  else match raw with
       | String b0 (String b1 (String b2 (String b3 _))) =>
           if code b0 =? 0 then (if code b1 =? 0 then Utf32BE else Utf16BE)
           else if code b1 =? 0 then (if (code b2 =? 0) && (code b3 =? 0) then Utf32LE else Utf16LE)
           else Utf8
       | String b0 (String b1 EmptyString) =>
           if code b0 =? 0 then Utf16BE else if code b1 =? 0 then Utf16LE else Utf8
       | _ => Utf8
       end.

(** UTF-16 and UTF-32, for text within the modelled code points. *)
Fixpoint decode_utf16 (big_endian : bool) (raw : string) : option string :=
  match raw with
  | EmptyString => Some EmptyString
  | String a (String b rest) =>
      let (hi, lo) := if big_endian then (a, b) else (b, a) in
      if code hi =? 0 then String lo <$> decode_utf16 big_endian rest else None
  | String _ EmptyString => None
  end.

Fixpoint decode_utf32 (big_endian : bool) (raw : string) : option string :=
  match raw with
  | EmptyString => Some EmptyString
  | String a (String b (String c (String d rest))) =>
      let '(w, x, y, z) := if big_endian then (a, b, c, d) else (d, c, b, a) in
      if (code w =? 0) && (code x =? 0) && (code y =? 0) then String z <$> decode_utf32 big_endian rest else None
  | _ => None
  end.

(** [raw.decode(encoding)]; the codecs named without an endianness read it from
    the byte order mark, which [detect_encoding] has seen. *)
Definition decode_bytes (e : encoding) (raw : string) : option string :=
  match e with
  | Utf8 => decode_utf8 raw
  | Utf8Sig => decode_utf8 (drop_str 3 raw)
  | Utf16 => decode_utf16 (startswith (bytes [254; 255]) raw) (drop_str 2 raw)
  | Utf16BE => decode_utf16 true raw
  | Utf16LE => decode_utf16 false raw
  | Utf32 => decode_utf32 (startswith (bytes [0; 0; 254; 255]) raw) (drop_str 4 raw)
  | Utf32BE => decode_utf32 true raw
  | Utf32LE => decode_utf32 false raw
  end.

Section Decode.
Context `{Host}.

(** [json.loads(s)] with the default hooks. *)
Definition loads (s : string) : res json :=
  loads_with (fun pairs => Ok (dict_of_pairs pairs)) (fun name => Ok (float_constant name)) s.

(** [json.loads(raw)] of a byte string. *)
Definition loads_bytes (raw : string) : res json :=
  match decode_bytes (detect_encoding raw) raw with
  | Some text => loads text
  | None => raise ValueError "UnicodeDecodeError"
  end.

(** The depth scan of [decode_json] over the bytes of the text. *)
Fixpoint depth_scan (max_depth depth : Z) (quoted escaped : bool) (raw : string) : res unit :=
  match raw with
  | EmptyString => Ok tt
  | String char raw' =>
      let n := code char in
      if quoted then
        if escaped then depth_scan max_depth depth quoted false raw'
        else if n =? 92 then depth_scan max_depth depth quoted true raw'
        else if n =? 34 then depth_scan max_depth depth false escaped raw'
        else depth_scan max_depth depth quoted escaped raw'
      else if n =? 34 then depth_scan max_depth depth true escaped raw'
      else if (n =? 91) || (n =? 123) then
        raise_if max_depth <? depth + 1 as EvidenceError msg "payload_limit" ;;
        depth_scan max_depth (depth + 1) quoted escaped raw'
      else if (n =? 93) || (n =? 125) then depth_scan max_depth (depth - 1) quoted escaped raw'
      else depth_scan max_depth depth quoted escaped raw'
  end.

Definition decode_json (raw : string) (max_bytes max_depth : Z) : res json :=
  raise_if negb (valid_limits max_bytes max_depth) as EvidenceError msg "invalid_limit" ;;
  raise_if max_bytes <? slen raw as EvidenceError msg "response_limit" ;;
  depth_scan max_depth 0 false false raw ;;?
  catch (fun e => is_value_error e && negb (exc_cls e == EvidenceError))
    (match decode_utf8 raw with
     | None => raise ValueError "UnicodeDecodeError"
     | Some text =>
         let? result := loads_with (reject_duplicates [])
                          (fun _ => raise EvidenceError "invalid_json") text in
         canonical_bounded result (max_bytes * 6) max_depth ;;?
         Ok result
     end)
    (fun _ => raise EvidenceError "invalid_json").
End Decode.
