(* ===== verification/JsonScan.v ===== *)
(** * The JSON decoder always answers

    The fuel of [loads_with] suffices: every step of the scanner consumes text, so that
    [json.loads] ends with a value or a [ValueError], whatever the text. *)

From S2P Require Import Prelude PyStr Json JsonParse.

(** How a step on [s] may end: with a shorter rest, or with a [ValueError]. *)
Definition consumes {A} (n : nat) (r : res (A * string)) : Prop :=
  match r with
  | Ok (_, rest) => (String.length rest < n)%nat
  | Raise e => exc_cls e = ValueError
  end.

Lemma consumes_bind {A B} m n (r : res (A * string)) (f : A * string -> res (B * string)) :
  consumes m r -> (forall a rest, (String.length rest < m)%nat -> consumes n (f (a, rest))) -> consumes n (let? x := r in f x).
Proof. destruct r as [[a rest]|e]; simpl; auto. Qed.

Lemma consumes_mono {A} m n (r : res (A * string)) : consumes m r -> (m <= n)%nat -> consumes n r.
Proof. destruct r as [[a rest]|e]; simpl; [lia|done]. Qed.

Lemma skip_ws_length s : (String.length (skip_ws s) <= String.length s)%nat.
Proof. unfold skip_ws. induction s as [|c s IH]; simpl; [done|]. destruct (is_ws c); simpl; lia. Qed.

Lemma scan_string_consumes s : consumes (S (String.length s)) (scan_string s).
Proof.
  remember (String.length s) as n eqn:En. revert s En. induction n as [n IH] using lt_wf_ind. intros s En.
  assert (Hrec : forall t k (g : string -> string), (String.length t < n)%nat -> (n <= k)%nat ->
    consumes k (let? (r, rest) := scan_string t in Ok (g r, rest))).
  { intros t k g Ht Hk. eapply consumes_bind; [by apply (IH (String.length t))|]. intros a rest Hr. simpl. lia. }
  destruct s as [|c s1]; cbn [scan_string]; [done|]. simpl in En.
  destruct (code c =? 34); [simpl; lia|]. destruct (code c =? 92).
  - destruct s1 as [|e s2]; [done|]. simpl in En.
    repeat (match goal with |- context [if ?b then _ else _] => destruct b end;
      [first [apply (Hrec s2); lia|
         destruct s2 as [|h1 [|h2 [|h3 [|h4 s3]]]]; try done; simpl in En;
         destruct (unescape_hex h1 h2 h3 h4) as [d|x] eqn:Eu; cbn [res_bind];
         [apply (Hrec s3); lia|
          unfold unescape_hex, decode_error, raise in Eu; repeat case_match; try discriminate; by injection Eu as <-]]|]).
    done.
  - destruct (code c <? 32); [done|]. apply (Hrec s1); lia.
Qed.

Lemma span_digits_length s : (String.length (fst (span_digits s)) + String.length (snd (span_digits s)) = String.length s)%nat.
Proof.
  induction s as [|c s IH]; simpl; [done|]. destruct (is_ascii_digit c); [|done].
  destruct (span_digits s) as [d r]. simpl in *. lia.
Qed.

Lemma scan_fraction_length s : (String.length (snd (scan_fraction s)) <= String.length s)%nat.
Proof.
  unfold scan_fraction. repeat case_match; simpl; try lia.
  match goal with E : span_digits ?t = _ |- _ => pose proof (span_digits_length t) as Hl; rewrite E in Hl; simpl in Hl; lia end.
Qed.

Lemma scan_exponent_length s : (String.length (snd (scan_exponent s)) <= String.length s)%nat.
Proof.
  unfold scan_exponent. destruct s as [|c s']; [done|]. destruct (_ || _); [|done].
  set (p := match s' with String "+" s2 => ("+", s2) | String "-" s2 => ("-", s2) | _ => ("", s') end).
  assert (Hp : (String.length (snd p) <= String.length s')%nat) by (unfold p; repeat case_match; simpl; lia).
  destruct p as [sign s2]. simpl in Hp. pose proof (span_digits_length s2) as Hl.
  destruct (span_digits s2) as [[|d0 d] r]; simpl in *; lia.
Qed.

Section Scanner.
Context `{Host}.
Context (object_hook : list (string * json) -> res json) (parse_constant : string -> res json).
Hypothesis hook_errors : forall items e, object_hook items = Raise e -> exc_cls e = ValueError.
Hypothesis constant_errors : forall name e, parse_constant name = Raise e -> exc_cls e = ValueError.

Lemma scan_number_consumes neg s : consumes (String.length s) (scan_number neg s).
Proof.
  unfold scan_number.
  set (p := match s with String "0" s' => ("0", s') | _ => span_digits s end).
  assert (Hp : (String.length (fst p) + String.length (snd p) = String.length s)%nat).
  { unfold p. pose proof (span_digits_length s) as Hs. repeat case_match; subst; simpl in *; try done; lia. }
  destruct p as [int_part r]. simpl in Hp. destruct (int_part == "") eqn:Ei; [done|].
  assert (Hi : (0 < String.length int_part)%nat) by (destruct int_part; [done|simpl; lia]).
  pose proof (scan_fraction_length r) as Hf. destruct (scan_fraction r) as [frac r1]. simpl in Hf.
  pose proof (scan_exponent_length r1) as He. destruct (scan_exponent r1) as [exp r2]. simpl in He.
  destruct (_ && _); [destruct (_ <? _); [done|]|]; simpl; lia.
Qed.

Lemma strip_prefix_length lit s r : strip_prefix lit s = Some r -> (String.length lit + String.length r = String.length s)%nat.
Proof.
  revert s. induction lit as [|c lit IH]; intros s; simpl; [by intros [= ->]|].
  destruct s as [|d s]; [done|]. destruct (_ == _); [|done]. intros Hs. apply IH in Hs. simpl. lia.
Qed.

Lemma expect_consumes lit v s :
  (forall e, v = Raise e -> exc_cls e = ValueError) -> lit <> "" -> consumes (String.length s) (expect lit v s).
Proof.
  intros Hv Hl. unfold expect. destruct (strip_prefix lit s) as [r|] eqn:E; [|done]. apply strip_prefix_length in E.
  destruct v as [v|e]; simpl; [|by apply Hv]. destruct lit; [done|]. simpl in E. lia.
Qed.

Notation value := (scan_value object_hook parse_constant).
Notation elements := (scan_elements object_hook parse_constant).
Notation members := (scan_members object_hook parse_constant).

Definition fuelled (fuel : nat) : Prop :=
  (forall s, (2 * String.length s + 1 <= fuel)%nat -> consumes (String.length s) (value fuel s)) /\
  (forall s, (2 * String.length s + 2 <= fuel)%nat -> consumes (S (String.length s)) (elements fuel s)) /\
  (forall s, (2 * String.length s + 2 <= fuel)%nat -> consumes (S (String.length s)) (members fuel s)).

(** After a value: the closing bracket, or a comma and the rest. *)
Lemma elements_fuelled fuel s : fuelled fuel -> (2 * String.length s + 1 <= fuel)%nat ->
  consumes (S (String.length s)) (elements (S fuel) s).
Proof.
  intros (Hv & He & _) Hf. cbn [scan_elements]. eapply consumes_bind; [by apply Hv|]. intros x r Hr.
  pose proof (skip_ws_length r) as Hw. destruct (skip_ws r) as [|c r']; [done|]. simpl in Hw.
  assert (Hmore : consumes (S (String.length s)) (let? (xs, r0) := elements fuel (skip_ws r') in Ok (x :: xs, r0))).
  { pose proof (skip_ws_length r') as Hw'. eapply consumes_bind; [apply He; lia|]. intros xs r0 Hr0. simpl. lia. }
  destruct c as [[] [] [] [] [] [] [] []]; try done. simpl. lia.
Qed.

Lemma members_fuelled fuel s : fuelled fuel -> (2 * String.length s + 1 <= fuel)%nat ->
  consumes (S (String.length s)) (members (S fuel) s).
Proof.
  intros (Hv & _ & Hm) Hf. cbn [scan_members]. destruct s as [|c s']; [done|]. simpl in Hf. destruct (code c =? 34); [|done].
  eapply consumes_bind; [apply scan_string_consumes|]. intros k r Hr.
  pose proof (skip_ws_length r) as Hw. destruct (skip_ws r) as [|c1 r1]; [done|]. simpl in Hw.
  pose proof (skip_ws_length r1) as Hw1.
  assert (Hpair : consumes (S (S (String.length s'))) (let? (x, r2) := value fuel (skip_ws r1) in
    match skip_ws r2 with
    | String "}" r3 => Ok ([(k, x)], r3)
    | String "," r3 => let? (xs, r4) := members fuel (skip_ws r3) in Ok ((k, x) :: xs, r4)
    | _ => decode_error
    end)).
  { eapply consumes_bind; [apply Hv; lia|]. intros x r2 Hr2. pose proof (skip_ws_length r2) as Hw2.
    destruct (skip_ws r2) as [|c3 r3]; [done|]. simpl in Hw2. pose proof (skip_ws_length r3) as Hw3.
    assert (Hmore : consumes (S (S (String.length s'))) (let? (xs, r4) := members fuel (skip_ws r3) in Ok ((k, x) :: xs, r4))).
    { eapply consumes_bind; [apply Hm; lia|]. intros xs r4 Hr4. simpl. lia. }
    destruct c3 as [[] [] [] [] [] [] [] []]; try done. simpl. lia. }
  destruct c1 as [[] [] [] [] [] [] [] []]; try done.
Qed.

Lemma value_fuelled fuel s : fuelled fuel -> (2 * String.length s <= fuel)%nat -> consumes (String.length s) (value (S fuel) s).
Proof.
  intros (Hv & He & Hm) Hf. cbn [scan_value]. destruct s as [|c s']; [done|]. cbv zeta. simpl in Hf.
  pose proof (skip_ws_length s') as Hw.
  destruct (code c =? 34); [eapply consumes_bind; [apply scan_string_consumes|]; intros t r Hr; simpl; lia|].
  assert (Hhook : forall items r, (String.length r < S (String.length s'))%nat ->
    consumes (S (String.length s')) (let? v := object_hook items in Ok (v, r))).
  { intros items r Hr. destruct (object_hook items) as [v|e] eqn:E; simpl; [done|]. by eapply hook_errors. }
  destruct (code c =? 123).
  { destruct (skip_ws s') as [|c1 r] eqn:Es.
    - eapply consumes_bind; [apply Hm; simpl; lia|]. intros items r0 Hr0. apply Hhook. simpl in Hr0. lia.
    - assert (Hobj : consumes (S (String.length s')) (let? (items, r0) := members fuel (String c1 r) in let? v := object_hook items in Ok (v, r0))).
      { eapply consumes_bind; [apply Hm; lia|]. intros items r0 Hr0. apply Hhook. lia. }
      simpl in Hw. destruct c1 as [[] [] [] [] [] [] [] []]; try done. apply Hhook. lia. }
  destruct (code c =? 91).
  { destruct (skip_ws s') as [|c1 r] eqn:Es.
    - eapply consumes_bind; [apply He; simpl; lia|]. intros items r0 Hr0. simpl in Hr0 |- *. lia.
    - assert (Hlist : consumes (S (String.length s')) (let? (xs, r0) := elements fuel (String c1 r) in Ok (JList xs, r0))).
      { eapply consumes_bind; [apply He; lia|]. intros items r0 Hr0. simpl. lia. }
      simpl in Hw. destruct c1 as [[] [] [] [] [] [] [] []]; try done. simpl. lia. }
  do 5 (match goal with |- context [if ?b then expect _ _ _ else _] => destruct b end;
    [by apply expect_consumes; first [by eauto|done]|]).
  destruct (code c =? 45).
  { assert (Hn : consumes (String.length (String c s')) (scan_number true s')).
    { eapply consumes_mono; [apply scan_number_consumes|simpl; lia]. }
    destruct s' as [|c1 s2]; [done|]. destruct c1 as [[] [] [] [] [] [] [] []]; try done. by apply expect_consumes; [eauto|]. }
  destruct (is_ascii_digit c); [apply scan_number_consumes|done].
Qed.

Lemma fuel_suffices fuel : fuelled fuel.
Proof.
  induction fuel as [|fuel IH]; [split_and!; intros s; lia|]. split_and!; intros s Hf.
  - apply value_fuelled; [done|lia].
  - apply elements_fuelled; [done|lia].
  - apply members_fuelled; [done|lia].
Qed.

Lemma loads_with_raises s e : loads_with object_hook parse_constant s = Raise e -> exc_cls e = ValueError.
Proof.
  unfold loads_with. destruct (fuel_suffices (S (2 * String.length (skip_ws s)))) as [Hv _].
  specialize (Hv (skip_ws s)). destruct (value _ (skip_ws s)) as [[v r]|e1]; simpl in *.
  - destruct (skip_ws r); [done|]. unfold decode_error, raise. by intros [= <-].
  - intros [= <-]. apply Hv. lia.
Qed.
End Scanner.

Lemma loads_raises `{Host} s e : loads s = Raise e -> exc_cls e = ValueError.
Proof. by apply loads_with_raises. Qed.

Lemma loads_bytes_raises `{Host} raw e : loads_bytes raw = Raise e -> exc_cls e = ValueError.
Proof. unfold loads_bytes, raise. destruct (decode_bytes _ raw); [apply loads_raises|by intros [= <-]]. Qed.
