(* ===== verification/JsonFacts.v ===== *)
(** * Facts about JSON text

    The induction principle of documents, the properties of the printer and the
    decoder the components rely on, and the properties of [canonical]: its
    preflight is exact, and decoding its output gives the document back. *)

From S2P Require Import Prelude PyStr Json JsonParse.

(** ** Documents up to the order of their keys *)

Fixpoint json_sort (v : json) : json :=
  match v with
  | JList xs => JList (map json_sort xs)
  | JObj items => JObj (sort_items (map (fun kv => (fst kv, json_sort (snd kv))) items))
  | _ => v
  end.

(** Equal up to the order in which the keys of dicts were inserted. *)
Definition json_equiv (v w : json) : Prop := json_sort v = json_sort w.

Definition nodupb (ks : list string) : bool := bool_decide (NoDup ks).

(** Every dict has distinct keys, as a Python dict does. *)
Fixpoint keys_unique (v : json) : bool :=
  match v with
  | JList xs => forallb keys_unique xs
  | JObj items => nodupb (map fst items) && forallb (fun kv => keys_unique (snd kv)) items
  | _ => true
  end.

Fixpoint float_free (v : json) : bool :=
  match v with
  | JFloat _ => false
  | JList xs => forallb float_free xs
  | JObj items => forallb (fun kv => float_free (snd kv)) items
  | _ => true
  end.

(** What may follow a value inside a larger text. *)
Definition delimited (s : string) : bool :=
  match s with
  | EmptyString => true
  | String c _ => (code c =? 44) || (code c =? 93) || (code c =? 125)
  end.

(** ** Induction *)

Section JsonInd.
Variable P : json -> Prop.
Hypothesis HNull : P JNull.
Hypothesis HBool : forall b, P (JBool b).
Hypothesis HInt : forall z, P (JInt z).
Hypothesis HFloat : forall f, P (JFloat f).
Hypothesis HStr : forall s, P (JStr s).
Hypothesis HList : forall xs, Forall P xs -> P (JList xs).
Hypothesis HObj : forall items, Forall (fun kv => P (snd kv)) items -> P (JObj items).

Fixpoint json_ind' (v : json) : P v :=
  match v with
  | JNull => HNull
  | JBool b => HBool b
  | JInt z => HInt z
  | JFloat f => HFloat f
  | JStr s => HStr s
  | JList xs =>
      HList xs ((fix go (l : list json) : Forall P l :=
                   match l with
                   | [] => Forall_nil_2 P
                   | x :: l' => Forall_cons_2 P x l' (json_ind' x) (go l')
                   end) xs)
  | JObj items =>
      HObj items ((fix go (l : list (string * json)) : Forall (fun kv => P (snd kv)) l :=
                     match l with
                     | [] => Forall_nil_2 (fun kv : string * json => P (snd kv))
                     | kv :: l' => Forall_cons_2 (fun kv : string * json => P (snd kv)) kv l' (json_ind' (snd kv)) (go l')
                     end) items)
  end.
End JsonInd.

#[export] Instance json_eq_dec : EqDecision json.
Proof.
  refine (fix go (v w : json) {struct v} : Decision (v = w) :=
    match v, w with
    | JNull, JNull => left eq_refl
    | JBool a, JBool b => cast_if (decide (a = b))
    | JInt a, JInt b => cast_if (decide (a = b))
    | JFloat a, JFloat b => cast_if (decide (a = b))
    | JStr a, JStr b => cast_if (decide (a = b))
    | JList xs, JList ys => cast_if (list_eq_dec (dec := go) xs ys)
    | JObj xs, JObj ys =>
        cast_if (list_eq_dec (dec := fun a b => prod_eq_dec (EqDecision1 := go) a b) xs ys)
    | _, _ => right _
    end); congruence.
Defined.

(** ** Sorting the items of a dict *)

Section SortItems.
Context {A : Type}.
Implicit Types (kv : string * A) (l : list (string * A)).

(** The order of [sorted] on items with distinct keys. *)
Definition key_le (a b : string * A) : Prop := String.le (fst a) (fst b).

#[local] Instance key_le_trans : Transitive key_le.
Proof. intros a b c. unfold key_le. apply transitivity. Qed.

Lemma insert_item_perm kv l : insert_item kv l ≡ₚ kv :: l.
Proof.
  induction l as [|kv' l IH]; simpl; [done|].
  case_bool_decide; [done|]. rewrite IH. constructor.
Qed.

Lemma sort_items_perm l : sort_items l ≡ₚ l.
Proof. induction l as [|kv l IH]; simpl; [done|]. by rewrite insert_item_perm, IH. Qed.

Lemma insert_item_sorted kv l : Sorted key_le l -> Sorted key_le (insert_item kv l).
Proof.
  induction 1 as [|kv' l Hl IH Hhd]; simpl; [repeat constructor|].
  case_bool_decide as E; [by repeat constructor|].
  assert (key_le kv' kv) by (unfold key_le; destruct (total String.le (fst kv) (fst kv')); done).
  constructor; [done|]. destruct l as [|kv2 l]; simpl; [by constructor|].
  case_bool_decide; constructor; [done|]. by inversion Hhd.
Qed.

Lemma sort_items_sorted l : Sorted key_le (sort_items l).
Proof. induction l; simpl; [constructor | by apply insert_item_sorted]. Qed.

Lemma sort_items_id l : Sorted key_le l -> sort_items l = l.
Proof.
  induction 1 as [|kv l _ IH Hhd]; simpl; [done|]. rewrite IH.
  destruct Hhd as [|kv' l Hle]; simpl; [done|]. by rewrite bool_decide_eq_true_2.
Qed.

Lemma sort_items_idemp l : sort_items (sort_items l) = sort_items l.
Proof. apply sort_items_id, sort_items_sorted. Qed.

Lemma sort_items_keys l : map fst (sort_items l) ≡ₚ map fst l.
Proof. apply Permutation_map, sort_items_perm. Qed.

(** The items of a dict sort to the same list whatever their order. *)
Lemma sort_items_perm_eq l1 l2 : NoDup (map fst l1) -> l1 ≡ₚ l2 -> sort_items l1 = sort_items l2.
Proof.
  intros Hnd Hp. apply (Sorted_unique_strong key_le); [|apply sort_items_sorted..|].
  - intros [k1 v1] [k2 v2] H1 H2 Hle1 Hle2.
    assert (k1 = k2) as -> by (apply (anti_symm String.le); done).
    rewrite sort_items_perm in H1. rewrite sort_items_perm, <- Hp in H2.
    f_equal. rewrite list_elem_of_In in H1, H2. by apply (nodup_key_unique l1 k2).
  - by rewrite !sort_items_perm.
Qed.
End SortItems.

Lemma sort_items_map {A B} (f : string * A -> string * B) (l : list (string * A)) :
  (forall kv, fst (f kv) = fst kv) -> sort_items (map f l) = map f (sort_items l).
Proof.
  intros Hf. induction l as [|kv l IH]; simpl; [done|]. rewrite IH. clear IH.
  induction (sort_items l) as [|kv' l' IH]; simpl; [done|].
  rewrite !Hf. case_bool_decide; simpl; [done|]. by rewrite IH.
Qed.

(** ** Printed integers *)

Lemma slen_app a b : slen (a +:+ b) = slen a + slen b.
Proof. unfold slen. induction a as [|c a IH]; simpl; lia. Qed.

Lemma slen_cons c a : slen (String c a) = 1 + slen a.
Proof. unfold slen. simpl. lia. Qed.

Lemma slen_nonneg a : 0 <= slen a.
Proof. unfold slen. lia. Qed.

Lemma digits_value_app acc a b : digits_value acc (a +:+ b) = digits_value (digits_value acc a) b.
Proof. revert acc. induction a as [|c a IH]; intros acc; simpl; [done | apply IH]. Qed.

Lemma digits_value_acc acc s : digits_value acc s = acc * 10 ^ slen s + digits_value 0 s.
Proof.
  revert acc. induction s as [|c s IH]; intros acc; [simpl; unfold slen; simpl; lia|].
  cbn [digits_value]. rewrite IH, (IH (0 * 10 + _)), slen_cons, Z.pow_add_r by (pose proof (slen_nonneg s); lia).
  lia.
Qed.

Lemma digits_value_bound s : string_all is_ascii_digit s = true -> 0 <= digits_value 0 s < 10 ^ slen s.
Proof.
  induction s as [|c s IH]; intros Hs; [unfold slen; simpl; lia|].
  simpl in Hs. apply andb_true_iff in Hs as [Hc Hs]. specialize (IH Hs).
  unfold is_ascii_digit in Hc. simpl_bool.
  cbn [digits_value]. rewrite digits_value_acc, slen_cons, Z.pow_add_r by (pose proof (slen_nonneg s); lia).
  nia.
Qed.

Definition digit_char_facts (x : N) : Prop :=
  is_ascii_digit (pretty_N_char x) = true /\ code (pretty_N_char x) = 48 + Z.of_N x.

Lemma pretty_N_char_digit x : (x < 10)%N -> digit_char_facts x.
Proof.
  intros Hx.
  assert (x = 0 ∨ x = 1 ∨ x = 2 ∨ x = 3 ∨ x = 4 ∨ x = 5 ∨ x = 6 ∨ x = 7 ∨ x = 8 ∨ x = 9)%N as H by lia.
  unfold digit_char_facts. repeat destruct H as [->|H]; subst; vm_compute; done.
Qed.

(** The decimal text of a positive number: digits, no leading zero, its value. *)
Lemma pretty_N_go_spec x : forall s, exists d,
  pretty_N_go x s = d +:+ s /\ string_all is_ascii_digit d = true /\
  digits_value 0 d = Z.of_N x /\
  match d with
  | EmptyString => x = 0%N
  | String c _ => code c <> 48
  end.
Proof.
  induction (N.lt_wf_0 x) as [x _ IH]. intros s.
  destruct (decide (x = 0%N)) as [->|Hx].
  - exists "". by rewrite pretty_N_go_0.
  - rewrite pretty_N_go_step by lia.
    destruct (IH (x `div` 10)%N) with (s := String (pretty_N_char (x `mod` 10)) s) as (d & Hd & Hall & Hval & Hhd).
    { apply N.div_lt; lia. }
    assert (Hm : (x `mod` 10 < 10)%N) by (apply N.mod_lt; lia).
    destruct (pretty_N_char_digit _ Hm) as [Hdig Hcode].
    exists (d +:+ String (pretty_N_char (x `mod` 10)) "").
    assert (Hdm : Z.of_N x = 10 * Z.of_N (x `div` 10) + Z.of_N (x `mod` 10)).
    { rewrite (N.div_mod x 10) at 1 by lia. lia. }
    repeat apply conj.
    + rewrite Hd, string_app_assoc. done.
    + clear -Hall Hdig. induction d as [|c d IHd]; simpl in *; [by rewrite Hdig|].
      apply andb_true_iff in Hall as [-> Hall]. by apply IHd.
    + rewrite digits_value_app, Hval. cbn [digits_value]. lia.
    + destruct d as [|c d]; simpl; [|done].
      assert (Z.of_N (x `mod` 10) <> 0) by (rewrite Hhd in Hdm; lia). lia.
Qed.

Lemma pretty_N_spec (n : N) : exists d,
  pretty n = d /\ string_all is_ascii_digit d = true /\ digits_value 0 d = Z.of_N n /\
  d <> "" /\ (forall d', d = String "0" d' -> d' = "").
Proof.
  destruct (decide (n = 0%N)) as [->|Hn].
  - exists "0". repeat apply conj; try done. by intros d' [= <-].
  - destruct (pretty_N_go_spec n "") as (d & Hd & Hall & Hval & Hhd).
    exists d. assert (pretty n = d) as ->.
    { unfold pretty, pretty_N. rewrite decide_False by done. by rewrite Hd, string_app_nil_r. }
    repeat apply conj; try done.
    + intros ->. done.
    + intros d' ->. by destruct Hhd.
Qed.

Lemma pretty_Z_cases (z : Z) :
  pretty z = (if z <? 0 then "-" else "") +:+ pretty (Z.abs_N z).
Proof.
  destruct z; [done..|]. done.
Qed.

Lemma pretty_N_length (n : N) k : 0 < k -> Z.of_N n < 10 ^ k -> slen (pretty n) <= k.
Proof.
  intros Hk Hn. destruct (pretty_N_spec n) as (d & -> & Hall & Hval & Hne & Hhd).
  destruct d as [|c d]; [done|].
  destruct (decide (code c = 48)) as [Hc|Hc].
  - assert (c = "0"%char) as -> by (by apply code_inj). rewrite (Hhd d eq_refl), slen_cons. unfold slen. simpl. lia.
  - simpl in Hall. apply andb_true_iff in Hall as [Hcd Hall].
    unfold is_ascii_digit in Hcd. simpl_bool.
    cbn [digits_value] in Hval. rewrite digits_value_acc in Hval.
    pose proof (digits_value_bound d Hall) as Hd. rewrite slen_cons. pose proof (slen_nonneg d).
    destruct (Z_lt_ge_dec k (1 + slen d)) as [Hlt|]; [|lia].
    assert (10 ^ k <= 10 ^ slen d) by (apply Z.pow_le_mono_r; lia). nia.
Qed.

Lemma pretty_N_hex_length (n : N) : Z.max 1 ((bit_length (Z.of_N n) + 3) / 4) <= slen (pretty n).
Proof.
  destruct (pretty_N_spec n) as (d & -> & Hall & Hval & Hne & _).
  assert (1 <= slen d) by (destruct d; [done|]; rewrite slen_cons; pose proof (slen_nonneg d); lia).
  pose proof (digits_value_bound d Hall) as Hb. rewrite Hval in Hb.
  unfold bit_length. destruct (Z.of_N n =? 0) eqn:E; [change ((0 + 3) / 4) with 0; lia|].
  apply Z.eqb_neq in E.
  assert (10 ^ slen d <= 16 ^ slen d) by (apply Z.pow_le_mono_l; lia).
  assert (Hlog : Z.log2 (Z.abs (Z.of_N n)) < 4 * slen d).
  { apply Z.log2_lt_pow2; [lia|]. rewrite Z.pow_mul_r by lia. change (2 ^ 4) with 16. lia. }
  assert ((Z.log2 (Z.abs (Z.of_N n)) + 1 + 3) / 4 <= slen d); [|lia].
  apply Z.lt_succ_r, Z.div_lt_upper_bound; lia.
Qed.

(** ** The preflight of [canonical] *)

(** The bytes the preflight counts for a document. *)
Fixpoint json_lb (v : json) : Z :=
  match v with
  | JNull | JBool _ | JFloat _ => 1
  | JInt z => 1 + (Z.max 1 ((bit_length z + 3) / 4) - 1 + (if z <? 0 then 1 else 0))
  | JStr s => 1 + (slen s + 1)
  | JList xs => 2 + foldr (fun x n => json_lb x + n) 0 xs
  | JObj items => 2 + foldr (fun kv n => slen (fst kv) + 3 + json_lb (snd kv) + n) 0 items
  end.

(** Laws of the interpreter's [repr] the encoder relies on. *)
Class HostOk `{Host} := {
  float_repr_nonempty : forall f, isfinite f = true -> 1 <= slen (float_repr f);
}.

Lemma foldr_max_le {A} (f : A -> Z) xs b :
  0 <= b -> foldr (fun x d => Z.max (f x) d) 0 xs <= b <-> Forall (fun x => f x <= b) xs.
Proof.
  intros Hb. induction xs as [|x xs IH]; simpl.
  - split; [constructor | lia].
  - rewrite Forall_cons, <- IH. lia.
Qed.

Lemma sumZ_foldr {A} (f : A -> Z) xs : foldr (fun x n => f x + n) 0 xs = sumZ f xs.
Proof. done. Qed.

Lemma sumN_foldr {A} (f : A -> nat) xs :
  Z.of_nat (foldr (fun x n => (f x + n)%nat) 0%nat xs) = sumZ (fun x => Z.of_nat (f x)) xs.
Proof. induction xs; simpl; lia. Qed.

Lemma sumZ_ext {A} (f g : A -> Z) xs : (forall x, In x xs -> f x = g x) -> sumZ f xs = sumZ g xs.
Proof.
  induction xs as [|x xs IH]; intros Hf; simpl; [done|].
  rewrite (Hf x) by (by left). rewrite IH; [done|]. intros y Hy. apply Hf. by right.
Qed.

Lemma sumZ_rev {A} (f : A -> Z) xs : sumZ f (rev xs) = sumZ f xs.
Proof. apply sumZ_perm. symmetry. apply Permutation_rev. Qed.

Lemma sumZ_add {A} (f g : A -> Z) xs : sumZ (fun x => f x + g x) xs = sumZ f xs + sumZ g xs.
Proof. induction xs; simpl; lia. Qed.

Lemma json_nodes_pos v : (1 <= json_nodes v)%nat.
Proof. destruct v; simpl; lia. Qed.

Lemma foldr_depth_nonneg {A} (f : A -> json) xs : 0 <= foldr (fun x d => Z.max (json_depth (f x)) d) 0 xs.
Proof. induction xs; simpl; lia. Qed.

Lemma length_le_nodes {A} (f : A -> json) xs :
  Z.of_nat (length xs) <= sumZ (fun x => Z.of_nat (json_nodes (f x))) xs.
Proof. induction xs as [|x xs IH]; simpl; [done|]. destruct (f x); simpl json_nodes; lia. Qed.

Lemma json_depth_nonneg v : 0 <= json_depth v.
Proof.
  assert (H : forall A (f : A -> Z) xs, 0 <= foldr (fun x d => Z.max (f x) d) 0 xs)
    by (intros A f xs; induction xs; simpl; lia).
  destruct v; simpl; try lia.
  - specialize (H _ json_depth xs). lia.
  - specialize (H _ (fun kv => json_depth (snd kv)) items). lia.
Qed.

(** Each node is counted at least once. *)
Lemma json_nodes_le_lb v : Z.of_nat (json_nodes v) <= json_lb v.
Proof.
  induction v as [|b|z|f|s|xs IH|items IH] using json_ind'; simpl json_nodes; simpl json_lb; try lia.
  - destruct (z <? 0); lia.
  - pose proof (slen_nonneg s). lia.
  - rewrite Nat2Z.inj_succ, sumN_foldr, sumZ_foldr.
    enough (sumZ (fun x => Z.of_nat (json_nodes x)) xs <= sumZ json_lb xs) by lia.
    apply sumZ_mono. rewrite Forall_forall in IH. intros x Hx. by apply IH, list_elem_of_In.
  - rewrite Nat2Z.inj_succ, sumN_foldr, sumZ_foldr.
    enough (sumZ (fun kv => Z.of_nat (json_nodes (snd kv))) items <=
            sumZ (fun kv : string * json => slen (fst kv) + 3 + json_lb (snd kv)) items) by lia.
    apply sumZ_mono. rewrite Forall_forall in IH. intros kv Hx.
    specialize (IH kv). rewrite list_elem_of_In in IH. pose proof (slen_nonneg (fst kv)). specialize (IH Hx). lia.
Qed.

Section Scan.
Variables max_bytes max_depth : Z.

(** What the preflight accepts of one pending document at its depth. *)
Definition item_ok (p : json * Z) : Prop :=
  all_finite (fst p) = true /\ (json_depth (fst p) = 0 \/ snd p + json_depth (fst p) <= max_depth).

Definition pending_nodes (p : list (json * Z)) : Z := sumZ (fun x => Z.of_nat (json_nodes (fst x))) p.
Definition pending_lb (p : list (json * Z)) : Z := sumZ (fun x => json_lb (fst x)) p.

Lemma sumZ_push (f : json -> Z) d cs p :
  sumZ (fun x => f (fst x)) (push d cs p) = sumZ f cs + sumZ (fun x => f (fst x)) p.
Proof. unfold push. rewrite sumZ_app, sumZ_rev, sumZ_map. done. Qed.

Lemma Forall_push P d cs p :
  Forall P (push d cs p) <-> Forall (fun x => P (x, d)) cs /\ Forall P p.
Proof.
  unfold push. rewrite Forall_app. rewrite <- Permutation_rev. by rewrite Forall_map.
Qed.

Lemma pending_nodes_length p : Z.of_nat (length p) <= pending_nodes p.
Proof.
  induction p as [|[v d] p IH]; simpl; [done|]. pose proof (json_nodes_pos v).
  unfold pending_nodes in *. simpl. lia.
Qed.

Lemma count_keys_ok mn keys r :
  count_keys max_bytes mn keys = Ok r -> r = mn + sumZ (fun k => slen k + 3) keys.
Proof.
  revert mn. induction keys as [|k keys IH]; intros mn H; simpl in *; [inv_ok; lia|].
  destruct (max_bytes <? _); [done|]. apply IH in H. lia.
Qed.

Lemma count_keys_complete mn keys :
  mn + sumZ (fun k => slen k + 3) keys <= max_bytes ->
  count_keys max_bytes mn keys = Ok (mn + sumZ (fun k => slen k + 3) keys).
Proof.
  revert mn. induction keys as [|k keys IH]; intros mn H; simpl in *; [f_equal; lia|].
  assert (0 <= sumZ (fun k => slen k + 3) keys).
  { apply sumZ_nonneg. intros x _. pose proof (slen_nonneg x). lia. }
  destruct (max_bytes <? _) eqn:E; [simpl_bool; lia|]. rewrite IH by lia. f_equal. lia.
Qed.

(** The children of a container, as the loop pushes them. *)
Definition children (v : json) : list json :=
  match v with
  | JList xs => xs
  | JObj items => map snd items
  | _ => []
  end.

Definition own_lb (v : json) : Z := json_lb v - sumZ json_lb (children v).

Lemma own_lb_list xs : own_lb (JList xs) = 2.
Proof. unfold own_lb. simpl. rewrite sumZ_foldr. lia. Qed.

Lemma own_lb_obj items : own_lb (JObj items) = 2 + sumZ (fun k => slen k + 3) (map fst items).
Proof.
  unfold own_lb. simpl json_lb. simpl children. rewrite sumZ_foldr, !sumZ_map.
  rewrite (sumZ_add (fun kv : string * json => slen (fst kv) + 3) (fun kv => json_lb (snd kv))). lia.
Qed.

Lemma nodes_children v : Z.of_nat (json_nodes v) = 1 + sumZ (fun x => Z.of_nat (json_nodes x)) (children v).
Proof.
  destruct v; simpl json_nodes; simpl children; try done.
  - rewrite Nat2Z.inj_succ, sumN_foldr. lia.
  - rewrite Nat2Z.inj_succ, sumN_foldr, sumZ_map. lia.
Qed.

Lemma depth_children v d :
  children v <> [] \/ json_depth v <> 0 ->
  (d + json_depth v <= max_depth <->
   d + 1 <= max_depth /\ Forall (fun x => json_depth x = 0 \/ d + 1 + json_depth x <= max_depth) (children v)).
Proof.
  intros Hc. 
  assert (Hgen : forall A (f : A -> json) xs,
    d + (1 + foldr (fun x m => Z.max (json_depth (f x)) m) 0 xs) <= max_depth <->
    d + 1 <= max_depth /\ Forall (fun x => json_depth x = 0 \/ d + 1 + json_depth x <= max_depth) (map f xs)).
  { intros A f xs. induction xs as [|x xs IH]; simpl.
    - split; [intros; split; [lia|constructor] | lia].
    - rewrite Forall_cons. pose proof (json_depth_nonneg (f x)). split.
      + intros H'. destruct (proj1 IH) as [? ?]; [lia|]. split; [lia|]. split; [right; lia|done].
      + intros (? & ? & ?). assert (d + (1 + foldr (fun x m => Z.max (json_depth (f x)) m) 0 xs) <= max_depth) by by apply IH.
        lia. }
  destruct v; simpl in *; try tauto; try lia.
  - specialize (Hgen _ id xs). rewrite map_id in Hgen. exact Hgen.
  - exact (Hgen _ snd items).
Qed.

(** One pass of the loop consumes one node and pushes its children. *)
Lemma scan_item_ok nodes mn v d p p' mn' :
  scan_item max_bytes max_depth nodes mn v d p = Ok (p', mn') ->
  p' = push (d + 1) (children v) p /\ mn' = mn + own_lb v - 1 /\
  (Forall (fun x => item_ok (x, d + 1)) (children v) -> item_ok (v, d)).
Proof.
  unfold item_ok. destruct v as [|b|z|f|s|xs|items]; simpl scan_item; intros H; inv_ok; simpl children.
  1-3,5: split; [done|]; split; [unfold own_lb; simpl; lia|]; intros _; split; [done|by left].
  - destruct (isfinite f) eqn:E; simpl in H; [|done]. inv_ok.
    split; [done|]. split; [unfold own_lb; simpl; lia|]. intros _. split; [done|by left].
  - destruct (max_depth <? d + 1) eqn:E1; [done|]. destruct (max_bytes <? _) eqn:E2; [done|]. inv_ok. simpl_bool.
    split; [done|]. split; [rewrite own_lb_list; lia|].
    rewrite Forall_forall. intros Hc. simpl fst. simpl snd. split.
    + simpl. apply forallb_forall. intros x Hx. apply Hc. by apply list_elem_of_In.
    + right. apply (depth_children (JList xs)); [right; simpl; pose proof (foldr_depth_nonneg id xs); unfold id in *; lia|].
      split; [lia|]. apply Forall_forall. intros x Hx. by apply Hc.
  - destruct (max_depth <? d + 1) eqn:E1; [done|]. destruct (max_bytes <? _) eqn:E2; [done|]. inv_ok. simpl_bool.
    apply count_keys_ok in Hr. subst.
    split; [done|]. split; [rewrite own_lb_obj; lia|].
    rewrite Forall_forall. intros Hc. simpl fst. simpl snd. split.
    + simpl. apply forallb_forall. intros x Hx. apply (Hc (snd x)). apply list_elem_of_In. by apply in_map.
    + right. apply (depth_children (JObj items)); [right; simpl; pose proof (foldr_depth_nonneg snd items); lia|].
      split; [lia|]. apply Forall_forall. intros x Hx. by apply Hc.
Qed.

Lemma scan_item_complete nodes mn v d p :
  item_ok (v, d) ->
  nodes + Z.of_nat (length p) + sumZ (fun x => Z.of_nat (json_nodes x)) (children v) <= max_bytes ->
  mn + own_lb v - 1 <= max_bytes ->
  scan_item max_bytes max_depth nodes mn v d p = Ok (push (d + 1) (children v) p, mn + own_lb v - 1) /\
  Forall (fun x => item_ok (x, d + 1)) (children v).
Proof.
  intros [Hfin Hdep] Hn Hm. simpl fst in *. simpl snd in *.
  destruct v as [|b|z|f|s|xs|items]; simpl children in *; simpl scan_item.
  1-3,5: split; [unfold own_lb; simpl; repeat f_equal; lia | constructor].
  - simpl in Hfin. rewrite Hfin. split; [unfold own_lb; simpl; repeat f_equal; lia | constructor].
  - pose proof (foldr_depth_nonneg id xs) as H0. unfold id in H0.
    destruct Hdep as [Hdep|Hdep]; [simpl in Hdep; lia|].
    apply (depth_children (JList xs)) in Hdep; [|right; simpl; lia]. destruct Hdep as [Hd Hc].
    pose proof (length_le_nodes id xs) as Hlen. unfold id in Hlen.
    destruct (max_depth <? d + 1) eqn:E1; [simpl_bool; lia|].
    destruct (max_bytes <? _) eqn:E2; [simpl_bool; lia|].
    rewrite own_lb_list. split; [repeat f_equal; lia|].
    simpl in Hfin, Hc. rewrite forallb_forall in Hfin. rewrite Forall_forall in Hc |- *.
    intros x Hx. split; [apply Hfin; by apply list_elem_of_In | by apply Hc].
  - pose proof (foldr_depth_nonneg snd items) as H0.
    destruct Hdep as [Hdep|Hdep]; [simpl in Hdep; lia|].
    apply (depth_children (JObj items)) in Hdep; [|right; simpl; lia]. destruct Hdep as [Hd Hc].
    pose proof (length_le_nodes snd items) as Hlen. rewrite sumZ_map in Hn.
    destruct (max_depth <? d + 1) eqn:E1; [simpl_bool; lia|].
    destruct (max_bytes <? _) eqn:E2; [simpl_bool; lia|].
    rewrite own_lb_obj in Hm |- *. rewrite count_keys_complete by lia.
    split; [simpl; repeat f_equal; lia|].
    simpl in Hfin, Hc. rewrite forallb_forall in Hfin. rewrite Forall_forall in Hc |- *.
    intros x Hx. split; [|by apply Hc].
    apply list_elem_of_In, in_map_iff in Hx as (kv & <- & Hkv). by apply Hfin.
Qed.
Lemma pending_cons v d p :
  pending_nodes ((v, d) :: p) = Z.of_nat (json_nodes v) + pending_nodes p /\
  pending_lb ((v, d) :: p) = json_lb v + pending_lb p.
Proof. done. Qed.

Lemma pending_push v d p :
  pending_nodes (push d (children v) p) = Z.of_nat (json_nodes v) - 1 + pending_nodes p /\
  pending_lb (push d (children v) p) = json_lb v - own_lb v + pending_lb p.
Proof.
  unfold pending_nodes, pending_lb. rewrite !(sumZ_push (fun x => Z.of_nat (json_nodes x))).
  rewrite (sumZ_push json_lb), nodes_children. unfold own_lb. lia.
Qed.

(** The loop ends, and what it accepts is bounded. *)
Lemma canonical_scan_sound fuel p nodes mn :
  pending_nodes p <= Z.of_nat fuel ->
  canonical_scan fuel max_bytes max_depth p nodes mn = Ok tt -> Forall item_ok p.
Proof.
  revert p nodes mn. induction fuel as [|fuel IH]; intros [|[v d] p] nodes mn Hn H; simpl in H; try done.
  destruct (max_bytes <? nodes + 1); [done|]. inv_ok. destruct a as [p' mn']. 
  destruct (max_bytes <? mn') eqn:E; [done|].
  apply scan_item_ok in Hr as (-> & -> & Hitem).
  destruct (pending_cons v d p) as [Hc _]. destruct (pending_push v (d + 1) p) as [Hp _].
  apply IH in H; [|lia]. apply Forall_push in H as [Hch Hp']. constructor; [by apply Hitem | done].
Qed.

Lemma own_lb_ge v : 1 <= own_lb v.
Proof.
  destruct v as [|b|z|f|s|xs|items]; try (unfold own_lb; simpl; lia).
  - unfold own_lb; simpl. destruct (z <? 0); lia.
  - unfold own_lb; simpl. pose proof (slen_nonneg s). lia.
  - rewrite own_lb_list. lia.
  - rewrite own_lb_obj.
    assert (0 <= sumZ (fun k => slen k + 3) (map fst items)); [|lia].
    apply sumZ_nonneg. intros x _. pose proof (slen_nonneg x). lia.
Qed.

Lemma pending_lb_nonneg p : 0 <= pending_lb p.
Proof. apply sumZ_nonneg. intros [v d] _. simpl. pose proof (json_nodes_le_lb v). lia. Qed.

(** Documents within the bounds pass. *)
Lemma canonical_scan_complete fuel p nodes mn :
  pending_nodes p <= Z.of_nat fuel -> Forall item_ok p ->
  nodes + pending_nodes p <= max_bytes -> mn + pending_lb p <= max_bytes ->
  canonical_scan fuel max_bytes max_depth p nodes mn = Ok tt.
Proof.
  revert p nodes mn. induction fuel as [|fuel IH]; intros [|[v d] p] nodes mn Hf Hok Hn Hm; simpl; try done.
  { destruct (pending_cons v d p) as [Hc _]. pose proof (json_nodes_pos v).
    pose proof (pending_nodes_length p). lia. }
  destruct (pending_cons v d p) as [Hcn Hcl]. destruct (pending_push v (d + 1) p) as [Hpn Hpl].
  pose proof (pending_nodes_length p). pose proof (nodes_children v) as Hnv. pose proof (json_nodes_pos v).
  pose proof (own_lb_ge v). pose proof (json_nodes_le_lb v).
  pose proof (pending_lb_nonneg (push (d + 1) (children v) p)). pose proof (pending_lb_nonneg p).
  inversion Hok as [|? ? Hv Hp]; subst.
  destruct (max_bytes <? nodes + 1) eqn:E; [simpl_bool; lia|].
  destruct (scan_item_complete (nodes + 1) (mn + 1) v d p Hv) as [-> Hch]; [lia..|]. simpl.
  destruct (max_bytes <? mn + 1 + own_lb v - 1) eqn:E2; [simpl_bool; lia|].
  apply IH; [lia| |lia..]. apply Forall_push. done.
Qed.

(** Whatever the loop raises is an [EvidenceError]. *)
Lemma canonical_scan_error fuel p nodes mn e :
  pending_nodes p <= Z.of_nat fuel ->
  canonical_scan fuel max_bytes max_depth p nodes mn = Raise e -> exc_cls e = EvidenceError.
Proof.
  assert (Hk : forall keys mn e, count_keys max_bytes mn keys = Raise e -> exc_cls e = EvidenceError).
  { induction keys as [|k keys IHk]; intros m e' H; simpl in H; [done|].
    destruct (max_bytes <? _); [by injection H as <- | by eapply IHk]. }
  assert (Hi : forall nodes mn v d p e, scan_item max_bytes max_depth nodes mn v d p = Raise e -> exc_cls e = EvidenceError).
  { intros n m [|b|z|f|s|xs|items] d q e' H; simpl in H; try done.
    - destruct (isfinite f); simpl in H; [done | by injection H as <-].
    - destruct (max_depth <? _); [by injection H as <-|]. destruct (max_bytes <? _); [by injection H as <- | done].
    - destruct (max_depth <? _); [by injection H as <-|]. destruct (max_bytes <? _); [by injection H as <-|].
      destruct (count_keys _ _ _) eqn:E; [done|]. injection H as <-. by eapply Hk. }
  revert p nodes mn. induction fuel as [|fuel IH]; intros [|[v d] p] nodes mn Hf H; simpl in H; try done.
  { destruct (pending_cons v d p) as [Hc _]. pose proof (json_nodes_pos v). pose proof (pending_nodes_length p). lia. }
  destruct (max_bytes <? nodes + 1); [by injection H as <-|].
  destruct (scan_item _ _ _ _ _ _ _) as [[p' mn']|e'] eqn:E; simpl in H; [|injection H as <-; by eapply Hi].
  destruct (max_bytes <? mn'); [by injection H as <-|].
  apply scan_item_ok in E as (-> & _ & _).
  destruct (pending_cons v d p) as [Hc _]. destruct (pending_push v (d + 1) p) as [Hp _].
  apply (IH _ _ _) in H; [done|lia].
Qed.
End Scan.

(** ** Lengths of printed text *)

Lemma slen_encode_utf8 s : slen s <= slen (encode_utf8 s).
Proof. induction s as [|c s IH]; simpl; [done|]. case_match; rewrite ?slen_cons; rewrite ?slen_cons in *; lia. Qed.

Lemma slen_escape_char a c : 1 <= slen (escape_char a c).
Proof. unfold escape_char. repeat case_match; unfold slen; simpl; lia. Qed.

Lemma slen_quote a s : slen s + 2 <= slen (quote a s).
Proof.
  unfold quote. rewrite slen_cons, slen_app, slen_cons.
  enough (slen s <= slen (escape a s)) by (unfold slen in *; simpl; lia).
  induction s as [|c s IH]; simpl; [done|]. rewrite slen_cons, slen_app. pose proof (slen_escape_char a c). lia.
Qed.

Lemma slen_join sep xs : sumZ slen xs <= slen (join sep xs).
Proof.
  induction xs as [|x xs IH]; simpl; [done|]. destruct xs as [|y xs]; [simpl; lia|].
  rewrite !slen_app. pose proof (slen_nonneg sep). lia.
Qed.

Section DumpsFacts.
Context `{HostOk}.

(** The preflight never counts more bytes than the text has. *)
Lemma json_lb_le_text a v : all_finite v = true -> json_lb v <= slen (dumps a v).
Proof.
  induction v as [|b|z|f|s|xs IH|items IH] using json_ind'; intros Hfin; cbn [dumps json_lb].
  - done.
  - by destruct b.
  - rewrite pretty_Z_cases.
    rewrite slen_app. pose proof (pretty_N_hex_length (Z.abs_N z)).
    assert (bit_length z = bit_length (Z.of_N (Z.abs_N z))) as ->
      by (unfold bit_length; rewrite N2Z.inj_abs_N, Z.abs_idemp; by destruct z).
    destruct (z <? 0); unfold slen at 1; simpl; lia.
  - by apply float_repr_nonempty.
  - pose proof (slen_quote a s). lia.
  - rewrite sumZ_foldr, !slen_app. simpl in Hfin. rewrite forallb_forall in Hfin.
    pose proof (slen_join "," (map (dumps a) xs)) as Hj. rewrite sumZ_map in Hj.
    assert (sumZ json_lb xs <= sumZ (fun x => slen (dumps a x)) xs).
    { apply sumZ_mono. rewrite Forall_forall in IH. intros x Hx. apply IH; [by apply list_elem_of_In | by apply Hfin]. }
    change (slen "[") with 1. change (slen "]") with 1. lia.
  - rewrite sumZ_foldr, !slen_app. simpl in Hfin. rewrite forallb_forall in Hfin.
    set (texts := map (fun kv : string * json => (fst kv, dumps a (snd kv))) items).
    pose proof (slen_join "," (map (fun kt : string * string => quote a (fst kt) +:+ ":" +:+ snd kt) (sort_items texts))) as Hj.
    rewrite sumZ_map, (sumZ_perm _ _ _ (sort_items_perm texts)) in Hj. unfold texts in Hj. rewrite sumZ_map in Hj.
    assert (sumZ (fun kv : string * json => slen (fst kv) + 3 + json_lb (snd kv)) items <=
            sumZ (fun kv : string * json => slen (quote a (fst kv) +:+ ":" +:+ dumps a (snd kv))) items).
    { apply sumZ_mono. rewrite Forall_forall in IH. intros kv Hx.
      rewrite !slen_app. pose proof (slen_quote a (fst kv)).
      assert (json_lb (snd kv) <= slen (dumps a (snd kv))) by (apply IH; [by apply list_elem_of_In | by apply Hfin]).
      change (slen ":") with 1. lia. }
    cbn [fst snd] in Hj. fold texts in Hj. change (slen "{") with 1. change (slen "}") with 1. lia.
Qed.

(** [canonical] computes the reference encoding exactly on the documents within
    its bounds: the preflight rejects nothing the exact byte check accepts. *)
Lemma canonical_bounded_ok v max_bytes max_depth t :
  canonical_bounded v max_bytes max_depth = Ok t <->
  valid_limits max_bytes max_depth = true /\ json_depth v <= max_depth /\ all_finite v = true /\
  printable v = true /\ t = encode_utf8 (dumps false v) /\ slen t <= max_bytes.
Proof.
  unfold canonical_bounded. destruct (valid_limits _ _) eqn:Hl; simpl; [|split; [done|by intros []]].
  assert (Hd : 1 <= max_depth) by (unfold valid_limits in Hl; simpl_bool; lia).
  assert (Hn : pending_nodes [(v, 0)] <= Z.of_nat (json_nodes v)) by (unfold pending_nodes; simpl; lia).
  split.
  - intros H1. inv_ok. apply canonical_scan_sound in Hr; [|done].
    destruct (printable v) eqn:Hp, (all_finite v) eqn:Hf; simpl in H1; try done.
    destruct (max_bytes <? _) eqn:E; [done|]. inv_ok. simpl_bool.
    inversion Hr as [|? ? [_ Hdep] _]; subst. simpl in Hdep. repeat apply conj; try done. lia.
  - intros (_ & Hdep & Hf & Hp & -> & Hlen).
    pose proof (json_lb_le_text false v Hf). pose proof (slen_encode_utf8 (dumps false v)).
    pose proof (json_nodes_le_lb v).
    rewrite canonical_scan_complete; [|done| |unfold pending_nodes; simpl; lia | unfold pending_lb; simpl; lia].
    + simpl. rewrite Hp, Hf. simpl. destruct (max_bytes <? _) eqn:E; [simpl_bool; lia | done].
    + constructor; [|constructor]. split; [done|]. right. simpl. lia.
Qed.
End DumpsFacts.

(** ** Decoding printed text *)

Lemma scan_escape_char a c t :
  scan_string (escape_char a c +:+ t) = (let? (r, rest) := scan_string t in Ok (String c r, rest)).
Proof. destruct a, c as [[] [] [] [] [] [] [] []]; reflexivity. Qed.

Lemma scan_escape a s rest : scan_string (escape a s +:+ String "034" rest) = Ok (s, rest).
Proof.
  induction s as [|c s IH]; [done|]. cbn [escape].
  rewrite string_app_assoc, scan_escape_char, IH. done.
Qed.

Lemma span_digits_app d rest :
  string_all is_ascii_digit d = true -> match rest with String c _ => is_ascii_digit c = false | _ => True end ->
  span_digits (d +:+ rest) = (d, rest).
Proof.
  intros Hd Hr. induction d as [|c d IH]; simpl in *.
  - destruct rest as [|c rest]; simpl; [done|]. by rewrite Hr.
  - apply andb_true_iff in Hd as [-> Hd]. by rewrite IH.
Qed.

Lemma delimited_head rest :
  delimited rest = true ->
  rest = "" \/ exists c r, rest = String c r /\ (c = ","%char \/ c = "]"%char \/ c = "}"%char).
Proof.
  destruct rest as [|c r]; [by left|]. simpl. intros H. right. exists c, r. split; [done|].
  destruct (code c =? 44) eqn:E1; [left; by apply code_inj, Z.eqb_eq|].
  destruct (code c =? 93) eqn:E2; [right; left; by apply code_inj, Z.eqb_eq|].
  right; right. by apply code_inj, Z.eqb_eq.
Qed.

Lemma delimited_skip rest : delimited rest = true -> skip_ws rest = rest.
Proof. intros [->|(c & r & -> & [->|[->| ->]])]%delimited_head; done. Qed.

Lemma int_limit_slen (n : N) : Z.of_N n < int_print_limit -> slen (pretty n) <= 4300.
Proof. apply pretty_N_length. lia. Qed.

Lemma digits_below_limit s :
  string_all is_ascii_digit s = true -> slen s <= 4300 -> 0 <= digits_value 0 s < int_print_limit.
Proof.
  intros Hs Hl. pose proof (digits_value_bound s Hs) as Hb.
  pose proof (Z.pow_le_mono_r 10 (slen s) 4300 ltac:(lia) Hl) as Hp. unfold int_print_limit.
  revert Hp. generalize (10 ^ 4300). intros limit Hp. lia.
Qed.

#[global] Opaque int_print_limit.

Section Roundtrip.
Context `{Host}.
Context (object_hook : list (string * json) -> res json) (parse_constant : string -> res json).
Hypothesis hook_distinct : forall items, NoDup (map fst items) -> object_hook items = Ok (JObj items).

Notation value := (scan_value object_hook parse_constant).
Notation elements := (scan_elements object_hook parse_constant).
Notation members := (scan_members object_hook parse_constant).

Lemma scan_number_pretty neg (n : N) rest :
  Z.of_N n < int_print_limit -> delimited rest = true ->
  scan_number neg (pretty n +:+ rest) = Ok (JInt (if neg then - Z.of_N n else Z.of_N n), rest).
Proof.
  intros Hn Hr. apply int_limit_slen in Hn. destruct (pretty_N_spec n) as (d & Hd & Hall & Hval & Hne & Hhd).
  rewrite Hd in *. clear Hd.
  assert (Hspan : span_digits (d +:+ rest) = (d, rest)).
  { apply span_digits_app; [done|].
    apply delimited_head in Hr as [->|(c & r & -> & [->|[->| ->]])]; done. }
  assert (Hint : match d +:+ rest with String "0" s' => ("0", s') | _ => span_digits (d +:+ rest) end = (d, rest)).
  { destruct d as [|c d]; [done|].
    destruct (decide (c = "0"%char)) as [->|Hc]; [by rewrite (Hhd d eq_refl)|].
    rewrite Hspan. simpl. destruct c as [[] [] [] [] [] [] [] []]; done. }
  unfold scan_number. rewrite Hint. 
  assert ((d == "") = false) as -> by by apply eqb_neq.
  assert (scan_fraction rest = ("", rest)) as ->
    by by apply delimited_head in Hr as [->|(c & r & -> & [->|[->| ->]])].
  assert (scan_exponent rest = ("", rest)) as ->
    by by apply delimited_head in Hr as [->|(c & r & -> & [->|[->| ->]])].
  simpl. destruct (4300 <? slen d) eqn:E; [simpl_bool; lia|]. by rewrite Hval.
Qed.

(** A printed value starts with a character that is neither white space nor a
    closing bracket. *)
Definition head_ok (s : string) : Prop := exists c t, s = String c t /\ is_ws c = false /\ c <> "]"%char.

Lemma pretty_N_head (n : N) : exists c t, pretty n = String c t /\ is_ascii_digit c = true.
Proof.
  destruct (pretty_N_spec n) as (d & -> & Hall & _ & Hne & _).
  destruct d as [|c t]; [done|]. simpl in Hall. apply andb_true_iff in Hall as [? _]. eauto.
Qed.

Lemma digit_head_ok c : is_ascii_digit c = true -> is_ws c = false /\ c <> "]"%char.
Proof. destruct c as [[] [] [] [] [] [] [] []]; done. Qed.

Lemma dumps_head a v : float_free v = true -> head_ok (dumps a v).
Proof.
  destruct v as [|[]|z|f|s|xs|items]; intros Hf; try done.
  all: try (eexists _, _; cbn [dumps]; split; [reflexivity|]; done).
  cbn [dumps]. rewrite pretty_Z_cases. destruct (z <? 0).
  - eexists _, _. split; [reflexivity|]. done.
  - destruct (pretty_N_head (Z.abs_N z)) as (c & t & -> & Hc%digit_head_ok). by exists c, t.
Qed.

Lemma head_ok_skip s r : head_ok s -> skip_ws (s +:+ r) = s +:+ r.
Proof. intros (c & t & -> & Hc & _). simpl. unfold skip_ws. simpl. by rewrite Hc. Qed.

(** The fuel decoding a printed value takes. *)
Fixpoint scan_need (v : json) : nat :=
  match v with
  | JList xs => S (foldr (fun x n => S (scan_need x) + n)%nat 0%nat xs)
  | JObj items => S (foldr (fun kv n => S (scan_need (snd kv)) + n)%nat 0%nat items)
  | _ => 1%nat
  end.

Definition scans (a : bool) (v : json) : Prop :=
  forall fuel rest, (scan_need v <= fuel)%nat -> delimited rest = true ->
    value fuel (dumps a v +:+ rest) = Ok (json_sort v, rest).

Lemma elements_step fuel s :
  elements (S fuel) s =
  (let? (x, r) := value fuel s in
   match skip_ws r with
   | String "]" r => Ok ([x], r)
   | String "," r => let? (xs, r) := elements fuel (skip_ws r) in Ok (x :: xs, r)
   | _ => decode_error
   end).
Proof. reflexivity. Qed.

Lemma join_cons (x y : string) ys : join "," (x :: y :: ys) = x +:+ String "," (join "," (y :: ys)).
Proof. reflexivity. Qed.

Lemma join_head_ok x xs : head_ok x -> head_ok (join "," (x :: xs)).
Proof.
  intros (c & t & -> & Hc). destruct xs as [|y ys]; [by exists c, t|].
  rewrite join_cons. exists c. eexists. split; [reflexivity | done].
Qed.

Lemma scan_elements_printed a xs : forall fuel rest,
  xs <> [] -> Forall (scans a) xs -> Forall (fun x => float_free x = true) xs ->
  (foldr (fun x n => S (scan_need x) + n) 0 xs <= fuel)%nat ->
  elements fuel (join "," (map (dumps a) xs) +:+ String "]" rest) = Ok (map json_sort xs, rest).
Proof.
  induction xs as [|x xs IH]; intros fuel rest Hne Hs Hff Hfuel; [done|].
  apply Forall_cons in Hs as [Hx Hs]. apply Forall_cons in Hff as [Hfx Hff]. simpl in Hfuel.
  destruct fuel as [|fuel]; [lia|]. rewrite elements_step. destruct xs as [|y xs].
  - change (join "," (map (dumps a) [x])) with (dumps a x). by rewrite Hx by (simpl; lia || done).
  - change (map (dumps a) (x :: y :: xs)) with (dumps a x :: dumps a y :: map (dumps a) xs).
    rewrite join_cons, string_app_assoc, Hx by (simpl in *; lia || done).
    change (String "," (join "," (dumps a y :: map (dumps a) xs)) +:+ String "]" rest) with
      (String "," (join "," (map (dumps a) (y :: xs)) +:+ String "]" rest)).
    cbn [res_bind]. rewrite delimited_skip by done.
    apply Forall_cons in Hff as [Hfy Hff'].
    rewrite (head_ok_skip (join "," (map (dumps a) (y :: xs)))) by by apply join_head_ok, dumps_head.
    rewrite IH; [done|done|done| |simpl in *; lia]. by constructor.
Qed.

Lemma members_step fuel s :
  members (S fuel) (String "034" s) =
  (let? (k, r) := scan_string s in
   match skip_ws r with
   | String ":" r =>
       let? (x, r) := value fuel (skip_ws r) in
       match skip_ws r with
       | String "}" r => Ok ([(k, x)], r)
       | String "," r => let? (xs, r) := members fuel (skip_ws r) in Ok ((k, x) :: xs, r)
       | _ => decode_error
       end
   | _ => decode_error
   end).
Proof. reflexivity. Qed.

Definition member_text (a : bool) (kv : string * json) : string :=
  quote a (fst kv) +:+ ":" +:+ dumps a (snd kv).

Lemma member_text_cons a kv r :
  member_text a kv +:+ r = String "034" (escape a (fst kv) +:+ String "034" (String ":" (dumps a (snd kv) +:+ r))).
Proof. unfold member_text, quote. cbn. by rewrite !string_app_assoc. Qed.

Lemma scan_members_printed a items : forall fuel rest,
  items <> [] -> Forall (fun kv => scans a (snd kv)) items ->
  Forall (fun kv => float_free (snd kv) = true) items ->
  (foldr (fun kv n => S (scan_need (snd kv)) + n) 0 items <= fuel)%nat ->
  members fuel (join "," (map (member_text a) items) +:+ String "}" rest) =
    Ok (map (fun kv => (fst kv, json_sort (snd kv))) items, rest).
Proof.
  induction items as [|kv items IH]; intros fuel rest Hne Hs Hff Hfuel; [done|].
  apply Forall_cons in Hs as [Hx Hs]. apply Forall_cons in Hff as [Hfx Hff]. simpl in Hfuel.
  destruct fuel as [|fuel]; [lia|].
  assert (Hcolon : forall r, skip_ws (String ":" r) = String ":" r) by done.
  destruct items as [|kv' items].
  - change (join "," (map (member_text a) [kv])) with (member_text a kv).
    rewrite member_text_cons, members_step, scan_escape. cbn [res_bind].
    rewrite Hcolon, head_ok_skip by by apply dumps_head.
    rewrite Hx; [|simpl in *; lia|done]. cbn [res_bind]. by rewrite delimited_skip.
  - change (map (member_text a) (kv :: kv' :: items)) with
      (member_text a kv :: member_text a kv' :: map (member_text a) items).
    rewrite join_cons, string_app_assoc, member_text_cons, members_step, scan_escape. cbn [res_bind].
    rewrite Hcolon, head_ok_skip by by apply dumps_head.
    change (String "," ?t +:+ ?r) with (String "," (t +:+ r)).
    rewrite Hx; [|simpl in *; lia|done]. cbn [res_bind]. rewrite delimited_skip by done.
    change (member_text a kv' :: map (member_text a) items) with (map (member_text a) (kv' :: items)).
    rewrite head_ok_skip by (apply join_head_ok; eexists _, _; split; [reflexivity | done]).
    rewrite IH; [done|done|done|done|simpl in *; lia].
Qed.

Lemma dumps_obj a items :
  dumps a (JObj items) = "{" +:+ join "," (map (member_text a) (sort_items items)) +:+ "}".
Proof.
  cbn [dumps]. rewrite (sort_items_map (fun kv => (fst kv, dumps a (snd kv)))) by done.
  by rewrite map_map.
Qed.

Lemma json_sort_obj items :
  json_sort (JObj items) = JObj (map (fun kv => (fst kv, json_sort (snd kv))) (sort_items items)).
Proof. cbn [json_sort]. by rewrite sort_items_map. Qed.

Lemma foldr_need_perm l1 l2 :
  l1 ≡ₚ l2 ->
  foldr (fun (kv : string * json) n => (S (scan_need (snd kv)) + n)%nat) 0%nat l1 =
  foldr (fun kv n => (S (scan_need (snd kv)) + n)%nat) 0%nat l2.
Proof. induction 1; simpl in *; lia. Qed.

Lemma head_ok_app s r : head_ok s -> head_ok (s +:+ r).
Proof. intros (c & t & -> & ?). exists c, (t +:+ r). done. Qed.

Lemma value_list fuel t :
  head_ok t ->
  value (S fuel) (String "[" t) = (let? (xs, r) := elements fuel t in Ok (JList xs, r)).
Proof.
  intros (c & t' & -> & Hws & Hc). simpl. unfold skip_ws. simpl. rewrite Hws.
  destruct c as [[] [] [] [] [] [] [] []]; done.
Qed.

Lemma value_obj fuel t :
  value (S fuel) (String "{" (String "034" t)) =
  (let? (items, r) := members fuel (String "034" t) in let? v := object_hook items in Ok (v, r)).
Proof. done. Qed.

(** Decoding the printed text of a document gives the document back, with the
    keys of its dicts in order. *)
Lemma scan_value_printed a v :
  float_free v = true -> keys_unique v = true -> printable v = true -> scans a v.
Proof.
  induction v as [|b|z|f|s|xs IH|items IH] using json_ind'; intros Hff Hku Hpr fuel rest Hfuel Hrest;
    (destruct fuel as [|fuel]; [simpl in Hfuel; lia|]).
  - done.
  - by destruct b.
  - cbn [dumps]. rewrite pretty_Z_cases, string_app_assoc.
    simpl in Hpr. simpl_bool. rewrite <- N2Z.inj_abs_N in Hpr.
    pose proof (scan_number_pretty (z <? 0) (Z.abs_N z) rest Hpr Hrest) as Hnum.
    destruct (pretty_N_head (Z.abs_N z)) as (c & t & Hc & Hdig).
    destruct (z <? 0) eqn:E; simpl_bool.
    + assert (value (S fuel) ("-" +:+ pretty (Z.abs_N z) +:+ rest) = scan_number true (pretty (Z.abs_N z) +:+ rest)) as ->.
      { rewrite Hc. simpl. destruct c as [[] [] [] [] [] [] [] []]; done. }
      rewrite Hnum. simpl. repeat f_equal. rewrite N2Z.inj_abs_N. lia.
    + assert (value (S fuel) ("" +:+ pretty (Z.abs_N z) +:+ rest) = scan_number false (pretty (Z.abs_N z) +:+ rest)) as ->.
      { rewrite Hc. simpl. destruct c as [[] [] [] [] [] [] [] []]; done. }
      rewrite Hnum. simpl. repeat f_equal. rewrite N2Z.inj_abs_N. lia.
  - done.
  - cbn [dumps]. change (value (S fuel) (quote a s +:+ rest)) with
      (let? (t, r) := scan_string ((escape a s +:+ String "034" "") +:+ rest) in Ok (JStr t, r)).
    rewrite string_app_assoc. change (String "034" "" +:+ rest) with (String "034" rest).
    by rewrite scan_escape.
  - simpl in Hff, Hku, Hpr. rewrite forallb_forall in Hff, Hku, Hpr. rewrite Forall_forall in IH.
    assert (Hs : Forall (scans a) xs).
    { apply Forall_forall. intros x Hx. pose proof Hx as Hx'. apply list_elem_of_In in Hx'. by apply IH; auto. }
    assert (Hffs : Forall (fun x => float_free x = true) xs).
    { apply Forall_forall. intros x Hx. by apply Hff, list_elem_of_In. }
    cbn [dumps]. rewrite !string_app_assoc. change ("]" +:+ rest) with (String "]" rest).
    destruct xs as [|x xs]; [done|].
    assert (Hhd : head_ok (join "," (map (dumps a) (x :: xs)))).
    { apply join_head_ok, dumps_head. by apply Forall_cons in Hffs as [? _]. }
    change ("[" +:+ ?t) with (String "[" t). rewrite value_list by by apply head_ok_app.
    rewrite scan_elements_printed; [done|done|done|done|simpl in *; lia].
  - simpl in Hff, Hku, Hpr. apply andb_true_iff in Hku as [Hnd Hku]. apply bool_decide_eq_true in Hnd.
    rewrite forallb_forall in Hff, Hku, Hpr. rewrite Forall_forall in IH.
    assert (Hin : forall kv, kv ∈ sort_items items -> In kv items).
    { intros kv Hkv. rewrite sort_items_perm in Hkv. by apply list_elem_of_In. }
    assert (Hs : Forall (fun kv => scans a (snd kv)) (sort_items items)).
    { apply Forall_forall. intros kv Hkv. pose proof (Hin kv Hkv). apply IH; auto. by apply list_elem_of_In. }
    assert (Hffs : Forall (fun kv => float_free (snd kv) = true) (sort_items items)).
    { apply Forall_forall. auto. }
    assert (Hlen : (foldr (fun kv n => S (scan_need (snd kv)) + n) 0 (sort_items items) <= fuel)%nat).
    { rewrite (foldr_need_perm _ items) by apply sort_items_perm.
      change (scan_need (JObj items)) with
        (S (foldr (fun (kv : string * json) n => (S (scan_need (snd kv)) + n)%nat) 0%nat items)) in Hfuel.
      lia. }
    rewrite <- (sort_items_keys items) in Hnd.
    rewrite dumps_obj, json_sort_obj, !string_app_assoc. change ("}" +:+ rest) with (String "}" rest).
    destruct (sort_items items) as [|kv items'].
    { simpl. by rewrite (hook_distinct []) by constructor. }
    assert (Hq : exists t, join "," (map (member_text a) (kv :: items')) +:+ String "}" rest = String "034" t).
    { destruct items'; eexists; reflexivity. }
    pose proof (scan_members_printed a (kv :: items') fuel rest) as Hm.
    destruct Hq as [t Ht]. rewrite Ht in Hm |- *. change ("{" +:+ String "034" t) with (String "{" (String "034" t)).
    rewrite value_obj, Hm by done. cbn [res_bind]. rewrite hook_distinct; [done|]. by rewrite map_map.
Qed.

(** The whole text: [json.loads(json.dumps(v, sort_keys=True))]. *)
Lemma scan_need_le_text a v : float_free v = true -> (scan_need v <= 2 * String.length (dumps a v))%nat.
Proof.
  enough (Hz : float_free v = true -> Z.of_nat (scan_need v) <= 2 * slen (dumps a v))
    by (intros Hf; specialize (Hz Hf); unfold slen in Hz; lia).
  assert (Hsum : forall A (f : A -> json) xs,
    Z.of_nat (foldr (fun x n => (S (scan_need (f x)) + n)%nat) 0%nat xs) =
    Z.of_nat (length xs) + sumZ (fun x => Z.of_nat (scan_need (f x))) xs).
  { intros A f xs. unfold sumZ. induction xs as [|x xs IHx]; cbn [foldr length]; [done|]. lia. }
  assert (Hjoin : forall xs, Z.of_nat (length xs) + sumZ slen xs <= slen (join "," xs) + 1).
  { intros xs. induction xs as [|x xs IHx]; [done|]. destruct xs as [|y ys].
    - unfold sumZ. cbn [foldr length join]. lia.
    - change (join "," (x :: y :: ys)) with (x +:+ "," +:+ join "," (y :: ys)). rewrite !slen_app.
      change (slen ",") with 1. unfold sumZ in *. cbn [foldr length] in *. lia. }
  induction v as [|b|z|f|s|xs IH|items IH] using json_ind'; intros Hf;
    try (cbn [dumps scan_need]; done).
  - by destruct b.
  - cbn [dumps scan_need]. destruct (pretty_N_head (Z.abs_N z)) as (c & t & Hc & _).
    rewrite pretty_Z_cases, slen_app, Hc, slen_cons. pose proof (slen_nonneg t).
    pose proof (slen_nonneg (if z <? 0 then "-" else "")). lia.
  - cbn [dumps scan_need]. rewrite Nat2Z.inj_succ, (Hsum _ (fun x => x)), !slen_app.
    specialize (Hjoin (map (dumps a) xs)). rewrite length_map, sumZ_map in Hjoin.
    change (slen "[") with 1. change (slen "]") with 1.
    simpl in Hf. rewrite forallb_forall in Hf. rewrite Forall_forall in IH.
    assert (sumZ (fun x => Z.of_nat (scan_need x)) xs <= sumZ (fun x => slen (dumps a x) + slen (dumps a x)) xs).
    { apply sumZ_mono. intros x Hx. assert (Z.of_nat (scan_need x) <= 2 * slen (dumps a x)); [|lia].
      apply IH; [by apply list_elem_of_In | by apply Hf]. }
    rewrite sumZ_add in *. lia.
  - rewrite dumps_obj. cbn [scan_need]. rewrite Nat2Z.inj_succ, (Hsum _ snd), !slen_app.
    specialize (Hjoin (map (member_text a) (sort_items items))).
    rewrite length_map, sumZ_map, (sumZ_perm _ _ _ (sort_items_perm items)) in Hjoin.
    rewrite (Permutation_length (sort_items_perm items)) in Hjoin.
    change (slen "{") with 1. change (slen "}") with 1.
    simpl in Hf. rewrite forallb_forall in Hf. rewrite Forall_forall in IH.
    assert (sumZ (fun kv => Z.of_nat (scan_need (snd kv))) items <=
            sumZ (fun kv => slen (member_text a kv) + slen (member_text a kv)) items).
    { apply sumZ_mono. intros kv Hkv.
      assert (Z.of_nat (scan_need (snd kv)) <= 2 * slen (dumps a (snd kv)))
        by (apply IH; [by apply list_elem_of_In | by apply Hf]).
      unfold member_text. rewrite !slen_app. pose proof (slen_quote a (fst kv)). pose proof (slen_nonneg (fst kv)).
      change (slen ":") with 1. lia. }
    rewrite sumZ_add in *. lia.
Qed.

Lemma loads_dumps a v :
  float_free v = true -> keys_unique v = true -> printable v = true ->
  loads_with object_hook parse_constant (dumps a v) = Ok (json_sort v).
Proof.
  intros Hf Hk Hp. unfold loads_with.
  pose proof (dumps_head a v Hf) as Hh. pose proof (head_ok_skip _ "" Hh) as Hs.
  rewrite string_app_nil_r in Hs. rewrite Hs.
  pose proof (scan_value_printed a v Hf Hk Hp (S (2 * String.length (dumps a v))) "") as Hv.
  rewrite string_app_nil_r in Hv. rewrite Hv; [done| |done].
  pose proof (scan_need_le_text a v Hf). lia.
Qed.
End Roundtrip.

Lemma dict_set_fresh {A} k (v : A) d : ~ In k (map fst d) -> dict_set k v d = d ++ [(k, v)].
Proof.
  induction d as [|[k' v'] d IH]; simpl; [done|]. intros Hk. destruct (k == k') eqn:E; [simpl_bool; subst; by destruct Hk; left|].
  rewrite IH by (intros ?; apply Hk; by right). done.
Qed.

Lemma dict_of_pairs_distinct items : NoDup (map fst items) -> dict_of_pairs items = JObj items.
Proof.
  intros Hnd. unfold dict_of_pairs. f_equal.
  assert (Hgo : forall d, NoDup (map fst (d ++ items)) ->
    fold_left (fun d (kv : string * json) => dict_set (fst kv) (snd kv) d) items d = d ++ items); [|by apply Hgo].
  clear Hnd. induction items as [|[k v] items IH]; intros d Hnd; simpl; [by rewrite app_nil_r|].
  rewrite dict_set_fresh.
  - rewrite IH; [|rewrite <- app_assoc; done]. by rewrite <- app_assoc.
  - rewrite map_app, NoDup_app in Hnd. destruct Hnd as (_ & Hd & _). intros Hk. apply (Hd k).
    + by apply list_elem_of_In.
    + simpl. apply list_elem_of_here.
Qed.

(** [json.loads] inverts [json.dumps(sort_keys=True)]. *)
Lemma loads_printed `{Host} a v : float_free v = true -> keys_unique v = true -> printable v = true ->
  loads (dumps a v) = Ok (json_sort v).
Proof.
  intros Hf Hk Hp. unfold loads. apply loads_dumps; try done.
  intros items Hnd. by rewrite dict_of_pairs_distinct.
Qed.

(** ** What was parsed can be printed *)

Lemma span_digits_all s : string_all is_ascii_digit (fst (span_digits s)) = true.
Proof.
  induction s as [|c s IH]; [done|]. simpl. destruct (is_ascii_digit c) eqn:E; [|done].
  destruct (span_digits s) as [d r]. simpl in *. by rewrite E.
Qed.

Section Printable.
Context `{Host}.
Variable object_hook : list (string * json) -> res json.
Variable parse_constant : string -> res json.
Hypothesis hook_printable : forall items v,
  forallb (fun kv => printable (snd kv)) items = true -> object_hook items = Ok v -> printable v = true.
Hypothesis constant_printable : forall name v, parse_constant name = Ok v -> printable v = true.

Lemma scan_number_printable neg s v r : scan_number neg s = Ok (v, r) -> printable v = true.
Proof.
  unfold scan_number. set (p := match s with String "0" s' => ("0", s') | _ => span_digits s end).
  assert (Hp : string_all is_ascii_digit (fst p) = true).
  { subst p. pose proof (span_digits_all s). destruct s as [|c s]; [done|].
    by destruct c as [[] [] [] [] [] [] [] []]. }
  destruct p as [int_part r1]. cbn [fst] in Hp. destruct (int_part == ""); [done|].
  destruct (scan_fraction r1) as [frac r2]. destruct (scan_exponent r2) as [ex r3].
  destruct ((frac == "") && (ex == "")); [|by intros [= <- _]].
  destruct (4300 <? slen int_part) eqn:El; [done|]. intros Hv.
  pose proof (digits_below_limit int_part Hp) as Hz. simpl_bool. specialize (Hz ltac:(lia)).
  injection Hv as <- _. cbn [printable]. revert Hz. generalize int_print_limit. destruct neg; intros; lia.
Qed.

Lemma expect_printable lit v s w r :
  (forall x, v = Ok x -> printable x = true) -> expect lit v s = Ok (w, r) -> printable w = true.
Proof.
  unfold expect. intros Hv. destruct (strip_prefix lit s); [|done]. intros Hw.
  apply res_bind_ok in Hw as (x & Hx & [= <- <-]). by apply Hv.
Qed.

Notation value := (scan_value object_hook parse_constant).
Notation elements := (scan_elements object_hook parse_constant).
Notation members := (scan_members object_hook parse_constant).

Lemma scan_printable fuel :
  (forall s v r, value fuel s = Ok (v, r) -> printable v = true) /\
  (forall s xs r, elements fuel s = Ok (xs, r) -> forallb printable xs = true) /\
  (forall s items r, members fuel s = Ok (items, r) -> forallb (fun kv => printable (snd kv)) items = true).
Proof.
  induction fuel as [|fuel (IHv & IHe & IHm)]; [done|].
  assert (Hconst : forall name x, parse_constant name = Ok x -> printable x = true) by apply constant_printable.
  split; [|split].
  - intros [|c s] v r; [done|]. cbn [scan_value].
    destruct (code c =? 34); [intros ((t & r') & _ & [= <- _])%res_bind_ok; done|].
    destruct (code c =? 123).
    { intros Hv. assert (Hh : exists items, forallb (fun kv => printable (snd kv)) items = true /\ object_hook items = Ok v).
      { destruct (skip_ws s) as [|d s']; [|destruct (Ascii.eqb_spec d "}"%char) as [->|Hd]].
        - apply res_bind_ok in Hv as ((items & r') & Hm & Hv). apply res_bind_ok in Hv as (x & Hx & [= <- _]).
          exists items. split; [by eapply IHm|done].
        - apply res_bind_ok in Hv as (x & Hx & [= <- _]). by exists [].
        - assert (Hv' : (let? (items, r) := members fuel (String d s') in let? v := object_hook items in Ok (v, r)) = Ok (v, r)).
          { rewrite <- Hv. by destruct d as [[] [] [] [] [] [] [] []]. }
          apply res_bind_ok in Hv' as ((items & r') & Hm & Hv'). apply res_bind_ok in Hv' as (x & Hx & [= <- _]).
          exists items. split; [by eapply IHm|done]. }
      destruct Hh as (items & Hi & Hx). by eapply hook_printable. }
    destruct (code c =? 91).
    { intros Hv. destruct (skip_ws s) as [|d s'].
      - apply res_bind_ok in Hv as ((xs & r') & Hm & [= <- _]). cbn [printable]. by eapply IHe.
      - destruct (Ascii.eqb_spec d "]"%char) as [->|Hd]; [by injection Hv as <- _|].
        assert (Hv' : (let? (xs, r) := elements fuel (String d s') in Ok (JList xs, r)) = Ok (v, r)).
        { rewrite <- Hv. by destruct d as [[] [] [] [] [] [] [] []]. }
        apply res_bind_ok in Hv' as ((xs & r') & Hm & [= <- _]). cbn [printable]. by eapply IHe. }
    repeat (match goal with |- (if ?b then expect _ _ _ else _) = _ -> _ => destruct b end;
      [intros Hv; eapply expect_printable; [|exact Hv]; first [by intros ? [= <-] | apply Hconst]|]).
    destruct (code c =? 45).
    { intros Hv. assert (Hv' : expect "-Infinity" (parse_constant "-Infinity") (String c s) = Ok (v, r) \/
        scan_number true s = Ok (v, r)).
      { destruct s as [|d s']; [by right|]. destruct d as [[] [] [] [] [] [] [] []]; first [by right|by left]. }
      destruct Hv' as [Hv'|Hv']; [eapply expect_printable; [|exact Hv']; apply Hconst|by eapply scan_number_printable]. }
    destruct (is_ascii_digit c); [|done]. apply scan_number_printable.
  - intros s xs r. cbn [scan_elements]. intros ((x & r1) & Hx & Hv)%res_bind_ok. apply IHv in Hx.
    destruct (skip_ws r1) as [|d s']; [done|]. 
    assert (Hv' : xs = [x] \/ (let? (xs, r) := elements fuel (skip_ws s') in Ok (x :: xs, r)) = Ok (xs, r)).
    { revert Hv. destruct d as [[] [] [] [] [] [] [] []]; try done; intros Hv; first [by right | injection Hv as <- _; by left]. }
    destruct Hv' as [->|Hv']; [simpl; by rewrite Hx|].
    apply res_bind_ok in Hv' as ((ys & r') & Hm & [= <- _]). simpl. rewrite Hx. by eapply IHe.
  - intros [|c s] items r; [done|]. cbn [scan_members]. destruct (code c =? 34); [|done].
    intros ((k & r1) & _ & Hv)%res_bind_ok. destruct (skip_ws r1) as [|d s']; [done|].
    assert (Hv' : (let? (x, r) := value fuel (skip_ws s') in
      match skip_ws r with
      | String "}" r => Ok ([(k, x)], r)
      | String "," r => let? (xs, r) := members fuel (skip_ws r) in Ok ((k, x) :: xs, r)
      | _ => decode_error
      end) = Ok (items, r)).
    { revert Hv. by destruct d as [[] [] [] [] [] [] [] []]. }
    clear Hv. apply res_bind_ok in Hv' as ((x & r2) & Hx & Hv). apply IHv in Hx.
    destruct (skip_ws r2) as [|e s'']; [done|].
    assert (Hv' : items = [(k, x)] \/ (let? (xs, r) := members fuel (skip_ws s'') in Ok ((k, x) :: xs, r)) = Ok (items, r)).
    { revert Hv. destruct e as [[] [] [] [] [] [] [] []]; try done; intros Hv; first [by right | injection Hv as <- _; by left]. }
    destruct Hv' as [->|Hv']; [simpl; by rewrite Hx|].
    apply res_bind_ok in Hv' as ((ys & r') & Hm & [= <- _]). simpl. rewrite Hx. by eapply IHm.
Qed.
End Printable.

Lemma dict_set_printable k v d :
  printable v = true -> forallb (fun kv => printable (snd kv)) d = true ->
  forallb (fun kv => printable (snd kv)) (dict_set k v d) = true.
Proof.
  intros Hv. induction d as [|[k' v'] d IH]; simpl; [by rewrite Hv|]. intros [Hv' Hd]%andb_true_iff.
  destruct (k == k'); simpl; [by rewrite Hv, Hd|]. by rewrite Hv', IH.
Qed.

(** [json.loads] makes no integer that [json.dumps] refuses. *)
Lemma loads_printable `{Host} s v : loads s = Ok v -> printable v = true.
Proof.
  unfold loads, loads_with. intros ((w & r) & Hw & Hv)%res_bind_ok.
  assert (w = v) as -> by (destruct (skip_ws r); [by injection Hv|discriminate Hv]).
  eapply scan_printable in Hw; [done| |by intros name x [= <-]].
  intros items x Hi [= <-]. unfold dict_of_pairs. cbn [printable].
  assert (Hgo : forall d, forallb (fun kv => printable (snd kv)) d = true ->
    forallb (fun kv => printable (snd kv)) (fold_left (fun d (kv : string * json) => dict_set (fst kv) (snd kv) d) items d) = true);
    [|by apply Hgo].
  induction items as [|[k y] items IH]; intros d Hd; [done|]. simpl in Hi |- *. apply andb_true_iff in Hi as [Hy Hi].
  apply IH; [done|]. by apply dict_set_printable.
Qed.
