(* ===== verification/Canonical.v ===== *)
(** * The canonical encoding

    What [src/cops/evidence/canonical.py] guarantees to its callers: [canonical]
    is the reference encoding on exactly the documents within its bounds, it
    identifies documents up to the order of dict keys and nothing more, and
    [decode_json] inverts it. *)

From S2P Require Import Prelude PyStr Json JsonParse JsonFacts.

(** ** Documents up to key order *)

#[export] Instance json_equiv_equivalence : Equivalence json_equiv.
Proof.
  unfold json_equiv. split; [done | by intros ?? -> | by intros ??? -> ->].
Qed.

Section Equiv.
Context `{Host}.

Lemma map_ext_Forall {A B} (f g : A -> B) xs : Forall (fun x => f x = g x) xs -> map f xs = map g xs.
Proof. induction 1; simpl; congruence. Qed.

Lemma dumps_json_sort a v : dumps a (json_sort v) = dumps a v.
Proof.
  induction v as [|b|z|f|s|xs IH|items IH] using json_ind'; try done.
  - cbn [json_sort dumps]. rewrite map_map. by rewrite (map_ext_Forall _ (dumps a)).
  - rewrite json_sort_obj, !dumps_obj, sort_items_map, sort_items_idemp, map_map by done.
    do 3 f_equal. apply map_ext_Forall. rewrite sort_items_perm.
    eapply Forall_impl; [exact IH|]. intros kv Hkv. unfold member_text. simpl. by rewrite Hkv.
Qed.

Lemma forallb_perm {A} (p : A -> bool) xs ys : xs ≡ₚ ys -> forallb p xs = forallb p ys.
Proof. induction 1; simpl; try congruence. by rewrite !andb_assoc, (andb_comm (p y)). Qed.

Lemma forallb_map_Forall {A B} (p : B -> bool) (q : A -> bool) (f : A -> B) xs :
  Forall (fun x => p (f x) = q x) xs -> forallb p (map f xs) = forallb q xs.
Proof. induction 1; simpl; congruence. Qed.

(** A predicate decided node by node does not depend on the order of keys. *)
Ltac sort_invariant IH :=
  cbn [json_sort printable all_finite float_free];
  rewrite ?(forallb_perm _ _ _ (sort_items_perm _)); by apply forallb_map_Forall.

Lemma printable_json_sort v : printable (json_sort v) = printable v.
Proof. induction v using json_ind'; try done; sort_invariant H0. Qed.

Lemma all_finite_json_sort v : all_finite (json_sort v) = all_finite v.
Proof. induction v using json_ind'; try done; sort_invariant H0. Qed.

Lemma float_free_json_sort v : float_free (json_sort v) = float_free v.
Proof. induction v using json_ind'; try done; sort_invariant H0. Qed.

Lemma foldr_max_perm {A} (f : A -> Z) xs ys :
  xs ≡ₚ ys -> foldr (fun x d => Z.max (f x) d) 0 xs = foldr (fun x d => Z.max (f x) d) 0 ys.
Proof. induction 1; simpl; lia. Qed.

Lemma foldr_max_map {A B} (f : B -> Z) (g : A -> Z) (h : A -> B) xs :
  Forall (fun x => f (h x) = g x) xs ->
  foldr (fun x d => Z.max (f x) d) 0 (map h xs) = foldr (fun x d => Z.max (g x) d) 0 xs.
Proof. induction 1; simpl; lia. Qed.

Lemma json_depth_json_sort v : json_depth (json_sort v) = json_depth v.
Proof.
  induction v as [|b|z|f|s|xs IH|items IH] using json_ind'; try done; cbn [json_sort json_depth]; f_equal.
  - by apply foldr_max_map.
  - rewrite (foldr_max_perm _ _ _ (sort_items_perm _)). by apply foldr_max_map.
Qed.

Lemma float_free_all_finite v : float_free v = true -> all_finite v = true.
Proof.
  induction v as [|b|z|f|s|xs IH|items IH] using json_ind'; intros Hf; try done;
    simpl in Hf |- *; rewrite forallb_forall in Hf |- *; rewrite list.Forall_forall in IH; intros x Hx;
    (apply IH; [by apply list_elem_of_In | by apply Hf]).
Qed.

#[export] Instance dumps_proper a : Proper (json_equiv ==> eq) (dumps a).
Proof. intros v w Hvw. by rewrite <- (dumps_json_sort a v), <- (dumps_json_sort a w), Hvw. Qed.

Lemma json_equiv_dumps a v w :
  float_free v = true -> keys_unique v = true -> printable v = true ->
  float_free w = true -> keys_unique w = true -> printable w = true ->
  dumps a v = dumps a w -> json_equiv v w.
Proof.
  intros Hv1 Hv2 Hv3 Hw1 Hw2 Hw3 Heq.
  pose (hook := fun items : list (string * json) => Ok (JObj items)).
  pose proof (loads_dumps hook (fun _ => Ok JNull) (fun _ _ => eq_refl) a v Hv1 Hv2 Hv3) as Hv.
  pose proof (loads_dumps hook (fun _ => Ok JNull) (fun _ _ => eq_refl) a w Hw1 Hw2 Hw3) as Hw.
  rewrite Heq, Hw in Hv. by injection Hv.
Qed.
End Equiv.

(** ** Bytes *)

Lemma encode_utf8_app a b : encode_utf8 (a +:+ b) = encode_utf8 a +:+ encode_utf8 b.
Proof. induction a as [|c a IH]; simpl; [done|]. rewrite IH. by destruct (code c <? 128). Qed.

Lemma decode_encode_char c r :
  decode_utf8 (encode_utf8 (String c "") +:+ r) = String c <$> decode_utf8 r.
Proof. destruct c as [[] [] [] [] [] [] [] []]; reflexivity. Qed.

Lemma decode_encode_utf8 s : decode_utf8 (encode_utf8 s) = Some s.
Proof.
  induction s as [|c s IH]; [done|].
  change (String c s) with (String c "" +:+ s). by rewrite encode_utf8_app, decode_encode_char, IH.
Qed.

#[export] Instance encode_utf8_inj : Inj (=) (=) encode_utf8.
Proof. intros a b H. enough (Some a = Some b) by congruence. by rewrite <- !decode_encode_utf8, H. Qed.

(** ** The depth scan of the decoder *)

Section DepthScan.
Context `{Host}.
Variable max_depth : Z.

Notation scan := (depth_scan max_depth).

Lemma depth_scan_escape a d s r :
  scan d true false (encode_utf8 (escape a s) +:+ r) = scan d true false r.
Proof.
  assert (Hc : forall c t, scan d true false (encode_utf8 (escape_char a c) +:+ t) = scan d true false t)
    by (intros c t; destruct a, c as [[] [] [] [] [] [] [] []]; reflexivity).
  revert r. induction s as [|c s IH]; intros r; [done|].
  cbn [escape]. by rewrite encode_utf8_app, string_app_assoc, Hc, IH.
Qed.

Lemma depth_scan_quote a d s r : scan d false false (encode_utf8 (quote a s) +:+ r) = scan d false false r.
Proof.
  unfold quote. change (String "034" ?x) with (String "034" "" +:+ x).
  rewrite !encode_utf8_app, !string_app_assoc.
  change (scan d false false (encode_utf8 (String "034" "") +:+ ?x)) with (scan d true false x).
  by rewrite depth_scan_escape.
Qed.

Lemma depth_scan_digits d s r :
  string_all is_ascii_digit s = true -> scan d false false (encode_utf8 s +:+ r) = scan d false false r.
Proof.
  revert r. induction s as [|c s IH]; intros r Hs; [done|].
  simpl in Hs. apply andb_true_iff in Hs as [Hc Hs].
  change (String c s) with (String c "" +:+ s). rewrite encode_utf8_app, string_app_assoc.
  rewrite <- (IH r Hs). revert Hc. destruct c as [[] [] [] [] [] [] [] []]; done.
Qed.

Lemma depth_scan_join {A} (f : A -> string) xs d r :
  Forall (fun x => forall r, scan d false false (encode_utf8 (f x) +:+ r) = scan d false false r) xs ->
  scan d false false (encode_utf8 (join "," (map f xs)) +:+ r) = scan d false false r.
Proof.
  induction xs as [|x xs IH]; intros Hxs; [done|]. apply Forall_cons in Hxs as [Hx Hxs].
  destruct xs as [|y ys]; [apply Hx|].
  change (map f (x :: y :: ys)) with (f x :: f y :: map f ys). rewrite join_cons.
  change (String "," ?t) with (String "," "" +:+ t). rewrite !encode_utf8_app, !string_app_assoc, Hx.
  change (scan d false false (encode_utf8 (String "," "") +:+ ?x)) with (scan d false false x).
  by apply IH.
Qed.

Lemma depth_scan_printed a v : forall d r,
  float_free v = true -> d + json_depth v <= max_depth ->
  scan d false false (encode_utf8 (dumps a v) +:+ r) = scan d false false r.
Proof.
  induction v as [|b|z|f|s|xs IH|items IH] using json_ind'; intros d r Hf Hd; try done.
  - by destruct b.
  - cbn [dumps]. destruct (pretty_N_spec (Z.abs_N z)) as (t & Ht & Hall & _).
    rewrite pretty_Z_cases, Ht, encode_utf8_app, string_app_assoc.
    rewrite <- (depth_scan_digits d t r Hall). by destruct (z <? 0).
  - apply depth_scan_quote.
  - simpl in Hf, Hd. rewrite forallb_forall in Hf. rewrite Forall_forall in IH.
    pose proof (foldr_depth_nonneg id xs) as Hnn. unfold id in Hnn.
    cbn [dumps]. rewrite !encode_utf8_app, !string_app_assoc.
    change (scan d false false (encode_utf8 "[" +:+ ?t)) with
      (raise_if max_depth <? d + 1 as EvidenceError msg "payload_limit" ;; scan (d + 1) false false t).
    destruct (max_depth <? d + 1) eqn:E; [simpl_bool; lia|].
    rewrite depth_scan_join.
    + change (scan (d + 1 - 1) false false r = scan d false false r). f_equal. lia.
    + apply Forall_forall. intros x Hx r'. apply IH; [done|by apply Hf, list_elem_of_In|].
      pose proof (proj1 (foldr_max_le json_depth xs (max_depth - d - 1) ltac:(lia)) ltac:(lia)) as Hall.
      rewrite Forall_forall in Hall. specialize (Hall x Hx). simpl in Hall. lia.
  - simpl in Hf, Hd. rewrite forallb_forall in Hf. rewrite Forall_forall in IH.
    pose proof (foldr_depth_nonneg snd items) as Hnn.
    rewrite dumps_obj, !encode_utf8_app, !string_app_assoc.
    change (scan d false false (encode_utf8 "{" +:+ ?t)) with
      (raise_if max_depth <? d + 1 as EvidenceError msg "payload_limit" ;; scan (d + 1) false false t).
    destruct (max_depth <? d + 1) eqn:E; [simpl_bool; lia|].
    rewrite depth_scan_join.
    + change (scan (d + 1 - 1) false false r = scan d false false r). f_equal. lia.
    + apply Forall_forall. intros kv Hkv r'. rewrite sort_items_perm in Hkv. unfold member_text.
      rewrite !encode_utf8_app, !string_app_assoc, depth_scan_quote.
      change (scan (d + 1) false false (encode_utf8 ":" +:+ ?x)) with (scan (d + 1) false false x).
      apply IH; [done|by apply Hf, list_elem_of_In|].
      destruct (foldr_max_le (fun kv => json_depth (snd kv)) items (max_depth - d - 1)) as [Hall _]; [lia|].
      cbv beta in Hall. specialize (Hall ltac:(lia)). rewrite list.Forall_forall in Hall. specialize (Hall kv Hkv). simpl in Hall. lia.
Qed.
End DepthScan.

Lemma reject_duplicates_distinct seen items :
  NoDup (map fst (seen ++ items)) -> reject_duplicates seen items = Ok (JObj (seen ++ items)).
Proof.
  revert seen. induction items as [|[k v] items IH]; intros seen Hnd; simpl; [by rewrite app_nil_r|].
  destruct (mem k (map fst seen)) eqn:E.
  - exfalso. apply mem_In, list_elem_of_In in E. rewrite map_app, NoDup_app in Hnd.
    destruct Hnd as (_ & Hdis & _). apply (Hdis k E). simpl. apply list_elem_of_here.
  - rewrite IH, <- app_assoc by (by rewrite <- app_assoc). done.
Qed.

(** ** Properties *)

(** A concrete host for the witnesses: it prints every float alike, and its
    digests are the text itself. *)
Definition demo_host : Host := {|
  float_repr := fun _ => "0.5";
  float_parse := fun _ => PyFin 1 (-1);
  sha256_hex := fun text => text;
  hmac_sha256_hex := fun key text => key +:+ ":" +:+ text;
  dumps_recurses := fun _ => false;
  loads_recurses := fun _ => false;
|}.

(** Hexadecimal text. *)
Definition hex_text (s : string) : string :=
  String.concat "" (map (fun c => String (hex_digit (code c / 16)) (String (hex_digit (code c mod 16)) ""))
                        (String.list_ascii_of_string s)).

Lemma hex_pair_ascii c :
  (code (hex_digit (code c / 16)) <? 128) && (code (hex_digit (code c mod 16)) <? 128) = true.
Proof. destruct c as [[] [] [] [] [] [] [] []]; reflexivity. Qed.

Definition unhex_digit (c : ascii) : Z := let n := code c in if n <? 58 then n - 48 else n - 87.

Lemma unhex_pair c :
  chr (16 * unhex_digit (hex_digit (code c / 16)) + unhex_digit (hex_digit (code c mod 16))) = c.
Proof. destruct c as [[] [] [] [] [] [] [] []]; reflexivity. Qed.

Lemma hex_text_cons c s :
  hex_text (String c s) = String (hex_digit (code c / 16)) (String (hex_digit (code c mod 16)) (hex_text s)).
Proof. destruct s; reflexivity. Qed.

Lemma hex_text_inj : Inj (=) (=) hex_text.
Proof.
  intros a. induction a as [|c a IH]; intros [|d b]; rewrite ?hex_text_cons; try done.
  intros [= E1 E2 E3]. f_equal; [|by apply IH]. rewrite <- (unhex_pair c), <- (unhex_pair d). by rewrite E1, E2.
Qed.

(** A host whose digest is the hexadecimal form of the text: collision free and ASCII. *)
Definition hex_host : Host := {|
  float_repr := fun _ => "0.5";
  float_parse := fun _ => PyFin 1 (-1);
  sha256_hex := hex_text;
  hmac_sha256_hex := fun key text => hex_text text;
  dumps_recurses := fun _ => false;
  loads_recurses := fun _ => false;
|}.

Definition hex_host_ok : @HostOk hex_host.
Proof. constructor. intros f _. done. Defined.

(** The document of the witnesses, its keys in two orders. *)
Definition demo_document : json :=
  JObj [("tool", JStr "nmap"); ("args", JList [JInt (-3); JBool true; JNull; JStr (String "034" "b")])].
Definition demo_document_shuffled : json :=
  JObj [("args", JList [JInt (-3); JBool true; JNull; JStr (String "034" "b")]); ("tool", JStr "nmap")].

#[export] Instance demo_host_ok : @HostOk demo_host.
Proof. constructor. intros f _. done. Defined.

Section Properties.
Context `{HostOk}.

(** C32. [canonical] computes the reference encoding, the UTF-8 bytes of
    [json.dumps(sort_keys=True)], on exactly the documents of bounded depth,
    finite floats, printable integers and bounded encoded length; on every other
    input it raises [EvidenceError].  In particular the iterative preflight never
    rejects a document whose encoding fits, and its loop always ends. *)
Theorem canonical_exact (v : json) (max_bytes max_depth : Z) :
  (forall t, canonical_bounded v max_bytes max_depth = Ok t <->
     valid_limits max_bytes max_depth = true /\ json_depth v <= max_depth /\ all_finite v = true /\
     printable v = true /\ t = encode_utf8 (dumps false v) /\ slen t <= max_bytes) /\
  (forall e, canonical_bounded v max_bytes max_depth = Raise e -> exc_cls e = EvidenceError).
Proof.
  split; [intros t; apply canonical_bounded_ok|]. intros e. unfold canonical_bounded.
  destruct (negb _); [by intros [= <-]|].
  destruct (canonical_scan _ _ _ _ _ _) eqn:Hs; simpl.
  - destruct (negb _); [by intros [= <-]|]. destruct (max_bytes <? _); by intros [= <-].
  - intros [= ->]. eapply canonical_scan_error, Hs. unfold pending_nodes. simpl. lia.
Qed.

Lemma canonical_equiv v w mb1 md1 mb2 md2 t :
  float_free v = true -> keys_unique v = true -> float_free w = true -> keys_unique w = true ->
  canonical_bounded v mb1 md1 = Ok t -> canonical_bounded w mb2 md2 = Ok t -> json_equiv v w.
Proof.
  intros Hfv Hkv Hfw Hkw (_ & _ & _ & Hpv & -> & _)%canonical_bounded_ok
    (_ & _ & _ & Hpw & Heq%(inj encode_utf8) & _)%canonical_bounded_ok.
  by apply (json_equiv_dumps false).
Qed.

Lemma digest_equiv v w mb1 md1 mb2 md2 d :
  Inj (=) (=) sha256_hex ->
  float_free v = true -> keys_unique v = true -> float_free w = true -> keys_unique w = true ->
  digest_bounded v mb1 md1 = Ok d -> digest_bounded w mb2 md2 = Ok d -> json_equiv v w.
Proof.
  unfold digest_bounded. intros Hinj Hfv Hkv Hfw Hkw (t & Hv & [= Ht])%res_bind_ok (u & Hw & [= Hu])%res_bind_ok.
  rewrite <- Hu in Ht. apply (inj sha256_hex) in Ht as ->. by eapply canonical_equiv.
Qed.

(** The canonical encoding identifies two documents exactly when they are
    equal up to the order of dict keys. *)
Theorem canonical_injective (v w : json) (t u : string) :
  float_free v = true -> keys_unique v = true -> float_free w = true -> keys_unique w = true ->
  canonical v = Ok t -> canonical w = Ok u -> t = u <-> json_equiv v w.
Proof.
  intros Hfv Hkv Hfw Hkw Hv Hw. split; [intros ->; by eapply canonical_equiv|]. intros Heq.
  apply canonical_bounded_ok in Hw as (_ & _ & _ & _ & -> & _), Hv as (_ & _ & _ & _ & -> & _). by rewrite Heq.
Qed.

(** C31. [decode_json] inverts [canonical]: the hardened decoder (duplicate keys,
    depth scan, UTF-8, re-encoding bound) accepts every canonical encoding of a
    float-free document and returns that document with its keys sorted. *)
Theorem decode_canonical (v : json) (t : string) (max_bytes max_depth : Z) :
  float_free v = true -> keys_unique v = true ->
  canonical_bounded v max_bytes max_depth = Ok t ->
  decode_json t max_bytes max_depth = Ok (json_sort v).
Proof.
  intros Hf Hk Hc. pose proof Hc as (Hl & Hd & Hfin & Hp & -> & Hlen)%canonical_bounded_ok.
  unfold decode_json. rewrite Hl. simpl.
  destruct (max_bytes <? _) eqn:E; [simpl_bool; lia|].
  pose proof (depth_scan_printed max_depth false v 0 "" Hf ltac:(lia)) as Hs.
  rewrite string_app_nil_r in Hs. rewrite Hs. simpl. rewrite decode_encode_utf8.
  rewrite (loads_dumps _ _ (fun items Hnd => reject_duplicates_distinct [] items Hnd)) by done.
  simpl. replace (canonical_bounded _ _ _) with (Ok (encode_utf8 (dumps false v))); [done|].
  symmetry. apply canonical_bounded_ok.
  rewrite json_depth_json_sort, all_finite_json_sort, printable_json_sort, dumps_json_sort.
  unfold valid_limits in Hl |- *. simpl_bool. repeat split; try done; [|lia].
  rewrite !andb_true_iff, Z.ltb_lt, !Z.leb_le. lia.
Qed.

(** A digest binds its document: for a collision-free hash, two documents
    have the same digest, if they have one, exactly when they are equal up to the
    order of dict keys. *)
Theorem digest_binds (v w : json) (d e : string) :
  Inj (=) (=) sha256_hex ->
  float_free v = true -> keys_unique v = true -> float_free w = true -> keys_unique w = true ->
  digest v = Ok d -> digest w = Ok e -> d = e <-> json_equiv v w.
Proof.
  intros Hinj Hfv Hkv Hfw Hkw Hv Hw. split; [intros ->; by eapply digest_equiv|]. intros Heq.
  apply res_bind_ok in Hv as (t & Ht & [= <-]), Hw as (u & Hu & [= <-]).
  apply canonical_bounded_ok in Ht as (_ & _ & _ & _ & -> & _), Hu as (_ & _ & _ & _ & -> & _). by rewrite Heq.
Qed.
End Properties.

Lemma canonical_exact_witness :
  @canonical_bounded demo_host demo_document 1000 2 =
    Ok (encode_utf8 (@dumps demo_host false demo_document)) /\
  @canonical_bounded demo_host demo_document 1000 1 <> Ok (encode_utf8 (@dumps demo_host false demo_document)).
Proof.
  split.
  - apply (proj1 (@canonical_exact demo_host demo_host_ok demo_document 1000 2)).
    repeat split; try (vm_compute; reflexivity). vm_compute. discriminate.
    vm_compute. discriminate.
  - intros Hc. apply (proj1 (@canonical_exact demo_host demo_host_ok demo_document 1000 1)) in Hc.
    destruct Hc as (_ & Hd & _). vm_compute in Hd. by apply Hd.
Defined.

Lemma canonical_injective_witness :
  float_free demo_document = true /\
  json_equiv demo_document demo_document_shuffled.
Proof.
  split; [reflexivity|].
  refine (proj1 (@canonical_injective demo_host demo_host_ok demo_document demo_document_shuffled _ _
    _ _ _ _ _ _) _); [vm_compute; reflexivity..|]. vm_compute. reflexivity.
Defined.

Lemma decode_canonical_witness :
  @decode_json demo_host (encode_utf8 (@dumps demo_host false demo_document)) 1000 8 =
  Ok (json_sort demo_document).
Proof. apply (@decode_canonical demo_host demo_host_ok); vm_compute; reflexivity. Defined.

Lemma digest_binds_witness : json_equiv demo_document demo_document_shuffled.
Proof.
  refine (proj1 (@digest_binds demo_host demo_host_ok demo_document demo_document_shuffled
    (encode_utf8 (@dumps demo_host false demo_document)) (encode_utf8 (@dumps demo_host false demo_document))
    _ _ _ _ _ _ _) eq_refl);
    first [vm_compute; reflexivity | intros a b Heq; exact Heq].
Defined.
