(* ===== verification/Documents.v ===== *)
(** * Dicts as documents

    Lookups in dicts given by their items: dicts with the same entries, parts of a
    dict selected by key, and what the digest of such a part determines. *)

From S2P Require Import Prelude PyStr Json JsonFacts Canonical.

(** ** Lookups *)

Lemma assoc_app {A} k (l r : list (string * A)) :
  assoc k (l ++ r) = match assoc k l with Some v => Some v | None => assoc k r end.
Proof. induction l as [|[k' v] l IH]; simpl; [done|]. by destruct (k == k'). Qed.

Lemma assoc_none {A} k (l : list (string * A)) : assoc k l = None <-> ~ In k (map fst l).
Proof.
  induction l as [|[k' v] l IH]; simpl; [tauto|]. destruct (k == k') eqn:E; simpl_bool.
  - subst. split; [done|tauto].
  - rewrite IH. split; [intros ? [->|?]; tauto | tauto].
Qed.

(** Dicts with the same entries have the same items. *)
Lemma assoc_ext_perm {A} (l1 l2 : list (string * A)) :
  NoDup (map fst l1) -> NoDup (map fst l2) -> (forall k, assoc k l1 = assoc k l2) -> l1 ≡ₚ l2.
Proof.
  intros H1 H2 Heq. apply NoDup_Permutation; [by eapply NoDup_fmap_1.. |].
  intros [k v]. rewrite !list_elem_of_In, <- !assoc_In_nodup by done. by rewrite Heq.
Qed.

Lemma json_equiv_perm items items' : NoDup (map fst items) -> items ≡ₚ items' -> json_equiv (JObj items) (JObj items').
Proof.
  intros Hnd Hp. unfold json_equiv. rewrite !json_sort_obj. by rewrite (sort_items_perm_eq items items').
Qed.

(** ** Tactics for literal keys *)

(** Decide equalities of literal keys. *)
Ltac eval_keys :=
  repeat match goal with
  | |- context [@eqb string ?i ?a ?b] =>
      let r := eval vm_compute in (@eqb string i a b) in change (@eqb string i a b) with r; cbv iota
  end.

(** ** Parts of a dict *)

(** [{k: v for k, v in d.items() if p(k)}]. *)
Definition select {A} (p : string -> bool) (items : list (string * A)) : list (string * A) :=
  List.filter (fun kv => p (fst kv)) items.

Lemma assoc_select {A} p k (items : list (string * A)) : assoc k (select p items) = if p k then assoc k items else None.
Proof.
  induction items as [|[k' v] items IH]; simpl; [by destruct (p k)|].
  destruct (p k') eqn:Ep; simpl; rewrite IH.
  - destruct (k == k') eqn:E; [apply eqb_true in E as ->; by rewrite Ep|done].
  - destruct (k == k') eqn:E; [apply eqb_true in E as ->; by rewrite Ep|done].
Qed.

Lemma forallb_select {A} p (q : string * A -> bool) items : forallb q items = true -> forallb q (select p items) = true.
Proof.
  induction items as [|kv items IH]; simpl; [done|]. rewrite andb_true_iff. intros [H1 H2%IH].
  destruct (p (fst kv)); simpl; [by rewrite H1|done].
Qed.

Lemma keys_select {A} p (items : list (string * A)) : map fst (select p items) = List.filter p (map fst items).
Proof. induction items as [|kv items IH]; simpl; [done|]. destruct (p (fst kv)); simpl; by rewrite IH. Qed.

Lemma NoDup_select {A} p (items : list (string * A)) : NoDup (map fst items) -> NoDup (map fst (select p items)).
Proof.
  induction items as [|kv items IH]; simpl; [done|]. inversion 1 as [|? ? Hk Hnd]; subst.
  destruct (p (fst kv)); simpl; [|auto]. constructor; [|auto].
  rewrite keys_select, list_elem_of_In, filter_In, <- list_elem_of_In. tauto.
Qed.

Lemma float_free_select p items : float_free (JObj items) = true -> float_free (JObj (select p items)) = true.
Proof. apply forallb_select. Qed.

Lemma keys_unique_nodup items : keys_unique (JObj items) = true -> NoDup (map fst items).
Proof. simpl. rewrite andb_true_iff. by intros [H%bool_decide_eq_true _]. Qed.

Lemma keys_unique_select p items : keys_unique (JObj items) = true -> keys_unique (JObj (select p items)) = true.
Proof.
  intros H. pose proof (NoDup_select p _ (keys_unique_nodup _ H)) as Hnd. simpl in *.
  apply andb_true_iff in H as [_ H]. rewrite forallb_select by done. by rewrite andb_true_r; apply bool_decide_eq_true.
Qed.

(** ** Equivalent dicts *)

Lemma assoc_perm {A} k (l1 l2 : list (string * A)) : NoDup (map fst l1) -> l1 ≡ₚ l2 -> assoc k l1 = assoc k l2.
Proof.
  intros Hnd Hp. assert (Hnd2 : NoDup (map fst l2)) by (by rewrite <- Hp).
  destruct (assoc k l1) as [v|] eqn:E; symmetry.
  - rewrite assoc_In_nodup in E |- * by done. apply list_elem_of_In. rewrite <- Hp. by apply list_elem_of_In.
  - rewrite assoc_none in E |- *. intros Hin. apply E. apply list_elem_of_In. rewrite Hp. by apply list_elem_of_In.
Qed.

Lemma assoc_map_sort k items :
  assoc k (map (fun kv : string * json => (fst kv, json_sort (snd kv))) items) = json_sort <$> assoc k items.
Proof. induction items as [|[k' v] items IH]; simpl; [done|]. by destruct (k == k'). Qed.

(** Equivalent dicts have equivalent entries. *)
Lemma json_equiv_lookup k d1 d2 :
  keys_unique (JObj d1) = true -> keys_unique (JObj d2) = true -> json_equiv (JObj d1) (JObj d2) ->
  json_sort <$> assoc k d1 = json_sort <$> assoc k d2.
Proof.
  intros H1 H2 Heq. unfold json_equiv in Heq. simpl in Heq. injection Heq as Heq.
  assert (Hnd : forall d, keys_unique (JObj d) = true ->
    NoDup (map fst (map (fun kv : string * json => (fst kv, json_sort (snd kv))) d))).
  { intros d Hd. rewrite map_map. by apply keys_unique_nodup. }
  rewrite <- !assoc_map_sort.
  rewrite (assoc_perm k _ _ (Hnd d1 H1) (symmetry (sort_items_perm _))), Heq.
  symmetry. apply assoc_perm; [by apply Hnd|]. symmetry. apply sort_items_perm.
Qed.

Lemma json_equiv_entry k d1 d2 v :
  keys_unique (JObj d1) = true -> keys_unique (JObj d2) = true -> json_equiv (JObj d1) (JObj d2) ->
  assoc k d1 = Some v -> exists w, assoc k d2 = Some w /\ json_equiv v w.
Proof.
  intros H1 H2 Heq Hv. pose proof (json_equiv_lookup k _ _ H1 H2 Heq) as H. rewrite Hv in H.
  destruct (assoc k d2) as [w|]; simplify_eq/=. by exists w.
Qed.

Lemma keys_unique_entry k d v : keys_unique (JObj d) = true -> assoc k d = Some v -> keys_unique v = true.
Proof.
  simpl. rewrite andb_true_iff, forallb_forall. intros [_ Hk] Hv%assoc_In. apply (Hk (k, v) Hv).
Qed.

(** The text at the end of a path of keys is the same in equivalent documents. *)
Lemma json_equiv_str s v : json_equiv (JStr s) v -> v = JStr s.
Proof. by destruct v. Qed.

Section Digests.
Context `{HostOk}.

(** The digest of a part of a dict determines the entries of that part. *)
Lemma select_digest_binds p d1 d2 h :
  Inj (=) (=) sha256_hex ->
  float_free (JObj d1) = true -> keys_unique (JObj d1) = true ->
  float_free (JObj d2) = true -> keys_unique (JObj d2) = true ->
  digest (JObj (select p d1)) = Ok h -> digest (JObj (select p d2)) = Ok h ->
  forall k, p k = true -> json_sort <$> assoc k d1 = json_sort <$> assoc k d2.
Proof.
  intros Hinj F1 U1 F2 U2 H1 H2 k Hk.
  assert (Heq : json_equiv (JObj (select p d1)) (JObj (select p d2))).
  { eapply digest_equiv; eauto using float_free_select, keys_unique_select. }
  apply (json_equiv_lookup k) in Heq; [|by apply keys_unique_select..].
  by rewrite !assoc_select, Hk in Heq.
Qed.
End Digests.
