(* ===== verification/PyRegex.v ===== *)
(** * Regular expressions

    The part of Python's [re] that the source and its JSON schemas use: character
    classes, groups, alternation, greedy repetition, the anchors [^], [$] and
    [\Z] and negative lookahead.  [parse] reads the pattern syntax, [ends]
    computes the suffixes a match can leave, and [search]/[fullmatch] decide a
    match.  Whether a match exists does not depend on the backtracking order, so
    sets of suffixes are enough; [ends_spec] relates them to the usual
    denotation. *)

From S2P Require Import Prelude PyStr.

(** ** Syntax *)

Inductive regex :=
| REps
| RSet (negated : bool) (ranges : list (Z * Z))
| RSeq (r1 r2 : regex)
| RAlt (r1 r2 : regex)
| RRep (min : nat) (max : option nat) (r : regex)
| RStart                       (* ^ *)
| REnd                         (* $ : the end, or before a final newline *)
| RStop                        (* \Z *)
| RNot (r : regex).            (* (?!r) *)

Definition in_set (negated : bool) (ranges : list (Z * Z)) (c : ascii) : bool :=
  xorb negated (existsb (fun '(lo, hi) => (lo <=? code c) && (code c <=? hi)) ranges).

(** ** Matching *)

Definition step_list (f : string -> list string) (ts : list string) : list string :=
  remove_dups (flat_map f ts).

Fixpoint power (f : string -> list string) (n : nat) (ts : list string) : list string :=
  match n with
  | O => ts
  | S n' => power f n' (step_list f ts)
  end.

(** The results of at most [n] further rounds. *)
Fixpoint upto (f : string -> list string) (n : nat) (ts : list string) : list string :=
  match ts, n with
  | [], _ => []
  | _, O => ts
  | _, S n' => ts ++ upto f n' (step_list f ts)
  end.

(** [ends n r s]: what is left of [s] after a match of [r] at its head; [n] is
    the length of the whole subject. *)
Fixpoint ends (n : nat) (r : regex) (s : string) : list string :=
  match r with
  | REps => [s]
  | RSet neg ranges =>
      match s with
      | String c s' => if in_set neg ranges c then [s'] else []
      | EmptyString => []
      end
  | RSeq r1 r2 => remove_dups (flat_map (ends n r2) (ends n r1 s))
  | RAlt r1 r2 => ends n r1 s ++ ends n r2 s
  | RRep min max r =>
      upto (ends n r)
        (match max with Some m => m - min | None => String.length s end)%nat
        (power (ends n r) min [s])
  | RStart => if Nat.eqb (String.length s) n then [s] else []
  | REnd => if (s == "") || (s == String "010" EmptyString) then [s] else []
  | RStop => if s == "" then [s] else []
  | RNot r => match ends n r s with [] => [s] | _ => [] end
  end.

(** ** The pattern parser *)

Definition digit_set : list (Z * Z) := [(48, 57)].
Definition space_set : list (Z * Z) := [(9, 13); (28, 32); (133, 133); (160, 160)].
Definition dot : regex := RSet true [(10, 10)].
Definition lit (c : ascii) : regex := RSet false [(code c, code c)].

Fixpoint parse_nat (s : string) (acc : option nat) : option nat * string :=
  match s with
  | String c s' =>
      if is_ascii_digit c
      then parse_nat s' (Some (10 * default 0 acc + Z.to_nat (code c - 48))%nat)
      else (acc, s)
  | EmptyString => (acc, s)
  end.

(** The repetition counts after an atom, if there is one. *)
Definition parse_quantifier (s : string) : option (nat * option nat) * string :=
  match s with
  | String "*" s' => (Some (0%nat, None), s')
  | String "+" s' => (Some (1%nat, None), s')
  | String "?" s' => (Some (0%nat, Some 1%nat), s')
  | String "{" s' =>
      match parse_nat s' None with
      | (Some n, String "}" s'') => (Some (n, Some n), s'')
      | (Some n, String "," s'') =>
          match parse_nat s'' None with
          | (m, String "}" s3) => (Some (n, m), s3)
          | _ => (None, s)
          end
      | _ => (None, s)
      end
  | _ => (None, s)
  end.

Definition escaped_set (c : ascii) : list (Z * Z) :=
  if c == "d"%char then digit_set
  else if c == "s"%char then space_set
  else if c == "n"%char then [(10, 10)]
  else [(code c, code c)].

(** The members of a class up to its closing bracket. *)
Fixpoint parse_class (fuel : nat) (s : string) (acc : list (Z * Z)) : option (list (Z * Z) * string) :=
  match fuel with
  | O => None
  | S fuel =>
      match s with
      | String "]" s' => Some (acc, s')
      | String "\" (String c s') => parse_class fuel s' (acc ++ escaped_set c)
      | String lo (String "-" (String hi s')) =>
          if hi == "]"%char then Some (acc ++ [(code lo, code lo); (45, 45)], s')
          else parse_class fuel s' (acc ++ [(code lo, code hi)])
      | String c s' => parse_class fuel s' (acc ++ [(code c, code c)])
      | EmptyString => None
      end
  end.

Fixpoint parse_alt (fuel : nat) (s : string) : option (regex * string) :=
  match fuel with
  | O => None
  | S fuel =>
      match parse_seq fuel s with
      | Some (r1, String "|" s') =>
          match parse_alt fuel s' with
          | Some (r2, s'') => Some (RAlt r1 r2, s'')
          | None => None
          end
      | res => res
      end
  end

with parse_seq (fuel : nat) (s : string) : option (regex * string) :=
  match fuel with
  | O => None
  | S fuel =>
      match s with
      | EmptyString | String "|" _ | String ")" _ => Some (REps, s)
      | _ =>
          match parse_atom fuel s with
          | Some (r, s') =>
              let (q, s'') := parse_quantifier s' in
              let r := match q with Some (n, m) => RRep n m r | None => r end in
              match parse_seq fuel s'' with
              | Some (r2, s3) => Some (RSeq r r2, s3)
              | None => None
              end
          | None => None
          end
      end
  end

with parse_atom (fuel : nat) (s : string) : option (regex * string) :=
  match fuel with
  | O => None
  | S fuel =>
      let group (wrap : regex -> regex) (s : string) :=
        match parse_alt fuel s with
        | Some (r, String ")" s') => Some (wrap r, s')
        | _ => None
        end in
      match s with
      | String "^" s' => Some (RStart, s')
      | String "$" s' => Some (REnd, s')
      | String "." s' => Some (dot, s')
      | String "(" (String "?" (String ":" s')) => group id s'
      | String "(" (String "?" (String "!" s')) => group RNot s'
      | String "(" (String "?" _) => None
      | String "(" s' => group id s'
      | String "[" (String "^" s') =>
          match parse_class fuel s' [] with
          | Some (ranges, s'') => Some (RSet true ranges, s'')
          | None => None
          end
      | String "[" s' =>
          match parse_class fuel s' [] with
          | Some (ranges, s'') => Some (RSet false ranges, s'')
          | None => None
          end
      | String "\" (String "Z" s') => Some (RStop, s')
      | String "\" (String c s') =>
          if is_alpha c && negb (mem c ["d"%char; "s"%char; "n"%char]) then None
          else Some (RSet false (escaped_set c), s')
      | String c s' => Some (lit c, s')
      | EmptyString => None
      end
  end.

(** [re.compile(pattern)]; [None] is [re.error]. *)
Definition compile (pattern : string) : option regex :=
  match parse_alt (3 * String.length pattern + 3) pattern with
  | Some (r, EmptyString) => Some r
  | _ => None
  end.

(** [r.fullmatch(s) is not None]. *)
Definition re_fullmatch (r : regex) (s : string) : bool := mem "" (ends (String.length s) r s).

(** [r.search(s) is not None]. *)
Fixpoint search_from (n : nat) (r : regex) (s : string) : bool :=
  match ends n r s with
  | _ :: _ => true
  | [] => match s with
          | String _ s' => search_from n r s'
          | EmptyString => false
          end
  end.

Definition re_search (r : regex) (s : string) : bool := search_from (String.length s) r s.

Definition fullmatch (pattern s : string) : bool :=
  match compile pattern with
  | Some r => re_fullmatch r s
  | None => false
  end.

Definition search (pattern s : string) : bool :=
  match compile pattern with
  | Some r => re_search r s
  | None => false
  end.

(** ** Denotation *)

Fixpoint iterate (R : string -> string -> Prop) (k : nat) (s t : string) : Prop :=
  match k with
  | O => s = t
  | S k' => exists u, R s u /\ iterate R k' u t
  end.

(** [denotes n r s t]: [r] matches a head of [s] and leaves [t]. *)
Fixpoint denotes (n : nat) (r : regex) (s t : string) : Prop :=
  match r with
  | REps => s = t
  | RSet neg ranges => exists c, s = String c t /\ in_set neg ranges c = true
  | RSeq r1 r2 => exists u, denotes n r1 s u /\ denotes n r2 u t
  | RAlt r1 r2 => denotes n r1 s t \/ denotes n r2 s t
  | RRep min max r =>
      exists k, (min <= k)%nat /\ (forall m, max = Some m -> (k <= Nat.max min m)%nat) /\
        iterate (denotes n r) k s t
  | RStart => s = t /\ String.length s = n
  | REnd => s = t /\ (s = "" \/ s = String "010" EmptyString)
  | RStop => s = t /\ s = ""
  | RNot r => s = t /\ forall u, ~ denotes n r s u
  end.

Section Iterate.
Variable R : string -> string -> Prop.
Variable f : string -> list string.
Hypothesis Hf : forall s t, In t (f s) <-> R s t.

Lemma step_list_spec ts t : In t (step_list f ts) <-> exists s, In s ts /\ R s t.
Proof.
  unfold step_list. rewrite <- list_elem_of_In, elem_of_remove_dups, list_elem_of_In, in_flat_map.
  by setoid_rewrite Hf.
Qed.

Lemma power_spec k ts t : In t (power f k ts) <-> exists s, In s ts /\ iterate R k s t.
Proof.
  revert ts. induction k as [|k IH]; intros ts; simpl; [naive_solver|].
  rewrite IH. setoid_rewrite step_list_spec. naive_solver.
Qed.

Lemma upto_spec k ts t : In t (upto f k ts) <-> exists s j, In s ts /\ (j <= k)%nat /\ iterate R j s t.
Proof.
  revert ts. induction k as [|k IH]; intros [|s ts]; cbn [upto].
  - naive_solver.
  - split.
    + intros Ht. exists t, 0%nat. done.
    + intros (u & j & Hu & Hj & Hi). assert (j = 0)%nat as -> by lia. simpl in Hi. by subst.
  - naive_solver.
  - rewrite in_app_iff, IH. setoid_rewrite step_list_spec. split.
    + intros [Ht|(u & j & (v & Hv & HR) & Hj & Hi)].
      * exists t, 0%nat. split; [done|]. split; [lia|done].
      * exists v, (S j). split; [done|]. split; [lia|]. by exists u.
    + intros (u & [|j] & Hu & Hj & Hi); simpl in Hi; [left; by subst|].
      right. destruct Hi as (v & HR & Hi). exists v, j. split; [by exists u|]. split; [lia|done].
Qed.

Hypothesis HR : forall s t, R s t -> (String.length t <= String.length s)%nat /\ (String.length t = String.length s -> s = t).

(** Rounds that consume nothing can be dropped. *)
Lemma iterate_bounded k s t : iterate R k s t -> exists j, (j <= String.length s - String.length t)%nat /\ iterate R j s t.
Proof.
  revert s. induction k as [|k IH]; intros s Hi; simpl in Hi.
  - subst. exists 0%nat. simpl. split; [lia|done].
  - destruct Hi as (u & Hsu & (j & Hj & Hut)%IH). destruct (HR _ _ Hsu) as [Hle Heq].
    assert (String.length t <= String.length u)%nat as Hle'.
    { clear -HR Hut. revert u Hut. induction j as [|j IHj]; intros u Hut; simpl in Hut; [by subst|].
      destruct Hut as (v & [Hv _]%HR & Hvt%IHj). lia. }
    destruct (decide (String.length u = String.length s)) as [E|E].
    + exists j. rewrite (Heq E). done.
    + exists (S j). simpl. split; [lia|]. by exists u.
Qed.
End Iterate.

Lemma iterate_add R j k s t : iterate R (j + k) s t <-> exists u, iterate R j s u /\ iterate R k u t.
Proof. revert s. induction j as [|j IH]; intros s; simpl; [naive_solver|]. setoid_rewrite IH. naive_solver. Qed.

Lemma denotes_suffix n r s t :
  denotes n r s t -> (String.length t <= String.length s)%nat /\ (String.length t = String.length s -> s = t).
Proof.
  revert s t. induction r as [| |r1 IH1 r2 IH2|r1 IH1 r2 IH2|min max r IH| | | |r IH]; intros s t; simpl.
  - by intros ->.
  - intros (c & -> & _). simpl. lia.
  - intros (u & [Hu Eu]%IH1 & [Ht Et]%IH2). split; [lia|]. intros E. rewrite Eu, Et by lia. done.
  - naive_solver.
  - intros (k & _ & _ & Hk). revert s Hk. induction k as [|k IHk]; intros s; simpl; [by intros ->|].
    intros (u & [Hu Eu]%IH & [Ht Et]%IHk). split; [lia|]. intros E. rewrite Eu, Et by lia. done.
  - by intros [-> _].
  - by intros [-> _].
  - by intros [-> _].
  - by intros [-> _].
Qed.

Lemma In_guard {A} (b : bool) (P : Prop) (s t : A) :
  (if b then P else ~ P) -> In t (if b then [s] else []) <-> s = t /\ P.
Proof. destruct b; simpl; tauto. Qed.

(** The matcher computes the denotation. *)
Lemma ends_spec n r s t : In t (ends n r s) <-> denotes n r s t.
Proof.
  revert s t. induction r as [|neg ranges|r1 IH1 r2 IH2|r1 IH1 r2 IH2|min max r IH| | | |r IH]; intros s t; simpl.
  - naive_solver.
  - destruct s as [|c s]; simpl; [by split; [|intros (? & ? & _)]|].
    destruct (in_set neg ranges c) eqn:E; simpl.
    + split; [intros [<-|[]]; by exists c | intros (? & [= <- <-] & _); by left].
    + split; [done | intros (? & [= <- <-] & ?); congruence].
  - rewrite <- list_elem_of_In, elem_of_remove_dups, list_elem_of_In, in_flat_map.
    setoid_rewrite IH1. setoid_rewrite IH2. done.
  - by rewrite in_app_iff, IH1, IH2.
  - rewrite (upto_spec (denotes n r)) by done. setoid_rewrite (power_spec (denotes n r)); [|done]. split.
    + intros (u & j & (v & [<-|[]] & Hv) & Hj & Hu). exists (min + j)%nat. split; [lia|]. split.
      * intros m ->. lia.
      * apply iterate_add. by exists u.
    + intros (k & Hk & Hm & Hi). replace k with (min + (k - min))%nat in Hi by lia.
      apply iterate_add in Hi as (u & Hu & Hut).
      destruct max as [m|].
      * exists u, (k - min)%nat. specialize (Hm m eq_refl). split; [exists s; split; [by left|done]|].
        split; [lia|done].
      * destruct (iterate_bounded _ (denotes_suffix n r) _ _ _ Hut) as (j & Hj & Hi).
        exists u, j. split; [exists s; split; [by left|done]|]. split; [|done].
        pose proof (denotes_suffix n (RRep min None r) s u) as [Hle _]; [|lia].
        exists min. by split; [|split].
  - destruct (Nat.eqb_spec (String.length s) n); (apply (In_guard true) || apply (In_guard false)); tauto.
  - destruct ((s == "") || _) eqn:E; [apply (In_guard true) | apply (In_guard false)].
    + apply orb_true_iff in E as [E|E]; simpl_bool; [by left | by right].
    + apply orb_false_iff in E as [E1%eqb_false E2%eqb_false]. by intros [?|?].
  - destruct (s == "") eqn:E; [apply (In_guard true), eqb_eq, E | apply (In_guard false), eqb_neq, E].
  - destruct (ends n r s) as [|u us] eqn:E; simpl.
    + split; [|naive_solver]. intros [->|[]]. split; [done|]. intros u Hu%IH. by rewrite E in Hu.
    + split; [done|]. intros [_ Hn]. destruct (Hn u). apply IH. rewrite E. by left.
Qed.

Lemma re_fullmatch_spec r s : re_fullmatch r s = true <-> denotes (String.length s) r s "".
Proof. unfold re_fullmatch. by rewrite mem_In, ends_spec. Qed.
