(* ===== verification/Timestamp.v ===== *)
(** * Timestamps

    [timestamp] of [src/cops/evidence/canonical.py] and the parts of [datetime]
    it and its callers use.  [fromisoformat] follows [Lib/datetime.py] of Python
    3.11, the oldest version the project supports, on ASCII digits.  An aware
    [datetime] is its local time in microseconds since 0001-01-01 and its UTC
    offset. *)

From S2P Require Import Prelude PyStr Json PyRegex.

(** ** Calendar *)

Definition is_leap (year : Z) : bool :=
  (year mod 4 =? 0) && (negb (year mod 100 =? 0) || (year mod 400 =? 0)).

Definition days_before_year (year : Z) : Z :=
  let y := year - 1 in y * 365 + y / 4 - y / 100 + y / 400.

Definition days_in_month (year month : Z) : Z :=
  if month =? 2 then (if is_leap year then 29 else 28)
  else if mem month [4; 6; 9; 11] then 30 else 31.

Definition days_before_month (year month : Z) : Z :=
  sumZ (days_in_month year) (seqZ 1 (month - 1)).

(** [date(year, month, day).toordinal()], if the date exists. *)
Definition make_date (year month day : Z) : option Z :=
  if (1 <=? year) && (year <=? 9999) && (1 <=? month) && (month <=? 12) &&
     (1 <=? day) && (day <=? days_in_month year month)
  then Some (days_before_year year + days_before_month year month + day)
  else None.

Definition max_ordinal : Z := 3652059.

Definition isoweek1monday (year : Z) : Z :=
  let firstday := days_before_year year + 1 in
  let firstweekday := (firstday + 6) mod 7 in
  let week1monday := firstday - firstweekday in
  if 3 <? firstweekday then week1monday + 7 else week1monday.

Definition isoweek_to_ordinal (year week day : Z) : option Z :=
  let first_weekday := (days_before_year year + 1) mod 7 in
  let valid_week :=
    ((0 <? week) && (week <? 53)) ||
    ((week =? 53) && ((first_weekday =? 4) || ((first_weekday =? 3) && is_leap year))) in
  if (1 <=? year) && (year <=? 9999) && valid_week && (0 <? day) && (day <? 8) then
    let ordinal := isoweek1monday year + (week - 1) * 7 + (day - 1) in
    if (1 <=? ordinal) && (ordinal <=? max_ordinal) then Some ordinal else None
  else None.

(** ** ISO 8601 *)

Definition sub_string (pos n : nat) (s : string) : string := String.substring pos n s.
Definition drop_string (pos : nat) (s : string) : string := String.substring pos (String.length s - pos) s.
Definition char_is (pos : nat) (c : ascii) (s : string) : bool := String.get pos s == Some c.

Fixpoint digits_value (s : string) (acc : Z) : Z :=
  match s with
  | EmptyString => acc
  | String c s' => digits_value s' (10 * acc + (code c - 48))
  end.

(** [int(s)] for a field of [n] digits. *)
Definition parse_field (n : nat) (s : string) : option Z :=
  if Nat.eqb (String.length s) n && negb (Nat.eqb n 0) && string_all is_ascii_digit s
  then Some (digits_value s 0) else None.

Fixpoint digit_prefix (s : string) : nat :=
  match s with
  | String c s' => if is_ascii_digit c then S (digit_prefix s') else O
  | EmptyString => O
  end.

Definition find_separator (s : string) : option nat :=
  let len := String.length s in
  if Nat.eqb len 7 then Some 7%nat
  else if char_is 4 "-" s then
    if char_is 5 "W" s then
      if Nat.ltb 8 len && char_is 8 "-" s then
        if Nat.eqb len 9 then None
        else if Nat.ltb 10 len && Nat.ltb 0 (digit_prefix (drop_string 10 s)) then Some 8%nat
        else Some 10%nat
      else Some 8%nat
    else Some 10%nat
  else if char_is 4 "W" s then
    let idx := (7 + digit_prefix (drop_string 7 s))%nat in
    if Nat.ltb idx 9 then Some idx
    else if Nat.even idx then Some 7%nat else Some 8%nat
  else Some 8%nat.

(** The ordinal of the date part; [_parse_isoformat_date] and the constructor. *)
Definition parse_isoformat_date (s : string) : option Z :=
  year ← parse_field 4 (sub_string 0 4 s);
  let has_sep := char_is 4 "-" s in
  let pos := if has_sep then 5%nat else 4%nat in
  if char_is pos "W" s then
    week ← parse_field 2 (sub_string (pos + 1) 2 s);
    let pos := (pos + 3)%nat in
    if Nat.ltb pos (String.length s) then
      if negb (Bool.eqb (char_is pos "-" s) has_sep) then None
      else
        day ← parse_field 1 (sub_string (if has_sep then pos + 1 else pos)%nat 1 s);
        isoweek_to_ordinal year week day
    else isoweek_to_ordinal year week 1
  else
    month ← parse_field 2 (sub_string pos 2 s);
    let pos := (pos + 2)%nat in
    if negb (Bool.eqb (char_is pos "-" s) has_sep) then None
    else
      day ← parse_field 2 (sub_string (if has_sep then pos + 1 else pos)%nat 2 s);
      make_date year month day.

Definition fraction_correction : list Z := [100000; 10000; 1000; 100; 10; 1].

(** The microseconds of the fraction [s] that follows the seconds. *)
Definition parse_fraction (s : string) : option Z :=
  match s with
  | EmptyString => Some 0
  | String c s' =>
      if negb ((c == "."%char) || (c == ","%char)) then None
      else
        let to_parse := Nat.min 6 (String.length s') in
        value ← parse_field to_parse (sub_string 0 to_parse s');
        correction ← fraction_correction !! (to_parse - 1)%nat;
        if string_all is_ascii_digit (drop_string to_parse s') then Some (value * correction) else None
  end.

(** [_parse_hh_mm_ss_ff]: hours, minutes, seconds and microseconds. *)
Definition parse_hh_mm_ss_ff (s : string) : option (Z * Z * Z * Z) :=
  let sep := char_is 2 ":" s in
  let skip (pos : nat) := if sep then (pos + 1)%nat else pos in
  hour ← parse_field 2 (sub_string 0 2 s);
  if Nat.eqb (String.length s) 2 then Some (hour, 0, 0, 0)
  else
    let pos := skip 2%nat in
    minute ← parse_field 2 (sub_string pos 2 s);
    if Nat.eqb (String.length s) (pos + 2) then Some (hour, minute, 0, 0)
    else if sep && negb (char_is (pos + 2) ":" s) then None
    else
      let pos := skip (pos + 2)%nat in
      second ← parse_field 2 (sub_string pos 2 s);
      fraction ← parse_fraction (drop_string (pos + 2) s);
      Some (hour, minute, second, fraction).

Fixpoint find_char (c : ascii) (s : string) : option nat :=
  match s with
  | EmptyString => None
  | String d s' => if c == d then Some O else S <$> find_char c s'
  end.

Definition us_per_second : Z := 1000000.

Definition time_us (t : Z * Z * Z * Z) : Z :=
  let '(h, m, s, us) := t in ((h * 60 + m) * 60 + s) * us_per_second + us.

(** [time(h, m, s, us)]. *)
Definition make_time (t : Z * Z * Z * Z) : option Z :=
  let '(h, m, s, us) := t in
  if (h <? 24) && (m <? 60) && (s <? 60) then Some (time_us t) else None.

(** [timezone(timedelta(microseconds=us))]. *)
Definition make_timezone (us : Z) : option Z :=
  if Z.abs us <? 24 * 3600 * us_per_second then Some us else None.

(** [_parse_isoformat_time]: the time of day and the UTC offset. *)
Definition parse_isoformat_time (s : string) : option (Z * option Z) :=
  let tz_pos :=
    match find_char "-" s with
    | Some p => Some p
    | None => match find_char "+" s with
              | Some p => Some p
              | None => find_char "Z" s
              end
    end in
  match tz_pos with
  | None => t ← parse_hh_mm_ss_ff s; us ← make_time t; Some (us, None)
  | Some pos =>
      t ← parse_hh_mm_ss_ff (sub_string 0 pos s);
      us ← make_time t;
      let tzstr := drop_string (pos + 1) s in
      if (tzstr == "") && char_is pos "Z" s then Some (us, Some 0)
      else if mem (String.length tzstr) [0; 1; 3]%nat then None
      else
        tz ← parse_hh_mm_ss_ff tzstr;
        offset ← make_timezone (if char_is pos "-" s then - time_us tz else time_us tz);
        Some (us, Some offset)
  end.

Record datetime := DateTime { dt_local_us : Z; dt_utcoffset : option Z }.

Definition day_us : Z := 86400 * us_per_second.

(** [datetime.fromisoformat(s)]; [None] is [ValueError]. *)
Definition fromisoformat (s : string) : option datetime :=
  if Nat.ltb (String.length s) 7 then None
  else
    sep ← find_separator s;
    ordinal ← parse_isoformat_date (sub_string 0 sep s);
    let tstr := drop_string (sep + 1) s in
    if tstr == "" then Some (DateTime (ordinal * day_us) None)
    else
      '(us, offset) ← parse_isoformat_time tstr;
      Some (DateTime (ordinal * day_us + us) offset).

(** [date.fromisoformat(s)], as an ordinal. *)
Definition date_fromisoformat (s : string) : option Z :=
  if mem (String.length s) [7; 8; 10]%nat then parse_isoformat_date s else None.

(** An aware [datetime] as microseconds since the Unix epoch: comparison and
    subtraction of aware values are those of this number. *)
Definition unix_us (local_us offset : Z) : Z := local_us - offset - 719163 * day_us.

(** ** binary64 arithmetic *)

Definition round_half_even (n d : Z) : Z :=
  let q := n / d in
  let r := n mod d in
  match Z.compare (2 * r) d with
  | Lt => q
  | Gt => q + 1
  | Eq => if Z.even q then q else q + 1
  end.

(** The binary64 value nearest to [n / d] for [0 <= n] and [0 < d], away from
    overflow and underflow. *)
Definition nearest_float (n d : Z) : pyfloat :=
  if n =? 0 then PyFin 0 0
  else
    let k := Z.log2 n - Z.log2 d - 53 in
    let scale e := if 0 <=? e then (n, Z.shiftl d e) else (Z.shiftl n (- e), d) in
    let e := if let (a, b) := scale (k + 53) in b <=? a then k + 1 else k in
    let (a, b) := scale e in
    PyFin (round_half_even a b) e.

Definition float_opp (f : pyfloat) : pyfloat :=
  match f with
  | PyFin m e => PyFin (- m) e
  | PyInf n => PyInf (negb n)
  | PyNaN => PyNaN
  end.

(** [n / d] on ints. *)
Definition true_div (n d : Z) : pyfloat :=
  if n <? 0 then float_opp (nearest_float (- n) d) else nearest_float n d.

(** [f * z] for a finite [f] and a [z] exact in binary64. *)
Definition float_mul (f : pyfloat) (z : Z) : pyfloat :=
  match f with
  | PyFin m e =>
      if 0 <=? e then true_div (Z.shiftl (m * z) e) 1 else true_div (m * z) (Z.shiftl 1 (- e))
  | _ => f
  end.

(** [int(f)] for a finite [f]. *)
Definition float_trunc (f : pyfloat) : Z :=
  match f with
  | PyFin m e => if 0 <=? e then Z.shiftl m e else Z.quot m (Z.shiftl 1 (- e))
  | _ => 0
  end.

(** ** [timestamp] *)

(** [value] as microseconds since the Unix epoch; every accepted value ends in
    [Z], hence is aware with offset zero. *)
Definition timestamp (value : json) : res Z :=
  match value with
  | JStr s =>
      raise_if negb (fullmatch "\d{4}-\d{2}-\d{2}T\d{2}:\d{2}:\d{2}(?:\.\d{1,6})?Z" s)
        as EvidenceError msg "invalid_timestamp" ;;
      match fromisoformat (replace_by "Z" "+00:00" s) with
      | Some (DateTime local (Some offset)) => Ok (unix_us local offset)
      | Some (DateTime local None) => raise TypeError "naive"
      | None => raise EvidenceError "invalid_timestamp"
      end
  | _ => raise EvidenceError "invalid_timestamp"
  end.

(** ** Printing *)

(** [_ord2ymd]: the year, month and day of an ordinal. *)
Definition ord2ymd (n : Z) : Z * Z * Z :=
  let n := n - 1 in
  let n400 := n / 146097 in let n := n mod 146097 in
  let n100 := n / 36524 in let n := n mod 36524 in
  let n4 := n / 1461 in let n := n mod 1461 in
  let n1 := n / 365 in let n := n mod 365 in
  let year := n400 * 400 + 1 + n100 * 100 + n4 * 4 + n1 in
  if (n1 =? 4) || (n100 =? 4) then (year - 1, 12, 31)
  else
    let month := Z.shiftr (n + 50) 5 in
    let month := if n <? days_before_month year month then month - 1 else month in
    (year, month, n - days_before_month year month + 1).

(** ["%0<n>d" % z] for a non-negative [z]. *)
Definition zero_pad (n : nat) (z : Z) : string :=
  let s := pretty (Z.to_N z) in
  String.concat "" (repeat "0" (n - String.length s)) +:+ s.

(** [dt.isoformat(timespec="seconds").replace("+00:00", "Z")] of an aware UTC
    [datetime], given in microseconds since the Unix epoch. *)
Definition utc_isoformat (us : Z) : string :=
  let local := us + 719163 * day_us in
  let '(year, month, day) := ord2ymd (local / day_us) in
  let seconds := local mod day_us / us_per_second in
  zero_pad 4 year +:+ "-" +:+ zero_pad 2 month +:+ "-" +:+ zero_pad 2 day +:+ "T" +:+
  zero_pad 2 (seconds / 3600) +:+ ":" +:+ zero_pad 2 (seconds / 60 mod 60) +:+ ":" +:+ zero_pad 2 (seconds mod 60) +:+ "Z".

(** The last instant a [datetime] can hold, and [now + timedelta(hours=h)]. *)
Definition max_datetime_us : Z := unix_us ((max_ordinal + 1) * day_us - 1) 0.
Definition min_datetime_us : Z := unix_us day_us 0.

Definition outside_datetime (us : Z) : bool := (us <? min_datetime_us) || (max_datetime_us <? us).

Definition add_hours (now hours : Z) : res Z :=
  let t := now + hours * 3600 * us_per_second in
  raise_if outside_datetime t as OverflowError msg "date value out of range" ;; Ok t.
