(* ===== verification/TimestampFacts.v ===== *)
(** * Facts about timestamps

    The calendar round trip: [fromisoformat] reads back every instant that
    [utc_isoformat] prints, over the whole range of [datetime]. *)

From S2P Require Import Prelude PyStr Json PyRegex Timestamp.

(** ** The calendar *)

Lemma is_leap_period q y : is_leap (400 * q + y) = is_leap y.
Proof.
  unfold is_leap. replace (400 * q + y) with (y + (100 * q) * 4) at 1 by lia.
  replace (400 * q + y) with (y + (4 * q) * 100) at 1 by lia.
  replace (400 * q + y) with (y + q * 400) by lia.
  by rewrite !Z.mod_add by lia.
Qed.

Lemma days_in_month_leap y y' m : is_leap y = is_leap y' -> days_in_month y m = days_in_month y' m.
Proof. unfold days_in_month. by intros ->. Qed.

Lemma days_before_month_leap y y' m : is_leap y = is_leap y' -> days_before_month y m = days_before_month y' m.
Proof.
  intros Hl. unfold days_before_month, sumZ. induction (seqZ 1 (m - 1)) as [|x xs IH]; simpl; [done|].
  by rewrite IH, (days_in_month_leap y y').
Qed.

Lemma days_before_year_period q y : days_before_year (400 * q + y) = 146097 * q + days_before_year y.
Proof.
  unfold days_before_year.
  replace ((400 * q + y - 1) / 4) with ((y - 1) / 4 + 100 * q) by (rewrite <- Z.div_add by lia; f_equal; lia).
  replace ((400 * q + y - 1) / 100) with ((y - 1) / 100 + 4 * q) by (rewrite <- Z.div_add by lia; f_equal; lia).
  replace ((400 * q + y - 1) / 400) with ((y - 1) / 400 + q) by (rewrite <- Z.div_add by lia; f_equal; lia).
  lia.
Qed.

Definition shift_year (q : Z) (d : Z * Z * Z) : Z * Z * Z := let '(y, m, dd) := d in (400 * q + y, m, dd).

Lemma ord2ymd_period q n : 1 <= n <= 146097 -> ord2ymd (146097 * q + n) = shift_year q (ord2ymd n).
Proof.
  intros Hn. unfold ord2ymd.
  replace ((146097 * q + n - 1) / 146097) with ((n - 1) / 146097 + q) by (rewrite <- Z.div_add by lia; f_equal; lia).
  replace ((146097 * q + n - 1) mod 146097) with ((n - 1) mod 146097) by (rewrite <- (Z.mod_add (n - 1) q) by lia; f_equal; lia).
  cbv zeta. set (r := (n - 1) mod 146097).
  set (n100 := r / 36524). set (n4 := r mod 36524 / 1461). set (n1 := (r mod 36524) mod 1461 / 365).
  set (d := ((r mod 36524) mod 1461) mod 365).
  replace (((n - 1) / 146097 + q) * 400 + 1 + n100 * 100 + n4 * 4 + n1)
    with (400 * q + ((n - 1) / 146097 * 400 + 1 + n100 * 100 + n4 * 4 + n1)) by lia.
  set (y := (n - 1) / 146097 * 400 + 1 + n100 * 100 + n4 * 4 + n1).
  assert (Hl : is_leap (400 * q + y) = is_leap y) by apply is_leap_period.
  rewrite !(days_before_month_leap (400 * q + y) y) by done. destruct ((n1 =? 4) || (n100 =? 4)); simpl; [f_equal; f_equal; lia|done].
Qed.

(** A day of a year, from 0, as a month and a day; one year of each kind is checked
    day by day. *)
Definition month_of_day (year d : Z) : Z :=
  let month := Z.shiftr (d + 50) 5 in if d <? days_before_month year month then month - 1 else month.

Definition day_ok (year d : Z) : bool :=
  let m := month_of_day year d in
  let dd := d - days_before_month year m + 1 in
  (1 <=? m) && (m <=? 12) && (1 <=? dd) && (dd <=? days_in_month year m).

Fixpoint all_below (p : Z -> bool) (n : nat) : bool :=
  match n with
  | O => true
  | S n' => p (Z.of_nat n') && all_below p n'
  end.

Lemma all_below_spec p n : all_below p n = true -> forall z, 0 <= z < Z.of_nat n -> p z = true.
Proof.
  induction n as [|n IH]; intros H z Hz; [lia|]. cbn [all_below] in H. apply andb_true_iff in H as [H1 H2].
  destruct (Z.eq_dec z (Z.of_nat n)) as [->|]; [done|]. apply IH; [done|lia].
Qed.

Lemma month_of_day_leap y y' d : is_leap y = is_leap y' -> month_of_day y d = month_of_day y' d.
Proof. intros Hl. unfold month_of_day. by rewrite (days_before_month_leap y y'). Qed.

Lemma day_ok_leap y y' d : is_leap y = is_leap y' -> day_ok y d = day_ok y' d.
Proof.
  intros Hl. unfold day_ok.
  by rewrite (month_of_day_leap y y'), (days_before_month_leap y y'), (days_in_month_leap y y').
Qed.

Lemma day_ok_all y d : 0 <= d < 365 -> day_ok y d = true.
Proof.
  intros Hd. destruct (is_leap y) eqn:E.
  - rewrite (day_ok_leap y 4) by done. apply (all_below_spec _ 365); [vm_compute; reflexivity|lia].
  - rewrite (day_ok_leap y 1) by done. apply (all_below_spec _ 365); [vm_compute; reflexivity|lia].
Qed.

Lemma days_before_year_split a b c :
  0 <= a <= 3 -> 0 <= b <= 24 -> 0 <= c <= 3 ->
  days_before_year (1 + a * 100 + b * 4 + c) = 36524 * a + 1461 * b + 365 * c.
Proof.
  intros Ha Hb Hc. unfold days_before_year.
  replace ((1 + a * 100 + b * 4 + c - 1) / 4) with (a * 25 + b) by (apply Z.div_unique with c; lia).
  replace ((1 + a * 100 + b * 4 + c - 1) / 100) with a by (apply Z.div_unique with (b * 4 + c); lia).
  replace ((1 + a * 100 + b * 4 + c - 1) / 400) with 0 by (symmetry; apply Z.div_small; lia). lia.
Qed.

Definition valid_date (y m d n : Z) : Prop :=
  1 <= m <= 12 /\ 1 <= d <= days_in_month y m /\ days_before_year y + days_before_month y m + d = n.

Lemma december_31 y : is_leap y = true -> valid_date y 12 31 (days_before_year y + 366).
Proof.
  intros Hl. unfold valid_date. rewrite (days_before_month_leap y 4), (days_in_month_leap y 4) by done.
  change (days_in_month 4 12) with 31. change (days_before_month 4 12) with 335. lia.
Qed.

Lemma ord2ymd_first_cycle n : 1 <= n <= 146097 ->
  let '(y, m, d) := ord2ymd n in 1 <= y <= 400 /\ valid_date y m d n.
Proof.
  intros Hn. unfold ord2ymd. rewrite (Z.div_small (n - 1)), (Z.mod_small (n - 1)) by lia. cbv zeta.
  pose proof (Z.div_mod (n - 1) 36524 ltac:(lia)) as E1. pose proof (Z.mod_pos_bound (n - 1) 36524 ltac:(lia)).
  set (a := (n - 1) / 36524) in *. set (r1 := (n - 1) mod 36524) in *.
  pose proof (Z.div_mod r1 1461 ltac:(lia)) as E2. pose proof (Z.mod_pos_bound r1 1461 ltac:(lia)).
  set (b := r1 / 1461) in *. set (r2 := r1 mod 1461) in *.
  pose proof (Z.div_mod r2 365 ltac:(lia)) as E3. pose proof (Z.mod_pos_bound r2 365 ltac:(lia)).
  set (c := r2 / 365) in *. set (d := r2 mod 365) in *. clearbody a r1 b r2 c d.
  assert (0 <= a <= 4) by lia. assert (0 <= b <= 24) by lia. assert (0 <= c <= 4) by lia.
  destruct ((c =? 4) || (a =? 4)) eqn:E.
  - assert (a = 4 /\ r1 = 0 \/ a <= 3 /\ c = 4 /\ d = 0) as [[-> ->]|(Ha & -> & ->)] by lia.
    + assert (b = 0) as -> by lia. assert (r2 = 0) as -> by lia. assert (c = 0) as -> by lia.
      split; [lia|]. replace n with (days_before_year 400 + 366) by (change (days_before_year 400) with 145731; lia).
      apply december_31. reflexivity.
    + split; [lia|]. replace (0 * 400 + 1 + a * 100 + b * 4 + 4 - 1) with (1 + a * 100 + b * 4 + 3) by lia.
      replace n with (days_before_year (1 + a * 100 + b * 4 + 3) + 366) by (rewrite days_before_year_split; lia).
      apply december_31. unfold is_leap.
      replace ((1 + a * 100 + b * 4 + 3) mod 4) with 0 by (apply Z.mod_unique with (a * 25 + b + 1); lia).
      destruct (Z.eq_dec b 24) as [->|].
      * lia.
      * replace ((1 + a * 100 + b * 4 + 3) mod 100) with (b * 4 + 4) by (apply Z.mod_unique with a; lia).
        destruct (b * 4 + 4 =? 0) eqn:E4; [lia|done].
  - split; [lia|]. replace (0 * 400 + 1 + a * 100 + b * 4 + c) with (1 + a * 100 + b * 4 + c) by lia.
    set (y := 1 + a * 100 + b * 4 + c). pose proof (day_ok_all y d ltac:(lia)) as Hok.
    unfold day_ok, month_of_day in Hok. simpl_bool. unfold valid_date. split; [lia|]. split; [lia|].
    unfold y. rewrite days_before_year_split by lia. lia.
Qed.

Lemma ord2ymd_valid n : 1 <= n <= max_ordinal ->
  let '(y, m, d) := ord2ymd n in 1 <= y <= 9999 /\ valid_date y m d n.
Proof.
  intros Hn. unfold max_ordinal in Hn.
  pose proof (Z.div_mod (n - 1) 146097 ltac:(lia)) as E. pose proof (Z.mod_pos_bound (n - 1) 146097 ltac:(lia)).
  set (q := (n - 1) / 146097) in *. set (r := (n - 1) mod 146097) in *. clearbody q r.
  replace n with (146097 * q + (r + 1)) by lia. rewrite ord2ymd_period by lia.
  pose proof (ord2ymd_first_cycle (r + 1) ltac:(lia)) as Hc.
  destruct (ord2ymd (r + 1)) as [[y m] d] eqn:Eo. destruct Hc as (Hy & Hm & Hd & Hs).
  simpl. unfold valid_date. rewrite days_before_year_period.
  rewrite (days_before_month_leap (400 * q + y) y), (days_in_month_leap (400 * q + y) y) by apply is_leap_period.
  split; [|lia]. split; [lia|].
  assert (0 <= days_before_month y m).
  { unfold days_before_month. apply sumZ_nonneg. intros x _. unfold days_in_month. repeat case_match; lia. }
  destruct (Z_lt_le_dec 9999 (400 * q + y)) as [Hbig|]; [|lia].
  assert (q >= 25 \/ q = 24 /\ y = 400) as [|[-> ->]] by lia; [lia|].
  change (days_before_year 400) with 145731 in Hs. lia.
Qed.

Lemma make_date_ord2ymd n : 1 <= n <= max_ordinal ->
  let '(y, m, d) := ord2ymd n in make_date y m d = Some n /\ 1 <= y <= 9999 /\ 1 <= m <= 12 /\ 1 <= d <= 31.
Proof.
  intros Hn. pose proof (ord2ymd_valid n Hn) as H. destruct (ord2ymd n) as [[y m] d].
  destruct H as (Hy & Hm & Hd & Hs).
  assert (days_in_month y m <= 31) by (unfold days_in_month; repeat case_match; lia).
  split; [|lia]. unfold make_date.
  rewrite !(proj2 (Z.leb_le _ _)) by lia. simpl. by rewrite Hs.
Qed.

(** ** Printed fields *)

Lemma parse_zero_pad_2 z : 0 <= z < 100 -> parse_field 2 (zero_pad 2 z) = Some z.
Proof.
  intros Hz. apply eqb_true.
  apply (all_below_spec (fun z => parse_field 2 (zero_pad 2 z) == Some z) 100); [vm_compute; reflexivity|lia].
Qed.

Lemma parse_zero_pad_4 z : 0 <= z < 10000 -> parse_field 4 (zero_pad 4 z) = Some z.
Proof.
  intros Hz. apply eqb_true.
  apply (all_below_spec (fun z => parse_field 4 (zero_pad 4 z) == Some z) (Z.to_nat 10000)); [vm_compute; reflexivity|lia].
Qed.

Lemma parse_field_digits n s z : parse_field n s = Some z -> String.length s = n /\ string_all is_ascii_digit s = true.
Proof. unfold parse_field. intros H. case_match eqn:E; [|done]. simpl_bool. by apply Nat.eqb_eq in H0. Qed.

Lemma digit_neq c x : is_ascii_digit c = true -> is_ascii_digit x = false -> (c == x) = false.
Proof. intros Hc Hx. apply eqb_neq. intros ->. congruence. Qed.

Lemma neq_digit c x : is_ascii_digit c = true -> is_ascii_digit x = false -> (x == c) = false.
Proof. intros Hc Hx. apply eqb_neq. intros ->. congruence. Qed.

Lemma some_digit_neq c x : is_ascii_digit c = true -> is_ascii_digit x = false -> (Some c == Some x) = false.
Proof. intros Hc Hx. apply eqb_neq. intros [= ->]. congruence. Qed.

(** Decide the comparisons of characters some of which are known to be digits. *)
Ltac eval_chars :=
  repeat match goal with
  | |- context [@eqb ascii ?i ?c ?x] =>
      first [ rewrite (digit_neq c x) by (assumption || reflexivity)
            | rewrite (neq_digit x c) by (assumption || reflexivity)
            | let r := eval vm_compute in (@eqb ascii i c x) in
              match r with true => idtac | false => idtac end; change (@eqb ascii i c x) with r ]
  | |- context [@eqb (option ascii) ?i (Some ?c) (Some ?x)] =>
      first [ rewrite (some_digit_neq c x) by (assumption || reflexivity)
            | let r := eval vm_compute in (@eqb _ i (Some c) (Some x)) in
              match r with true => idtac | false => idtac end; change (@eqb _ i (Some c) (Some x)) with r ]
  end; cbn [andb orb negb Bool.eqb].

Ltac digit_string H :=
  let Hl := fresh "Hl" in let Ha := fresh "Ha" in
  pose proof (parse_field_digits _ _ _ H) as [Hl Ha];
  match type of Ha with string_all _ ?s = true =>
    repeat (destruct s as [|? s]; [discriminate Hl|]); destruct s; [|discriminate Hl];
    simpl in Ha; rewrite ?andb_true_r in Ha; simpl_bool; clear Hl
  end.

Lemma some_bind {A B} (x : A) (f : A -> option B) : (Some x ≫= f) = f x.
Proof. done. Qed.

(** Compute with strings whose length is known. *)
Ltac eval_string :=
  unfold char_is, sub_string, drop_string;
  cbn [String.length String.get String.substring String.append Nat.sub Nat.add Nat.ltb Nat.leb Nat.eqb]; eval_chars.

Lemma parse_date_fields y m d ys ms ds :
  parse_field 4 ys = Some y -> parse_field 2 ms = Some m -> parse_field 2 ds = Some d ->
  parse_isoformat_date (ys +:+ "-" +:+ ms +:+ "-" +:+ ds) = make_date y m d.
Proof.
  intros Hy Hm Hd. digit_string Hy; digit_string Hm; digit_string Hd.
  unfold parse_isoformat_date. eval_string. rewrite Hy, some_bind. eval_string. rewrite Hm, some_bind. eval_string.
  by rewrite Hd, some_bind.
Qed.

Lemma parse_hms_fields hh mm ss hs mins secs :
  parse_field 2 hs = Some hh -> parse_field 2 mins = Some mm -> parse_field 2 secs = Some ss ->
  parse_hh_mm_ss_ff (hs +:+ ":" +:+ mins +:+ ":" +:+ secs) = Some (hh, mm, ss, 0).
Proof.
  intros Hh Hmi Hs. digit_string Hh; digit_string Hmi; digit_string Hs.
  unfold parse_hh_mm_ss_ff. eval_string.
  rewrite Hh, some_bind. eval_string. rewrite Hmi, some_bind. eval_string. by rewrite Hs, some_bind.
Qed.

Lemma parse_time_fields hh mm ss hs mins secs :
  parse_field 2 hs = Some hh -> parse_field 2 mins = Some mm -> parse_field 2 secs = Some ss ->
  hh < 24 -> mm < 60 -> ss < 60 ->
  parse_isoformat_time (hs +:+ ":" +:+ mins +:+ ":" +:+ secs +:+ "+00:00") =
    Some (((hh * 60 + mm) * 60 + ss) * us_per_second, Some 0).
Proof.
  intros Hh Hmi Hs Hhh Hmm Hss. pose proof (parse_hms_fields _ _ _ _ _ _ Hh Hmi Hs) as Hhms.
  digit_string Hh; digit_string Hmi; digit_string Hs.
  unfold parse_isoformat_time. cbn [String.append find_char] in *. eval_chars.
  cbn [fmap option_fmap option_map find_char].
  change (sub_string 0 8 _) with (String a (String a0 (String ":" (String a1 (String a2 (String ":" (String a3 (String a4 "")))))))).
  rewrite Hhms, some_bind. unfold make_time, time_us. rewrite !(proj2 (Z.ltb_lt _ _)) by done.
  cbn [andb]. rewrite some_bind. unfold char_is, drop_string. cbn [String.length String.substring Nat.sub Nat.add].
  change (parse_hh_mm_ss_ff "00:00") with (Some (0, 0, 0, 0)). eval_chars. 
  change ("00:00" == "") with false. change (mem (String.length "00:00") [0; 1; 3]%nat) with false. cbn [andb].
  rewrite some_bind. simpl. do 3 f_equal. lia.
Qed.

Lemma replace_by_app c r a b : replace_by c r (a +:+ b) = replace_by c r a +:+ replace_by c r b.
Proof. induction a as [|x a IH]; [done|]. simpl. by rewrite IH, string_app_assoc. Qed.

Lemma replace_by_digits c r s :
  is_ascii_digit c = false -> string_all is_ascii_digit s = true -> replace_by c r s = s.
Proof.
  intros Hc. induction s as [|x s IH]; intros H; [done|]. simpl in *. simpl_bool.
  rewrite digit_neq by done. simpl. by rewrite IH.
Qed.

Lemma substring_full s : String.substring 0 (String.length s) s = s.
Proof. induction s as [|c s IH]; simpl; [done|]. by rewrite IH. Qed.

Lemma fromisoformat_fields y m d hh mm ss ys ms ds hs mins secs n :
  parse_field 4 ys = Some y -> parse_field 2 ms = Some m -> parse_field 2 ds = Some d ->
  parse_field 2 hs = Some hh -> parse_field 2 mins = Some mm -> parse_field 2 secs = Some ss ->
  make_date y m d = Some n -> hh < 24 -> mm < 60 -> ss < 60 ->
  fromisoformat (replace_by "Z" "+00:00"
    (ys +:+ "-" +:+ ms +:+ "-" +:+ ds +:+ "T" +:+ hs +:+ ":" +:+ mins +:+ ":" +:+ secs +:+ "Z"))
  = Some (DateTime (n * day_us + ((hh * 60 + mm) * 60 + ss) * us_per_second) (Some 0)).
Proof.
  intros Hy Hm Hd Hh Hmi Hs Hn Hhh Hmm Hss.
  pose proof (parse_date_fields _ _ _ _ _ _ Hy Hm Hd) as Hdate.
  pose proof (parse_time_fields _ _ _ _ _ _ Hh Hmi Hs Hhh Hmm Hss) as Htime.
  rewrite !replace_by_app, (replace_by_digits _ _ ys), (replace_by_digits _ _ ms), (replace_by_digits _ _ ds),
    (replace_by_digits _ _ hs), (replace_by_digits _ _ mins), (replace_by_digits _ _ secs)
    by (done || by eapply parse_field_digits).
  change (replace_by "Z" "+00:00" "-") with "-". change (replace_by "Z" "+00:00" ":") with ":".
  change (replace_by "Z" "+00:00" "T") with "T". change (replace_by "Z" "+00:00" "Z") with "+00:00".
  set (tstr := hs +:+ _) in *.
  assert (Hne : (tstr == "") = false).
  { apply eqb_neq. unfold tstr. digit_string Hh. done. }
  digit_string Hy; digit_string Hm; digit_string Hd. clearbody tstr.
  unfold fromisoformat, find_separator. eval_string.
  cbn [String.append] in Hdate. rewrite some_bind. cbv beta iota zeta. cbn [Nat.add].
  rewrite Hdate, Hn, some_bind.
  match goal with |- context [(?n - 11)%nat] => replace (n - 11)%nat with (String.length tstr) by lia end.
  apply eqb_neq in Hne. rewrite substring_full, Hne, Htime, some_bind.
  done.
Qed.

(** Every instant of [datetime]'s range is printed in a form that is read back, to
    the second. *)
Lemma fromisoformat_utc_isoformat us :
  0 <= us + 719163 * day_us - day_us < max_ordinal * day_us ->
  fromisoformat (replace_by "Z" "+00:00" (utc_isoformat us)) =
    Some (DateTime ((us + 719163 * day_us) / us_per_second * us_per_second) (Some 0)).
Proof.
  intros Hus. unfold utc_isoformat. set (local := us + 719163 * day_us) in *.
  assert (Hd : day_us = 86400 * us_per_second) by reflexivity. assert (Hs : us_per_second = 1000000) by reflexivity.
  pose proof (make_date_ord2ymd (local / day_us)) as Hdate. unfold max_ordinal in *.
  destruct (ord2ymd (local / day_us)) as [[y m] d]. destruct Hdate as (Hdate & Hy & Hm & Hdd).
  { split; [apply Z.div_le_lower_bound; lia|]. apply Z.lt_succ_r, Z.div_lt_upper_bound; lia. }
  set (secs := local mod day_us / us_per_second).
  assert (0 <= secs < 86400).
  { unfold secs. pose proof (Z.mod_pos_bound local day_us ltac:(lia)).
    split; [apply Z.div_pos; lia|apply Z.div_lt_upper_bound; lia]. }
  erewrite fromisoformat_fields; [|by apply parse_zero_pad_4; lia|apply parse_zero_pad_2..|eassumption| | |].
  2-9: clear Hdate; clearbody secs; Z.to_euclidean_division_equations; lia.
  f_equal. f_equal. unfold secs. rewrite Hd, Hs.
  clear. Z.to_euclidean_division_equations. lia.
Qed.

Lemma add_hours_range now hours t :
  add_hours now hours = Ok t ->
  t = now + hours * 3600 * us_per_second /\ 0 <= t + 719163 * day_us - day_us < max_ordinal * day_us.
Proof.
  unfold add_hours, outside_datetime. case_match eqn:E; [done|]. intros [= <-]. simpl_bool.
  unfold min_datetime_us, max_datetime_us, unix_us in *. split; [done|]. lia.
Qed.
