(* ===== verification/Schema.v ===== *)
(** * Schema validation of evidence documents

    [src/cops/evidence/validation.py]: [_check], the small JSON Schema vocabulary
    the published schemas use, and the validators of envelopes and receipts.  A
    schema is a JSON document; the schema files are the argument [read_schema].
    The shapes of schema keywords are the ones JSON Schema gives them; a keyword of
    another shape is a [TypeError] here. *)

From S2P Require Import Prelude PyStr Json JsonParse PyRegex Timestamp.

(** ** Access to JSON values *)

(** [v.get(k, default)]; only dicts have the method. *)
Definition dict_get (k : string) (v default : json) : res json :=
  match v with
  | JObj items => Ok (assoc_default k items default)
  | _ => raise AttributeError "get"
  end.

(** [v.items()]. *)
Definition dict_items (v : json) : res (list (string * json)) :=
  match v with
  | JObj items => Ok items
  | _ => raise AttributeError "items"
  end.

(** [for x in v] over a list. *)
Definition list_items (v : json) : res (list json) :=
  match v with
  | JList xs => Ok xs
  | _ => raise TypeError "list"
  end.

Definition as_str (v : json) : res string :=
  match v with
  | JStr s => Ok s
  | _ => raise TypeError "str"
  end.

Definition as_int (v : json) : res Z :=
  match v with
  | JInt z => Ok z
  | _ => raise TypeError "int"
  end.

(** [k in d]. *)
Definition has_key (k : string) (items : list (string * json)) : bool := mem k (map fst items).

(** ** [_check] *)

(** [type(value) in kinds[t]]. *)
Definition kind_matches (t : string) (value : json) : res bool :=
  if t == "object" then Ok (is_dict value)
  else if t == "array" then Ok (is_list value)
  else if t == "string" then Ok (is_str value)
  else if t == "integer" then Ok (match value with JInt _ => true | _ => false end)
  else if t == "number" then Ok (match value with JInt _ | JFloat _ => true | _ => false end)
  else if t == "boolean" then Ok (match value with JBool _ => true | _ => false end)
  else if t == "null" then Ok (match value with JNull => true | _ => false end)
  else raise KeyError t.

(** [any(f(x) for x in xs)]. *)
Fixpoint res_any {A} (f : A -> res bool) (xs : list A) : res bool :=
  match xs with
  | [] => Ok false
  | x :: xs' => let? b := f x in if b then Ok true else res_any f xs'
  end.

Definition check_type (value schema : json) : res unit :=
  let? types :=
    match get "type" schema with
    | None => Ok ["object"; "array"; "string"; "integer"; "number"; "boolean"; "null"]
    | Some (JStr t) => Ok [t]
    | Some v => let? ts := list_items v in res_map as_str ts
    end in
  let? ok := res_any (fun t => kind_matches t value) types in
  raise_if negb ok as EvidenceError msg "invalid_contract" ;; Ok tt.

Definition check_const (value schema : json) : res unit :=
  raise_if match get "const" schema with Some c => negb (py_eq value c) | None => false end
    as EvidenceError msg "unsupported_version" ;; Ok tt.

Definition check_enum (value schema : json) : res unit :=
  match get "enum" schema with
  | Some v =>
      let? options := list_items v in
      raise_if negb (existsb (py_eq value) options) as EvidenceError msg "invalid_contract" ;; Ok tt
  | None => Ok tt
  end.

(** [lo <= n <= hi] with bounds read from the schema. *)
Definition check_range (n : Z) (lo_key hi_key : string) (hi_default : Z) (schema : json) : res unit :=
  let? lo := let? v := dict_get lo_key schema (JInt 0) in as_int v in
  let? hi := let? v := dict_get hi_key schema (JInt hi_default) in as_int v in
  raise_if negb ((lo <=? n) && (n <=? hi)) as EvidenceError msg "payload_limit" ;; Ok tt.

(** The keyword checks of a dict, up to the recursive calls. *)
Definition check_keys (items : list (string * json)) (schema : json) : res (list (string * json)) :=
  let? properties := let? v := dict_get "properties" schema (JObj []) in dict_items v in
  let? required := let? v := dict_get "required" schema (JList []) in let? vs := list_items v in res_map as_str vs in
  raise_if negb (forallb (fun k => has_key k items) required) as EvidenceError msg "missing_provenance" ;;
  raise_if (match get "additionalProperties" schema with Some (JBool false) => true | _ => false end) &&
           existsb (fun kv => negb (has_key (fst kv) properties)) items
    as EvidenceError msg "invalid_contract" ;;
  Ok properties.

Definition compile_pattern (v : json) : res regex :=
  let? p := as_str v in
  match compile p with
  | Some r => Ok r
  | None => raise ValueError "re.error"
  end.

Definition check_string (value : string) (schema : json) : res unit :=
  check_range (slen value) "minLength" "maxLength" 1048576 schema ;;?
  match get "pattern" schema with
  | Some p =>
      let? r := compile_pattern p in
      raise_if negb (re_search r value) as EvidenceError msg "invalid_contract" ;; Ok tt
  | None => Ok tt
  end ;;?
  match get "format" schema with
  | Some (JStr f) => if f == "date-time" then let? _ := timestamp (JStr value) in Ok tt else Ok tt
  | _ => Ok tt
  end.

(** [value < b] with a numeric bound. *)
Definition number_bound (k : string) (default : Z) (schema : json) : res pyfloat :=
  let? v := dict_get k schema (JInt default) in
  match number_of v with
  | Some n => Ok n
  | None => raise TypeError "number"
  end.

Definition check_number (value : pyfloat) (schema : json) : res unit :=
  let? lo := number_bound "minimum" 0 schema in
  raise_if num_ltb value lo as EvidenceError msg "invalid_contract" ;;
  let? hi := number_bound "maximum" (2 ^ 53) schema in
  raise_if num_ltb hi value as EvidenceError msg "invalid_contract" ;;
  Ok tt.

Section Check.
Context `{Host}.

(** [len({canonical(v) for v in value}) != len(value)]. *)
Definition check_unique (xs : list json) (schema : json) : res unit :=
  if match get "uniqueItems" schema with Some v => truthy v | None => false end then
    let? texts := res_map canonical xs in
    raise_if negb (Nat.eqb (length (remove_dups texts)) (length xs)) as EvidenceError msg "invalid_contract" ;; Ok tt
  else Ok tt.

Fixpoint _check (value schema : json) {struct value} : res unit :=
  raise_if negb (is_dict schema) as AttributeError msg "get" ;;
  check_type value schema ;;?
  check_const value schema ;;?
  check_enum value schema ;;?
  match value with
  | JObj items =>
      let? properties := check_keys items schema in
      (fix check_items (items : list (string * json)) : res unit :=
         match items with
         | [] => Ok tt
         | (key, item) :: items' =>
             match assoc key properties with
             | Some s => _check item s
             | None => Ok tt
             end ;;? check_items items'
         end) items
  | JList xs =>
      check_range (Z.of_nat (length xs)) "minItems" "maxItems" 10000 schema ;;?
      check_unique xs schema ;;?
      let? item_schema := dict_get "items" schema (JObj []) in
      (fix check_list (xs : list json) : res unit :=
         match xs with
         | [] => Ok tt
         | x :: xs' => _check x item_schema ;;? check_list xs'
         end) xs
  | JStr s => check_string s schema
  | JInt z => check_number (PyFin z 0) schema
  | JFloat f => check_number f schema
  | JNull | JBool _ => Ok tt
  end.

(** ** Evidence records *)

(** The files of [catalog/schemas]: [None] when there is no such file. *)
Variable read_schema : string -> option json.

Definition validate_document (document : json) (schema_name : string) (max_bytes max_depth : Z) : res unit :=
  canonical_bounded document max_bytes max_depth ;;?
  match read_schema schema_name with
  | None => raise RuntimeError "FileNotFoundError"
  | Some schema => _check document schema
  end.

(** [(v[a] is None) != (v[b] is not None)]: exactly one of the two is null. *)
Definition both_or_neither (a b : string) (v : json) : res bool :=
  let? x := getitem a v in
  let? y := getitem b v in
  Ok (Bool.eqb (match x with JNull => true | _ => false end) (match y with JNull => true | _ => false end)).

(** [v != sorted(v)] for a list of strings. *)
Definition unsorted (v : json) : res bool :=
  let? xs := list_items v in
  let? ss := res_map as_str xs in
  Ok (negb (ss == sorted_strings ss)).

(** [{k: v for k, v in item.items() if k != key}]. *)
Definition without_key (key : string) (v : json) : res json :=
  let? items := dict_items v in Ok (JObj (List.filter (fun kv => negb (fst kv == key)) items)).

Definition validate_envelope (item : json) (max_bytes max_depth : Z) : res json :=
  validate_document item "evidence-envelope.schema.json" max_bytes max_depth ;;?
  for_each ["observed"; "emitted"] (fun key =>
    let? observation := getitem key item in
    let? bad := both_or_neither "at" "unknown_reason" observation in
    raise_if bad as EvidenceError msg "missing_provenance" ;; Ok tt) ;;?
  let? source := getitem "source" item in
  let? region := getitem "region" source in
  let? bad := both_or_neither "value" "unknown_reason" region in
  raise_if bad as EvidenceError msg "missing_provenance" ;;
  let? transformed := let? v := getitem "transformed_at" item in timestamp v in
  let? acquired := let? v := getitem "acquired_at" item in timestamp v in
  raise_if transformed <? acquired as EvidenceError msg "invalid_timestamp" ;;
  let? unhashed := without_key "content_hash" item in
  let? d := digest_bounded unhashed max_bytes max_depth in
  let? content_hash := getitem "content_hash" item in
  raise_if negb (py_eq (JStr d) content_hash) as EvidenceError msg "integrity_mismatch" ;;
  let? scope := getitem "scope" source in
  let? disorder := unsorted scope in
  raise_if disorder as EvidenceError msg "invalid_contract" ;;
  let? product := getitem "product" source in
  let? tenant := getitem "tenant" source in
  let? ident := getitem "identity" source in
  let? version := getitem "version" source in
  let? payload := getitem "payload" item in
  let? payload_digest := digest_bounded payload max_bytes max_depth in
  let identity := JList [JStr "cops.record/v1"; product; tenant; scope; ident; version; JStr payload_digest] in
  let? record := digest_bounded identity max_bytes 32 in
  let? record_id := getitem "record_id" item in
  raise_if negb (py_eq (JStr record) record_id) as EvidenceError msg "integrity_mismatch" ;;
  Ok item.

Definition receipt_bounds : list (string * string) :=
  [("pages", "pages"); ("attempts", "attempts"); ("records", "records"); ("bytes", "total_bytes");
   ("storage_bytes", "storage_bytes"); ("active_seconds", "active_seconds")].

(** [a > b] on numbers. *)
Definition json_gt (a b : json) : res bool :=
  match number_of a, number_of b with
  | Some x, Some y => Ok (num_ltb y x)
  | _, _ => raise TypeError ">"
  end.

Definition validate_receipt (item : json) : res json :=
  validate_document item "acquisition-receipt.schema.json" 65536 32 ;;?
  let? finished := let? v := getitem "finished_at" item in timestamp v in
  let? started := let? v := getitem "started_at" item in timestamp v in
  raise_if finished <? started as EvidenceError msg "invalid_timestamp" ;;
  let? status := getitem "status" item in
  let? reasons := getitem "reasons" item in
  raise_if py_eq status (JStr "complete") && truthy reasons as EvidenceError msg "invalid_contract" ;;
  raise_if py_eq status (JStr "partial") && negb (truthy reasons) as EvidenceError msg "invalid_contract" ;;
  let? consumed := getitem "consumed" item in
  let? limits := getitem "limits" item in
  let? exceeded := res_any (fun '(counter, limit) =>
    let? a := getitem counter consumed in let? b := getitem limit limits in json_gt a b) receipt_bounds in
  raise_if exceeded as EvidenceError msg "invalid_contract" ;;
  let? scope := getitem "scope" item in
  let? disorder := unsorted scope in
  raise_if disorder as EvidenceError msg "invalid_contract" ;;
  Ok item.
End Check.
