(* ===== verification/Contracts.v ===== *)
(** * Contract validation

    [src/cops/contracts/validation.py]: identifiers, the schema and type maps and
    [validate_contract], with its checks for each contract type.  The schema files
    and the validators of [src/cops/reporting] that it calls for report documents
    are arguments. *)

From S2P Require Import Prelude Lifecycle PyStr Json PyRegex Timestamp Schema.

(** ** Identifiers *)

Definition IDENTIFIER_PATTERNS : list (string * string) := [
  ("engagement", "^eng-[a-z0-9_-]{4,64}$");
  ("scenario", "^(scen-[a-z0-9_-]{4,64}|COPS-[A-Z0-9_.-]+)$");
  ("action_plan", "^plan-[a-z0-9_-]{4,64}$");
  ("run_result", "^res-[a-z0-9_-]{4,64}$");
  ("finding", "^find-[a-z0-9_-]{4,64}$");
  ("execution_authorization", "^auth-[a-z0-9_-]{8,64}$");
  ("cleanup_receipt", "^cln-[a-z0-9_-]{4,64}$");
  ("specialist_handoff", "^hnd-[a-z0-9_-]{4,64}$");
  ("laboratory_environment", "^env-lab-[a-z0-9_-]{4,64}$");
  ("assessment_report", "^report-[a-z0-9_-]{4,64}$");
  ("assessment_input", "^report-[a-z0-9_-]{4,64}$");
  ("detection_validation_input", "^[A-Za-z0-9][A-Za-z0-9_-]{0,127}$");
  ("detection_validation_report", "^[A-Za-z0-9][A-Za-z0-9_-]{0,127}$");
  ("retest_input", "^retest-[a-z0-9_-]{4,64}$");
  ("retest_report", "^retest-[a-z0-9_-]{4,64}$")].

Definition SCHEMA_MAP : list (string * string) := [
  ("cops.engagement/v1", "engagement-contract.schema.json");
  ("cops.scenario/v1", "scenario-contract.schema.json");
  ("cops.action-plan/v1", "action-plan.schema.json");
  ("cops.run-result/v1", "run-result.schema.json");
  ("cops.finding/v1", "finding-contract.schema.json");
  ("cops.execution-authorization/v1", "execution-authorization.schema.json");
  ("cops.cleanup-receipt/v1", "cleanup-receipt.schema.json");
  ("cops.cleanup-receipt/v2", "cleanup-receipt-v2.schema.json");
  ("cops.specialist-handoff/v1", "specialist-handoff.schema.json");
  ("cops.laboratory-environment/v1", "laboratory-environment.schema.json");
  ("cops.assessment-report/v1", "assessment-report.schema.json");
  ("cops.assessment-input/v1", "assessment-input.schema.json");
  ("cops.detection-validation-input/v1", "detection-validation-input.schema.json");
  ("cops.detection-validation-report/v1", "detection-validation-report.schema.json");
  ("cops.retest-input/v1", "retest-input.schema.json");
  ("cops.retest-report/v1", "retest-report.schema.json");
  ("cops.laboratory-retest-evidence/v1", "laboratory-retest-evidence.schema.json")].

Definition TYPE_MAP : list (string * string) := [
  ("cops.engagement/v1", "engagement");
  ("cops.scenario/v1", "scenario");
  ("cops.action-plan/v1", "action_plan");
  ("cops.run-result/v1", "run_result");
  ("cops.finding/v1", "finding");
  ("cops.execution-authorization/v1", "execution_authorization");
  ("cops.cleanup-receipt/v1", "cleanup_receipt");
  ("cops.cleanup-receipt/v2", "cleanup_receipt");
  ("cops.specialist-handoff/v1", "specialist_handoff");
  ("cops.laboratory-environment/v1", "laboratory_environment");
  ("cops.assessment-report/v1", "assessment_report");
  ("cops.assessment-input/v1", "assessment_input");
  ("cops.detection-validation-input/v1", "detection_validation_input");
  ("cops.detection-validation-report/v1", "detection_validation_report");
  ("cops.retest-input/v1", "retest_input");
  ("cops.retest-report/v1", "retest_report");
  ("cops.laboratory-retest-evidence/v1", "laboratory_retest_evidence")].

Definition validate_identifier (identifier : json) (kind : string) : res unit :=
  match identifier with
  | JStr s =>
      match assoc kind IDENTIFIER_PATTERNS with
      | None => raise ContractError "invalid_contract"
      | Some pattern =>
          raise_if negb (fullmatch pattern s) as ContractError msg "malformed_identifier" ;; Ok tt
      end
  | _ => raise ContractError "malformed_identifier"
  end.

(** [validate_identifier(document[field], kind)]. *)
Definition validate_field (document : json) (field kind : string) : res unit :=
  let? v := getitem field document in validate_identifier v kind.

Definition id_field_map : list (string * string) := [
  ("engagement", "engagement_id");
  ("scenario", "scenario_id");
  ("action_plan", "plan_id");
  ("run_result", "result_id");
  ("finding", "finding_id");
  ("execution_authorization", "authorization_id");
  ("cleanup_receipt", "receipt_id");
  ("specialist_handoff", "handoff_id");
  ("laboratory_environment", "environment_id");
  ("assessment_report", "report_id");
  ("assessment_input", "report_id");
  ("detection_validation_input", "validation_id");
  ("detection_validation_report", "validation_id");
  ("retest_input", "retest_id");
  ("retest_report", "retest_id")].

(** ** Shared checks *)

(** The [try] around [canonical] and [_check]: the code of the error is kept. *)
Definition as_contract_error {A} (r : res A) : res A :=
  catch (fun e => exc_cls e == EvidenceError) r (fun e => raise ContractError (exc_msg e)).

Definition secret_markers : list string := ["bearer "; "ghp_"; "eyj"; "pass"].

(** The leak check over [credential_references]. *)
Definition check_credentials (document : json) : res unit :=
  let? refs := let? v := dict_get "credential_references" document (JList []) in list_items v in
  for_each refs (fun v =>
    match v with
    | JStr s =>
        raise_if existsb (fun marker => contains marker (lower s)) secret_markers
          as ContractError msg "credential_leak_detected" ;; Ok tt
    | _ => raise AttributeError "lower"
    end).

(** [timestamp(document[field])]. *)
Definition field_timestamp (document : json) (field : string) : res Z :=
  let? v := getitem field document in timestamp v.

(** The second timestamp may not precede the first. *)
Definition check_window (document : json) (first second : string) : res unit :=
  let? a := field_timestamp document first in
  let? b := field_timestamp document second in
  raise_if b <? a as ContractError msg "invalid_timestamp" ;; Ok tt.

Definition str_is (v : json) (s : string) : bool := py_eq v (JStr s).

(** [v in {a, b, ...}] for strings. *)
Definition in_strings (v : json) (xs : list string) : bool := existsb (str_is v) xs.

(** [v in xs] for a set of strings: lists and dicts are unhashable. *)
Definition in_set (v : json) (xs : list string) : res bool :=
  match v with
  | JList _ | JObj _ => raise TypeError "unhashable"
  | _ => Ok (in_strings v xs)
  end.

Section Contracts.
Context `{Host}.
Variable read_schema : string -> option json.

(** The semantic validators of the reporting package, by contract type. *)
Variable report_semantics : string -> json -> res unit.

Definition build_action_plan_digest (snapshot : json) (max_bytes : Z) : res string :=
  digest_bounded snapshot max_bytes 32.

Definition workflow_target_checksum (target : json) : res string :=
  let? d := digest target in Ok ("sha256:" +:+ d).

Definition evaluate_run_result (result : json) : res bool :=
  let? status := dict_get "status" result JNull in Ok (str_is status "success").

(** The plan content its digest covers. *)
Definition plan_snapshot (items : list (string * json)) : json :=
  JObj (List.filter (fun kv => negb (mem (fst kv) ["status"; "plan_digest"])) items).

Definition check_engagement (document : json) : res unit :=
  validate_field document "engagement_id" "engagement" ;;?
  let? window := getitem "window" document in
  check_window window "started_at" "authorized_until_utc" ;;?
  check_credentials document.

Definition check_scenario (document : json) : res unit :=
  validate_field document "scenario_id" "scenario" ;;?
  let? family := let? v := getitem "family_id" document in as_str v in
  raise_if negb (fullmatch "^COPS-[A-Z0-9_.-]+$" family) as ContractError msg "malformed_identifier" ;; Ok tt.

Definition check_action_plan (document : json) (max_bytes : Z) : res unit :=
  validate_field document "plan_id" "action_plan" ;;?
  validate_field document "engagement_id" "engagement" ;;?
  validate_field document "scenario_id" "scenario" ;;?
  check_credentials document ;;?
  let? items := dict_items document in
  let? expected_digest := build_action_plan_digest (plan_snapshot items) max_bytes in
  let? plan_digest := getitem "plan_digest" document in
  raise_if negb (str_is plan_digest expected_digest) as ContractError msg "integrity_mismatch" ;; Ok tt.

Definition check_execution_authorization (document : json) : res unit :=
  validate_field document "authorization_id" "execution_authorization" ;;?
  validate_field document "action_plan_id" "action_plan" ;;?
  validate_field document "engagement_id" "engagement" ;;?
  check_window document "issued_at" "authorized_until_utc" ;;?
  let? status := dict_get "status" document JNull in
  let? consumed_at := dict_get "consumed_at" document JNull in
  let? worker := dict_get "consumed_by_worker" document JNull in
  raise_if str_is status "consumed" && (negb (truthy consumed_at) || negb (truthy worker))
    as ContractError msg "missing_consumption_metadata" ;; Ok tt.

Definition check_run_result (document : json) : res unit :=
  validate_field document "result_id" "run_result" ;;?
  validate_field document "plan_id" "action_plan" ;;?
  validate_field document "engagement_id" "engagement" ;;?
  check_window document "started_at" "finished_at" ;;?
  let? status := getitem "status" document in
  let? known := in_set status RUN_RESULT_STATUSES in
  raise_if negb known as ContractError msg "invalid_contract" ;;
  if str_is status "success" then Ok tt
  else
    let? details := dict_get "status_details" document (JObj []) in
    let? reason := dict_get "reason" details JNull in
    raise_if match reason with JStr s => strip s == "" | _ => true end as ContractError msg "missing_reason" ;; Ok tt.

Definition check_finding (document : json) : res unit :=
  validate_field document "finding_id" "finding" ;;?
  validate_field document "engagement_id" "engagement" ;;?
  validate_field document "result_id" "run_result" ;;?
  validate_field document "scenario_id" "scenario" ;;?
  let? verification := getitem "verification" document in
  let? refs := dict_get "evidence_references" document (JList []) in
  raise_if str_is verification "verified" && negb (truthy refs) as ContractError msg "missing_evidence_reference" ;;
  Ok tt.

Definition check_cleanup_receipt (document : json) : res unit :=
  validate_field document "receipt_id" "cleanup_receipt" ;;?
  validate_field document "plan_id" "action_plan" ;;?
  validate_field document "engagement_id" "engagement" ;;?
  check_window document "created_at" "completed_at" ;;?
  let? status := getitem "status" document in
  let? unresolved := dict_get "unresolved_effects" document JNull in
  raise_if str_is status "failed" && negb (truthy unresolved) as ContractError msg "missing_unresolved_effects" ;;
  Ok tt.

(** The entries of the transition log that accept the handoff. *)
Definition accepted_entries (log : json) : res (list json) :=
  let? entries := list_items log in
  let? flags := res_map (fun entry => let? v := dict_get "to_status" entry JNull in Ok (str_is v "accepted", entry)) entries in
  Ok (map snd (List.filter fst flags)).

Definition check_specialist_handoff (document : json) : res unit :=
  validate_field document "handoff_id" "specialist_handoff" ;;?
  validate_field document "engagement_id" "engagement" ;;?
  validate_field document "action_plan_id" "action_plan" ;;?
  let? status := getitem "status" document in
  let? resolved := in_set status ["accepted"; "in_review"; "completed"] in
  if resolved then
    let? target := let? task := getitem "task" document in dict_get "workflow_target" task JNull in
    match target with
    | JObj items =>
        raise_if negb (has_key "implementation" items && has_key "implementation_digest" items)
          as ContractError msg "missing_workflow_target" ;;
        let? accepted := let? log := getitem "transition_log" document in accepted_entries log in
        match accepted with
        | [entry] =>
            let? stored := dict_get "workflow_target_checksum" entry JNull in
            let? checksum := workflow_target_checksum target in
            raise_if negb (str_is stored checksum) as ContractError msg "invalid_workflow_target_checksum" ;; Ok tt
        | _ => raise ContractError "invalid_workflow_target_checksum"
        end
    | _ => raise ContractError "missing_workflow_target"
    end
  else Ok tt.

Definition check_laboratory_environment (document : json) : res unit :=
  validate_field document "environment_id" "laboratory_environment" ;;?
  check_window document "created_at" "updated_at".

(** The branch of [validate_contract] for [expected_type]. *)
Definition check_invariants (expected_type : string) (document : json) (max_bytes : Z) : res unit :=
  if expected_type == "engagement" then check_engagement document
  else if expected_type == "scenario" then check_scenario document
  else if expected_type == "action_plan" then check_action_plan document max_bytes
  else if expected_type == "execution_authorization" then check_execution_authorization document
  else if expected_type == "run_result" then check_run_result document
  else if expected_type == "finding" then check_finding document
  else if expected_type == "cleanup_receipt" then check_cleanup_receipt document
  else if expected_type == "specialist_handoff" then check_specialist_handoff document
  else if expected_type == "laboratory_environment" then check_laboratory_environment document
  else if mem expected_type ["assessment_report"; "detection_validation_input"; "detection_validation_report";
                             "retest_input"; "retest_report"]
  then report_semantics expected_type document
  else Ok tt.

(** The schema version of a document and the contract type it stands for. *)
Definition contract_type_of (document : json) : res (string * string) :=
  let? version := dict_get "schema_version" document JNull in
  match version with
  | JStr v =>
      match assoc v SCHEMA_MAP, assoc v TYPE_MAP with
      | Some file, Some t => Ok (file, t)
      | _, _ => raise ContractError "unsupported_version"
      end
  | JList (_ :: _) | JObj (_ :: _) => raise TypeError "unhashable"
  | _ => raise ContractError "unsupported_version"
  end.

Definition validate_contract (document : json) (contract_type : option string) (max_bytes max_depth : Z) : res json :=
  as_contract_error (canonical_bounded document max_bytes max_depth) ;;?
  let? (schema_file, expected_type) := contract_type_of document in
  raise_if match contract_type with
           | Some t => negb (replace_char "-" "_" t == expected_type)
           | None => false
           end as ContractError msg "invalid_contract" ;;
  match read_schema schema_file with
  | None => raise ContractError "invalid_contract"
  | Some schema =>
      match assoc expected_type id_field_map with
      | Some field =>
          match get field document with
          | Some v => validate_identifier v expected_type
          | None => Ok tt
          end
      | None => Ok tt
      end ;;?
      as_contract_error (_check document schema) ;;?
      check_invariants expected_type document max_bytes ;;?
      Ok document
  end.
End Contracts.

(** ** Lemmas *)

Lemma str_is_refl s : str_is (JStr s) s = true.
Proof. unfold str_is. simpl. apply eqb_refl. Qed.

Lemma str_is_eq v s : str_is v s = true -> v = JStr s.
Proof. unfold str_is. destruct v; try done. simpl. by intros ->%eqb_true. Qed.

(** What an accepted document has passed. *)
Lemma validate_contract_ok `{Host} read_schema report_semantics document kind max_bytes max_depth d :
  validate_contract read_schema report_semantics document (Some kind) max_bytes max_depth = Ok d ->
  d = document /\ (exists t, canonical_bounded document max_bytes max_depth = Ok t) /\
  (exists file version schema, get "schema_version" document = Some (JStr version) /\
     assoc version SCHEMA_MAP = Some file /\ assoc version TYPE_MAP = Some (replace_char "-" "_" kind) /\
     read_schema file = Some schema /\ _check document schema = Ok tt) /\
  check_invariants report_semantics (replace_char "-" "_" kind) document max_bytes = Ok tt.
Proof.
  unfold validate_contract, as_contract_error. intros Hv.
  apply res_bind_ok in Hv as (t & Ht & Hv). rewrite catch_ok in Ht by done.
  apply res_bind_ok in Hv as ([file expected] & Hty & Hv). guard_ok Hv. simpl_bool. subst expected.
  destruct (read_schema file) as [schema|] eqn:Hschema; [|done].
  apply res_bind_ok in Hv as ([] & _ & Hv). apply res_bind_ok in Hv as ([] & Hcheck & Hv). rewrite catch_ok in Hcheck by done.
  apply res_bind_ok in Hv as ([] & Hinv & Hv). injection Hv as <-.
  split; [done|]. split; [by exists t|]. split; [|done].
  unfold contract_type_of in Hty. apply res_bind_ok in Hty as (v & Hver & Hty).
  destruct v as [| | | |version|[]|[]]; try done.
  destruct (assoc version SCHEMA_MAP) as [f|] eqn:Hs; [|done].
  destruct (assoc version TYPE_MAP) as [ty|] eqn:Htm; [|done]. injection Hty as -> ->.
  exists file, version, schema. split; [|done].
  unfold dict_get, assoc_default in Hver. destruct document; try done. simpl.
  destruct (assoc "schema_version" items); [by injection Hver as ->|]. done.
Qed.

(** The second timestamp of a checked window does not precede the first. *)
Lemma check_window_ok document first second :
  check_window document first second = Ok tt ->
  exists a b v w, getitem first document = Ok v /\ getitem second document = Ok w /\
    timestamp v = Ok a /\ timestamp w = Ok b /\ a <= b.
Proof.
  unfold check_window, field_timestamp. intros Hv.
  apply res_bind_ok in Hv as (a & Ha & Hv). apply res_bind_ok in Ha as (v & Hv1 & Ha).
  apply res_bind_ok in Hv as (b & Hb & Hv). apply res_bind_ok in Hb as (w & Hw1 & Hb).
  guard_ok Hv. simpl_bool. exists a, b, v, w. done.
Qed.

Lemma timestamp_truthy v t : timestamp v = Ok t -> truthy v = true.
Proof.
  destruct v as [| | | |s| |]; try done. intros Ht. simpl. apply negb_true_iff, eqb_neq. intros ->.
  vm_compute in Ht. done.
Qed.
