(* ===== verification/Equivalence.v ===== *)
(** * Validation does not depend on key order

    Documents with distinct keys that are equal up to the order of keys have the
    same fields, the same canonical text and the same validation outcome.  The
    outcomes of two calls are related by [res_rel]: both return related values or
    both raise. *)

From S2P Require Import Prelude Lifecycle PyStr Json JsonFacts Canonical Documents PyRegex Timestamp.
From S2P Require Import Schema Contracts.

(** ** Related outcomes *)

Inductive res_rel {A B} (R : A -> B -> Prop) : res A -> res B -> Prop :=
| rel_ok a b : R a b -> res_rel R (Ok a) (Ok b)
| rel_raise e e' : res_rel R (Raise e) (Raise e').

#[export] Hint Constructors res_rel : same.

Lemma res_rel_bind {A B C D} (R : A -> B -> Prop) (S : C -> D -> Prop) r r' (f : A -> res C) (g : B -> res D) :
  res_rel R r r' -> (forall a b, R a b -> res_rel S (f a) (g b)) -> res_rel S (res_bind r f) (res_bind r' g).
Proof. intros [a b Hab|e e'] Hfg; simpl; [by apply Hfg|constructor]. Qed.

Lemma res_rel_if {A B} (R : A -> B -> Prop) (b b' : bool) r1 r2 r1' r2' :
  b = b' -> res_rel R r1 r1' -> res_rel R r2 r2' -> res_rel R (if b then r1 else r2) (if b' then r1' else r2').
Proof. intros ->. by destruct b'. Qed.

Lemma res_rel_refl {A} (r : res A) : res_rel eq r r.
Proof. by destruct r; constructor. Qed.

Lemma res_rel_ok {A B} (R : A -> B -> Prop) r r' a : res_rel R r r' -> r = Ok a -> exists b, r' = Ok b /\ R a b.
Proof. intros [? b ?|] [= ->]. by exists b. Qed.

Lemma res_rel_for_each {A B} (R : A -> B -> Prop) xs ys f g :
  Forall2 R xs ys -> (forall x y, R x y -> res_rel eq (f x) (g y)) -> res_rel eq (for_each xs f) (for_each ys g).
Proof.
  intros Hxy Hfg. induction Hxy as [|x y xs ys Hx _ IH]; simpl; [apply res_rel_refl|].
  eapply res_rel_bind; [by apply Hfg|]. intros ? ? _. exact IH.
Qed.

Lemma res_rel_map {A B C D} (R : A -> B -> Prop) (S : C -> D -> Prop) xs ys f g :
  Forall2 R xs ys -> (forall x y, R x y -> res_rel S (f x) (g y)) -> res_rel (Forall2 S) (res_map f xs) (res_map g ys).
Proof.
  intros Hxy Hfg. induction Hxy as [|x y xs ys Hx _ IH]; simpl; [repeat constructor|].
  eapply res_rel_bind; [by apply Hfg|]. intros a b Hab. eapply res_rel_bind; [exact IH|]. intros l l' Hl.
  constructor. by constructor.
Qed.

(** ** Documents with the same content *)

Definition same_doc (v w : json) : Prop := json_equiv v w /\ keys_unique v = true /\ keys_unique w = true.

#[export] Instance same_doc_sym : Symmetric same_doc.
Proof. intros v w (H & ? & ?). split; [by symmetry|done]. Qed.

Lemma same_doc_refl v : keys_unique v = true -> same_doc v v.
Proof. by split. Qed.

Lemma json_sort_idemp v : json_sort (json_sort v) = json_sort v.
Proof.
  induction v as [|b|z|f|s|xs IH|items IH] using json_ind'; try done; cbn [json_sort]; f_equal.
  - rewrite map_map. induction IH as [|x xs Hx _ IHx]; simpl; [done|]. by rewrite Hx, IHx.
  - rewrite <- (sort_items_map (fun kv => (fst kv, json_sort (snd kv)))) by done.
    rewrite sort_items_idemp, map_map. f_equal.
    induction IH as [|[k x] items Hx _ IHx]; simpl in *; [done|]. by rewrite Hx, IHx.
Qed.

Lemma keys_unique_json_sort v : keys_unique (json_sort v) = keys_unique v.
Proof.
  induction v as [|b|z|f|s|xs IH|items IH] using json_ind'; try done; cbn [json_sort keys_unique].
  - by apply forallb_map_Forall.
  - rewrite (forallb_perm _ _ _ (sort_items_perm _)). f_equal; [|by apply forallb_map_Forall].
    unfold nodupb. apply bool_decide_ext. rewrite sort_items_keys, map_map. done.
Qed.

Lemma same_doc_sort v : keys_unique v = true -> same_doc v (json_sort v).
Proof.
  intros Hk. split; [|split; [done|by rewrite keys_unique_json_sort]]. unfold json_equiv. by rewrite json_sort_idemp.
Qed.

(** The two sides of a pair of same documents have the same shape. *)
Inductive same_shape : json -> json -> Prop :=
| same_scalar v : is_list v = false -> is_dict v = false -> same_shape v v
| same_list xs ys : Forall2 same_doc xs ys -> same_shape (JList xs) (JList ys)
| same_dict d1 d2 :
    map fst d1 ≡ₚ map fst d2 ->
    (forall k, match assoc k d1, assoc k d2 with
               | Some v, Some w => same_doc v w
               | None, None => True
               | _, _ => False
               end) ->
    NoDup (map fst d1) -> NoDup (map fst d2) -> same_shape (JObj d1) (JObj d2).

Lemma same_doc_shape v w : same_doc v w -> same_shape v w.
Proof.
  intros (Heq & Hv & Hw).
  destruct v as [| | | | |xs|d1], w as [| | | | |ys|d2]; unfold json_equiv in Heq; cbn [json_sort] in Heq; try discriminate Heq;
    try (by constructor); try (injection Heq as ->; by constructor).
  - constructor. injection Heq as Heq. cbn [keys_unique] in Hv, Hw.
    revert ys Heq Hw. induction xs as [|x xs IH]; intros [|y ys] Heq Hw; try discriminate Heq; [constructor|].
    simpl in Hv, Hw. apply andb_true_iff in Hv as [? ?], Hw as [? ?]. injection Heq as Hx Hxs.
    constructor; [done|]. by apply IH.
  - pose proof (keys_unique_nodup _ Hv) as N1. pose proof (keys_unique_nodup _ Hw) as N2. constructor; try done.
    + injection Heq as Heq.
      assert (Hp : forall d : list (string * json),
        map fst (sort_items (map (fun kv => (fst kv, json_sort (snd kv))) d)) ≡ₚ map fst d).
      { intros d. rewrite sort_items_keys, map_map. done. }
      rewrite <- (Hp d1), <- (Hp d2). by rewrite Heq.
    + intros k. pose proof (json_equiv_lookup k d1 d2 Hv Hw Heq) as Hk.
      destruct (assoc k d1) as [v|] eqn:E1, (assoc k d2) as [w|] eqn:E2; simplify_eq/=; try done.
      split; [done|]. split; [exact (keys_unique_entry k d1 v Hv E1)|exact (keys_unique_entry k d2 w Hw E2)].
Qed.

(** ** Accessors *)

Lemma get_same k v w : same_doc v w ->
  match get k v, get k w with Some x, Some y => same_doc x y | None, None => True | _, _ => False end.
Proof. intros [x Hl Hd|xs ys _|d1 d2 _ Hk _ _]%same_doc_shape; simpl; [by destruct x|done|apply Hk]. Qed.

Lemma getitem_same k v w : same_doc v w -> res_rel same_doc (getitem k v) (getitem k w).
Proof.
  intros [x Hl Hd|xs ys _|d1 d2 _ Hk _ _]%same_doc_shape; simpl; [destruct x; try done; constructor|constructor|].
  specialize (Hk k). destruct (assoc k d1), (assoc k d2); try done; by constructor.
Qed.

Lemma dict_get_same k v w d : same_doc v w -> keys_unique d = true -> res_rel same_doc (dict_get k v d) (dict_get k w d).
Proof.
  intros [x Hl Hd|xs ys _|d1 d2 _ Hk _ _]%same_doc_shape Hu; simpl; [destruct x; try done; constructor|constructor|].
  specialize (Hk k). unfold assoc_default. destruct (assoc k d1), (assoc k d2); try done; by constructor.
Qed.

Lemma list_items_same v w : same_doc v w -> res_rel (Forall2 same_doc) (list_items v) (list_items w).
Proof. intros [x Hl Hd|xs ys Hxy|d1 d2 _ _ _ _]%same_doc_shape; simpl; [destruct x; try done; constructor|by constructor|constructor]. Qed.

Lemma as_str_same v w : same_doc v w -> res_rel eq (as_str v) (as_str w).
Proof. intros [x Hl Hd|xs ys Hxy|d1 d2 _ _ _ _]%same_doc_shape; simpl; [apply res_rel_refl|constructor..]. Qed.

Lemma timestamp_same v w : same_doc v w -> res_rel eq (timestamp v) (timestamp w).
Proof. intros [x Hl Hd|xs ys Hxy|d1 d2 _ _ _ _]%same_doc_shape; simpl; [apply res_rel_refl|constructor..]. Qed.

Lemma truthy_same v w : same_doc v w -> truthy v = truthy w.
Proof.
  intros [x Hl Hd|xs ys Hxy|d1 d2 Hp _ _ _]%same_doc_shape; [done|by inversion Hxy|].
  apply Permutation_length in Hp. rewrite !length_map in Hp. by destruct d1, d2.
Qed.

Lemma same_str s w : same_doc (JStr s) w -> w = JStr s.
Proof. intros [H _]. by apply json_equiv_str. Qed.

(** Python equality does not depend on the order of keys. *)
Lemma py_eq_sort v : forall c, py_eq (json_sort v) c = py_eq v c.
Proof.
  induction v as [|b|z|f|s|xs IH|items IH] using json_ind'; intros c; try done; destruct c as [| | | | |ys|ys]; try done.
  - cbn [json_sort py_eq]. revert ys. induction IH as [|x xs Hx _ IHx]; intros [|y ys]; simpl; try done. by rewrite Hx, IHx.
  - cbn [json_sort py_eq]. rewrite (Permutation_length (sort_items_perm _)), length_map. f_equal.
    assert (Hfix : forall l : list (string * json),
      (fix items_eq (xs : list (string * json)) : bool :=
         match xs with
         | [] => true
         | (k, x) :: xs' => match assoc k ys with Some y => py_eq x y && items_eq xs' | None => false end
         end) l = forallb (fun kv => match assoc (fst kv) ys with Some y => py_eq (snd kv) y | None => false end) l).
    { induction l as [|[k x] l IHl]; [done|]. cbn [forallb fst snd]. destruct (assoc k ys); [by rewrite IHl|done]. }
    rewrite !Hfix, (forallb_perm _ _ _ (sort_items_perm _)). apply forallb_map_Forall.
    eapply Forall_impl; [exact IH|]. intros [k x] Hx. simpl in *. destruct (assoc k ys); [apply Hx|done].
Qed.

Lemma py_eq_same v w c : same_doc v w -> py_eq v c = py_eq w c.
Proof. intros [H _]. rewrite <- (py_eq_sort v c), <- (py_eq_sort w c). by rewrite H. Qed.

Lemma str_is_same v w s : same_doc v w -> str_is v s = str_is w s.
Proof. apply py_eq_same. Qed.

(** ** Schemas *)

Section Checks.
Context `{HostOk}.

Lemma canonical_json_equiv v w mb md :
  json_equiv v w -> res_rel eq (canonical_bounded v mb md) (canonical_bounded w mb md).
Proof.
  intros Heq.
  assert (Hiff : forall t, canonical_bounded v mb md = Ok t <-> canonical_bounded w mb md = Ok t).
  { intros t. rewrite !canonical_bounded_ok, <- (json_depth_json_sort v), <- (json_depth_json_sort w),
      <- (all_finite_json_sort v), <- (all_finite_json_sort w), <- (printable_json_sort v), <- (printable_json_sort w).
    rewrite <- (dumps_json_sort false v), <- (dumps_json_sort false w). by rewrite Heq. }
  destruct (canonical_bounded v mb md) as [t|e], (canonical_bounded w mb md) as [u|e'].
  - assert (Ok u = Ok t) as [= ->] by (by apply Hiff). by constructor.
  - by pose proof (proj1 (Hiff t) eq_refl).
  - by pose proof (proj2 (Hiff u) eq_refl).
  - constructor.
Qed.

Lemma canonical_same v w mb md : same_doc v w -> res_rel eq (canonical_bounded v mb md) (canonical_bounded w mb md).
Proof. intros [Heq _]. by apply canonical_json_equiv. Qed.

Lemma digest_json_equiv v w mb md : json_equiv v w -> res_rel eq (digest_bounded v mb md) (digest_bounded w mb md).
Proof.
  intros Hs. unfold digest_bounded. eapply res_rel_bind; [by apply canonical_json_equiv|]. intros a b ->. by constructor.
Qed.

Lemma digest_same v w mb md : same_doc v w -> res_rel eq (digest_bounded v mb md) (digest_bounded w mb md).
Proof. intros [Heq _]. by apply digest_json_equiv. Qed.

Lemma has_key_same k (d1 d2 : list (string * json)) : map fst d1 ≡ₚ map fst d2 -> has_key k d1 = has_key k d2.
Proof.
  intros Hp. unfold has_key. destruct (mem k (map fst d1)) eqn:E; symmetry.
  - apply mem_In, list_elem_of_In. rewrite <- Hp. by apply list_elem_of_In, mem_In.
  - apply mem_not_In. apply mem_not_In in E. intros Hin. apply E. apply list_elem_of_In. rewrite Hp. by apply list_elem_of_In.
Qed.

Lemma existsb_perm {A} (p : A -> bool) xs ys : xs ≡ₚ ys -> existsb p xs = existsb p ys.
Proof. induction 1; simpl; try congruence. by rewrite !orb_assoc, (orb_comm (p y)). Qed.

Lemma existsb_keys {A} (p : string -> bool) (d : list (string * A)) :
  existsb (fun kv => p (fst kv)) d = existsb p (map fst d).
Proof. induction d as [|kv d IH]; simpl; [done|]. by rewrite IH. Qed.

Lemma check_keys_same d1 d2 schema : map fst d1 ≡ₚ map fst d2 -> check_keys d1 schema = check_keys d2 schema.
Proof.
  intros Hp. unfold check_keys. destruct (let? v := dict_get _ _ _ in dict_items v) as [properties|]; [|done].
  cbn [res_bind]. destruct (let? v := dict_get _ _ _ in _) as [required|]; [|done]. cbn [res_bind].
  assert (forallb (fun k => has_key k d1) required = forallb (fun k => has_key k d2) required) as ->.
  { induction required as [|k ks IH]; simpl; [done|]. by rewrite IH, (has_key_same k d1 d2). }
  by rewrite !(existsb_keys (fun k => negb (has_key k properties))), (existsb_perm _ _ _ Hp).
Qed.

Lemma check_unique_same xs ys schema :
  Forall2 same_doc xs ys -> res_rel eq (check_unique xs schema) (check_unique ys schema).
Proof.
  intros Hxy. unfold check_unique. destruct (match get _ _ with Some v => truthy v | None => false end); [|apply res_rel_refl].
  eapply (res_rel_bind (Forall2 eq)).
  - eapply res_rel_map; [exact Hxy|]. intros x y Hs. by apply canonical_same.
  - intros a b ->%list_eq_Forall2. rewrite (Forall2_length _ _ _ Hxy). apply res_rel_refl.
Qed.

Lemma kind_matches_same t v w : same_doc v w -> kind_matches t v = kind_matches t w.
Proof.
  intros [x _ _|xs ys _|d1 d2 _ _ _ _]%same_doc_shape; [done|reflexivity..].
Qed.

Lemma res_any_ext {A} (f g : A -> res bool) xs : (forall x, f x = g x) -> res_any f xs = res_any g xs.
Proof. intros Hfg. induction xs as [|x xs IH]; simpl; [done|]. by rewrite Hfg, IH. Qed.

Lemma check_head_same v w schema : same_doc v w ->
  check_type v schema = check_type w schema /\ check_const v schema = check_const w schema /\
  check_enum v schema = check_enum w schema.
Proof.
  intros Hs. split_and!.
  - unfold check_type. destruct (match get "type" schema with None => _ | Some _ => _ end) as [types|]; [|done]. cbn [res_bind].
    by rewrite (res_any_ext _ (fun t => kind_matches t w)) by (intros; by apply kind_matches_same).
  - unfold check_const. destruct (get "const" schema); [by rewrite (py_eq_same v w)|done].
  - unfold check_enum. destruct (get "enum" schema) as [e|]; [|done]. destruct (list_items e) as [options|]; [|done].
    cbn [res_bind]. assert (existsb (py_eq v) options = existsb (py_eq w) options) as ->; [|done].
    induction options as [|o os IH]; simpl; [done|]. by rewrite IH, (py_eq_same v w).
Qed.

(** The loops of [_check] over the items of a dict and of a list. *)
Lemma check_items_ok properties items :
  (fix check_items (items : list (string * json)) : res unit :=
     match items with
     | [] => Ok tt
     | (key, item) :: items' =>
         match assoc key properties with Some s => _check item s | None => Ok tt end ;;? check_items items'
     end) items = Ok tt <->
  Forall (fun kv => match assoc (fst kv) properties with Some s => _check (snd kv) s = Ok tt | None => True end) items.
Proof.
  induction items as [|[k x] items IH]; [by split; [constructor|]|]. rewrite Forall_cons, <- IH. cbn [fst snd].
  destruct (assoc k properties) as [s|]; [|cbn [res_bind]; tauto].
  destruct (_check x s) as [[]|e]; simpl; [tauto|]. split; [done|by intros [? _]].
Qed.

Lemma check_list_ok s xs :
  (fix check_list (xs : list json) : res unit :=
     match xs with [] => Ok tt | x :: xs' => _check x s ;;? check_list xs' end) xs = Ok tt <->
  Forall (fun x => _check x s = Ok tt) xs.
Proof.
  induction xs as [|x xs IH]; [by split; [constructor|]|]. rewrite Forall_cons, <- IH.
  destruct (_check x s) as [[]|e]; simpl; [tauto|]. split; [done|by intros [? _]].
Qed.

Lemma bind_unit_ok (r : res unit) (k : res unit) : (r ;;? k) = Ok tt <-> r = Ok tt /\ k = Ok tt.
Proof. destruct r as [[]|e]; simpl; [tauto|]. split; [done|by intros [? _]]. Qed.

(** Validation against a schema does not depend on the order of keys. *)
Lemma check_same v : forall w schema, same_doc v w -> _check v schema = Ok tt <-> _check w schema = Ok tt.
Proof.
  induction v as [|b|z|f|s|xs IH|items IH] using json_ind'; intros w schema Hs;
    pose proof (check_head_same _ _ schema Hs) as (Et & Ec & Ee); pose proof (same_doc_shape _ _ Hs) as Hshape;
    inversion Hshape as [v' _ _ E1 E2|xs' ys Hxy E1 E2|d1 d2 Hp Hk N1 N2 E1 E2]; subst; try done.
  - cbn [_check]. destruct (negb (is_dict schema)); [done|]. rewrite Et, Ec, Ee, (Forall2_length _ _ _ Hxy), !bind_unit_ok.
    do 4 (apply and_iff_compat_l).
    pose proof (check_unique_same xs ys schema Hxy) as Hu.
    destruct (dict_get "items" schema (JObj [])) as [item_schema|]; [|by split; intros [? ?]]. cbn [res_bind].
    rewrite !check_list_ok.
    assert (check_unique xs schema = Ok tt <-> check_unique ys schema = Ok tt) as -> by (by inversion Hu as [[] [] _|]).
    apply and_iff_compat_l. clear -IH Hxy. revert ys Hxy. induction IH as [|x xs Hx _ IHx]; intros ys Hxy; inversion Hxy as [|? y ? l' H2 H4]; subst; [done|].
    rewrite (list.Forall_cons _ x xs), (list.Forall_cons _ y l'), (IHx l' H4), (Hx y item_schema H2). done.
  - cbn [_check]. destruct (negb (is_dict schema)); [done|]. rewrite Et, Ec, Ee, (check_keys_same _ _ _ Hp), !bind_unit_ok.
    do 3 (apply and_iff_compat_l). destruct (check_keys d2 schema) as [properties|]; [|done]. cbn [res_bind].
    rewrite !check_items_ok, !list.Forall_forall. rewrite list.Forall_forall in IH. split.
    + intros Hall [k y] Hin%list_elem_of_In. specialize (Hk k). rewrite (proj2 (assoc_In_nodup k d2 y N2) Hin) in Hk.
      destruct (assoc k items) as [x|] eqn:Ex; [|done]. apply assoc_In, list_elem_of_In in Ex.
      specialize (Hall _ Ex). simpl in *. destruct (assoc k properties) as [s|]; [|done]. by apply (IH _ Ex).
    + intros Hall [k x] Hin. pose proof (proj1 (list_elem_of_In _ _) Hin) as Hin'. specialize (Hk k).
      rewrite (proj2 (assoc_In_nodup k items x N1) Hin') in Hk.
      destruct (assoc k d2) as [y|] eqn:Ey; [|done]. apply assoc_In, list_elem_of_In in Ey.
      specialize (Hall _ Ey). simpl in *. destruct (assoc k properties) as [s|]; [|done]. by apply (IH _ Hin y s Hk).
Qed.
End Checks.

(** ** Contract checks

    One step of a pair of calls on same documents: the lemmas of the accessors relate
    the leaves, the rest is the structure the two calls share. *)

#[export] Hint Resolve getitem_same dict_get_same list_items_same as_str_same timestamp_same str_is_same
  truthy_same : same.

Lemma res_rel_eq_ok {A} (r r' : res A) a : res_rel eq r r' -> r = Ok a -> r' = Ok a.
Proof. intros H Hr. by destruct (res_rel_ok _ _ _ _ H Hr) as (b & -> & <-). Qed.

Ltac same_step :=
  first
    [ apply res_rel_refl
    | apply rel_raise
    | assumption
    | eapply res_rel_bind; [ solve [eauto with same] | intros ? ? ? ]
    | apply res_rel_if ].

Lemma in_strings_same v w xs : same_doc v w -> in_strings v xs = in_strings w xs.
Proof. intros Hs. unfold in_strings. induction xs as [|x xs IH]; simpl; [done|]. by rewrite IH, (str_is_same v w). Qed.

Lemma in_set_same v w xs : same_doc v w -> res_rel eq (in_set v xs) (in_set w xs).
Proof.
  intros Hs. pose proof (in_strings_same v w xs Hs) as Hin. unfold in_set.
  destruct (same_doc_shape _ _ Hs) as [x Hl Hd|? ? _|? ? _ _ _ _]; [|constructor..].
  destruct x; try done; by constructor.
Qed.

Lemma validate_identifier_same v w kind : same_doc v w -> res_rel eq (validate_identifier v kind) (validate_identifier w kind).
Proof.
  intros Hs. destruct (same_doc_shape _ _ Hs) as [x _ _|? ? _|? ? _ _ _ _]; [apply res_rel_refl|constructor..].
Qed.

Lemma validate_field_same v w field kind : same_doc v w -> res_rel eq (validate_field v field kind) (validate_field w field kind).
Proof.
  intros Hs. unfold validate_field. eapply res_rel_bind; [by apply getitem_same|]. intros. by apply validate_identifier_same.
Qed.

Lemma field_timestamp_same v w field : same_doc v w -> res_rel eq (field_timestamp v field) (field_timestamp w field).
Proof. intros Hs. unfold field_timestamp. eapply res_rel_bind; [by apply getitem_same|]. intros. by apply timestamp_same. Qed.

Lemma check_window_same v w f1 f2 : same_doc v w -> res_rel eq (check_window v f1 f2) (check_window w f1 f2).
Proof.
  intros Hs. unfold check_window. eapply res_rel_bind; [by apply field_timestamp_same|]. intros a ? <-.
  eapply res_rel_bind; [by apply field_timestamp_same|]. intros b ? <-. apply res_rel_refl.
Qed.

Lemma check_credentials_same v w : same_doc v w -> res_rel eq (check_credentials v) (check_credentials w).
Proof.
  intros Hs. unfold check_credentials. eapply (res_rel_bind (Forall2 same_doc)).
  - eapply res_rel_bind; [by apply dict_get_same|]. intros. by apply list_items_same.
  - intros xs ys Hxy. eapply res_rel_for_each; [exact Hxy|]. intros x y Hx.
    destruct (same_doc_shape _ _ Hx) as [z _ _|? ? _|? ? _ _ _ _]; [apply res_rel_refl|constructor..].
Qed.

#[export] Hint Resolve validate_identifier_same validate_field_same check_window_same check_credentials_same in_set_same : same.
#[export] Hint Extern 0 (keys_unique _ = true) => reflexivity : same.

Lemma filter_perm {A} (p : A -> bool) l l' : l ≡ₚ l' -> List.filter p l ≡ₚ List.filter p l'.
Proof.
  induction 1 as [|x l l' _ IH|x y l|l1 l2 l3 _ IH1 _ IH2]; simpl; [done|..].
  - destruct (p x); by rewrite ?IH.
  - destruct (p x), (p y); try done. apply perm_swap.
  - by rewrite IH1.
Qed.

Lemma select_map {A B} p (f : A -> B) items :
  select p (map (fun kv => (fst kv, f (snd kv))) items) = map (fun kv => (fst kv, f (snd kv))) (select p items).
Proof. induction items as [|[k x] items IH]; simpl; [done|]. destruct (p k); simpl; by rewrite IH. Qed.

(** The same part of same dicts. *)
Lemma select_same p d1 d2 : same_doc (JObj d1) (JObj d2) -> same_doc (JObj (select p d1)) (JObj (select p d2)).
Proof.
  intros (Heq & U1 & U2). split; [|split; by apply keys_unique_select].
  unfold json_equiv in *. cbn [json_sort] in *. f_equal. injection Heq as Heq.
  assert (Hp : map (fun kv => (fst kv, json_sort (snd kv))) d1 ≡ₚ map (fun kv => (fst kv, json_sort (snd kv))) d2).
  { by rewrite <- sort_items_perm, Heq, sort_items_perm. }
  rewrite <- !select_map. apply sort_items_perm_eq; [|by apply filter_perm].
  apply NoDup_select. rewrite map_map. by apply keys_unique_nodup.
Qed.

Lemma dict_items_same v w : same_doc v w ->
  res_rel (fun d1 d2 => same_doc (JObj d1) (JObj d2)) (dict_items v) (dict_items w).
Proof.
  intros Hs. destruct (same_doc_shape _ _ Hs) as [x _ Hd|? ? _|? ? _ _ _ _]; [|constructor|by constructor].
  destruct x; try done; constructor.
Qed.

Lemma filter_flags_same (l l' : list (bool * json)) :
  Forall2 (fun p q => fst p = fst q /\ same_doc (snd p) (snd q)) l l' ->
  Forall2 same_doc (map snd (List.filter fst l)) (map snd (List.filter fst l')).
Proof.
  induction 1 as [|[b x] [b' y] l l' [E Hx] _ IH]; simpl in *; [constructor|]. subst b'.
  destruct b; simpl; [by constructor|done].
Qed.

Lemma accepted_entries_same v w : same_doc v w -> res_rel (Forall2 same_doc) (accepted_entries v) (accepted_entries w).
Proof.
  intros Hs. unfold accepted_entries. eapply res_rel_bind; [by apply list_items_same|]. intros xs ys Hxy.
  eapply res_rel_bind.
  - eapply (res_rel_map _ (fun p q => fst p = fst q /\ same_doc (snd p) (snd q))); [exact Hxy|]. intros x y Hx.
    eapply res_rel_bind; [by eapply dict_get_same|]. intros a b Hab. constructor. split; [by apply str_is_same|done].
  - intros l l' Hl. constructor. by apply filter_flags_same.
Qed.

Section ContractChecks.
Context `{HostOk}.

Lemma check_engagement_same v w : same_doc v w -> res_rel eq (check_engagement v) (check_engagement w).
Proof. intros Hs. unfold check_engagement. repeat same_step; eauto with same. Qed.

Lemma check_scenario_same v w : same_doc v w -> res_rel eq (check_scenario v) (check_scenario w).
Proof.
  intros Hs. unfold check_scenario. same_step. eapply (res_rel_bind eq); [by repeat same_step; eauto with same|].
  intros ? ? <-. apply res_rel_refl.
Qed.

Lemma check_action_plan_same v w mb : same_doc v w -> res_rel eq (check_action_plan v mb) (check_action_plan w mb).
Proof.
  intros Hs. unfold check_action_plan. do 4 same_step. eapply res_rel_bind; [by apply dict_items_same|]. intros d1 d2 Hd.
  eapply res_rel_bind; [apply digest_same; by apply (select_same (fun k => negb (mem k _)))|]. intros h ? <-.
  repeat same_step. f_equal. by apply str_is_same.
Qed.

Lemma check_execution_authorization_same v w :
  same_doc v w -> res_rel eq (check_execution_authorization v) (check_execution_authorization w).
Proof.
  intros Hs. unfold check_execution_authorization. repeat same_step. f_equal; [by apply str_is_same|].
  f_equal; f_equal; by apply truthy_same.
Qed.

Lemma check_run_result_same v w : same_doc v w -> res_rel eq (check_run_result v) (check_run_result w).
Proof.
  intros Hs. unfold check_run_result. do 5 same_step. eapply res_rel_bind; [by apply in_set_same|]. intros ? ? <-.
  repeat same_step; [reflexivity|by apply str_is_same|].
  match goal with Hx : same_doc ?x ?y |- match ?x with _ => _ end = _ =>
    destruct (same_doc_shape _ _ Hx); reflexivity end.
Qed.

Lemma check_finding_same v w : same_doc v w -> res_rel eq (check_finding v) (check_finding w).
Proof.
  intros Hs. unfold check_finding. repeat same_step. f_equal; [by apply str_is_same|]. f_equal. by apply truthy_same.
Qed.

Lemma check_cleanup_receipt_same v w : same_doc v w -> res_rel eq (check_cleanup_receipt v) (check_cleanup_receipt w).
Proof.
  intros Hs. unfold check_cleanup_receipt. repeat same_step. f_equal; [by apply str_is_same|]. f_equal. by apply truthy_same.
Qed.

Lemma check_specialist_handoff_same v w :
  same_doc v w -> res_rel eq (check_specialist_handoff v) (check_specialist_handoff w).
Proof.
  intros Hs. unfold check_specialist_handoff. do 4 same_step. eapply res_rel_bind; [by apply in_set_same|]. intros ? ? <-.
  apply res_rel_if; [done| |apply res_rel_refl]. eapply (res_rel_bind same_doc); [by repeat same_step; eauto with same|].
  intros t1 t2 Ht. destruct (same_doc_shape _ _ Ht) as [x Hl Hd|? ? _|d1 d2 Hp _ _ _]; [destruct x; try done; constructor|constructor|].
  apply res_rel_if; [by rewrite !(has_key_same _ _ _ Hp)|constructor|].
  eapply (res_rel_bind (Forall2 same_doc)).
  { eapply res_rel_bind; [by apply getitem_same|]. intros. by apply accepted_entries_same. }
  intros l l' Hl. destruct Hl as [|e e' l l' He [|]]; [constructor| |constructor].
  same_step. eapply (res_rel_bind eq).
  - unfold workflow_target_checksum, digest. eapply res_rel_bind; [by apply digest_same|]. intros ? ? <-. constructor. done.
  - intros s ? <-. repeat same_step. f_equal. by apply str_is_same.
Qed.

Lemma check_laboratory_environment_same v w :
  same_doc v w -> res_rel eq (check_laboratory_environment v) (check_laboratory_environment w).
Proof. intros Hs. unfold check_laboratory_environment. repeat same_step; eauto with same. Qed.
End ContractChecks.

(** ** Whole contracts *)

(** The contract types whose invariants the reporting package checks. *)
Definition report_types : list string :=
  ["assessment_report"; "detection_validation_input"; "detection_validation_report"; "retest_input"; "retest_report"].

Section Validation.
Context `{HostOk}.
Variable read_schema : string -> option json.
Variable report_semantics : string -> json -> res unit.

Lemma check_invariants_same t v w mb :
  same_doc v w -> mem t report_types = false ->
  res_rel eq (check_invariants report_semantics t v mb) (check_invariants report_semantics t w mb).
Proof.
  intros Hs Ht. unfold check_invariants. fold report_types. rewrite Ht.
  repeat match goal with |- context [if (t == ?k) then _ else _] => destruct (t == k); [|] end;
    auto using check_engagement_same, check_scenario_same, check_action_plan_same,
      check_execution_authorization_same, check_run_result_same, check_finding_same,
      check_cleanup_receipt_same, check_specialist_handoff_same, check_laboratory_environment_same, res_rel_refl.
Qed.

Lemma as_contract_error_same {A} (r r' : res A) :
  res_rel eq r r' -> res_rel eq (as_contract_error r) (as_contract_error r').
Proof.
  intros [a b ->|e e']; unfold as_contract_error, catch; [by constructor|].
  destruct (exc_cls e == EvidenceError), (exc_cls e' == EvidenceError); constructor.
Qed.

Lemma contract_type_of_same v w : same_doc v w -> res_rel eq (contract_type_of v) (contract_type_of w).
Proof.
  intros Hs. unfold contract_type_of. eapply res_rel_bind; [by apply dict_get_same|]. intros a b Hab.
  destruct (same_doc_shape _ _ Hab) as [x _ _|xs ys _|d1 d2 _ _ _ _]; [apply res_rel_refl| |].
  - destruct xs, ys; constructor.
  - destruct d1, d2; constructor.
Qed.

Lemma check_id_same v w t : same_doc v w ->
  res_rel eq
    match assoc t id_field_map with
    | Some field => match get field v with Some x => validate_identifier x t | None => Ok tt end
    | None => Ok tt
    end
    match assoc t id_field_map with
    | Some field => match get field w with Some x => validate_identifier x t | None => Ok tt end
    | None => Ok tt
    end.
Proof.
  intros Hs. destruct (assoc t id_field_map) as [field|]; [|apply res_rel_refl].
  pose proof (get_same field v w Hs) as Hg. destruct (get field v), (get field w); try done; [|apply res_rel_refl].
  by apply validate_identifier_same.
Qed.

Lemma schema_check_same v w schema : same_doc v w -> res_rel eq (_check v schema) (_check w schema).
Proof.
  intros Hs. pose proof (check_same v w schema Hs) as [H1 H2].
  destruct (_check v schema) as [[]|e], (_check w schema) as [[]|e']; try (by constructor).
  - by specialize (H1 eq_refl).
  - by specialize (H2 eq_refl).
Qed.

(** The two verdicts on documents with the same content agree. *)
Lemma validate_contract_same v w kind mb md :
  same_doc v w -> (forall f t, contract_type_of v = Ok (f, t) -> mem t report_types = false) ->
  res_rel same_doc (validate_contract read_schema report_semantics v kind mb md)
                   (validate_contract read_schema report_semantics w kind mb md).
Proof.
  intros Hs Hty. unfold validate_contract.
  eapply res_rel_bind; [apply as_contract_error_same; by apply canonical_same|]. intros _ _ _.
  destruct (contract_type_of_same v w Hs) as [[f t] ? <-|]; [|constructor]. cbn [res_bind]. specialize (Hty f t eq_refl).
  destruct (match kind with Some _ => _ | None => _ end); [constructor|].
  destruct (read_schema f) as [schema|]; [|constructor].
  eapply res_rel_bind; [by apply check_id_same|]. intros _ _ _.
  eapply res_rel_bind; [apply as_contract_error_same; by apply schema_check_same|]. intros _ _ _.
  eapply res_rel_bind; [by apply check_invariants_same|]. intros _ _ _. by constructor.
Qed.
End Validation.
