(* ===== verification/Models.v ===== *)
(** * Contract models

    [src/cops/contracts/models.py]: the nine contract types, their construction
    from a validated document ([from_dict]), their documents ([to_dict]) and their
    lifecycles.  The fields of a Python object are not typed at run time, so each
    is a JSON value; an optional field that is [None] is [JNull].  [X_of_dict] is
    the constructor call of [X.from_dict], after [validate_contract]; the class
    [ContractModel] is the interface the types share. *)

From S2P Require Import Prelude Lifecycle PyStr Json JsonFacts Canonical Timestamp Schema Contracts.

(** ** Shared pieces *)

(** [if v is not None: result[k] = v]. *)
Definition optional (k : string) (v : json) : list (string * json) :=
  match v with
  | JNull => []
  | _ => [(k, v)]
  end.

(** [validate_transition(self.status, next_state, kind)] on an untyped status. *)
Definition transition_status (status : json) (next_state kind : string) : res unit :=
  match status with
  | JStr s => validate_transition s next_state kind
  | JList _ | JObj _ => raise TypeError "unhashable"
  | _ => raise ContractError "invalid_contract"
  end.

(** Values made immutable: tuples and mapping proxies. *)
Inductive frozen :=
| FzScalar (v : json)
| FzTuple (xs : list frozen)
| FzMap (items : list (string * frozen)).

Fixpoint _freeze (v : json) : frozen :=
  match v with
  | JObj items => FzMap (map (fun kv => (fst kv, _freeze (snd kv))) items)
  | JList xs => FzTuple (map _freeze xs)
  | _ => FzScalar v
  end.

Fixpoint _thaw (v : frozen) : json :=
  match v with
  | FzMap items => JObj (map (fun kv => (fst kv, _thaw (snd kv))) items)
  | FzTuple xs => JList (map _thaw xs)
  | FzScalar v => v
  end.

(** [len(v)]. *)
Definition json_len (v : json) : res Z :=
  match v with
  | JList xs => Ok (Z.of_nat (length xs))
  | JObj items => Ok (Z.of_nat (length items))
  | JStr s => Ok (slen s)
  | _ => raise TypeError "len"
  end.

(** [v or d]. *)
Definition json_or (v d : json) : json := if truthy v then v else d.

(** ** Plain records *)

Record Engagement := {
  eng_schema_version : json; eng_engagement_id : json; eng_name : json; eng_status : json; eng_scope : json;
  eng_window : json; eng_operator : json; eng_rules_of_engagement : json; eng_created_at : json;
  eng_metadata : json; eng_mode : json; eng_budget : json; eng_credential_references : json
}.

Definition Engagement_to_dict (x : Engagement) : json :=
  JObj ([("schema_version", eng_schema_version x); ("engagement_id", eng_engagement_id x);
         ("name", eng_name x); ("status", eng_status x); ("scope", eng_scope x); ("window", eng_window x);
         ("operator", eng_operator x); ("rules_of_engagement", eng_rules_of_engagement x);
         ("created_at", eng_created_at x)]
        ++ optional "mode" (eng_mode x)
        ++ optional "budget" (eng_budget x)
        ++ optional "credential_references" (eng_credential_references x)
        ++ optional "metadata" (eng_metadata x)).

Definition Engagement_of_dict (data : json) : res Engagement :=
  let? schema_version := getitem "schema_version" data in
  let? engagement_id := getitem "engagement_id" data in
  let? name := getitem "name" data in
  let? status := getitem "status" data in
  let? scope := getitem "scope" data in
  let? window := getitem "window" data in
  let? operator := getitem "operator" data in
  let? rules_of_engagement := getitem "rules_of_engagement" data in
  let? created_at := getitem "created_at" data in
  let? metadata := dict_get "metadata" data JNull in
  let? mode := dict_get "mode" data JNull in
  let? budget := dict_get "budget" data JNull in
  let? credential_references := dict_get "credential_references" data JNull in
  Ok {| eng_schema_version := schema_version; eng_engagement_id := engagement_id; eng_name := name;
        eng_status := status; eng_scope := scope; eng_window := window; eng_operator := operator;
        eng_rules_of_engagement := rules_of_engagement; eng_created_at := created_at; eng_metadata := metadata;
        eng_mode := mode; eng_budget := budget; eng_credential_references := credential_references |}.

Record Scenario := {
  scen_schema_version : json; scen_scenario_id : json; scen_family_id : json; scen_title : json;
  scen_description : json; scen_mitre_attack : json; scen_provenance : json; scen_environment : json;
  scen_safety_profile : json
}.

Definition Scenario_to_dict (x : Scenario) : json :=
  JObj ([("schema_version", scen_schema_version x); ("scenario_id", scen_scenario_id x);
         ("family_id", scen_family_id x); ("title", scen_title x); ("description", scen_description x);
         ("mitre_attack", scen_mitre_attack x); ("provenance", scen_provenance x);
         ("environment", scen_environment x); ("safety_profile", scen_safety_profile x)]).

Definition Scenario_of_dict (data : json) : res Scenario :=
  let? schema_version := getitem "schema_version" data in
  let? scenario_id := getitem "scenario_id" data in
  let? family_id := getitem "family_id" data in
  let? title := getitem "title" data in
  let? description := getitem "description" data in
  let? mitre_attack := getitem "mitre_attack" data in
  let? provenance := getitem "provenance" data in
  let? environment := getitem "environment" data in
  let? safety_profile := getitem "safety_profile" data in
  Ok {| scen_schema_version := schema_version; scen_scenario_id := scenario_id; scen_family_id := family_id;
        scen_title := title; scen_description := description; scen_mitre_attack := mitre_attack;
        scen_provenance := provenance; scen_environment := environment; scen_safety_profile := safety_profile |}.

Record RunResult := {
  run_schema_version : json; run_result_id : json; run_plan_id : json; run_engagement_id : json;
  run_status : json; run_started_at : json; run_finished_at : json; run_status_details : json;
  run_evidence_records : json; run_artifacts : json; run_cleanup_status : json; run_worker_identity : json;
  run_exit_code : json; run_offline_research : json
}.

Definition RunResult_to_dict (x : RunResult) : json :=
  JObj ([("schema_version", run_schema_version x); ("result_id", run_result_id x); ("plan_id", run_plan_id x);
         ("engagement_id", run_engagement_id x); ("status", run_status x); ("started_at", run_started_at x);
         ("finished_at", run_finished_at x); ("exit_code", run_exit_code x);
         ("status_details", run_status_details x); ("evidence_records", run_evidence_records x);
         ("artifacts", run_artifacts x); ("cleanup_status", run_cleanup_status x);
         ("worker_identity", run_worker_identity x)]
        ++ optional "offline_research" (run_offline_research x)).

Definition RunResult_of_dict (data : json) : res RunResult :=
  let? schema_version := getitem "schema_version" data in
  let? result_id := getitem "result_id" data in
  let? plan_id := getitem "plan_id" data in
  let? engagement_id := getitem "engagement_id" data in
  let? status := getitem "status" data in
  let? started_at := getitem "started_at" data in
  let? finished_at := getitem "finished_at" data in
  let? exit_code := dict_get "exit_code" data JNull in
  let? status_details := getitem "status_details" data in
  let? evidence_records := getitem "evidence_records" data in
  let? artifacts := getitem "artifacts" data in
  let? cleanup_status := getitem "cleanup_status" data in
  let? worker_identity := getitem "worker_identity" data in
  let? offline_research := dict_get "offline_research" data JNull in
  Ok {| run_schema_version := schema_version; run_result_id := result_id; run_plan_id := plan_id;
        run_engagement_id := engagement_id; run_status := status; run_started_at := started_at;
        run_finished_at := finished_at; run_exit_code := exit_code; run_status_details := status_details;
        run_evidence_records := evidence_records; run_artifacts := artifacts;
        run_cleanup_status := cleanup_status; run_worker_identity := worker_identity;
        run_offline_research := offline_research |}.

Record Finding := {
  find_schema_version : json; find_finding_id : json; find_engagement_id : json; find_result_id : json;
  find_scenario_id : json; find_title : json; find_severity : json; find_classification : json;
  find_verification : json; find_confidence : json; find_claim : json; find_evidence_references : json;
  find_mitre_attack : json; find_remediation : json; find_uncertainty : json; find_created_at : json
}.

Definition Finding_to_dict (x : Finding) : json :=
  JObj ([("schema_version", find_schema_version x); ("finding_id", find_finding_id x);
         ("engagement_id", find_engagement_id x); ("result_id", find_result_id x);
         ("scenario_id", find_scenario_id x); ("title", find_title x); ("severity", find_severity x);
         ("classification", find_classification x); ("verification", find_verification x);
         ("confidence", find_confidence x); ("claim", find_claim x);
         ("evidence_references", find_evidence_references x); ("mitre_attack", find_mitre_attack x);
         ("remediation", find_remediation x); ("uncertainty", find_uncertainty x);
         ("created_at", find_created_at x)]).

Definition Finding_of_dict (data : json) : res Finding :=
  let? schema_version := getitem "schema_version" data in
  let? finding_id := getitem "finding_id" data in
  let? engagement_id := getitem "engagement_id" data in
  let? result_id := getitem "result_id" data in
  let? scenario_id := getitem "scenario_id" data in
  let? title := getitem "title" data in
  let? severity := getitem "severity" data in
  let? classification := getitem "classification" data in
  let? verification := getitem "verification" data in
  let? confidence := getitem "confidence" data in
  let? claim := getitem "claim" data in
  let? evidence_references := getitem "evidence_references" data in
  let? mitre_attack := getitem "mitre_attack" data in
  let? remediation := getitem "remediation" data in
  let? uncertainty := getitem "uncertainty" data in
  let? created_at := getitem "created_at" data in
  Ok {| find_schema_version := schema_version; find_finding_id := finding_id;
        find_engagement_id := engagement_id; find_result_id := result_id; find_scenario_id := scenario_id;
        find_title := title; find_severity := severity; find_classification := classification;
        find_verification := verification; find_confidence := confidence; find_claim := claim;
        find_evidence_references := evidence_references; find_mitre_attack := mitre_attack;
        find_remediation := remediation; find_uncertainty := uncertainty; find_created_at := created_at |}.

Record CleanupReceipt := {
  clean_schema_version : json; clean_receipt_id : json; clean_plan_id : json; clean_engagement_id : json;
  clean_worker_identity : json; clean_status : json; clean_created_at : json; clean_completed_at : json;
  clean_cleaned_effects : json; clean_unresolved_effects : json; clean_evidence_hash : json
}.

Definition CleanupReceipt_to_dict (x : CleanupReceipt) : json :=
  JObj ([("schema_version", clean_schema_version x); ("receipt_id", clean_receipt_id x);
         ("plan_id", clean_plan_id x); ("engagement_id", clean_engagement_id x);
         ("worker_identity", clean_worker_identity x); ("status", clean_status x);
         ("created_at", clean_created_at x); ("completed_at", clean_completed_at x);
         ("cleaned_effects", clean_cleaned_effects x); ("unresolved_effects", clean_unresolved_effects x);
         ("evidence_hash", clean_evidence_hash x)]).

Definition CleanupReceipt_of_dict (data : json) : res CleanupReceipt :=
  let? schema_version := getitem "schema_version" data in
  let? receipt_id := getitem "receipt_id" data in
  let? plan_id := getitem "plan_id" data in
  let? engagement_id := getitem "engagement_id" data in
  let? worker_identity := getitem "worker_identity" data in
  let? status := getitem "status" data in
  let? created_at := getitem "created_at" data in
  let? completed_at := getitem "completed_at" data in
  let? cleaned_effects := getitem "cleaned_effects" data in
  let? unresolved_effects := getitem "unresolved_effects" data in
  let? evidence_hash := getitem "evidence_hash" data in
  Ok {| clean_schema_version := schema_version; clean_receipt_id := receipt_id; clean_plan_id := plan_id;
        clean_engagement_id := engagement_id; clean_worker_identity := worker_identity; clean_status := status;
        clean_created_at := created_at; clean_completed_at := completed_at;
        clean_cleaned_effects := cleaned_effects; clean_unresolved_effects := unresolved_effects;
        clean_evidence_hash := evidence_hash |}.

Record SpecialistHandoff := {
  hand_schema_version : json; hand_handoff_id : json; hand_engagement_id : json; hand_action_plan_id : json;
  hand_status : json; hand_sender : json; hand_recipient : json; hand_task : json;
  hand_material_plan_digest : json; hand_approval_status : json; hand_created_at : json;
  hand_transition_log : json; hand_evidence : json; hand_rejection_reason : json
}.

Definition SpecialistHandoff_to_dict (x : SpecialistHandoff) : json :=
  JObj ([("schema_version", hand_schema_version x); ("handoff_id", hand_handoff_id x);
         ("engagement_id", hand_engagement_id x); ("action_plan_id", hand_action_plan_id x);
         ("status", hand_status x); ("sender", hand_sender x); ("recipient", hand_recipient x);
         ("task", hand_task x); ("material_plan_digest", hand_material_plan_digest x);
         ("approval_status", hand_approval_status x); ("created_at", hand_created_at x);
         ("transition_log", hand_transition_log x)]
        ++ optional "evidence" (hand_evidence x)
        ++ optional "rejection_reason" (hand_rejection_reason x)).

Definition SpecialistHandoff_of_dict (data : json) : res SpecialistHandoff :=
  let? schema_version := getitem "schema_version" data in
  let? handoff_id := getitem "handoff_id" data in
  let? engagement_id := getitem "engagement_id" data in
  let? action_plan_id := getitem "action_plan_id" data in
  let? status := getitem "status" data in
  let? sender := getitem "sender" data in
  let? recipient := getitem "recipient" data in
  let? task := getitem "task" data in
  let? material_plan_digest := getitem "material_plan_digest" data in
  let? approval_status := getitem "approval_status" data in
  let? created_at := getitem "created_at" data in
  let? transition_log := getitem "transition_log" data in
  let? evidence := dict_get "evidence" data JNull in
  let? rejection_reason := dict_get "rejection_reason" data JNull in
  Ok {| hand_schema_version := schema_version; hand_handoff_id := handoff_id;
        hand_engagement_id := engagement_id; hand_action_plan_id := action_plan_id; hand_status := status;
        hand_sender := sender; hand_recipient := recipient; hand_task := task;
        hand_material_plan_digest := material_plan_digest; hand_approval_status := approval_status;
        hand_created_at := created_at; hand_transition_log := transition_log; hand_evidence := evidence;
        hand_rejection_reason := rejection_reason |}.

Record LaboratoryEnvironment := {
  lab_schema_version : json; lab_environment_id : json; lab_environment_type : json; lab_status : json;
  lab_platform : json; lab_tool_matrix : json; lab_isolation : json; lab_canary : json;
  lab_reset_configuration : json; lab_owner : json; lab_created_at : json; lab_updated_at : json
}.

Definition LaboratoryEnvironment_to_dict (x : LaboratoryEnvironment) : json :=
  JObj ([("schema_version", lab_schema_version x); ("environment_id", lab_environment_id x);
         ("environment_type", lab_environment_type x); ("status", lab_status x); ("platform", lab_platform x);
         ("tool_matrix", lab_tool_matrix x); ("isolation", lab_isolation x); ("canary", lab_canary x);
         ("reset_configuration", lab_reset_configuration x); ("owner", lab_owner x);
         ("created_at", lab_created_at x); ("updated_at", lab_updated_at x)]).

Definition LaboratoryEnvironment_of_dict (data : json) : res LaboratoryEnvironment :=
  let? schema_version := getitem "schema_version" data in
  let? environment_id := getitem "environment_id" data in
  let? environment_type := getitem "environment_type" data in
  let? status := getitem "status" data in
  let? platform := getitem "platform" data in
  let? tool_matrix := getitem "tool_matrix" data in
  let? isolation := getitem "isolation" data in
  let? canary := getitem "canary" data in
  let? reset_configuration := getitem "reset_configuration" data in
  let? owner := getitem "owner" data in
  let? created_at := getitem "created_at" data in
  let? updated_at := getitem "updated_at" data in
  Ok {| lab_schema_version := schema_version; lab_environment_id := environment_id;
        lab_environment_type := environment_type; lab_status := status; lab_platform := platform;
        lab_tool_matrix := tool_matrix; lab_isolation := isolation; lab_canary := canary;
        lab_reset_configuration := reset_configuration; lab_owner := owner; lab_created_at := created_at;
        lab_updated_at := updated_at |}.

(** ** Transitions of the records with a lifecycle *)

Definition Engagement_transition_to (x : Engagement) (next_state : string) : res Engagement :=
  transition_status (eng_status x) next_state "engagement" ;;?
  Ok {| eng_schema_version := eng_schema_version x; eng_engagement_id := eng_engagement_id x; eng_name := eng_name x;
        eng_status := JStr next_state; eng_scope := eng_scope x; eng_window := eng_window x;
        eng_operator := eng_operator x; eng_rules_of_engagement := eng_rules_of_engagement x;
        eng_created_at := eng_created_at x; eng_metadata := eng_metadata x; eng_mode := eng_mode x;
        eng_budget := eng_budget x; eng_credential_references := eng_credential_references x |}.

(** [now_iso] is the reading of [utc_now]. *)
Definition SpecialistHandoff_transition_to (x : SpecialistHandoff) (next_state actor now_iso : string)
    (notes : option string) : res SpecialistHandoff :=
  transition_status (hand_status x) next_state "specialist_handoff" ;;?
  let log_entry := JObj ([("from_status", hand_status x); ("to_status", JStr next_state); ("actor", JStr actor);
                          ("timestamp", JStr now_iso)] ++
                         match notes with
                         | Some n => if n == "" then [] else [("notes", JStr n)]
                         | None => []
                         end) in
  match hand_transition_log x with
  | JList log =>
      Ok {| hand_schema_version := hand_schema_version x; hand_handoff_id := hand_handoff_id x;
            hand_engagement_id := hand_engagement_id x; hand_action_plan_id := hand_action_plan_id x;
            hand_status := JStr next_state; hand_sender := hand_sender x; hand_recipient := hand_recipient x;
            hand_task := hand_task x; hand_material_plan_digest := hand_material_plan_digest x;
            hand_approval_status := hand_approval_status x; hand_created_at := hand_created_at x;
            hand_transition_log := JList (log ++ [log_entry]); hand_evidence := hand_evidence x;
            hand_rejection_reason := hand_rejection_reason x |}
  | _ => raise AttributeError "append"
  end.

Definition LaboratoryEnvironment_transition_to (x : LaboratoryEnvironment) (next_state now_iso : string)
    : res LaboratoryEnvironment :=
  transition_status (lab_status x) next_state "laboratory_environment" ;;?
  Ok {| lab_schema_version := lab_schema_version x; lab_environment_id := lab_environment_id x;
        lab_environment_type := lab_environment_type x; lab_status := JStr next_state;
        lab_platform := lab_platform x; lab_tool_matrix := lab_tool_matrix x; lab_isolation := lab_isolation x;
        lab_canary := lab_canary x; lab_reset_configuration := lab_reset_configuration x; lab_owner := lab_owner x;
        lab_created_at := lab_created_at x; lab_updated_at := JStr now_iso |}.

Definition RunResult_is_successful (x : RunResult) : res bool := evaluate_run_result (RunResult_to_dict x).

(** ** Action plans *)

Record ActionPlan := {
  plan_schema_version : json; plan_plan_id : json; plan_engagement_id : json; plan_scenario_id : json;
  plan_target : json; plan_specialist_id : json; plan_operations : frozen; plan_limits : frozen;
  plan_credential_references : frozen; plan_plan_digest : json; plan_created_at : json;
  plan_platform_prerequisites : frozen; plan_batch : frozen; plan_offline_research : option frozen;
  plan_status : json
}.

Definition default_batch (operations : json) : res json :=
  let? n := json_len operations in
  Ok (JObj [("mode", JStr "sequential"); ("max_operations", JInt n); ("fail_fast", JBool true)]).

(** [batch or {...}]. *)
Definition batch_or_default (batch operations : json) : res json :=
  if truthy batch then Ok batch else default_batch operations.

(** [ActionPlan.__init__]. *)
Definition ActionPlan_init (schema_version plan_id engagement_id scenario_id status target specialist_id operations
    limits credential_references plan_digest created_at platform_prerequisites batch offline_research : json)
    : res ActionPlan :=
  let? batch := batch_or_default batch operations in
  Ok {| plan_schema_version := schema_version; plan_plan_id := plan_id; plan_engagement_id := engagement_id;
        plan_scenario_id := scenario_id; plan_target := target; plan_specialist_id := specialist_id;
        plan_operations := _freeze operations; plan_limits := _freeze limits;
        plan_credential_references := _freeze credential_references; plan_plan_digest := plan_digest;
        plan_created_at := created_at;
        plan_platform_prerequisites := _freeze (json_or platform_prerequisites (JList []));
        plan_batch := _freeze batch;
        plan_offline_research := match offline_research with JNull => None | v => Some (_freeze v) end;
        plan_status := status |}.

Definition optional_frozen (k : string) (v : option frozen) : list (string * json) :=
  match v with
  | Some f => [(k, _thaw f)]
  | None => []
  end.

Definition ActionPlan_approved_snapshot (p : ActionPlan) (include_digest : bool) : json :=
  JObj ([("schema_version", plan_schema_version p); ("plan_id", plan_plan_id p);
         ("engagement_id", plan_engagement_id p); ("scenario_id", plan_scenario_id p); ("target", plan_target p);
         ("specialist_id", plan_specialist_id p); ("operations", _thaw (plan_operations p));
         ("limits", _thaw (plan_limits p)); ("credential_references", _thaw (plan_credential_references p));
         ("created_at", plan_created_at p); ("platform_prerequisites", _thaw (plan_platform_prerequisites p));
         ("batch", _thaw (plan_batch p))]
        ++ optional_frozen "offline_research" (plan_offline_research p)
        ++ (if include_digest then [("plan_digest", plan_plan_digest p)] else [])).

Definition ActionPlan_to_dict (p : ActionPlan) : json :=
  JObj ([("schema_version", plan_schema_version p); ("plan_id", plan_plan_id p);
         ("engagement_id", plan_engagement_id p); ("scenario_id", plan_scenario_id p); ("status", plan_status p);
         ("target", plan_target p); ("specialist_id", plan_specialist_id p);
         ("operations", _thaw (plan_operations p)); ("limits", _thaw (plan_limits p));
         ("credential_references", _thaw (plan_credential_references p)); ("plan_digest", plan_plan_digest p);
         ("created_at", plan_created_at p); ("platform_prerequisites", _thaw (plan_platform_prerequisites p));
         ("batch", _thaw (plan_batch p))]
        ++ optional_frozen "offline_research" (plan_offline_research p)).

Definition ActionPlan_of_dict (data : json) : res ActionPlan :=
  let? schema_version := getitem "schema_version" data in
  let? plan_id := getitem "plan_id" data in
  let? engagement_id := getitem "engagement_id" data in
  let? scenario_id := getitem "scenario_id" data in
  let? status := getitem "status" data in
  let? target := getitem "target" data in
  let? specialist_id := getitem "specialist_id" data in
  let? operations := getitem "operations" data in
  let? limits := getitem "limits" data in
  let? credential_references := getitem "credential_references" data in
  let? plan_digest := getitem "plan_digest" data in
  let? created_at := getitem "created_at" data in
  let? platform_prerequisites := dict_get "platform_prerequisites" data JNull in
  let? batch := dict_get "batch" data JNull in
  let? offline_research := dict_get "offline_research" data JNull in
  ActionPlan_init schema_version plan_id engagement_id scenario_id status target specialist_id operations limits
    credential_references plan_digest created_at platform_prerequisites batch offline_research.

Definition ActionPlan_transition_to (p : ActionPlan) (next_state : string) : res ActionPlan :=
  transition_status (plan_status p) next_state "action_plan" ;;?
  Ok {| plan_schema_version := plan_schema_version p; plan_plan_id := plan_plan_id p;
        plan_engagement_id := plan_engagement_id p; plan_scenario_id := plan_scenario_id p;
        plan_target := plan_target p; plan_specialist_id := plan_specialist_id p;
        plan_operations := plan_operations p; plan_limits := plan_limits p;
        plan_credential_references := plan_credential_references p; plan_plan_digest := plan_plan_digest p;
        plan_created_at := plan_created_at p; plan_platform_prerequisites := plan_platform_prerequisites p;
        plan_batch := plan_batch p; plan_offline_research := plan_offline_research p;
        plan_status := JStr next_state |}.

(** ** Execution authorizations *)

Record ExecutionAuthorization := {
  auth_schema_version : json; auth_authorization_id : json; auth_action_plan_id : json; auth_plan_digest : json;
  auth_engagement_id : json; auth_operator : json; auth_issued_at : json; auth_authorized_until_utc : json;
  auth_bound_parameters : frozen; auth_approval_mode : json; auth_signature_algorithm : json;
  auth_signing_key_id : json; auth_signature_digest : json;
  auth_status : json; auth_consumed_at : json; auth_consumed_by_worker : json
}.

(** [ExecutionAuthorization.__init__], in the order of its parameters. *)
Definition ExecutionAuthorization_init (schema_version authorization_id action_plan_id plan_digest engagement_id
    operator status issued_at authorized_until_utc bound_parameters approval_mode signature_digest
    signature_algorithm signing_key_id consumed_at consumed_by_worker : json) : ExecutionAuthorization :=
  {| auth_schema_version := schema_version; auth_authorization_id := authorization_id;
     auth_action_plan_id := action_plan_id; auth_plan_digest := plan_digest; auth_engagement_id := engagement_id;
     auth_operator := operator; auth_issued_at := issued_at; auth_authorized_until_utc := authorized_until_utc;
     auth_bound_parameters := _freeze bound_parameters; auth_approval_mode := approval_mode;
     auth_signature_algorithm := signature_algorithm; auth_signing_key_id := signing_key_id;
     auth_signature_digest := signature_digest; auth_status := status; auth_consumed_at := consumed_at;
     auth_consumed_by_worker := consumed_by_worker |}.

Definition ExecutionAuthorization_signed_payload (a : ExecutionAuthorization) : json :=
  JObj [("schema_version", auth_schema_version a); ("authorization_id", auth_authorization_id a);
        ("action_plan_id", auth_action_plan_id a); ("plan_digest", auth_plan_digest a);
        ("engagement_id", auth_engagement_id a); ("operator", auth_operator a); ("issued_at", auth_issued_at a);
        ("authorized_until_utc", auth_authorized_until_utc a);
        ("bound_parameters", _thaw (auth_bound_parameters a)); ("approval_mode", auth_approval_mode a);
        ("signature_algorithm", auth_signature_algorithm a); ("signing_key_id", auth_signing_key_id a)].

Definition ExecutionAuthorization_to_dict (a : ExecutionAuthorization) : json :=
  JObj ([("schema_version", auth_schema_version a); ("authorization_id", auth_authorization_id a);
         ("action_plan_id", auth_action_plan_id a); ("plan_digest", auth_plan_digest a);
         ("engagement_id", auth_engagement_id a); ("operator", auth_operator a); ("status", auth_status a);
         ("issued_at", auth_issued_at a); ("authorized_until_utc", auth_authorized_until_utc a);
         ("bound_parameters", _thaw (auth_bound_parameters a)); ("approval_mode", auth_approval_mode a);
         ("signature_algorithm", auth_signature_algorithm a); ("signing_key_id", auth_signing_key_id a);
         ("signature_digest", auth_signature_digest a)]
        ++ optional "consumed_at" (auth_consumed_at a)
        ++ optional "consumed_by_worker" (auth_consumed_by_worker a)).

Definition ExecutionAuthorization_of_dict (data : json) : res ExecutionAuthorization :=
  let? schema_version := getitem "schema_version" data in
  let? authorization_id := getitem "authorization_id" data in
  let? action_plan_id := getitem "action_plan_id" data in
  let? plan_digest := getitem "plan_digest" data in
  let? engagement_id := getitem "engagement_id" data in
  let? operator := getitem "operator" data in
  let? status := getitem "status" data in
  let? issued_at := getitem "issued_at" data in
  let? authorized_until_utc := getitem "authorized_until_utc" data in
  let? bound_parameters := getitem "bound_parameters" data in
  let? approval_mode := getitem "approval_mode" data in
  let? signature_algorithm := getitem "signature_algorithm" data in
  let? signing_key_id := getitem "signing_key_id" data in
  let? signature_digest := getitem "signature_digest" data in
  let? consumed_at := dict_get "consumed_at" data JNull in
  let? consumed_by_worker := dict_get "consumed_by_worker" data JNull in
  Ok (ExecutionAuthorization_init schema_version authorization_id action_plan_id plan_digest engagement_id operator
        status issued_at authorized_until_utc bound_parameters approval_mode signature_digest signature_algorithm
        signing_key_id consumed_at consumed_by_worker).

(** The lifecycle fields are the mutable ones. *)
Definition set_lifecycle (a : ExecutionAuthorization) (status consumed_at worker : json) : ExecutionAuthorization :=
  {| auth_schema_version := auth_schema_version a; auth_authorization_id := auth_authorization_id a;
     auth_action_plan_id := auth_action_plan_id a; auth_plan_digest := auth_plan_digest a;
     auth_engagement_id := auth_engagement_id a; auth_operator := auth_operator a;
     auth_issued_at := auth_issued_at a; auth_authorized_until_utc := auth_authorized_until_utc a;
     auth_bound_parameters := auth_bound_parameters a; auth_approval_mode := auth_approval_mode a;
     auth_signature_algorithm := auth_signature_algorithm a; auth_signing_key_id := auth_signing_key_id a;
     auth_signature_digest := auth_signature_digest a; auth_status := status; auth_consumed_at := consumed_at;
     auth_consumed_by_worker := worker |}.

Definition ExecutionAuthorization_transition_to (a : ExecutionAuthorization) (next_state : string)
    : res ExecutionAuthorization :=
  transition_status (auth_status a) next_state "execution_authorization" ;;?
  Ok (set_lifecycle a (JStr next_state) (auth_consumed_at a) (auth_consumed_by_worker a)).

(** [now_us] is the clock of the call without a time argument. *)
Definition ExecutionAuthorization_is_valid_at (a : ExecutionAuthorization) (current_time_iso : option json)
    (now_us : Z) : res bool :=
  if negb (str_is (auth_status a) "approved") then Ok false
  else
    let? now_dt := match current_time_iso with Some t => timestamp t | None => Ok now_us end in
    let? issued := timestamp (auth_issued_at a) in
    if issued <=? now_dt then
      let? expires := timestamp (auth_authorized_until_utc a) in Ok (now_dt <? expires)
    else Ok false.

(** ** Attributes

    [__setattr__] and [__delattr__] of the two signed classes, on the attributes an
    object has. *)
Definition plan_immutable_fields : list string :=
  ["schema_version"; "plan_id"; "engagement_id"; "scenario_id"; "target"; "specialist_id"; "operations"; "limits";
   "credential_references"; "plan_digest"; "created_at"; "platform_prerequisites"; "batch"; "offline_research"].

Definition auth_immutable_fields : list string :=
  ["schema_version"; "authorization_id"; "action_plan_id"; "plan_digest"; "engagement_id"; "operator"; "issued_at";
   "authorized_until_utc"; "bound_parameters"; "approval_mode"; "signature_algorithm"; "signing_key_id";
   "signature_digest"].

Definition setattr {V} (immutable_fields : list string) (attrs : gmap string V) (name : string) (value : V)
    : res (gmap string V) :=
  raise_if (name == "_immutable_fields") || (mem name immutable_fields && bool_decide (is_Some (attrs !! name)))
    as AttributeError msg "immutable" ;;
  Ok (<[name := value]> attrs).

Definition delattr {V} (immutable_fields : list string) (attrs : gmap string V) (name : string)
    : res (gmap string V) :=
  raise_if (name == "_immutable_fields") || mem name immutable_fields as AttributeError msg "immutable" ;;
  match attrs !! name with
  | Some _ => Ok (delete name attrs)
  | None => raise AttributeError name
  end.

(** ** The common interface *)

Class ContractModel (A : Type) := {
  to_dict : A -> json;
  of_dict : json -> res A;
  contract_kind : string;
}.

#[export] Instance Engagement_model : ContractModel Engagement :=
  {| to_dict := Engagement_to_dict; of_dict := Engagement_of_dict; contract_kind := "engagement" |}.
#[export] Instance Scenario_model : ContractModel Scenario :=
  {| to_dict := Scenario_to_dict; of_dict := Scenario_of_dict; contract_kind := "scenario" |}.
#[export] Instance ActionPlan_model : ContractModel ActionPlan :=
  {| to_dict := ActionPlan_to_dict; of_dict := ActionPlan_of_dict; contract_kind := "action_plan" |}.
#[export] Instance ExecutionAuthorization_model : ContractModel ExecutionAuthorization :=
  {| to_dict := ExecutionAuthorization_to_dict; of_dict := ExecutionAuthorization_of_dict;
     contract_kind := "execution_authorization" |}.
#[export] Instance RunResult_model : ContractModel RunResult :=
  {| to_dict := RunResult_to_dict; of_dict := RunResult_of_dict; contract_kind := "run_result" |}.
#[export] Instance Finding_model : ContractModel Finding :=
  {| to_dict := Finding_to_dict; of_dict := Finding_of_dict; contract_kind := "finding" |}.
#[export] Instance CleanupReceipt_model : ContractModel CleanupReceipt :=
  {| to_dict := CleanupReceipt_to_dict; of_dict := CleanupReceipt_of_dict; contract_kind := "cleanup_receipt" |}.
#[export] Instance SpecialistHandoff_model : ContractModel SpecialistHandoff :=
  {| to_dict := SpecialistHandoff_to_dict; of_dict := SpecialistHandoff_of_dict;
     contract_kind := "specialist_handoff" |}.
#[export] Instance LaboratoryEnvironment_model : ContractModel LaboratoryEnvironment :=
  {| to_dict := LaboratoryEnvironment_to_dict; of_dict := LaboratoryEnvironment_of_dict;
     contract_kind := "laboratory_environment" |}.

Section Loading.
Context `{Host}.
Variable read_schema : string -> option json.
Variable report_semantics : string -> json -> res unit.

(** [X.from_dict(data)]. *)
Definition from_dict {A} `{ContractModel A} (data : json) : res A :=
  validate_contract read_schema report_semantics data (Some contract_kind) (1024 * 1024) 32 ;;?
  of_dict data.

(** [str[:n]] of a digest. *)
Definition take_prefix (n : nat) (s : string) : string := String.substring 0 n s.

(** [ActionPlan.create]; [plan_id] is [JNull] for a resumable identity. *)
Definition ActionPlan_create (plan_id engagement_id scenario_id target specialist_id operations limits
    credential_references created_at status platform_prerequisites batch offline_research : json) : res ActionPlan :=
  let? batch := batch_or_default batch operations in
  let snapshot :=
    [("schema_version", JStr "cops.action-plan/v1"); ("engagement_id", engagement_id); ("scenario_id", scenario_id);
     ("target", target); ("specialist_id", specialist_id); ("operations", operations); ("limits", limits);
     ("credential_references", credential_references); ("created_at", created_at);
     ("platform_prerequisites", json_or platform_prerequisites (JList [])); ("batch", batch)]
    ++ optional "offline_research" offline_research in
  let? plan_id :=
    match plan_id with
    | JNull =>
        let? d := build_action_plan_digest (JObj snapshot) (1024 * 1024) in
        Ok (JStr ("plan-cops-" +:+ take_prefix 24 d))
    | _ => Ok plan_id
    end in
  let snapshot := snapshot ++ [("plan_id", plan_id)] in
  let? computed_digest := build_action_plan_digest (JObj snapshot) (1024 * 1024) in
  let? plan := ActionPlan_init (JStr "cops.action-plan/v1") plan_id engagement_id scenario_id status target
                 specialist_id operations limits credential_references (JStr computed_digest) created_at
                 platform_prerequisites batch offline_research in
  validate_contract read_schema report_semantics (ActionPlan_to_dict plan) (Some "action_plan") (1024 * 1024) 32 ;;?
  Ok plan.
End Loading.
