(* ===== verification/ModelsFacts.v ===== *)
(** * Contract models: documents and objects

    The laws of the interface [ContractModel]: reloading the document of an object
    gives the object back, and the document of a loaded object is the document it
    was loaded from, up to the order of keys. *)

From S2P Require Import Prelude Lifecycle PyStr Json JsonFacts Canonical Documents Timestamp Schema.
From S2P Require Import Contracts Models.

(** ** Freezing *)

Lemma thaw_freeze v : _thaw (_freeze v) = v.
Proof.
  induction v as [|b|z|f|s|xs IH|items IH] using json_ind'; try done; simpl; f_equal; rewrite map_map.
  - induction IH as [|x xs Hx _ IH]; simpl; [done|]. by rewrite Hx, IH.
  - induction IH as [|[k x] xs Hx _ IH]; simpl in *; [done|]. by rewrite Hx, IH.
Qed.

Lemma truthy_thaw_freeze v : truthy (_thaw (_freeze v)) = truthy v.
Proof. by rewrite thaw_freeze. Qed.

(** ** Association lists with optional entries *)

Lemma assoc_optional k k' v : assoc k (optional k' v) = if k == k' then match v with JNull => None | _ => Some v end else None.
Proof. unfold optional. destruct v; simpl; by destruct (k == k'). Qed.

Lemma default_optional v : default JNull (match v with JNull => None | _ => Some v end) = v.
Proof. by destruct v. Qed.

Lemma getitem_ok k items v : getitem k (JObj items) = Ok v <-> assoc k items = Some v.
Proof. unfold getitem. destruct (assoc k items); split; by intros [= ->]. Qed.

Lemma dict_get_ok k items v : dict_get k (JObj items) JNull = Ok v <-> default JNull (assoc k items) = v.
Proof. unfold dict_get, assoc_default. destruct (assoc k items); simpl; (split; [by intros [= ->] | by intros ->]). Qed.

Lemma optional_cases k v : v = JNull /\ optional k v = [] \/ optional k v = [(k, v)].
Proof. destruct v; simpl; auto. Qed.

(** Evaluate the loading of a document built by a [to_dict]. *)
Ltac reload_model :=
  repeat match goal with |- context [optional ?k ?v] => destruct (optional_cases k v) as [[-> ->]| ->] end;
  vm_compute; reflexivity.

Lemma nullable_present k items :
  In k (map fst items) -> Some (default JNull (assoc k items)) = assoc k items.
Proof. intros H. destruct (assoc k items) eqn:E; [done|]. by apply assoc_none in E. Qed.

Lemma sublist_optional k v : map fst (optional k v) `sublist_of` [k].
Proof. destruct v; simpl; repeat constructor. Qed.

(** ** The laws *)

Class ContractModelOk (A : Type) `{ContractModel A} := {
  fields : list string;
  (** no field the document of an object always has is missing, and no optional one is [null] *)
  complete : list (string * json) -> Prop;
  reload : forall d a, of_dict d = Ok a -> of_dict (to_dict a) = Ok a;
  faithful : forall items a, NoDup (map fst items) -> (forall k, In k (map fst items) -> In k fields) ->
    complete items -> of_dict (JObj items) = Ok a -> exists items', to_dict a = JObj items' /\ items' ≡ₚ items;
}.

(** The documents of a type: [absent] fields are left out when they have no
    value, [present] ones are never left out, though they may be read as if they were. *)
Definition complete_document (absent present : list string) (items : list (string * json)) : Prop :=
  (forall k, In k absent -> assoc k items <> Some JNull) /\ (forall k, In k present -> In k (map fst items)).

Lemma option_or_none {A} (o : option A) : match o with Some v => Some v | None => None end = o.
Proof. by destruct o. Qed.

Lemma getitem_some k items v : assoc k items = Some v -> getitem k (JObj items) = Ok v.
Proof. by rewrite getitem_ok. Qed.

Lemma dict_get_default k items v : default JNull (assoc k items) = v -> dict_get k (JObj items) JNull = Ok v.
Proof. by rewrite dict_get_ok. Qed.

(** Look a literal key up in a document built by a [to_dict]. *)
Ltac lookup_key :=
  cbn [assoc]; eval_keys;
  repeat (first [rewrite assoc_app | rewrite assoc_optional]; cbn [assoc]; eval_keys);
  rewrite ?option_or_none, ?default_optional; try reflexivity.

Lemma optional_present o :
  o <> Some JNull -> match default JNull o with JNull => None | _ => Some (default JNull o) end = o.
Proof. destruct o as [[]|]; done. Qed.

(** The documents of a type are determined by their entries at its fields. *)
Lemma faithful_entries (fields : list string) (items items' : list (string * json)) :
  NoDup fields -> map fst items' `sublist_of` fields -> NoDup (map fst items) ->
  (forall k, In k (map fst items) -> In k fields) ->
  Forall (fun k => assoc k items' = assoc k items) fields -> items' ≡ₚ items.
Proof.
  intros Hf Hs Hnd Hin Heq. apply assoc_ext_perm; [eapply sublist_NoDup; [exact Hf|exact Hs]|done|]. intros k.
  destruct (decide (k ∈ fields)) as [Hk|Hk].
  - rewrite list.Forall_forall in Heq. by apply Heq.
  - transitivity (@None json); [|symmetry]; apply assoc_none; intros Hk'; apply Hk.
    + apply list_elem_of_In in Hk'. by eapply elem_of_sublist.
    + by apply list_elem_of_In, Hin.
Qed.

(** Invert the field accesses of a constructor call. *)
Ltac read_facts H :=
  repeat (let v := fresh "v" in let Hv := fresh "Hv" in
          apply res_bind_ok in H as (v & Hv & H);
          first [apply getitem_ok in Hv | apply dict_get_ok in Hv]).

Lemma sublist_optional_app k v l fs : map fst l `sublist_of` fs -> map fst (optional k v ++ l) `sublist_of` k :: fs.
Proof. intros H. rewrite map_app. apply (sublist_app _ [k] _ fs); [apply sublist_optional|done]. Qed.

Ltac document_keys :=
  repeat first
    [ apply sublist_skip | apply sublist_nil | apply sublist_optional_app | apply sublist_optional ].

Ltac faithful_entry Hc :=
  lookup_key;
  first [ by symmetry
        | match goal with Hv : default JNull (assoc ?k ?items) = ?v |- _ = assoc ?k ?items =>
            rewrite <- Hv; first [apply optional_present, Hc | apply nullable_present, Hc]; simpl; tauto end ].

Ltac faithful_model fs Hc Hd :=
  read_facts Hd; injection Hd as <-; 
  match goal with |- exists _, ?f _ = _ /\ _ => unfold f end;
  eexists; split; [simpl; rewrite ?thaw_freeze; reflexivity|];
  apply (faithful_entries fs);
  [ apply (bool_decide_unpack _); vm_compute; exact I
  | unfold fs; simpl; document_keys
  | assumption
  | assumption
  | unfold fs; repeat apply Forall_cons_2; try apply Forall_nil_2; faithful_entry Hc ].

Definition Engagement_fields : list string :=
  ["schema_version"; "engagement_id"; "name"; "status"; "scope"; "window"; "operator"; "rules_of_engagement";
   "created_at"; "mode"; "budget"; "credential_references"; "metadata"].

Definition Engagement_complete : list (string * json) -> Prop :=
  complete_document ["mode"; "budget"; "credential_references"; "metadata"] [].

Lemma Engagement_reload x : Engagement_of_dict (Engagement_to_dict x) = Ok x.
Proof. destruct x; unfold Engagement_to_dict; simpl. reload_model. Qed.

Lemma Engagement_faithful items a :
  NoDup (map fst items) -> (forall k, In k (map fst items) -> In k Engagement_fields) -> Engagement_complete items ->
  Engagement_of_dict (JObj items) = Ok a -> exists items', Engagement_to_dict a = JObj items' /\ items' ≡ₚ items.
Proof. intros Hnd Hf Hc Hd. unfold Engagement_of_dict in Hd. faithful_model Engagement_fields Hc Hd. Qed.

Definition Scenario_fields : list string :=
  ["schema_version"; "scenario_id"; "family_id"; "title"; "description"; "mitre_attack"; "provenance";
   "environment"; "safety_profile"].

Definition Scenario_complete : list (string * json) -> Prop :=
  complete_document [] [].

Lemma Scenario_reload x : Scenario_of_dict (Scenario_to_dict x) = Ok x.
Proof. destruct x; unfold Scenario_to_dict; simpl. reload_model. Qed.

Lemma Scenario_faithful items a :
  NoDup (map fst items) -> (forall k, In k (map fst items) -> In k Scenario_fields) -> Scenario_complete items ->
  Scenario_of_dict (JObj items) = Ok a -> exists items', Scenario_to_dict a = JObj items' /\ items' ≡ₚ items.
Proof. intros Hnd Hf Hc Hd. unfold Scenario_of_dict in Hd. faithful_model Scenario_fields Hc Hd. Qed.

Definition RunResult_fields : list string :=
  ["schema_version"; "result_id"; "plan_id"; "engagement_id"; "status"; "started_at"; "finished_at"; "exit_code";
   "status_details"; "evidence_records"; "artifacts"; "cleanup_status"; "worker_identity"; "offline_research"].

Definition RunResult_complete : list (string * json) -> Prop :=
  complete_document ["offline_research"] ["exit_code"].

Lemma RunResult_reload x : RunResult_of_dict (RunResult_to_dict x) = Ok x.
Proof. destruct x; unfold RunResult_to_dict; simpl. reload_model. Qed.

Lemma RunResult_faithful items a :
  NoDup (map fst items) -> (forall k, In k (map fst items) -> In k RunResult_fields) -> RunResult_complete items ->
  RunResult_of_dict (JObj items) = Ok a -> exists items', RunResult_to_dict a = JObj items' /\ items' ≡ₚ items.
Proof. intros Hnd Hf Hc Hd. unfold RunResult_of_dict in Hd. faithful_model RunResult_fields Hc Hd. Qed.

Definition Finding_fields : list string :=
  ["schema_version"; "finding_id"; "engagement_id"; "result_id"; "scenario_id"; "title"; "severity";
   "classification"; "verification"; "confidence"; "claim"; "evidence_references"; "mitre_attack"; "remediation";
   "uncertainty"; "created_at"].

Definition Finding_complete : list (string * json) -> Prop :=
  complete_document [] [].

Lemma Finding_reload x : Finding_of_dict (Finding_to_dict x) = Ok x.
Proof. destruct x; unfold Finding_to_dict; simpl. reload_model. Qed.

Lemma Finding_faithful items a :
  NoDup (map fst items) -> (forall k, In k (map fst items) -> In k Finding_fields) -> Finding_complete items ->
  Finding_of_dict (JObj items) = Ok a -> exists items', Finding_to_dict a = JObj items' /\ items' ≡ₚ items.
Proof. intros Hnd Hf Hc Hd. unfold Finding_of_dict in Hd. faithful_model Finding_fields Hc Hd. Qed.

Definition CleanupReceipt_fields : list string :=
  ["schema_version"; "receipt_id"; "plan_id"; "engagement_id"; "worker_identity"; "status"; "created_at";
   "completed_at"; "cleaned_effects"; "unresolved_effects"; "evidence_hash"].

Definition CleanupReceipt_complete : list (string * json) -> Prop :=
  complete_document [] [].

Lemma CleanupReceipt_reload x : CleanupReceipt_of_dict (CleanupReceipt_to_dict x) = Ok x.
Proof. destruct x; unfold CleanupReceipt_to_dict; simpl. reload_model. Qed.

Lemma CleanupReceipt_faithful items a :
  NoDup (map fst items) -> (forall k, In k (map fst items) -> In k CleanupReceipt_fields) -> CleanupReceipt_complete items ->
  CleanupReceipt_of_dict (JObj items) = Ok a -> exists items', CleanupReceipt_to_dict a = JObj items' /\ items' ≡ₚ items.
Proof. intros Hnd Hf Hc Hd. unfold CleanupReceipt_of_dict in Hd. faithful_model CleanupReceipt_fields Hc Hd. Qed.

Definition SpecialistHandoff_fields : list string :=
  ["schema_version"; "handoff_id"; "engagement_id"; "action_plan_id"; "status"; "sender"; "recipient"; "task";
   "material_plan_digest"; "approval_status"; "created_at"; "transition_log"; "evidence"; "rejection_reason"].

Definition SpecialistHandoff_complete : list (string * json) -> Prop :=
  complete_document ["evidence"; "rejection_reason"] [].

Lemma SpecialistHandoff_reload x : SpecialistHandoff_of_dict (SpecialistHandoff_to_dict x) = Ok x.
Proof. destruct x; unfold SpecialistHandoff_to_dict; simpl. reload_model. Qed.

Lemma SpecialistHandoff_faithful items a :
  NoDup (map fst items) -> (forall k, In k (map fst items) -> In k SpecialistHandoff_fields) -> SpecialistHandoff_complete items ->
  SpecialistHandoff_of_dict (JObj items) = Ok a -> exists items', SpecialistHandoff_to_dict a = JObj items' /\ items' ≡ₚ items.
Proof. intros Hnd Hf Hc Hd. unfold SpecialistHandoff_of_dict in Hd. faithful_model SpecialistHandoff_fields Hc Hd. Qed.

Definition LaboratoryEnvironment_fields : list string :=
  ["schema_version"; "environment_id"; "environment_type"; "status"; "platform"; "tool_matrix"; "isolation";
   "canary"; "reset_configuration"; "owner"; "created_at"; "updated_at"].

Definition LaboratoryEnvironment_complete : list (string * json) -> Prop :=
  complete_document [] [].

Lemma LaboratoryEnvironment_reload x : LaboratoryEnvironment_of_dict (LaboratoryEnvironment_to_dict x) = Ok x.
Proof. destruct x; unfold LaboratoryEnvironment_to_dict; simpl. reload_model. Qed.

Lemma LaboratoryEnvironment_faithful items a :
  NoDup (map fst items) -> (forall k, In k (map fst items) -> In k LaboratoryEnvironment_fields) -> LaboratoryEnvironment_complete items ->
  LaboratoryEnvironment_of_dict (JObj items) = Ok a -> exists items', LaboratoryEnvironment_to_dict a = JObj items' /\ items' ≡ₚ items.
Proof. intros Hnd Hf Hc Hd. unfold LaboratoryEnvironment_of_dict in Hd. faithful_model LaboratoryEnvironment_fields Hc Hd. Qed.

(** *** Signed types

    Their mappings and lists are frozen on construction, so a reload is the identity
    on constructed objects. *)
Definition ExecutionAuthorization_fields : list string :=
  ["schema_version"; "authorization_id"; "action_plan_id"; "plan_digest"; "engagement_id"; "operator"; "status";
   "issued_at"; "authorized_until_utc"; "bound_parameters"; "approval_mode"; "signature_algorithm"; "signing_key_id";
   "signature_digest"; "consumed_at"; "consumed_by_worker"].

Definition ExecutionAuthorization_complete : list (string * json) -> Prop :=
  complete_document ["consumed_at"; "consumed_by_worker"] [].

Lemma ExecutionAuthorization_reload_init a b c d e f g h i j k l m n o q :
  let x := ExecutionAuthorization_init a b c d e f g h i j k l m n o q in
  ExecutionAuthorization_of_dict (ExecutionAuthorization_to_dict x) = Ok x.
Proof.
  simpl. unfold ExecutionAuthorization_to_dict. simpl. rewrite thaw_freeze. reload_model.
Qed.

Lemma ExecutionAuthorization_reload d x :
  ExecutionAuthorization_of_dict d = Ok x -> ExecutionAuthorization_of_dict (ExecutionAuthorization_to_dict x) = Ok x.
Proof.
  intros H. unfold ExecutionAuthorization_of_dict in H.
  repeat (apply res_bind_ok in H as (? & _ & H)). injection H as <-. apply ExecutionAuthorization_reload_init.
Qed.

Lemma ExecutionAuthorization_faithful items a :
  NoDup (map fst items) -> (forall k, In k (map fst items) -> In k ExecutionAuthorization_fields) ->
  ExecutionAuthorization_complete items ->
  ExecutionAuthorization_of_dict (JObj items) = Ok a ->
  exists items', ExecutionAuthorization_to_dict a = JObj items' /\ items' ≡ₚ items.
Proof.
  intros Hnd Hf Hc Hd. unfold ExecutionAuthorization_of_dict in Hd.
  faithful_model ExecutionAuthorization_fields Hc Hd.
Qed.

Definition ActionPlan_fields : list string :=
  ["schema_version"; "plan_id"; "engagement_id"; "scenario_id"; "status"; "target"; "specialist_id"; "operations";
   "limits"; "credential_references"; "plan_digest"; "created_at"; "platform_prerequisites"; "batch";
   "offline_research"].

(** A plan is constructed with a batch and a list of prerequisites, possibly empty. *)
Definition ActionPlan_complete (items : list (string * json)) : Prop :=
  complete_document ["offline_research"] [] items /\
  (exists v, assoc "batch" items = Some v /\ truthy v = true) /\
  (exists v, assoc "platform_prerequisites" items = Some v /\ (truthy v = true \/ v = JList [])).

Lemma batch_truthy batch operations b : batch_or_default batch operations = Ok b -> truthy b = true.
Proof.
  unfold batch_or_default, default_batch. destruct (truthy batch) eqn:E; [by intros [= <-]|].
  intros H. by apply res_bind_ok in H as (n & _ & [= <-]).
Qed.

Lemma batch_or_default_truthy b operations : truthy b = true -> batch_or_default b operations = Ok b.
Proof. unfold batch_or_default. by intros ->. Qed.

Lemma json_or_or v d : json_or (json_or v d) d = json_or v d.
Proof. unfold json_or. destruct (truthy v) eqn:E; [by rewrite E|]. by destruct (truthy d). Qed.

Lemma optional_frozen_match k o :
  optional_frozen k match o with JNull => None | v => Some (_freeze v) end = optional k o.
Proof. destruct o; try done; unfold optional_frozen; by rewrite thaw_freeze. Qed.

(** The document of a plan made by the constructor. *)
Lemma ActionPlan_init_to_dict a b c d e f g h i j k l m n o x :
  ActionPlan_init a b c d e f g h i j k l m n o = Ok x ->
  exists batch, batch_or_default n h = Ok batch /\
  ActionPlan_to_dict x =
    JObj ([("schema_version", a); ("plan_id", b); ("engagement_id", c); ("scenario_id", d); ("status", e);
           ("target", f); ("specialist_id", g); ("operations", h); ("limits", i); ("credential_references", j);
           ("plan_digest", k); ("created_at", l); ("platform_prerequisites", json_or m (JList []));
           ("batch", batch)] ++ optional "offline_research" o).
Proof.
  unfold ActionPlan_init. intros H. apply res_bind_ok in H as (batch & Hb & H). injection H as <-.
  exists batch. split; [done|]. unfold ActionPlan_to_dict. simpl. by rewrite !thaw_freeze, optional_frozen_match.
Qed.

Lemma ActionPlan_reload_init a b c d e f g h i j k l m n o x :
  ActionPlan_init a b c d e f g h i j k l m n o = Ok x ->
  ActionPlan_of_dict (ActionPlan_to_dict x) = Ok x.
Proof.
  intros H. destruct (ActionPlan_init_to_dict _ _ _ _ _ _ _ _ _ _ _ _ _ _ _ _ H) as (batch & Hb & ->).
  rewrite <- H. transitivity (ActionPlan_init a b c d e f g h i j k l (json_or m (JList [])) batch o).
  - destruct (optional_cases "offline_research" o) as [[-> ->]| ->]; reflexivity.
  - unfold ActionPlan_init. rewrite Hb, (batch_or_default_truthy batch) by (by eapply batch_truthy).
    simpl. by rewrite json_or_or.
Qed.

Lemma ActionPlan_reload d x :
  ActionPlan_of_dict d = Ok x -> ActionPlan_of_dict (ActionPlan_to_dict x) = Ok x.
Proof.
  intros H. unfold ActionPlan_of_dict in H.
  do 15 (apply res_bind_ok in H as (? & _ & H)). by eapply ActionPlan_reload_init.
Qed.

Lemma ActionPlan_faithful items a :
  NoDup (map fst items) -> (forall k, In k (map fst items) -> In k ActionPlan_fields) ->
  ActionPlan_complete items ->
  ActionPlan_of_dict (JObj items) = Ok a ->
  exists items', ActionPlan_to_dict a = JObj items' /\ items' ≡ₚ items.
Proof.
  intros Hnd Hf (Hc & (vb & Hb & Htb) & (vp & Hp & Htp)) Hd. unfold ActionPlan_of_dict in Hd. read_facts Hd.
  match goal with H : default JNull (assoc "batch" _) = _ |- _ => rewrite Hb in H; simpl in H; destruct H end.
  match goal with H : default JNull (assoc "platform_prerequisites" _) = _ |- _ => rewrite Hp in H; simpl in H; destruct H end.
  apply ActionPlan_init_to_dict in Hd as (batch & Hbatch & ->).
  rewrite batch_or_default_truthy in Hbatch by done. injection Hbatch as <-.
  assert (json_or vp (JList []) = vp) as -> by (unfold json_or; by destruct Htp as [-> | ->]).
  eexists. split; [reflexivity|]. apply (faithful_entries ActionPlan_fields); try assumption.
  - apply (bool_decide_unpack _). vm_compute. exact I.
  - unfold ActionPlan_fields. simpl. document_keys.
  - unfold ActionPlan_fields. repeat apply Forall_cons_2; try apply Forall_nil_2; simpl; faithful_entry Hc.
Qed.

#[export] Instance Engagement_ok : ContractModelOk Engagement :=
  {| fields := Engagement_fields; complete := Engagement_complete;
     reload := fun d a _ => Engagement_reload a; faithful := Engagement_faithful |}.

#[export] Instance Scenario_ok : ContractModelOk Scenario :=
  {| fields := Scenario_fields; complete := Scenario_complete;
     reload := fun d a _ => Scenario_reload a; faithful := Scenario_faithful |}.

#[export] Instance RunResult_ok : ContractModelOk RunResult :=
  {| fields := RunResult_fields; complete := RunResult_complete;
     reload := fun d a _ => RunResult_reload a; faithful := RunResult_faithful |}.

#[export] Instance Finding_ok : ContractModelOk Finding :=
  {| fields := Finding_fields; complete := Finding_complete;
     reload := fun d a _ => Finding_reload a; faithful := Finding_faithful |}.

#[export] Instance CleanupReceipt_ok : ContractModelOk CleanupReceipt :=
  {| fields := CleanupReceipt_fields; complete := CleanupReceipt_complete;
     reload := fun d a _ => CleanupReceipt_reload a; faithful := CleanupReceipt_faithful |}.

#[export] Instance SpecialistHandoff_ok : ContractModelOk SpecialistHandoff :=
  {| fields := SpecialistHandoff_fields; complete := SpecialistHandoff_complete;
     reload := fun d a _ => SpecialistHandoff_reload a; faithful := SpecialistHandoff_faithful |}.

#[export] Instance LaboratoryEnvironment_ok : ContractModelOk LaboratoryEnvironment :=
  {| fields := LaboratoryEnvironment_fields; complete := LaboratoryEnvironment_complete;
     reload := fun d a _ => LaboratoryEnvironment_reload a; faithful := LaboratoryEnvironment_faithful |}.

#[export] Instance ExecutionAuthorization_ok : ContractModelOk ExecutionAuthorization :=
  {| fields := ExecutionAuthorization_fields; complete := ExecutionAuthorization_complete;
     reload := fun d a H => ExecutionAuthorization_reload d a H; faithful := ExecutionAuthorization_faithful |}.

#[export] Instance ActionPlan_ok : ContractModelOk ActionPlan :=
  {| fields := ActionPlan_fields; complete := ActionPlan_complete;
     reload := fun d a H => ActionPlan_reload d a H; faithful := ActionPlan_faithful |}.

