(* ===== verification/ContractProps.v ===== *)
(** * Contracts: properties

    What an accepted contract guarantees: validation reads content and not key
    order, objects and documents convert into each other without loss, a plan's
    digest binds its content, signed attributes cannot change, and the invariants
    of run results and handoffs. *)

From S2P Require Import Prelude Lifecycle PyStr Json JsonFacts Canonical Documents PyRegex Timestamp.
From S2P Require Import Schema Contracts Equivalence Models ModelsFacts.

(** ** Loading *)

Section Loading.
Context `{HostOk}.
Variable read_schema : string -> option json.
Variable report_semantics : string -> json -> res unit.

Notation validate := (validate_contract read_schema report_semantics).
Notation load := (from_dict read_schema report_semantics).

(** The type of an accepted document is the one asked for. *)
Lemma accepted_type document kind mb md d f t :
  validate document (Some kind) mb md = Ok d -> contract_type_of document = Ok (f, t) -> t = replace_char "-" "_" kind.
Proof.
  unfold validate_contract. intros Hv Ht. rewrite Ht in Hv. apply res_bind_ok in Hv as (? & _ & Hv). cbn [res_bind] in Hv.
  guard_ok Hv. by simpl_bool.
Qed.

Lemma load_ok {A} `{ContractModel A} d (a : A) :
  load d = Ok a <-> validate d (Some contract_kind) (1024 * 1024) 32 = Ok d /\ of_dict d = Ok a.
Proof.
  unfold from_dict. rewrite res_bind_ok. split.
  - intros (d' & Hv & Hd). split; [|done]. by destruct (validate_contract_ok _ _ _ _ _ _ _ Hv) as (-> & _).
  - intros [Hv Hd]. by exists d.
Qed.

(** Validation returns the document it was given. *)
Lemma validate_returns document kind mb md d : validate document kind mb md = Ok d -> d = document.
Proof.
  unfold validate_contract. intros (? & _ & ([file t] & _ & Hv)%res_bind_ok)%res_bind_ok.
  destruct (match kind with Some _ => _ | None => _ end); [done|]. destruct (read_schema file); [|done].
  by apply res_bind_ok in Hv as (? & _ & (? & _ & (? & _ & [= <-])%res_bind_ok)%res_bind_ok).
Qed.

(** The contract type of a validation: the one requested or, if none is, the document's. *)
Definition validated_as (kind : option string) (document : json) (t : string) : Prop :=
  match kind with
  | Some k => t = replace_char "-" "_" k
  | None => exists file, contract_type_of document = Ok (file, t)
  end.

(** C34. Validation reads content, not key order: two documents that differ only in
    the order of dict keys, at any depth, are both accepted or both rejected,
    whatever the schemas and the size and depth limits, and whether a contract type is
    requested or not.  It is stated for the contract types whose invariants this module
    checks: all but the five report types, whose checks are another package's. *)
Theorem validation_order_independent v w kind mb md :
  same_doc v w -> (forall t, validated_as kind v t -> mem t report_types = false) ->
  validate v kind mb md = Ok v <-> validate w kind mb md = Ok w.
Proof.
  assert (Hone : forall x y, same_doc x y -> (forall t, validated_as kind x t -> mem t report_types = false) ->
    validate x kind mb md = Ok x -> validate y kind mb md = Ok y).
  { intros x y Hs Hk Hx.
    assert (Hty : forall f t, contract_type_of x = Ok (f, t) -> mem t report_types = false).
    { intros f t Ht. apply Hk. destruct kind as [k|]; [by eapply accepted_type|by exists f]. }
    destruct (res_rel_ok _ _ _ _ (validate_contract_same read_schema report_semantics x y kind mb md Hs Hty) Hx) as (z & Hz & _).
    rewrite Hz. by rewrite (validate_returns _ _ _ _ _ Hz). }
  intros Hs Hk. split; apply Hone; [done|done|by symmetry|].
  destruct kind as [k|]; [done|]. intros t (f & Ht). apply Hk. exists f.
  destruct (contract_type_of_same v w Hs) as [p q ->|]; [done|done].
Qed.

(** C33. The document of a loaded contract object is the document it was loaded from,
    up to key order: it has the same digest, it validates, and loading it gives an
    equal object.  Holds for each of the nine contract types that have a class (not the
    report types), on complete documents: without unknown fields, whose fields that the
    class writes only when they have a value are left out or have one, and that have the
    optional fields the class always writes (a run result its [exit_code]). *)
Theorem contract_round_trip {A} `{ContractModelOk A} items (a : A) :
  keys_unique (JObj items) = true -> (forall k, In k (map fst items) -> In k fields) -> complete items ->
  mem (replace_char "-" "_" contract_kind) report_types = false ->
  load (JObj items) = Ok a ->
  same_doc (to_dict a) (JObj items) /\ load (to_dict a) = Ok a /\
  exists h, digest (JObj items) = Ok h /\ digest (to_dict a) = Ok h.
Proof.
  intros Hk Hf Hc Hty [Hv Hd]%load_ok. pose proof (keys_unique_nodup _ Hk) as Hnd.
  destruct (faithful items a Hnd Hf Hc Hd) as (items' & Ea & Hp).
  assert (Hs : same_doc (to_dict a) (JObj items)).
  { rewrite Ea. split; [apply json_equiv_perm; [by rewrite Hp|done]|]. split; [|done].
    simpl in *. rewrite (forallb_perm _ _ _ Hp). apply andb_true_iff in Hk as [_ ->]. rewrite andb_true_r.
    apply bool_decide_eq_true. by rewrite Hp. }
  split; [done|]. split.
  - apply load_ok. split; [|by eapply reload].
    pose proof (symmetry Hs) as Hs'.
    destruct (res_rel_ok _ _ _ _ (validate_contract_same read_schema report_semantics _ _ (Some contract_kind) _ _ Hs'
      (fun f t Ht => eq_ind_r (fun t => mem t report_types = false) Hty (accepted_type _ _ _ _ _ _ _ Hv Ht))) Hv) as (z & Hz & _).
    rewrite Hz. by destruct (validate_contract_ok _ _ _ _ _ _ _ Hz) as (-> & _).
  - apply validate_contract_ok in Hv as (_ & (t & Ht) & _). exists (sha256_hex t).
    assert (Hdig : digest (JObj items) = Ok (sha256_hex t)).
    { unfold digest, digest_bounded. by rewrite Ht. }
    split; [done|]. unfold digest in *. eapply res_rel_eq_ok; [|exact Hdig]. by apply digest_same.
Qed.

(** ** Plans *)

Lemma check_action_plan_digest d mb :
  check_action_plan (JObj d) mb = Ok tt -> exists h, assoc "plan_digest" d = Some (JStr h) /\ build_action_plan_digest (plan_snapshot d) mb = Ok h.
Proof.
  unfold check_action_plan. intros Hv. do 4 (apply res_bind_ok in Hv as (? & _ & Hv)).
  apply res_bind_ok in Hv as (items & [= <-] & Hv). apply res_bind_ok in Hv as (h & Hh & Hv).
  apply res_bind_ok in Hv as (v & Hv1 & Hv). guard_ok Hv. simpl_bool. apply getitem_ok in Hv1.
  match goal with E : str_is v h = true |- _ => apply str_is_eq in E as -> end. by exists h.
Qed.

(** C6. A plan's digest binds the plan: two accepted plans with the same
    [plan_digest] agree, up to key order, on every field other than their status and
    digest.  A plan whose operations, target, limits or batch were altered after its
    digest was computed is rejected. *)
Theorem plan_digest_binds d1 d2 mb1 md1 mb2 md2 :
  Inj (=) (=) sha256_hex ->
  float_free (JObj d1) = true -> keys_unique (JObj d1) = true ->
  float_free (JObj d2) = true -> keys_unique (JObj d2) = true ->
  validate (JObj d1) (Some "action_plan") mb1 md1 = Ok (JObj d1) ->
  validate (JObj d2) (Some "action_plan") mb2 md2 = Ok (JObj d2) ->
  assoc "plan_digest" d1 = assoc "plan_digest" d2 ->
  forall k, k <> "status" -> json_sort <$> assoc k d1 = json_sort <$> assoc k d2.
Proof.
  intros Hinj F1 U1 F2 U2 V1 V2 Hd k Hk.
  apply validate_contract_ok in V1 as (_ & _ & _ & (h1 & P1 & D1)%check_action_plan_digest).
  apply validate_contract_ok in V2 as (_ & _ & _ & (h2 & P2 & D2)%check_action_plan_digest).
  destruct (decide (k = "plan_digest")) as [->|Hk']; [by rewrite Hd|].
  assert (h1 = h2) as <- by congruence.
  set (p := fun k => negb (mem k ["status"; "plan_digest"])).
  assert (Heq : json_equiv (JObj (select p d1)) (JObj (select p d2))).
  { unfold build_action_plan_digest in D1, D2.
    eapply digest_equiv; [exact Hinj|..|exact D1|exact D2]; eauto using float_free_select, keys_unique_select. }
  apply (json_equiv_lookup k) in Heq; [|by apply keys_unique_select..].
  assert (Hp : p k = true).
  { unfold p. apply negb_true_iff, mem_not_In. simpl. intuition congruence. }
  by rewrite !assoc_select, Hp in Heq.
Qed.

Lemma init_snapshot a b c d e f g h i j k l m n o p batch :
  ActionPlan_init a b c d e f g h i j k l m n o = Ok p -> batch_or_default n h = Ok batch ->
  ActionPlan_approved_snapshot p false =
    JObj ([("schema_version", a); ("plan_id", b); ("engagement_id", c); ("scenario_id", d); ("target", f);
           ("specialist_id", g); ("operations", h); ("limits", i); ("credential_references", j); ("created_at", l);
           ("platform_prerequisites", json_or m (JList [])); ("batch", batch)] ++ optional "offline_research" o ++ []).
Proof.
  unfold ActionPlan_init. intros Hi Hb. rewrite Hb in Hi. injection Hi as <-.
  unfold ActionPlan_approved_snapshot. cbn -[optional_frozen optional]. by rewrite !thaw_freeze, optional_frozen_match.
Qed.

(** A plan built by [ActionPlan.create] validates and survives a store and a
    load unchanged; its status is the one asked for; its digest is the digest of its
    approved snapshot; and without a given identity its id is derived from the
    digest of its content, so that equal content gives an equal plan. *)
Theorem created_plan_valid plan_id engagement_id scenario_id target specialist_id operations limits
    credential_references created_at status platform_prerequisites batch offline_research plan :
  ActionPlan_create read_schema report_semantics plan_id engagement_id scenario_id target specialist_id operations
    limits credential_references created_at status platform_prerequisites batch offline_research = Ok plan ->
  load (ActionPlan_to_dict plan) = Ok plan /\ plan_status plan = status /\
  (exists h, plan_plan_digest plan = JStr h /\
     build_action_plan_digest (ActionPlan_approved_snapshot plan false) (1024 * 1024) = Ok h) /\
  (plan_id <> JNull -> plan_plan_id plan = plan_id) /\
  (plan_id = JNull -> exists items h,
     ActionPlan_approved_snapshot plan false = JObj items /\
     build_action_plan_digest (JObj (select (fun k => negb (k == "plan_id")) items)) (1024 * 1024) = Ok h /\
     plan_plan_id plan = JStr ("plan-cops-" +:+ take_prefix 24 h)).
Proof.
  unfold ActionPlan_create. intros Hc. apply res_bind_ok in Hc as (b & Hb & Hc).
  apply res_bind_ok in Hc as (ident & Hid & Hc). apply res_bind_ok in Hc as (h & Hh & Hc).
  apply res_bind_ok in Hc as (p & Hp & Hc). apply res_bind_ok in Hc as (d & Hv & [= <-]).
  destruct (validate_contract_ok _ _ _ _ _ _ _ Hv) as (-> & _).
  pose proof (init_snapshot _ _ _ _ _ _ _ _ _ _ _ _ _ _ _ _ _ Hp
    (batch_or_default_truthy _ _ (batch_truthy _ _ _ Hb))) as Hsnap.
  assert (Hfields : plan_status p = status /\ plan_plan_digest p = JStr h /\ plan_plan_id p = ident).
  { unfold ActionPlan_init in Hp. by apply res_bind_ok in Hp as (? & _ & [= <-]). }
  destruct Hfields as (Est & Edig & Eid).
  split; [apply load_ok; split; [exact Hv|]; cbn [of_dict ActionPlan_model]; by eapply ActionPlan_reload_init|].
  split; [done|]. split.
  - exists h. split; [done|]. unfold build_action_plan_digest in *. rewrite Hsnap.
    eapply res_rel_eq_ok; [|exact Hh]. apply digest_json_equiv, json_equiv_perm.
    + rewrite map_app. destruct (optional_cases "offline_research" offline_research) as [[_ ->]| ->];
        (apply (bool_decide_unpack _); vm_compute; exact I).
    + rewrite app_nil_r, (Permutation_app_comm _ [("plan_id", ident)]). apply perm_swap.
  - split.
    + intros Hn. destruct plan_id; try done; by injection Hid as <-.
    + intros ->. apply res_bind_ok in Hid as (h' & Hh' & [= <-]).
      eexists _, h'. split; [exact Hsnap|]. split; [|done]. rewrite <- Hh'. f_equal. f_equal.
      destruct (optional_cases "offline_research" offline_research) as [[_ ->]| ->]; reflexivity.
Qed.
End Loading.

(** ** Run results and handoffs *)

Section Outcomes.
Context `{HostOk}.
Variable read_schema : string -> option json.
Variable report_semantics : string -> json -> res unit.
Notation validate := (validate_contract read_schema report_semantics).

(** A value other than the default of a lookup is in the dict. *)
Lemma dict_get_present k d v w : dict_get k d w = Ok v -> v <> w -> get k d = Some v.
Proof.
  unfold dict_get, assoc_default, get. destruct d as [| | | | | |items]; try done.
  destruct (assoc k items); [by intros [= ->]|]. by intros [= ->].
Qed.

Lemma in_set_ok v xs : in_set v xs = Ok true -> exists s, v = JStr s /\ In s xs.
Proof.
  unfold in_set. intros Hin. assert (Hin' : in_strings v xs = true) by (destruct v; try done; by injection Hin).
  apply existsb_exists in Hin' as (s & Hs & ->%str_is_eq). by exists s.
Qed.

Lemma in_set_str s xs : In s xs -> in_set (JStr s) xs = Ok true.
Proof.
  intros Hin. unfold in_set, in_strings. f_equal. apply existsb_exists. exists s. split; [done|]. apply str_is_refl.
Qed.

(** An accepted run result has a documented status, does not finish before it
    starts, and, unless it is a success, states a non-blank reason. *)
Theorem result_states_reason items mb md :
  validate (JObj items) (Some "run_result") mb md = Ok (JObj items) ->
  exists status started finished, assoc "status" items = Some (JStr status) /\ In status RUN_RESULT_STATUSES /\
    field_timestamp (JObj items) "started_at" = Ok started /\ field_timestamp (JObj items) "finished_at" = Ok finished /\
    started <= finished /\
    (status <> "success" -> exists details reason, assoc "status_details" items = Some (JObj details) /\
       assoc "reason" details = Some (JStr reason) /\ strip reason <> "").
Proof.
  intros (_ & _ & _ & Hv)%validate_contract_ok. change (check_run_result (JObj items) = Ok tt) in Hv. unfold check_run_result in Hv.
  do 3 (apply res_bind_ok in Hv as (? & _ & Hv)). apply res_bind_ok in Hv as ([] & Hw & Hv).
  apply res_bind_ok in Hv as (v & Hst & Hv). apply getitem_ok in Hst.
  apply res_bind_ok in Hv as (known & Hk & Hv). destruct known; [|done]. cbn [negb] in Hv.
  apply in_set_ok in Hk as (status & -> & Hin). unfold check_window in Hw.
  apply res_bind_ok in Hw as (a & Ha & Hw). apply res_bind_ok in Hw as (b & Hb & Hw). guard_ok Hw. simpl_bool.
  exists status, a, b. split_and!; try done. intros Hne.
  destruct (str_is (JStr status) "success") eqn:E; [by apply str_is_eq in E; injection E|].
  apply res_bind_ok in Hv as (details & Hd & Hv). apply res_bind_ok in Hv as (reason & Hr & Hv).
  destruct reason as [| | | |reason| |]; try done. guard_ok Hv. simpl_bool.
  apply dict_get_present in Hr; [|done]. apply dict_get_present in Hd; [|by intros ->].
  destruct details as [| | | | | |ds]; try done. by exists ds, reason.
Qed.

Lemma accepted_entries_spec log entries :
  accepted_entries (JList log) = Ok entries ->
  entries = List.filter (fun e => match get "to_status" e with Some v => str_is v "accepted" | None => false end) log.
Proof.
  unfold accepted_entries. cbn [list_items res_bind]. intros (flags & Hf & [= <-])%res_bind_ok.
  revert flags Hf. induction log as [|e log IH]; intros flags Hf; cbn [res_map] in Hf; [by injection Hf as <-|].
  apply res_bind_ok in Hf as (y & Hy & Hf). apply res_bind_ok in Hf as (ys & Hys & [= <-]).
  apply res_bind_ok in Hy as (v & Hv & [= <-]). specialize (IH ys Hys).
  assert (str_is v "accepted" = match get "to_status" e with Some v => str_is v "accepted" | None => false end) as Ev.
  { destruct e as [| | | | | |d]; try done. unfold dict_get, assoc_default in Hv. simpl.
    destruct (assoc "to_status" d); by injection Hv as <-. }
  cbn [List.filter fst]. rewrite <- Ev. destruct (str_is v "accepted"); simpl; by rewrite IH.
Qed.

(** A handoff in a state that claims the work was taken on (accepted, in review,
    completed) names the implementation it was accepted for, and its transition log
    has exactly one acceptance, which carries the digest of that target. *)
Theorem accepted_handoff_names_target items mb md status :
  validate (JObj items) (Some "specialist_handoff") mb md = Ok (JObj items) ->
  assoc "status" items = Some (JStr status) -> In status ["accepted"; "in_review"; "completed"] ->
  exists target log entry checksum,
    get "task" (JObj items) ≫= get "workflow_target" = Some (JObj target) /\
    has_key "implementation" target = true /\ has_key "implementation_digest" target = true /\
    assoc "transition_log" items = Some (JList log) /\
    List.filter (fun e => match get "to_status" e with Some v => str_is v "accepted" | None => false end) log = [entry] /\
    digest (JObj target) = Ok checksum /\ get "workflow_target_checksum" entry = Some (JStr ("sha256:" +:+ checksum)).
Proof.
  intros (_ & _ & _ & Hv)%validate_contract_ok Hst Hin.
  change (check_specialist_handoff (JObj items) = Ok tt) in Hv. unfold check_specialist_handoff in Hv.
  do 3 (apply res_bind_ok in Hv as (? & _ & Hv)). apply res_bind_ok in Hv as (v & Hv1 & Hv). apply getitem_ok in Hv1.
  rewrite Hst in Hv1. injection Hv1 as <-. rewrite (in_set_str status) in Hv by done. cbn [res_bind] in Hv.
  apply res_bind_ok in Hv as (t & Ht & Hv). destruct t as [| | | | | |target]; try done. guard_ok Hv. simpl_bool.
  apply res_bind_ok in Hv as (entries & He & Hv). destruct entries as [|entry [|]]; try done.
  apply res_bind_ok in Hv as (stored & Hs & Hv). apply res_bind_ok in Hv as (sum & Hsum & Hv). guard_ok Hv. simpl_bool.
  match goal with E : str_is stored sum = true |- _ => apply str_is_eq in E as -> end.
  unfold workflow_target_checksum in Hsum. apply res_bind_ok in Hsum as (checksum & Hc & [= <-]).
  apply res_bind_ok in He as (log & Hl & He). apply getitem_ok in Hl.
  destruct log as [| | | | |log|]; try done. apply accepted_entries_spec in He.
  apply res_bind_ok in Ht as (task & Htask & Ht). apply getitem_ok in Htask.
  exists target, log, entry, checksum. split_and!; try done.
  - simpl. rewrite Htask. simpl. by eapply dict_get_present.
  - by eapply dict_get_present.
Qed.
End Outcomes.

(** ** Attributes of signed objects *)

(** A statement on an object's attributes. *)
Inductive attr_op (V : Type) :=
| SetAttr (name : string) (value : V)
| DelAttr (name : string).
Arguments SetAttr {V} name value.
Arguments DelAttr {V} name.

(** A statement that raises leaves the object as it was. *)
Definition attr_step {V} (immutable_fields : list string) (attrs : gmap string V) (op : attr_op V) : gmap string V :=
  match (match op with
         | SetAttr name value => setattr immutable_fields attrs name value
         | DelAttr name => delattr immutable_fields attrs name
         end) with
  | Ok attrs' => attrs'
  | Raise _ => attrs
  end.

(** What was signed stays what was signed: no sequence of attribute assignments
    and deletions, failing or not, changes or removes a protected attribute an object
    has; every other attribute stays assignable. *)
Theorem signed_attributes_immutable {V} (immutable_fields : list string) (attrs : gmap string V) ops :
  (forall name v, In name immutable_fields -> attrs !! name = Some v ->
     foldl (attr_step immutable_fields) attrs ops !! name = Some v) /\
  (forall name v, ~ In name immutable_fields -> name <> "_immutable_fields" ->
     foldl (attr_step immutable_fields) attrs (ops ++ [SetAttr name v]) !! name = Some v).
Proof.
  split.
  - intros name v Hin. revert attrs. induction ops as [|op ops IH]; intros attrs Hv; simpl; [done|]. apply IH.
    unfold attr_step, setattr, delattr. destruct op as [n w|n].
    + destruct (_ || _) eqn:E; [done|]. simpl_bool. rewrite lookup_insert_ne; [done|]. intros ->.
      apply mem_In in Hin. rewrite Hin in *. rewrite Hv in *. done.
    + destruct (_ || _) eqn:E; [done|]. simpl_bool. destruct (attrs !! n); [|done].
      rewrite lookup_delete_ne; [done|]. intros ->. apply mem_In in Hin. congruence.
  - intros name v Hn Hne. rewrite foldl_app. simpl. unfold attr_step at 1, setattr.
    apply mem_not_In in Hn. rewrite Hn. apply eqb_neq in Hne. rewrite Hne. simpl. apply lookup_insert_eq.
Qed.

(** ** Witnesses *)

Definition any_schema : string -> option json := fun _ => Some (JObj []).
Definition no_reports : string -> json -> res unit := fun _ _ => Ok tt.

Section Witnesses.
#[local] Existing Instance demo_host.
#[local] Existing Instance demo_host_ok.

Definition demo_result_items : list (string * json) := [
  ("schema_version", JStr "cops.run-result/v1"); ("result_id", JStr "res-demo1"); ("plan_id", JStr "plan-demo1");
  ("engagement_id", JStr "eng-demo1"); ("status", JStr "failed"); ("started_at", JStr "2025-06-15T00:00:00Z");
  ("finished_at", JStr "2025-06-15T00:10:00Z"); ("exit_code", JNull);
  ("status_details", JObj [("reason", JStr "no route"); ("stage", JStr "scan")]);
  ("evidence_records", JList []); ("artifacts", JList []); ("cleanup_status", JStr "not_required");
  ("worker_identity", JStr "worker-1")].

Definition demo_validate (document : json) : res json :=
  validate_contract any_schema no_reports document (Some "run_result") (1024 * 1024) 32.

Lemma demo_result_valid : demo_validate (JObj demo_result_items) = Ok (JObj demo_result_items).
Proof. vm_compute. reflexivity. Qed.

Lemma validation_order_independent_witness :
  demo_validate (JObj (rev demo_result_items)) = Ok (JObj (rev demo_result_items)).
Proof.
  refine (proj1 (validation_order_independent any_schema no_reports (JObj demo_result_items) (JObj (rev demo_result_items))
    (Some "run_result") (1024 * 1024) 32 (conj (eq_refl : json_equiv _ _) (conj eq_refl eq_refl)) _) _).
  - intros t ->. reflexivity.
  - exact demo_result_valid.
Defined.

(** A result without its [exit_code] is accepted, and its document has a [null] one. *)
Example missing_exit_code_written :
  match from_dict any_schema no_reports (JObj (List.filter (fun '(k, _) => negb (k == "exit_code")) demo_result_items)) with
  | Ok a => get "exit_code" (RunResult_to_dict a)
  | Raise _ => None
  end = Some JNull.
Proof. vm_compute. reflexivity. Qed.

Lemma contract_round_trip_witness : exists a : RunResult,
  from_dict any_schema no_reports (JObj demo_result_items) = Ok a /\
  from_dict any_schema no_reports (RunResult_to_dict a) = Ok a.
Proof.
  destruct (from_dict any_schema no_reports (JObj demo_result_items)) as [a|e] eqn:E; [|vm_compute in E; discriminate E].
  exists a. split; [done|].
  refine (proj1 (proj2 (contract_round_trip any_schema no_reports demo_result_items a eq_refl _ _ eq_refl E))).
  - intros k Hk. simpl in Hk. cbn. intuition.
  - split; intros k Hk; simpl in Hk; [destruct Hk as [<-|[]]|destruct Hk as [<-|[]]]; vm_compute; [discriminate|tauto].
Defined.

Definition demo_plan_items (operation digest : string) : list (string * json) := [
  ("schema_version", JStr "cops.action-plan/v1"); ("plan_id", JStr "plan-demo1"); ("engagement_id", JStr "eng-demo1");
  ("scenario_id", JStr "scen-demo1"); ("status", JStr "draft"); ("target", JObj []); ("specialist_id", JStr "red-team");
  ("operations", JList [JStr operation]); ("limits", JObj []); ("credential_references", JList []);
  ("plan_digest", JStr digest); ("created_at", JStr "2025-06-15T00:00:00Z");
  ("platform_prerequisites", JList []); ("batch", JObj [("mode", JStr "sequential")])].

Definition demo_plan_digest : string :=
  match build_action_plan_digest (plan_snapshot (demo_plan_items "scan" "")) (1024 * 1024) with Ok h => h | Raise _ => "" end.

Lemma plan_digest_binds_witness :
  let d := demo_plan_items "scan" demo_plan_digest in
  validate_contract any_schema no_reports (JObj d) (Some "action_plan") (1024 * 1024) 32 = Ok (JObj d) /\
  json_sort <$> assoc "operations" d = json_sort <$> assoc "operations" d /\
  is_ok (validate_contract any_schema no_reports (JObj (demo_plan_items "exploit" demo_plan_digest)) (Some "action_plan")
           (1024 * 1024) 32) = false.
Proof.
  assert (Hv : validate_contract any_schema no_reports (JObj (demo_plan_items "scan" demo_plan_digest)) (Some "action_plan")
                 (1024 * 1024) 32 = Ok (JObj (demo_plan_items "scan" demo_plan_digest))) by (vm_compute; reflexivity).
  assert (Hinj : Inj (=) (=) (@sha256_hex demo_host)) by (intros a b Hab; exact Hab).
  split; [exact Hv|]. split; [|vm_compute; reflexivity].
  apply (plan_digest_binds any_schema no_reports (demo_plan_items "scan" demo_plan_digest)
    (demo_plan_items "scan" demo_plan_digest) (1024 * 1024) 32 (1024 * 1024) 32 Hinj
    eq_refl eq_refl eq_refl eq_refl Hv Hv eq_refl "operations"). discriminate.
Defined.

Lemma result_states_reason_witness : exists details reason,
  assoc "status_details" demo_result_items = Some (JObj details) /\ assoc "reason" details = Some (JStr reason) /\
  strip reason <> "".
Proof.
  destruct (result_states_reason any_schema no_reports demo_result_items (1024 * 1024) 32 demo_result_valid)
    as (status & a & b & Hs & _ & _ & _ & _ & Hr).
  apply Hr. intros ->. vm_compute in Hs. discriminate Hs.
Defined.

Definition demo_target : list (string * json) :=
  [("implementation", JStr "scan.py"); ("implementation_digest", JStr "d1")].

Definition demo_handoff_items : list (string * json) := [
  ("schema_version", JStr "cops.specialist-handoff/v1"); ("handoff_id", JStr "hnd-demo1");
  ("engagement_id", JStr "eng-demo1"); ("action_plan_id", JStr "plan-demo1"); ("status", JStr "accepted");
  ("task", JObj [("workflow_target", JObj demo_target)]);
  ("transition_log", JList [
     JObj [("to_status", JStr "accepted");
           ("workflow_target_checksum",
            match workflow_target_checksum (JObj demo_target) with Ok s => JStr s | Raise _ => JNull end)]])].

Lemma accepted_handoff_names_target_witness : exists entry checksum,
  digest (JObj demo_target) = Ok checksum /\ get "workflow_target_checksum" entry = Some (JStr ("sha256:" +:+ checksum)).
Proof.
  assert (Hv : validate_contract any_schema no_reports (JObj demo_handoff_items) (Some "specialist_handoff")
                 (1024 * 1024) 32 = Ok (JObj demo_handoff_items)) by (vm_compute; reflexivity).
  destruct (accepted_handoff_names_target any_schema no_reports demo_handoff_items (1024 * 1024) 32 "accepted" Hv eq_refl
    (or_introl eq_refl)) as (target & log & entry & checksum & Ht & _ & _ & _ & _ & Hd & He).
  exists entry, checksum. split; [|exact He]. rewrite <- Hd. f_equal. vm_compute in Ht. by injection Ht as <-.
Defined.
End Witnesses.

Lemma created_plan_valid_witness : exists plan,
  @ActionPlan_create hex_host any_schema no_reports JNull (JStr "eng-demo1") (JStr "scen-demo1") (JObj []) (JStr "red-team")
    (JList [JStr "scan"]) (JObj []) (JList []) (JStr "2025-06-15T00:00:00Z") (JStr "draft") JNull JNull JNull = Ok plan /\
  @from_dict hex_host any_schema no_reports _ _ (ActionPlan_to_dict plan) = Ok plan.
Proof.
  destruct (@ActionPlan_create hex_host any_schema no_reports JNull (JStr "eng-demo1") (JStr "scen-demo1") (JObj []) (JStr "red-team")
    (JList [JStr "scan"]) (JObj []) (JList []) (JStr "2025-06-15T00:00:00Z") (JStr "draft") JNull JNull JNull)
    as [plan|e] eqn:E; [|vm_compute in E; discriminate E].
  exists plan. split; [done|].
  exact (proj1 (@created_plan_valid hex_host hex_host_ok any_schema no_reports JNull (JStr "eng-demo1") (JStr "scen-demo1") (JObj [])
    (JStr "red-team") (JList [JStr "scan"]) (JObj []) (JList []) (JStr "2025-06-15T00:00:00Z") (JStr "draft")
    JNull JNull JNull plan E)).
Defined.

Lemma signed_attributes_immutable_witness :
  let attrs : gmap string json := {["plan_digest" := JStr "d1"; "status" := JStr "draft"]} in
  attrs !! "plan_digest" = Some (JStr "d1") /\
  foldl (attr_step plan_immutable_fields) attrs [SetAttr "plan_digest" (JStr "d2"); DelAttr "plan_digest"] !! "plan_digest" =
    Some (JStr "d1").
Proof.
  intros attrs. assert (Hv : attrs !! "plan_digest" = Some (JStr "d1")) by reflexivity. split; [exact Hv|].
  apply (proj1 (signed_attributes_immutable plan_immutable_fields attrs
    [SetAttr "plan_digest" (JStr "d2"); DelAttr "plan_digest"])); [vm_compute; tauto|exact Hv].
Defined.
