(* ===== verification/EnvelopeProps.v ===== *)
(** * Evidence records: properties

    What [validate_envelope] and [validate_receipt] establish about the evidence
    envelopes and acquisition receipts they accept. *)

From S2P Require Import Prelude PyStr Json JsonFacts Canonical Documents PyRegex Timestamp Schema.
From S2P Require Import ModelsFacts.

Section Envelopes.
Context `{HostOk}.
Variable read_schema : string -> option json.

(** The identity of a source record. *)
Definition record_identity (product tenant scope ident version : json) (payload_digest : string) : json :=
  JList [JStr "cops.record/v1"; product; tenant; scope; ident; version; JStr payload_digest].

Lemma py_eq_str s v : py_eq (JStr s) v = true -> v = JStr s.
Proof. destruct v; try done. simpl. by intros ->%eqb_true. Qed.

Lemma as_dict v k w : getitem k v = Ok w -> exists items, v = JObj items /\ assoc k items = Some w.
Proof. destruct v as [| | | | | |items]; try done. intros Hg%getitem_ok. by exists items. Qed.

(** The parts of an accepted envelope. *)
Lemma envelope_ok items mb md e :
  validate_envelope read_schema (JObj items) mb md = Ok e ->
  e = JObj items /\
  exists source product tenant scope ident version payload hash pd record transformed acquired,
    assoc "source" items = Some (JObj source) /\ assoc "product" source = Some product /\
    assoc "tenant" source = Some tenant /\ assoc "scope" source = Some scope /\ assoc "identity" source = Some ident /\
    assoc "version" source = Some version /\ assoc "payload" items = Some payload /\
    digest_bounded payload mb md = Ok pd /\
    assoc "content_hash" items = Some (JStr hash) /\
    digest_bounded (JObj (select (fun k => negb (k == "content_hash")) items)) mb md = Ok hash /\
    assoc "record_id" items = Some (JStr record) /\
    digest_bounded (record_identity product tenant scope ident version pd) mb 32 = Ok record /\
    (let? v := getitem "transformed_at" (JObj items) in timestamp v) = Ok transformed /\
    (let? v := getitem "acquired_at" (JObj items) in timestamp v) = Ok acquired /\ acquired <= transformed.
Proof.
  unfold validate_envelope. intros Hv. apply res_bind_ok in Hv as (? & _ & Hv). apply res_bind_ok in Hv as (? & _ & Hv).
  apply res_bind_ok in Hv as (source & Hsrc & Hv). apply getitem_ok in Hsrc. apply res_bind_ok in Hv as (region & _ & Hv).
  apply res_bind_ok in Hv as (bad & _ & Hv). guard_ok Hv. apply res_bind_ok in Hv as (transformed & Ht & Hv).
  apply res_bind_ok in Hv as (acquired & Ha & Hv). guard_ok Hv. apply res_bind_ok in Hv as (unhashed & Hu & Hv).
  apply res_bind_ok in Hv as (hash & Hhash & Hv). apply res_bind_ok in Hv as (stored & Hstored & Hv). guard_ok Hv. simpl_bool.
  match goal with E : py_eq (JStr hash) stored = true |- _ => apply py_eq_str in E as -> end.
  apply res_bind_ok in Hv as (scope & Hscope & Hv). apply res_bind_ok in Hv as (dis & _ & Hv). guard_ok Hv.
  apply res_bind_ok in Hv as (product & Hprod & Hv). apply res_bind_ok in Hv as (tenant & Hten & Hv).
  apply res_bind_ok in Hv as (ident & Hident & Hv). apply res_bind_ok in Hv as (version & Hver & Hv).
  apply res_bind_ok in Hv as (payload & Hpay & Hv). apply res_bind_ok in Hv as (pd & Hpd & Hv).
  apply res_bind_ok in Hv as (record & Hrec & Hv). apply res_bind_ok in Hv as (rid & Hrid & Hv). guard_ok Hv. simpl_bool.
  match goal with E : py_eq (JStr record) rid = true |- _ => apply py_eq_str in E as -> end.
  injection Hv as <-. split; [done|]. apply as_dict in Hscope as (src & -> & Hscope).
  apply getitem_ok in Hprod, Hten, Hident, Hver, Hstored, Hpay, Hrid.
  unfold without_key in Hu. cbn [dict_items res_bind] in Hu. injection Hu as <-.
  exists src, product, tenant, scope, ident, version, payload, hash, pd, record, transformed, acquired. split_and!; done.
Qed.

(** Evidence cannot be altered under its hash, nor a record under its id: two
    accepted envelopes with the same [content_hash] agree up to key order on every
    field; two accepted envelopes with the same [record_id] come from the same
    product, tenant, scope, identity and version and carry the same payload. *)
Theorem envelope_tamper_evident d1 d2 mb1 md1 mb2 md2 :
  Inj (=) (=) sha256_hex ->
  float_free (JObj d1) = true -> keys_unique (JObj d1) = true ->
  float_free (JObj d2) = true -> keys_unique (JObj d2) = true ->
  validate_envelope read_schema (JObj d1) mb1 md1 = Ok (JObj d1) ->
  validate_envelope read_schema (JObj d2) mb2 md2 = Ok (JObj d2) ->
  (assoc "content_hash" d1 = assoc "content_hash" d2 -> forall k, json_sort <$> assoc k d1 = json_sort <$> assoc k d2) /\
  (assoc "record_id" d1 = assoc "record_id" d2 ->
   (forall k, In k ["product"; "tenant"; "scope"; "identity"; "version"] -> exists v w,
      (get "source" (JObj d1) ≫= get k) = Some v /\ (get "source" (JObj d2) ≫= get k) = Some w /\ json_equiv v w) /\
   exists v w, assoc "payload" d1 = Some v /\ assoc "payload" d2 = Some w /\ json_equiv v w).
Proof.
  intros Hinj F1 U1 F2 U2 V1 V2.
  apply envelope_ok in V1 as (_ & s1 & p1 & t1 & sc1 & i1 & v1 & pl1 & h1 & pd1 & r1 & ? & ? & S1 & P1 & T1 & SC1 & I1 & VE1
    & PL1 & PD1 & H1 & D1 & R1 & RD1 & _).
  apply envelope_ok in V2 as (_ & s2 & p2 & t2 & sc2 & i2 & v2 & pl2 & h2 & pd2 & r2 & ? & ? & S2 & P2 & T2 & SC2 & I2 & VE2
    & PL2 & PD2 & H2 & D2 & R2 & RD2 & _).
  split.
  - intros E k. destruct (decide (k = "content_hash")) as [->|Hk]; [by rewrite E|].
    assert (h1 = h2) as <- by congruence.
    set (p := fun k => negb (k == "content_hash")) in *.
    assert (Heq : json_equiv (JObj (select p d1)) (JObj (select p d2))).
    { eapply digest_equiv; [exact Hinj|..|exact D1|exact D2]; eauto using float_free_select, keys_unique_select. }
    apply (json_equiv_lookup k) in Heq; [|by apply keys_unique_select..].
    assert (Hp : p k = true) by (unfold p; by apply negb_true_iff, eqb_neq).
    by rewrite !assoc_select, Hp in Heq.
  - intros E. assert (r1 = r2) as <- by congruence.
    assert (Ff : forall d k v, float_free (JObj d) = true -> assoc k d = Some v -> float_free v = true).
    { intros d k v Hd Hk. simpl in Hd. rewrite forallb_forall in Hd. by apply (Hd (k, v)), assoc_In. }
    assert (Fs : forall d s k v, float_free (JObj d) = true -> assoc "source" d = Some (JObj s) -> assoc k s = Some v -> float_free v = true).
    { intros d s k v Hd Hs. apply Ff. by apply (Ff d "source"). }
    assert (Us : forall d s k v, keys_unique (JObj d) = true -> assoc "source" d = Some (JObj s) -> assoc k s = Some v -> keys_unique v = true).
    { intros d s k v Hd Hs. apply keys_unique_entry. by apply (keys_unique_entry "source" d). }
    assert (Heq : json_equiv (record_identity p1 t1 sc1 i1 v1 pd1) (record_identity p2 t2 sc2 i2 v2 pd2)).
    { eapply digest_equiv; [exact Hinj|..|exact RD1|exact RD2]; simpl;
        rewrite ?andb_true_r, ?andb_true_iff; split_and!; eauto. }
    unfold json_equiv, record_identity in Heq. cbn [json_sort map] in Heq. injection Heq as Ep Et Es Ei Ev Epd.
    split.
    + intros k Hk. cbn [get]. rewrite S1, S2. simpl.
      repeat destruct Hk as [<-|Hk]; try done; eauto.
    + exists pl1, pl2. split_and!; [done|done|]. rewrite <- Epd in PD2.
      eapply digest_equiv; [exact Hinj|..|exact PD1|exact PD2]; eauto using keys_unique_entry.
Qed.

(** An accepted acquisition receipt is consistent: it does not finish before it
    starts, it is complete exactly when it reports no reason (for the two statuses),
    and none of its six counters exceeds the limit it was acquired under. *)
Theorem acquisition_receipt_within_limits items r :
  validate_receipt read_schema (JObj items) = Ok r ->
  r = JObj items /\
  (exists started finished, (let? v := getitem "started_at" (JObj items) in timestamp v) = Ok started /\
     (let? v := getitem "finished_at" (JObj items) in timestamp v) = Ok finished /\ started <= finished) /\
  (assoc "status" items = Some (JStr "complete") -> exists v, assoc "reasons" items = Some v /\ truthy v = false) /\
  (assoc "status" items = Some (JStr "partial") -> exists v, assoc "reasons" items = Some v /\ truthy v = true) /\
  (forall counter limit, In (counter, limit) receipt_bounds -> exists a b x y,
     (get "consumed" (JObj items) ≫= get counter) = Some a /\ (get "limits" (JObj items) ≫= get limit) = Some b /\
     number_of a = Some x /\ number_of b = Some y /\ num_ltb y x = false).
Proof.
  unfold validate_receipt. intros Hv. apply res_bind_ok in Hv as (? & _ & Hv).
  apply res_bind_ok in Hv as (finished & Hf & Hv). apply res_bind_ok in Hv as (started & Hs & Hv). guard_ok Hv. simpl_bool.
  apply res_bind_ok in Hv as (status & Hst & Hv). apply res_bind_ok in Hv as (reasons & Hr & Hv).
  apply getitem_ok in Hst, Hr. guard_ok Hv. guard_ok Hv.
  apply res_bind_ok in Hv as (consumed & Hc & Hv). apply res_bind_ok in Hv as (limits & Hl & Hv).
  apply getitem_ok in Hc, Hl. apply res_bind_ok in Hv as (exceeded & He & Hv). guard_ok Hv. subst exceeded.
  apply res_bind_ok in Hv as (scope & _ & Hv). apply res_bind_ok in Hv as (dis & _ & Hv). guard_ok Hv. injection Hv as <-.
  split; [done|]. split; [by exists started, finished|]. split; [|split].
  - intros Hcomplete. rewrite Hst in Hcomplete. injection Hcomplete as ->. exists reasons. split; [done|].
    by destruct (truthy reasons).
  - intros Hpartial. rewrite Hst in Hpartial. injection Hpartial as ->. exists reasons. split; [done|].
    by destruct (truthy reasons).
  - intros counter limit Hin. cbn [get]. rewrite Hc, Hl. simpl.
    revert Hin He. generalize receipt_bounds as bounds. induction bounds as [|[c l] bounds IH]; intros Hin' He; [done|].
    cbn [res_any] in He. apply res_bind_ok in He as (b & Hb & He). destruct b; [done|].
    destruct Hin' as [[= -> ->]|Hin']; [|by apply IH].
    apply res_bind_ok in Hb as (a & Ha & Hb). apply res_bind_ok in Hb as (b & Hb' & Hb).
    unfold json_gt in Hb. destruct (number_of a) as [m|] eqn:Em, (number_of b) as [n|] eqn:En; try done. injection Hb as Hb.
    apply as_dict in Ha as (da & -> & Ha), Hb' as (db & -> & Hb'). by exists a, b, m, n.
Qed.
End Envelopes.

(** ** Witnesses *)

Definition demo_schema : string -> option json := fun _ => Some (JObj []).

Definition demo_source : list (string * json) := [
  ("product", JStr "siem"); ("tenant", JStr "t1"); ("scope", JList [JStr "a"; JStr "b"]); ("identity", JStr "rule-7");
  ("version", JStr "3"); ("region", JObj [("value", JStr "eu"); ("unknown_reason", JNull)])].

Definition demo_payload : json := JObj [("query", JStr "x")].
Definition demo_seen : json := JObj [("at", JStr "2025-06-15T00:00:00Z"); ("unknown_reason", JNull)].

Definition ok_str (r : res string) : json := match r with Ok s => JStr s | Raise _ => JNull end.

Definition demo_record_id : json :=
  ok_str (let? pd := @digest hex_host demo_payload in
          @digest_bounded hex_host (record_identity (JStr "siem") (JStr "t1") (JList [JStr "a"; JStr "b"]) (JStr "rule-7")
            (JStr "3") pd) 65536 32).

Definition demo_unhashed : list (string * json) := [
  ("observed", demo_seen); ("emitted", demo_seen); ("source", JObj demo_source); ("payload", demo_payload);
  ("acquired_at", JStr "2025-06-15T01:00:00Z"); ("transformed_at", JStr "2025-06-15T02:00:00Z"); ("record_id", demo_record_id)].

Definition demo_envelope : list (string * json) :=
  demo_unhashed ++ [("content_hash", ok_str (@digest_bounded hex_host (JObj demo_unhashed) 65536 32))].

Lemma envelope_tamper_evident_witness :
  @validate_envelope hex_host demo_schema (JObj demo_envelope) 65536 32 = Ok (JObj demo_envelope) /\
  json_sort <$> assoc "payload" demo_envelope = json_sort <$> assoc "payload" demo_envelope.
Proof.
  assert (Hv : @validate_envelope hex_host demo_schema (JObj demo_envelope) 65536 32 = Ok (JObj demo_envelope))
    by (vm_compute; reflexivity).
  split; [exact Hv|].
  assert (Hinj : Inj (=) (=) (@sha256_hex hex_host)) by exact hex_text_inj.
  assert (Hf : float_free (JObj demo_envelope) = true) by (vm_compute; reflexivity).
  assert (Hk : keys_unique (JObj demo_envelope) = true) by (vm_compute; reflexivity).
  exact (proj1 (@envelope_tamper_evident hex_host hex_host_ok demo_schema demo_envelope demo_envelope 65536 32 65536 32
    Hinj Hf Hk Hf Hk Hv Hv) eq_refl "payload").
Defined.

Definition demo_counters (n : Z) : json :=
  JObj [("pages", JInt n); ("attempts", JInt n); ("records", JInt n); ("bytes", JInt n); ("total_bytes", JInt n);
        ("storage_bytes", JInt n); ("active_seconds", JInt n)].

Definition demo_receipt : list (string * json) := [
  ("started_at", JStr "2025-06-15T01:00:00Z"); ("finished_at", JStr "2025-06-15T02:00:00Z"); ("status", JStr "complete");
  ("reasons", JList []); ("consumed", demo_counters 3); ("limits", demo_counters 5); ("scope", JList [JStr "a"; JStr "b"])].

Lemma acquisition_receipt_within_limits_witness : exists a b,
  (get "consumed" (JObj demo_receipt) ≫= get "pages") = Some a /\ (get "limits" (JObj demo_receipt) ≫= get "pages") = Some b /\
  number_of a <> None /\ number_of b <> None.
Proof.
  assert (Hv : @validate_receipt hex_host demo_schema (JObj demo_receipt) = Ok (JObj demo_receipt)) by (vm_compute; reflexivity).
  destruct (@acquisition_receipt_within_limits hex_host demo_schema demo_receipt (JObj demo_receipt) Hv)
    as (_ & _ & _ & _ & H).
  destruct (H "pages" "pages" (or_introl eq_refl)) as (a & b & x & y & Ha & Hb & Hx & Hy & _).
  exists a, b. split; [exact Ha|]. split; [exact Hb|]. rewrite Hx, Hy. split; discriminate.
Defined.
