(* ===== verification/PyIp.v ===== *)
(** * IP addresses

    The parts of the standard module [ipaddress] that the program uses, on the strings
    of [PyStr] (CPython 3.11): parsing and printing of addresses, networks and their
    tests. *)

From S2P Require Import Prelude PyStr Json Timestamp.

(** ** More string methods *)

(** [s.partition(c)]: the text before, whether [c] occurs, the text after. *)
Fixpoint partition (c : ascii) (s : string) : string * bool * string :=
  match s with
  | EmptyString => (EmptyString, false, EmptyString)
  | String d s' =>
      if c == d then (EmptyString, true, s')
      else let '(a, found, b) := partition c s' in (String d a, found, b)
  end.

(** [s.rpartition(c)[2]]: the text after the last [c], or all of it. *)
Definition after_last (c : ascii) (s : string) : string :=
  match rev (split_char c s) with
  | w :: _ => w
  | [] => s
  end.

Definition is_ascii (s : string) : bool := string_all (fun c => code c <? 128) s.

(** [s.isascii() and s.isdigit()]. *)
Definition ascii_digits (s : string) : bool := negb (s == "") && string_all is_ascii_digit s.

Definition is_hex_digit (c : ascii) : bool :=
  is_ascii_digit c || ((65 <=? code c) && (code c <=? 70)) || ((97 <=? code c) && (code c <=? 102)).

Definition hex_digit_value (c : ascii) : Z :=
  if is_ascii_digit c then code c - 48 else if code c <=? 70 then code c - 55 else code c - 87.

(** [int(s, 16)] of hexadecimal digits. *)
Fixpoint hex_number (s : string) (acc : Z) : Z :=
  match s with
  | EmptyString => acc
  | String c s' => hex_number s' (16 * acc + hex_digit_value c)
  end.

(** ** Addresses *)

Record ip_address := { ip_v6 : bool; ip_int : Z; ip_scope : option string }.

(** [__eq__] of addresses: version, number and scope id. *)
#[export] Instance ip_address_eq_dec : EqDecision ip_address.
Proof. solve_decision. Defined.

Definition ipv4 (z : Z) : ip_address := {| ip_v6 := false; ip_int := z; ip_scope := None |}.
Definition ipv6 (z : Z) : ip_address := {| ip_v6 := true; ip_int := z; ip_scope := None |}.

(** [_parse_octet]. *)
Definition parse_octet (s : string) : option Z :=
  if negb (ascii_digits s) then None
  else if 3 <? slen s then None
  else if negb (s == "0") && startswith "0" s then None
  else let n := digits_value s 0 in if 255 <? n then None else Some n.

(** [IPv4Address._ip_int_from_string]. *)
Definition ipv4_int (s : string) : option Z :=
  match split_char "." s with
  | [a; b; c; d] =>
      match parse_octet a, parse_octet b, parse_octet c, parse_octet d with
      | Some a, Some b, Some c, Some d =>
          Some (Z.lor (Z.shiftl (Z.lor (Z.shiftl (Z.lor (Z.shiftl a 8) b) 8) c) 8) d)
      | _, _, _, _ => None
      end
  | _ => None
  end.

(** [_parse_hextet]. *)
Definition parse_hextet (s : string) : option Z :=
  if (s == "") || negb (string_all is_hex_digit s) || (4 <? slen s) then None else Some (hex_number s 0).

Fixpoint parse_hextets (acc : Z) (parts : list string) : option Z :=
  match parts with
  | [] => Some acc
  | p :: parts' =>
      match parse_hextet p with
      | Some h => parse_hextets (Z.lor (Z.shiftl acc 16) h) parts'
      | None => None
      end
  end.

(** ['%x' % n] for [n] of 16 bits. *)
Definition hex16 (n : Z) : string :=
  let digits := String (hex_digit (n / 4096)) (String (hex_digit (n / 256 mod 16))
                  (String (hex_digit (n / 16 mod 16)) (String (hex_digit (n mod 16)) EmptyString))) in
  match lstrip_char "0" digits with
  | EmptyString => "0"
  | s => s
  end.

(** The index of the one empty part strictly inside [parts]; [None] when there are two. *)
Fixpoint find_skip (i : nat) (parts : list string) (found : option nat) : option (option nat) :=
  match parts with
  | [] | [_] => Some found
  | p :: parts' =>
      if p == "" then match found with Some _ => None | None => find_skip (S i) parts' (Some i) end
      else find_skip (S i) parts' found
  end.

Definition HEXTET_COUNT : nat := 8.

(** The parts with an IPv4-style last part converted to two hextets. *)
Definition expand_ipv4 (parts : list string) : option (list string) :=
  match rev parts with
  | [] => Some []
  | l :: init =>
      if contains "." l then
        match ipv4_int l with
        | Some n => Some (rev init ++ [hex16 (Z.land (Z.shiftr n 16) 65535); hex16 (Z.land n 65535)])
        | None => None
        end
      else Some parts
  end.

(** The numbers of parts before and after ['::'], and of the hextets it stands for. *)
Definition part_counts (parts : list string) : option (nat * nat * nat) :=
  let first_empty := match parts with p :: _ => p == "" | [] => true end in
  let last_empty := match rev parts with p :: _ => p == "" | [] => true end in
  match find_skip 1 (tl parts) None with
  | None => None
  | Some (Some skip) =>
      let hi := skip in
      let lo := (length parts - skip - 1)%nat in
      let hi' := if first_empty then (hi - 1)%nat else hi in
      let lo' := if last_empty then (lo - 1)%nat else lo in
      if first_empty && negb (Nat.eqb hi' 0) then None
      else if last_empty && negb (Nat.eqb lo' 0) then None
      else if Nat.ltb (hi' + lo') HEXTET_COUNT then Some (hi', lo', (HEXTET_COUNT - (hi' + lo'))%nat) else None
  | Some None =>
      if negb (Nat.eqb (length parts) HEXTET_COUNT) || first_empty || last_empty then None
      else Some (length parts, 0%nat, 0%nat)
  end.

(** [IPv6Address._ip_int_from_string]. *)
Definition ipv6_int (s : string) : option Z :=
  let parts := split_char ":" s in
  if Nat.ltb (length parts) 3 then None
  else
    match expand_ipv4 parts with
    | None => None
    | Some parts =>
        if Nat.ltb (HEXTET_COUNT + 1) (length parts) then None
        else
          match part_counts parts with
          | None => None
          | Some (hi, lo, skipped) =>
              match parse_hextets 0 (firstn hi parts) with
              | None => None
              | Some n => parse_hextets (Z.shiftl n (16 * Z.of_nat skipped)) (skipn (length parts - lo) parts)
              end
          end
    end.

(** [IPv4Address(s)] and [IPv6Address(s)]. *)
Definition IPv4Address (s : string) : option ip_address :=
  if contains "/" s then None else ipv4 <$> ipv4_int s.

Definition IPv6Address (s : string) : option ip_address :=
  if contains "/" s then None
  else
    let '(addr, sep, scope) := partition "%" s in
    if sep && ((scope == "") || contains "%" scope) then None
    else (fun n => {| ip_v6 := true; ip_int := n; ip_scope := if sep then Some scope else None |}) <$> ipv6_int addr.

(** [ipaddress.ip_address(s)]; [None] is its [ValueError]. *)
Definition parse_ip_address (s : string) : option ip_address :=
  match IPv4Address s with
  | Some ip => Some ip
  | None => IPv6Address s
  end.

(** [ip.ipv4_mapped]. *)
Definition ipv4_mapped (ip : ip_address) : option ip_address :=
  if ip_v6 ip && (Z.shiftr (ip_int ip) 32 =? 65535) then Some (ipv4 (Z.land (ip_int ip) 4294967295)) else None.

Definition is_loopback (ip : ip_address) : bool :=
  if ip_v6 ip then ip_int ip =? 1 else Z.land (ip_int ip) 4278190080 =? 2130706432.

(** *** Text *)

Definition octet_text (n : Z) : string := pretty n.

Definition ipv4_text (z : Z) : string :=
  join "." (map octet_text [Z.shiftr z 24; Z.land (Z.shiftr z 16) 255; Z.land (Z.shiftr z 8) 255; Z.land z 255]).

(** The longest run of ['0'] hextets, the first of those: its start and length. *)
Fixpoint zero_run (i : nat) (hextets : list string) (start len best_start best_len : nat) : nat * nat :=
  match hextets with
  | [] => (best_start, best_len)
  | h :: hextets' =>
      if h == "0" then
        let start := if Nat.eqb len 0 then i else start in
        let len := S len in
        if Nat.ltb best_len len then zero_run (S i) hextets' start len start len
        else zero_run (S i) hextets' start len best_start best_len
      else zero_run (S i) hextets' start 0 best_start best_len
  end.

(** [_compress_hextets]. *)
Definition compress_hextets (hextets : list string) : list string :=
  let (start, len) := zero_run 0 hextets 0 0 0 0 in
  if Nat.ltb 1 len then
    let stop := (start + len)%nat in
    (if Nat.eqb start 0 then [""] else []) ++ firstn start hextets ++ [""] ++ skipn stop hextets ++
    (if Nat.eqb stop (length hextets) then [""] else [])
  else hextets.

Definition hextet_at (z : Z) (i : Z) : Z := Z.land (Z.shiftr z (16 * i)) 65535.

Definition ipv6_text (z : Z) : string :=
  join ":" (compress_hextets (map (fun i => hex16 (hextet_at z i)) [7; 6; 5; 4; 3; 2; 1; 0])).

(** [str(ip)].  (Later versions print IPv4-mapped addresses with a dotted tail.) *)
Definition ip_text (ip : ip_address) : string :=
  if ip_v6 ip
  then ipv6_text (ip_int ip) +:+ match ip_scope ip with Some s => "%" +:+ s | None => "" end
  else ipv4_text (ip_int ip).

(** ** Networks *)

Record ip_network := { network_address : ip_address; net_prefixlen : Z }.

#[export] Instance ip_network_eq_dec : EqDecision ip_network.
Proof. solve_decision. Defined.

Definition net_v6 (net : ip_network) : bool := ip_v6 (network_address net).

Definition max_prefixlen (v6 : bool) : Z := if v6 then 128 else 32.
Definition all_ones (v6 : bool) : Z := Z.shiftl 1 (max_prefixlen v6) - 1.

(** [_ip_int_from_prefix] and the hostmask. *)
Definition netmask_int (v6 : bool) (prefixlen : Z) : Z := Z.lxor (all_ones v6) (Z.shiftr (all_ones v6) prefixlen).
Definition hostmask_int (v6 : bool) (prefixlen : Z) : Z := Z.lxor (netmask_int v6 prefixlen) (all_ones v6).

Definition net_mask (net : ip_network) : Z := netmask_int (net_v6 net) (net_prefixlen net).

Definition broadcast_address (net : ip_network) : ip_address :=
  {| ip_v6 := net_v6 net;
     ip_int := Z.lor (ip_int (network_address net)) (hostmask_int (net_v6 net) (net_prefixlen net));
     ip_scope := None |}.

(** [_prefix_from_prefix_string]. *)
Definition prefix_of_digits (v6 : bool) (s : string) : option Z :=
  if ascii_digits s then let n := digits_value s 0 in if n <=? max_prefixlen v6 then Some n else None else None.

(** [_count_righthand_zero_bits(n, 32)]. *)
Fixpoint righthand_zeros (fuel : nat) (n : Z) : Z :=
  match fuel with
  | O => 0
  | S fuel' => if Z.testbit n 0 then 0 else 1 + righthand_zeros fuel' (Z.shiftr n 1)
  end.

(** [_prefix_from_ip_int]. *)
Definition prefix_of_mask (n : Z) : option Z :=
  let trailing := righthand_zeros 32 n in
  let prefixlen := 32 - trailing in
  if Z.shiftr n trailing =? Z.shiftl 1 prefixlen - 1 then Some prefixlen else None.

(** [IPv4Network._make_netmask]: a length, a netmask or a hostmask. *)
Definition ipv4_prefix (s : string) : option Z :=
  match prefix_of_digits false s with
  | Some n => Some n
  | None =>
      match ipv4_int s with
      | None => None
      | Some n =>
          match prefix_of_mask n with
          | Some p => Some p
          | None => prefix_of_mask (Z.lxor n (all_ones false))
          end
      end
  end.

(** [IPvNNetwork(addr/mask, strict=False)] from a parsed address and length. *)
Definition make_network (ip : ip_address) (prefixlen : Z) : ip_network :=
  let mask := netmask_int (ip_v6 ip) prefixlen in
  let masked := Z.land (ip_int ip) mask in
  {| network_address :=
       if masked =? ip_int ip then ip else {| ip_v6 := ip_v6 ip; ip_int := masked; ip_scope := None |};
     net_prefixlen := prefixlen |}.

Definition IPv4Network (addr mask : string) : option ip_network :=
  match IPv4Address addr, ipv4_prefix mask with
  | Some ip, Some n => Some (make_network ip n)
  | _, _ => None
  end.

Definition IPv6Network (addr mask : string) : option ip_network :=
  match IPv6Address addr, prefix_of_digits true mask with
  | Some ip, Some n => Some (make_network ip n)
  | _, _ => None
  end.

(** [ipaddress.ip_network(s, strict=False)] of a text with a slash. *)
Definition parse_ip_network (s : string) : option ip_network :=
  match split_char "/" s with
  | [addr; mask] =>
      match IPv4Network addr mask with
      | Some net => Some net
      | None => IPv6Network addr mask
      end
  | _ => None
  end.

(** [ip in net] for an address of any version. *)
Definition in_network (ip : ip_address) (net : ip_network) : bool :=
  Bool.eqb (ip_v6 ip) (net_v6 net) && (Z.land (ip_int ip) (net_mask net) =? ip_int (network_address net)).

Definition network_is_loopback (net : ip_network) : bool :=
  is_loopback (network_address net) && is_loopback (broadcast_address net).

(** [a <= b] and [a >= b] of addresses of one version, as [total_ordering] derives
    them from [__lt__] and [__eq__]. *)
Definition ip_le (a b : ip_address) : bool := (ip_int a <? ip_int b) || (a == b).
Definition ip_ge (a b : ip_address) : bool := negb (ip_int a <? ip_int b).

Definition subnet_of (a b : ip_network) : res bool :=
  raise_if negb (Bool.eqb (net_v6 a) (net_v6 b)) as TypeError msg "not of the same version" ;;
  Ok (ip_le (network_address b) (network_address a) && ip_ge (broadcast_address b) (broadcast_address a)).

Definition overlaps (a b : ip_network) : bool :=
  in_network (network_address b) a || in_network (broadcast_address b) a ||
  in_network (network_address a) b || in_network (broadcast_address a) b.
