(* ===== verification/PyUrl.v ===== *)
(** * URLs

    [urllib.parse] as the scope guard and the egress mediator use it (CPython 3.11), on
    the strings of [PyStr]: [urlsplit] with the parts of a network location, [geturl],
    [urljoin], [quote] with no safe characters and strict [unquote]. *)

From S2P Require Import Prelude PyStr Json JsonParse Timestamp PyIp.

(** ** [urlsplit] *)

Record SplitResult := { u_scheme : string; u_netloc : string; u_path : string; u_query : string; u_fragment : string }.

#[export] Instance SplitResult_eq_dec : EqDecision SplitResult.
Proof. solve_decision. Defined.

(** The position of the first of [/?#] ends the network location. *)
Fixpoint until_delimiter (s : string) : string :=
  match s with
  | EmptyString => EmptyString
  | String c s' => if mem c ["/"%char; "?"%char; "#"%char] then EmptyString else String c (until_delimiter s')
  end.

Fixpoint remove_chars (p : ascii -> bool) (s : string) : string :=
  match s with
  | EmptyString => EmptyString
  | String c s' => if p c then remove_chars p s' else String c (remove_chars p s')
  end.

Definition is_scheme_char (c : ascii) : bool :=
  is_ascii_upper c || is_ascii_lower c || is_ascii_digit c || mem c ["+"%char; "-"%char; "."%char].

(** [_check_bracketed_host]; the form [v1.x] is the one of future versions. *)
Definition check_bracketed_host (hostname : string) : res unit :=
  if startswith "v" hostname then
    let '(version, dot, rest) := partition "." hostname in
    raise_if negb (dot && (1 <? slen version) && string_all is_hex_digit (String.substring 1 (String.length version) version) &&
                   negb (rest == "") && negb (contains (String (chr 10) "") rest))
      as ValueError msg "IPvFuture address is invalid" ;; Ok tt
  else
    match parse_ip_address hostname with
    | None => raise ValueError "not an address"
    | Some ip => raise_if negb (ip_v6 ip) as ValueError msg "An IPv4 address cannot be in brackets" ;; Ok tt
    end.

(** [_hostinfo]: the host and port parts of a network location. *)
Definition hostinfo (netloc : string) : string * string :=
  let host_and_port := after_last "@" netloc in
  let '(_, bracket, bracketed) := partition "[" host_and_port in
  if bracket then
    let '(hostname, _, after) := partition "]" bracketed in
    let '(_, _, port) := partition ":" after in (hostname, port)
  else
    let '(hostname, _, port) := partition ":" host_and_port in (hostname, port).

(** [_check_bracketed_netloc]. *)
Definition check_bracketed_netloc (netloc : string) : res unit :=
  let host_and_port := after_last "@" netloc in
  let '(before, bracket, bracketed) := partition "[" host_and_port in
  if bracket then
    raise_if negb (before == "") as ValueError msg "Invalid IPv6 URL" ;;
    let '(hostname, _, port) := partition "]" bracketed in
    raise_if negb (port == "") && negb (startswith ":" port) as ValueError msg "Invalid IPv6 URL" ;;
    check_bracketed_host hostname
  else
    let '(hostname, _, _) := partition ":" host_and_port in
    check_bracketed_host hostname.

(** The scheme, in lower case, and the rest; [scheme0] when there is none. *)
Definition split_scheme (scheme0 url : string) : string * string :=
  let '(scheme, found, rest) := partition ":" url in
  match scheme with
  | String c _ =>
      if found && (is_ascii_upper c || is_ascii_lower c) && string_all is_scheme_char scheme
      then (lower scheme, rest) else (scheme0, url)
  | EmptyString => (scheme0, url)
  end.

(** What follows the network location. *)
Fixpoint from_delimiter (s : string) : string :=
  match s with
  | EmptyString => EmptyString
  | String c s' => if mem c ["/"%char; "?"%char; "#"%char] then s else from_delimiter s'
  end.

(** The network location, and the rest. *)
Definition split_netloc (url : string) : string * string :=
  match strip_prefix "//" url with
  | None => ("", url)
  | Some tail => (until_delimiter tail, from_delimiter tail)
  end.

(** On code points below 256 the NFKC check of the network location never fails. *)
Definition urlsplit (url scheme0 : string) : res SplitResult :=
  let url := lstrip_by (fun c => code c <=? 32) url in
  let url := remove_chars (fun c => mem (code c) [9; 10; 13]) url in
  let '(scheme, url) := split_scheme scheme0 url in
  let '(netloc, url) := split_netloc url in
  let opening := contains "[" netloc in
  let closing := contains "]" netloc in
  raise_if negb (Bool.eqb opening closing) as ValueError msg "Invalid IPv6 URL" ;;
  (if opening && closing then check_bracketed_netloc netloc else Ok tt) ;;?
  let '(url, _, fragment) := partition "#" url in
  let '(path, _, query) := partition "?" url in
  Ok {| u_scheme := scheme; u_netloc := netloc; u_path := path; u_query := query; u_fragment := fragment |}.

(** [.hostname]; [None] is an empty host. *)
Definition u_hostname (u : SplitResult) : option string :=
  let (hostname, _) := hostinfo (u_netloc u) in
  if hostname == "" then None
  else
    let '(name, percent, zone) := partition "%" hostname in
    Some (lower name +:+ (if percent then "%" else "") +:+ zone).

(** [urlparse(url).hostname]. *)
Definition url_hostname (url : string) : res (option string) := let? u := urlsplit url "" in Ok (u_hostname u).

(** [.port]. *)
Definition u_port (u : SplitResult) : res (option Z) :=
  let (_, port) := hostinfo (u_netloc u) in
  if port == "" then Ok None
  else
    raise_if negb (ascii_digits port) as ValueError msg "Port could not be cast to integer value" ;;
    raise_if 4300 <? slen port as ValueError msg "int_max_str_digits" ;;
    let n := Timestamp.digits_value port 0 in
    raise_if 65535 <? n as ValueError msg "Port out of range 0-65535" ;;
    Ok (Some n).

(** Whether [.username] or [.password] is not [None]. *)
Definition has_userinfo (u : SplitResult) : bool := contains "@" (u_netloc u).

(** ** [geturl] *)

Definition uses_relative : list string :=
  [""; "ftp"; "http"; "gopher"; "nntp"; "imap"; "wais"; "file"; "https"; "shttp"; "mms"; "prospero"; "rtsp"; "rtspu";
   "sftp"; "svn"; "svn+ssh"; "ws"; "wss"].
Definition uses_netloc : list string :=
  [""; "ftp"; "http"; "gopher"; "nntp"; "telnet"; "imap"; "wais"; "file"; "mms"; "https"; "shttp"; "snews"; "prospero";
   "rtsp"; "rtspu"; "rsync"; "svn"; "svn+ssh"; "sftp"; "nfs"; "git"; "git+ssh"; "ws"; "wss"].
Definition uses_params : list string :=
  [""; "ftp"; "hdl"; "prospero"; "http"; "imap"; "https"; "shttp"; "rtsp"; "rtspu"; "sip"; "sips"; "mms"; "sftp"; "tel"].

Definition urlunsplit (u : SplitResult) : string :=
  let path := u_path u in
  let url :=
    if negb (u_netloc u == "") ||
       (negb (u_scheme u == "") && mem (u_scheme u) uses_netloc && negb (startswith "//" path)) then
      "//" +:+ u_netloc u +:+ (if negb (path == "") && negb (startswith "/" path) then "/" else "") +:+ path
    else path in
  let url := if u_scheme u == "" then url else u_scheme u +:+ ":" +:+ url in
  let url := if u_query u == "" then url else url +:+ "?" +:+ u_query u in
  if u_fragment u == "" then url else url +:+ "#" +:+ u_fragment u.

(** ** [urljoin] *)

(** The text up to the last slash, with it, and the text after it. *)
Fixpoint last_segment (s : string) : string * string :=
  match s with
  | EmptyString => (EmptyString, EmptyString)
  | String c s' =>
      let (dir, seg) := last_segment s' in
      if (c == "/"%char) || negb (dir == "") then (String c dir, seg) else (EmptyString, String c seg)
  end.

(** [_splitparams]: parameters belong to the last segment. *)
Definition split_params (path : string) : string * string :=
  let (dir, seg) := last_segment path in
  let '(name, _, params) := partition ";" seg in (dir +:+ name, params).

(** [urlparse]: [urlsplit], and the parameters. *)
Definition urlparse (url scheme0 : string) : res (SplitResult * string) :=
  let? u := urlsplit url scheme0 in
  if mem (u_scheme u) uses_params && contains ";" (u_path u) then
    let (path, params) := split_params (u_path u) in
    Ok ({| u_scheme := u_scheme u; u_netloc := u_netloc u; u_path := path; u_query := u_query u;
           u_fragment := u_fragment u |}, params)
  else Ok (u, "").

Definition urlunparse (scheme netloc path params query fragment : string) : string :=
  urlunsplit {| u_scheme := scheme; u_netloc := netloc; u_path := if params == "" then path else path +:+ ";" +:+ params;
                u_query := query; u_fragment := fragment |}.

(** The loop over the segments of a path; [resolved] is in reverse. *)
Fixpoint resolve_segments (segments resolved : list string) : list string :=
  match segments with
  | [] => rev resolved
  | seg :: segments' =>
      if seg == ".." then resolve_segments segments' (tl resolved)
      else if seg == "." then resolve_segments segments' resolved
      else resolve_segments segments' (seg :: resolved)
  end.

(** [segments[1:-1] = filter(None, segments[1:-1])]. *)
Definition filter_inner (segments : list string) : list string :=
  match segments with
  | first :: rest =>
      match rev rest with
      | last :: inner => first :: List.filter (fun s => negb (s == "")) (rev inner) ++ [last]
      | [] => segments
      end
  | [] => []
  end.

Definition last_string (xs : list string) : string := match rev xs with x :: _ => x | [] => "" end.

Definition merge_paths (base path : string) : string :=
  let base_parts := split_char "/" base in
  let base_parts := if last_string base_parts == "" then base_parts else removelast base_parts in
  let segments :=
    if startswith "/" path then split_char "/" path else filter_inner (base_parts ++ split_char "/" path) in
  let resolved := resolve_segments segments [] in
  let resolved := if mem (last_string segments) ["."; ".."] then resolved ++ [""] else resolved in
  let joined := join "/" resolved in
  if joined == "" then "/" else joined.

Definition urljoin (base url : string) : res string :=
  if base == "" then Ok url
  else if url == "" then Ok base
  else
    let? (b, bparams) := urlparse base "" in
    let? (u, params) := urlparse url (u_scheme b) in
    if negb (u_scheme u == u_scheme b) || negb (mem (u_scheme u) uses_relative) then Ok url
    else
      let with_netloc := mem (u_scheme u) uses_netloc in
      if with_netloc && negb (u_netloc u == "") then
        Ok (urlunparse (u_scheme u) (u_netloc u) (u_path u) params (u_query u) (u_fragment u))
      else
        let netloc := if with_netloc then u_netloc b else u_netloc u in
        if (u_path u == "") && (params == "") then
          Ok (urlunparse (u_scheme u) netloc (u_path b) bparams (if u_query u == "" then u_query b else u_query u)
                (u_fragment u))
        else Ok (urlunparse (u_scheme u) netloc (merge_paths (u_path b) (u_path u)) params (u_query u) (u_fragment u)).

(** ** Percent encoding *)

Definition always_safe (c : ascii) : bool :=
  is_ascii_upper c || is_ascii_lower c || is_ascii_digit c || mem c ["_"%char; "."%char; "-"%char; "~"%char].

Definition upper_hex (n : Z) : ascii := if n <? 10 then chr (48 + n) else chr (55 + n).

(** [quote_from_bytes(bs, safe="")]. *)
Fixpoint quote_bytes (bs : string) : string :=
  match bs with
  | EmptyString => EmptyString
  | String c bs' =>
      if always_safe c then String c (quote_bytes bs')
      else String "%" (String (upper_hex (code c / 16)) (String (upper_hex (code c mod 16)) (quote_bytes bs')))
  end.

(** [quote(s, safe="")]. *)
Definition url_quote (s : string) : string := quote_bytes (encode_utf8 s).

(** [unquote_to_bytes]: an escape that is not one stands for itself. *)
Fixpoint unquote_bytes (s : string) : string :=
  match s with
  | EmptyString => EmptyString
  | String c s1 =>
      if c == "%"%char then
        match s1 with
        | String a (String b s2) =>
            if is_hex_digit a && is_hex_digit b
            then String (chr (16 * hex_digit_value a + hex_digit_value b)) (unquote_bytes s2)
            else String c (unquote_bytes s1)
        | _ => String c (unquote_bytes s1)
        end
      else String c (unquote_bytes s1)
  end.

(** [unquote(s, errors="strict")]: the runs of ASCII characters are unquoted and
    decoded; [None] is its [UnicodeDecodeError], or a text outside the model. *)
Fixpoint unquote_runs (run s : string) : option string :=
  match s with
  | EmptyString => decode_utf8 (unquote_bytes run)
  | String c s' =>
      if code c <? 128 then unquote_runs (run +:+ String c "") s'
      else match decode_utf8 (unquote_bytes run), unquote_runs "" s' with
           | Some a, Some b => Some (a +:+ String c b)
           | _, _ => None
           end
  end.

Definition url_unquote (s : string) : option string := if contains "%" s then unquote_runs "" s else Some s.
