(* ===== verification/PyUrlFacts.v ===== *)
(** * URLs: facts

    Percent encoding is injective and undone by [unquote]; which texts [urlsplit] takes
    apart as a path and a query; and that URL functions raise nothing but [ValueError]. *)

From S2P Require Import Prelude PyStr Json JsonParse Canonical Timestamp PyIp PyUrl.

(** ** Strings *)

Lemma string_all_impl (p q : ascii -> bool) s :
  (forall c, p c = true -> q c = true) -> string_all p s = true -> string_all q s = true.
Proof. intros H. induction s; simpl; [done|]. rewrite !andb_true_iff. naive_solver. Qed.

Lemma string_all_contains p c s : string_all p s = true -> p c = false -> contains (String c "") s = false.
Proof.
  induction s as [|d s IH]; simpl; [done|]. intros [Hd Hs]%andb_true_iff Hc. rewrite (IH Hs Hc).
  destruct (c == d) eqn:E; [apply eqb_true in E as ->; congruence|done].
Qed.

Lemma contains_char c d s : contains (String c "") (String d s) = (c == d) || contains (String c "") s.
Proof. simpl. by rewrite andb_true_r. Qed.

Lemma not_contains_all c s : contains (String c "") s = false -> string_all (fun d => negb (c == d)) s = true.
Proof.
  induction s as [|d s IH]; [done|]. rewrite contains_char, orb_false_iff. intros [Hd Hs]. simpl.
  by rewrite Hd, IH.
Qed.

Lemma partition_absent c s : contains (String c "") s = false -> partition c s = (s, false, "").
Proof.
  induction s as [|d s IH]; [done|]. rewrite contains_char, orb_false_iff. intros [Hd Hs]. simpl.
  by rewrite Hd, IH.
Qed.

(** [partition] splits at the first occurrence. *)
Lemma partition_spec c s : let '(a, found, b) := partition c s in
  contains (String c "") a = false /\ s = (if found then a +:+ String c b else a) /\ (found = false -> b = "").
Proof.
  induction s as [|d s IH]; [done|]. cbn [partition]. destruct (c == d) eqn:E.
  - apply eqb_true in E as ->. done.
  - destruct (partition c s) as [[a f] b]. destruct IH as (Ha & Hs & Hb). rewrite contains_char, E. simpl.
    split; [done|]. split; [|done]. rewrite Hs. by destruct f.
Qed.

Lemma partition_app c a b : contains (String c "") a = false -> partition c (a +:+ String c b) = (a, true, b).
Proof.
  induction a as [|d a IH]; [simpl; by rewrite eqb_refl|]. rewrite contains_char, orb_false_iff. intros [Hd Ha].
  simpl. by rewrite Hd, IH.
Qed.

Lemma split_char_absent c s : contains (String c "") s = false -> split_char c s = [s].
Proof.
  induction s as [|d s IH]; [done|]. rewrite contains_char, orb_false_iff. intros [Hd Hs]. simpl. by rewrite Hd, IH.
Qed.

Lemma split_char_cons c a b : contains (String c "") a = false -> split_char c (a +:+ String c b) = a :: split_char c b.
Proof.
  induction a as [|d a IH]; [simpl; by rewrite eqb_refl|]. rewrite contains_char, orb_false_iff. intros [Hd Ha].
  simpl. by rewrite Hd, IH.
Qed.

(** [s.split(c)] undoes [c.join(parts)] on parts without the separator, and is undone by it. *)
Lemma split_join c parts : parts <> [] -> Forall (fun p => contains (String c "") p = false) parts ->
  split_char c (join (String c "") parts) = parts.
Proof.
  intros Hn. induction 1 as [|p parts Hp Hps IH]; [done|]. destruct parts as [|q parts]; [by apply split_char_absent|].
  change (join (String c "") (p :: q :: parts)) with (p +:+ String c (join (String c "") (q :: parts))).
  rewrite split_char_cons by done. by rewrite IH.
Qed.

Lemma join_split c s : join (String c "") (split_char c s) = s.
Proof.
  induction s as [|d s IH]; [done|]. simpl. destruct (c == d) eqn:E.
  - apply eqb_true in E as ->. destruct (split_char d s) as [|w ws] eqn:Es; [by destruct s; simpl in Es; repeat case_match|].
    simpl in IH |- *. by rewrite <- IH.
  - destruct (split_char c s) as [|w ws] eqn:Es; [by destruct s; simpl in Es; repeat case_match|].
    destruct ws as [|w' ws]; simpl in IH |- *; by rewrite <- IH.
Qed.

Lemma split_char_nonempty c s : split_char c s <> [].
Proof. destruct s as [|d s]; simpl; [done|]. destruct (c == d); [done|]. by destruct (split_char c s). Qed.

(** ** Percent encoding *)

Lemma quote_hex_digits n : 0 <= n < 256 ->
  is_hex_digit (upper_hex (n / 16)) && is_hex_digit (upper_hex (n mod 16)) = true /\
  16 * hex_digit_value (upper_hex (n / 16)) + hex_digit_value (upper_hex (n mod 16)) = n.
Proof.
  intros Hn. assert (Hd : forall d, 0 <= d < 16 -> is_hex_digit (upper_hex d) = true /\ hex_digit_value (upper_hex d) = d).
  { intros d Hd. assert (d = 0 \/ d = 1 \/ d = 2 \/ d = 3 \/ d = 4 \/ d = 5 \/ d = 6 \/ d = 7 \/ d = 8 \/ d = 9 \/ d = 10 \/
      d = 11 \/ d = 12 \/ d = 13 \/ d = 14 \/ d = 15) as H by lia.
    repeat (destruct H as [->|H]; [by vm_compute|]). subst d. by vm_compute. }
  pose proof (Z.div_mod n 16 ltac:(lia)). pose proof (Z.mod_pos_bound n 16 ltac:(lia)).
  destruct (Hd (n / 16)) as [-> ->]; [lia|]. destruct (Hd (n mod 16)) as [-> ->]; [lia|]. split; [done|lia].
Qed.

Lemma always_safe_not_percent c : always_safe c = true -> (c == "%"%char) = false.
Proof. intros H. apply eqb_neq. intros ->. done. Qed.

Lemma unquote_quote_bytes bs : unquote_bytes (quote_bytes bs) = bs.
Proof.
  induction bs as [|c bs IH]; [done|]. cbn [quote_bytes]. destruct (always_safe c) eqn:E.
  - cbn [unquote_bytes]. by rewrite (always_safe_not_percent c E), IH.
  - cbn [unquote_bytes]. change ("%"%char == "%"%char) with true. cbn iota.
    destruct (quote_hex_digits (code c) (code_range c)) as [-> ->]. by rewrite chr_code, IH.
Qed.

Lemma always_safe_ascii c : always_safe c = true -> code c <? 128 = true.
Proof.
  unfold always_safe, is_ascii_upper, is_ascii_lower, is_ascii_digit. intros H.
  destruct (mem c _) eqn:E.
  - apply mem_In in E. simpl in E. destruct E as [<-|[<-|[<-|[<-|[]]]]]; done.
  - rewrite orb_false_r in H. rewrite !orb_true_iff, !andb_true_iff, !Z.leb_le in H. apply Z.ltb_lt. lia.
Qed.

Lemma upper_hex_ascii n : 0 <= n < 16 -> code (upper_hex n) <? 128 = true.
Proof. intros Hn. unfold upper_hex. destruct (n <? 10) eqn:E; simpl_bool; rewrite code_chr by lia; apply Z.ltb_lt; lia. Qed.

Lemma quote_bytes_all (p : ascii -> bool) bs :
  (forall c, always_safe c = true -> p c = true) -> p "%"%char = true -> (forall n, 0 <= n < 16 -> p (upper_hex n) = true) ->
  string_all p (quote_bytes bs) = true.
Proof.
  intros Hs Hp Hh. induction bs as [|c bs IH]; [done|]. cbn [quote_bytes]. pose proof (code_range c).
  destruct (always_safe c) eqn:E; cbn [string_all]; [by rewrite Hs, IH|].
  rewrite Hp, !Hh, IH; [done|..].
  - by apply Z.mod_pos_bound.
  - split; [apply Z.div_pos; lia|]. apply Z.div_lt_upper_bound; lia.
Qed.

Lemma quote_ascii s : string_all (fun c => code c <? 128) (url_quote s) = true.
Proof. apply quote_bytes_all; [apply always_safe_ascii|done|apply upper_hex_ascii]. Qed.

Lemma quote_no_slash s : contains "/" (url_quote s) = false.
Proof.
  apply (string_all_contains (fun c => negb (c == "/"%char))); [|done].
  apply quote_bytes_all; [|done|].
  - intros c Hc. apply negb_true_iff, eqb_neq. by intros ->.
  - intros n Hn. unfold upper_hex. apply negb_true_iff, eqb_neq. intros H. apply (f_equal code) in H.
    change (code "/") with 47 in H. destruct (n <? 10) eqn:E; simpl_bool; rewrite code_chr in H by lia; lia.
Qed.

Lemma unquote_runs_ascii s run : string_all (fun c => code c <? 128) s = true ->
  unquote_runs run s = decode_utf8 (unquote_bytes (run +:+ s)).
Proof.
  revert run. induction s as [|c s IH]; intros run Hs; cbn [unquote_runs].
  - by rewrite string_app_nil_r.
  - cbn [string_all] in Hs. apply andb_true_iff in Hs as [-> Hs]. rewrite IH by done.
    by rewrite string_app_assoc.
Qed.

Lemma quote_bytes_plain bs : contains "%" (quote_bytes bs) = false -> quote_bytes bs = bs.
Proof.
  induction bs as [|c bs IH]; [done|]. cbn [quote_bytes]. destruct (always_safe c).
  - rewrite contains_char, orb_false_iff. intros [_ H]. by rewrite IH.
  - done.
Qed.

Lemma encode_utf8_ascii s : string_all (fun c => code c <? 128) (encode_utf8 s) = true -> encode_utf8 s = s.
Proof.
  induction s as [|c s IH]; [done|]. cbn [encode_utf8]. destruct (code c <? 128) eqn:E.
  - cbn [string_all]. intros [_ H]%andb_true_iff. by rewrite IH.
  - cbn [string_all]. intros [H _]%andb_true_iff. simpl_bool. pose proof (code_range c).
    pose proof (Z.div_pos (code c) 64 ltac:(lia) ltac:(lia)). pose proof (Z.div_lt_upper_bound (code c) 64 4 ltac:(lia) ltac:(lia)).
    rewrite code_chr in H; lia.
Qed.

(** [unquote] inverts [quote]. *)
Lemma unquote_quote s : url_unquote (url_quote s) = Some s.
Proof.
  unfold url_unquote. destruct (contains "%" (url_quote s)) eqn:E.
  - rewrite unquote_runs_ascii by apply quote_ascii. simpl. unfold url_quote.
    by rewrite unquote_quote_bytes, decode_encode_utf8.
  - pose proof (quote_ascii s) as Ha. unfold url_quote in *. rewrite quote_bytes_plain in Ha |- * by done.
    by rewrite encode_utf8_ascii.
Qed.

(** ** [urlsplit] *)

(** A text that starts with one slash and has no fragment is a path and a query. *)
Lemma urlsplit_path t : startswith "/" t = true -> startswith "//" t = false ->
  string_all (fun c => 33 <=? code c) t = true -> contains "#" t = false ->
  let '(path, _, query) := partition "?" t in
  urlsplit t "" = Ok {| u_scheme := ""; u_netloc := ""; u_path := path; u_query := query; u_fragment := "" |}.
Proof.
  intros H1 H2 Hv Hf. unfold urlsplit.
  assert (lstrip_by (fun c => code c <=? 32) t = t) as ->.
  { destruct t as [|c t]; [done|]. simpl in Hv |- *. apply andb_true_iff in Hv as [Hc _]. simpl_bool.
    by rewrite (proj2 (Z.leb_gt _ _)) by lia. }
  assert (remove_chars (fun c => mem (code c) [9; 10; 13]) t = t) as ->.
  { clear -Hv. induction t as [|c t IH]; [done|]. simpl in Hv. apply andb_true_iff in Hv as [Hc Ht]. simpl_bool.
    cbn [remove_chars]. assert (mem (code c) [9; 10; 13] = false) as ->; [|by rewrite IH].
    apply mem_not_In. simpl. lia. }
  assert (split_scheme "" t = ("", t)) as ->.
  { unfold split_scheme. pose proof (partition_spec ":" t) as Hp. destruct (partition ":" t) as [[a f] b].
    destruct Hp as (_ & Ht & _). destruct a as [|c a]; [done|].
    assert (c = "/"%char) as ->.
    { destruct t as [|d t]; [done|]. simpl in H1. rewrite andb_true_r in H1. apply eqb_true in H1 as <-.
      destruct f; simpl in Ht; congruence. }
    by rewrite andb_false_r. }
  assert (split_netloc t = ("", t)) as ->.
  { unfold split_netloc. enough (strip_prefix "//" t = None) as -> by done. destruct t as [|c [|d t]]; simpl in H2 |- *; [done|by case_match|].
    rewrite andb_true_r in H2. by destruct ("/"%char == c), ("/"%char == d). }
  cbn [contains startswith Bool.eqb negb andb res_bind]. rewrite (partition_absent "#") by done.
  by destruct (partition "?" t) as [[path f] query].
Qed.

(** ** Exceptions *)

Ltac value_errors H := repeat first [discriminate H | injection H as <- | case_match].

Lemma check_bracketed_host_raises h e : check_bracketed_host h = Raise e -> exc_cls e = ValueError.
Proof. unfold check_bracketed_host, raise. intros H. repeat case_match; congruence || (injection H as <-; done). Qed.

Lemma check_bracketed_netloc_raises n e : check_bracketed_netloc n = Raise e -> exc_cls e = ValueError.
Proof.
  unfold check_bracketed_netloc, raise. intros H.
  repeat case_match; first [injection H as <-; done | by eapply check_bracketed_host_raises].
Qed.

Lemma urlsplit_raises url scheme0 e : urlsplit url scheme0 = Raise e -> exc_cls e = ValueError.
Proof.
  unfold urlsplit. intros H. destruct (split_scheme _ _) as [s u1]. destruct (split_netloc _) as [n u2].
  destruct (negb (Bool.eqb _ _)); [by injection H as <-|].
  destruct (if _ && _ then check_bracketed_netloc n else Ok tt) as [[]|e'] eqn:E; cbn [res_bind] in H.
  - destruct (partition "#" u2) as [[u3 ?] ?]. by destruct (partition "?" u3) as [[? ?] ?].
  - injection H as <-. destruct (_ && _); [by eapply check_bracketed_netloc_raises|done].
Qed.

Lemma u_port_raises u e : u_port u = Raise e -> exc_cls e = ValueError.
Proof.
  unfold u_port, raise. destruct (hostinfo (u_netloc u)) as [h p]. intros H.
  repeat case_match; congruence || (injection H as <-; done).
Qed.

Lemma urlparse_raises url scheme0 e : urlparse url scheme0 = Raise e -> exc_cls e = ValueError.
Proof.
  unfold urlparse. destruct (urlsplit url scheme0) as [u|e'] eqn:E; cbn [res_bind]; intros H.
  - destruct (_ && _); [|done]. by destruct (split_params (u_path u)).
  - injection H as <-. by eapply urlsplit_raises.
Qed.

Lemma urljoin_raises base url e : urljoin base url = Raise e -> exc_cls e = ValueError.
Proof.
  unfold urljoin. destruct (base == ""); [done|]. destruct (url == ""); [done|].
  destruct (urlparse base "") as [[b bparams]|e1] eqn:E1; cbn [res_bind];
    [|intros [= <-]; by eapply urlparse_raises].
  destruct (urlparse url (u_scheme b)) as [[u params]|e2] eqn:E2; cbn [res_bind];
    [|intros [= <-]; by eapply urlparse_raises].
  destruct (_ || _); [done|]. destruct (_ && _); [done|]. by destruct (_ && _).
Qed.
