(* ===== verification/PathsFacts.v ===== *)
(** * Facts about paths

    Absolute paths are normal: they have a root and no empty, [.] or [..] part; and
    printing a normal path and reading it again gives the path. *)

From S2P Require Import Prelude PyStr PyUrlFacts Paths.

(** A part of a normal path. *)
Definition normal_part (c : string) : Prop := ~ In c [""; "."; ".."] /\ contains "/" c = false.

Record normal (p : Path) : Prop := {
  nrm_root : In (p_root p) ["/"; "//"];
  nrm_parts : Forall normal_part (p_parts p);
}.

Lemma split_parts c s : Forall (fun part => contains (String c "") part = false) (split_char c s).
Proof.
  induction s as [|d s IH]; simpl; [by repeat constructor|]. destruct (c == d) eqn:E; [by constructor|].
  destruct (split_char c s) as [|w ws]; [constructor; [|done]|].
  - rewrite contains_char, E. done.
  - inversion_clear IH as [|? ? Hw Hws]. constructor; [|done]. by rewrite contains_char, E.
Qed.

Lemma norm_components_normal rest : forall acc, Forall normal_part acc -> Forall (fun c => contains "/" c = false) rest ->
  Forall normal_part (norm_components true acc rest).
Proof.
  induction rest as [|c rest IH]; intros acc Hd Hr; cbn [norm_components].
  - apply List.Forall_forall. intros x Hx. rewrite List.Forall_forall in Hd. apply Hd. by apply in_rev.
  - inversion_clear Hr as [|? ? Hc Hr']. destruct (mem c [""; "."]) eqn:Em; [by apply IH|]. apply mem_not_In in Em.
    destruct (c == "..") eqn:Ec; cbn [negb orb andb].
    + assert (Hdots : match acc with ".." :: _ => true | _ => false end = false).
      { destruct Hd as [|x l [Hx _] _]; [reflexivity|]. destruct (decide (x = "..")) as [->|Hne]; [destruct Hx; simpl; auto|].
        destruct x as [|[[] [] [] [] [] [] [] []] x]; try reflexivity. destruct x as [|[[] [] [] [] [] [] [] []] x]; try reflexivity.
        by destruct x. }
      rewrite Hdots. apply IH; [|done]. destruct Hd; [constructor|done].
    + apply eqb_false in Ec. apply IH; [|done]. constructor; [|done]. split; [|done]. simpl in *. intuition congruence.
Qed.

Lemma norm_components_id rooted rest : forall acc, Forall normal_part rest -> norm_components rooted acc rest = rev acc ++ rest.
Proof.
  induction rest as [|c rest IH]; intros acc Hr; cbn [norm_components]; [by rewrite app_nil_r|].
  inversion_clear Hr as [|? ? [Hc _] Hr']. rewrite (proj2 (mem_not_In c [""; "."])) by (simpl in *; intuition congruence).
  rewrite (proj2 (eqb_neq c "..")) by (simpl in *; intuition congruence). cbn [negb orb]. rewrite IH by done.
  simpl. by rewrite <- app_assoc.
Qed.

Lemma filter_normal parts : Forall normal_part parts -> List.filter (fun x => negb (mem x [""; "."])) parts = parts.
Proof.
  induction 1 as [|c parts [Hc _] _ IH]; [done|]. cbn [List.filter].
  rewrite (proj2 (mem_not_In c [""; "."])) by (simpl in *; intuition congruence). cbn [negb]. by rewrite IH.
Qed.

(** The text of the parts does not begin with a slash. *)
Lemma join_head parts : Forall normal_part parts -> startswith "/" (join "/" parts) = false.
Proof.
  intros Hp. destruct Hp as [|c parts [Hc Hs] _]; [done|]. destruct c as [|d c]; [destruct Hc; simpl; auto|].
  rewrite contains_char in Hs. apply orb_false_iff in Hs as [Hs _]. apply eqb_false in Hs.
  destruct parts; simpl; destruct (ascii_dec "/" d); try congruence; unfold eqb; by rewrite bool_decide_false by congruence.
Qed.

Lemma leading_root_text root parts : In root ["/"; "//"] -> Forall normal_part parts -> leading_root (root +:+ join "/" parts) = root.
Proof.
  intros Hr Hp%join_head. unfold leading_root. destruct Hr as [<-|[<-|[]]]; simpl in *; rewrite Hp; reflexivity.
Qed.

Lemma split_root root parts : In root ["/"; "//"] -> Forall normal_part parts ->
  exists empties, split_char "/" (root +:+ join "/" parts) = empties ++ parts /\ forall x, In x empties -> x = "".
Proof.
  intros Hr Hp. assert (Hj : parts = [] \/ split_char "/" (join "/" parts) = parts).
  { destruct parts as [|c parts]; [by left|right]. apply (split_join "/"); [done|]. eapply Forall_impl; [exact Hp|]. by intros ? []. }
  destruct Hj as [->|Hj].
  - destruct Hr as [<-|[<-|[]]]; [by exists [""; ""]; simpl; intuition|by exists [""; ""; ""]; simpl; intuition].
  - destruct Hr as [<-|[<-|[]]]; simpl; rewrite Hj; [exists [""]|exists [""; ""]]; (split; [done|]); simpl; intuition congruence.
Qed.

Lemma norm_skip rooted empties rest : forall acc, (forall x, In x empties -> x = "") ->
  norm_components rooted acc (empties ++ rest) = norm_components rooted acc rest.
Proof.
  induction empties as [|x empties IH]; intros acc He; [done|]. cbn [norm_components app]. rewrite (He x) by (by left).
  apply IH. intros y Hy. apply He. by right.
Qed.

Lemma normal_text p : normal p -> path_text p = p_root p +:+ join "/" (p_parts p).
Proof. intros [Hr _]. unfold path_text. destruct Hr as [Hr|[Hr|[]]]; by rewrite <- Hr. Qed.

(** Reading the text of a normal path. *)
Lemma parse_normal p : normal p -> parse_path (path_text p) = p.
Proof.
  intros Hn. rewrite (normal_text p Hn). destruct Hn as [Hr Hp]. unfold parse_path. rewrite leading_root_text by done.
  destruct (split_root _ _ Hr Hp) as (empties & -> & He). rewrite List.filter_app, (filter_normal (p_parts p)) by done.
  assert (List.filter (fun x => negb (mem x [""; "."])) empties = []) as ->.
  { induction empties as [|x l IH]; [done|]. cbn [List.filter]. rewrite (He x) by (by left). apply IH. intros y Hy. apply He. by right. }
  by destruct p.
Qed.

Lemma normpath_normal p : normal p -> normpath (path_text p) = path_text p.
Proof.
  intros Hn. rewrite (normal_text p Hn). destruct Hn as [Hr Hp]. unfold normpath. rewrite leading_root_text by done.
  destruct (split_root _ _ Hr Hp) as (empties & -> & He). rewrite norm_skip, norm_components_id by done. cbn [rev app].
  rewrite (proj2 (eqb_neq _ "")); [done|]. destruct Hr as [<-|[<-|[]]]; done.
Qed.

Lemma normpath_of_rooted s : startswith "/" s = true -> normal (parse_path (normpath s)) /\ path_text (parse_path (normpath s)) = normpath s.
Proof.
  intros Hs. set (root := leading_root s). set (parts := norm_components (negb (root == "")) [] (split_char "/" s)).
  assert (Hr : In root ["/"; "//"]).
  { unfold root, leading_root. rewrite Hs. destruct (_ && _); simpl; auto. }
  assert (Hroot : negb (root == "") = true) by (destruct Hr as [<-|[<-|[]]]; done).
  assert (Hp : Forall normal_part parts).
  { unfold parts. rewrite Hroot. apply norm_components_normal; [constructor|]. apply split_parts. }
  assert (Heq : normpath s = path_text {| p_root := root; p_parts := parts |}).
  { rewrite normal_text by done. unfold normpath. fold root parts. cbn [p_root p_parts].
    rewrite (proj2 (eqb_neq _ "")); [done|]. destruct Hr as [<-|[<-|[]]]; done. }
  rewrite Heq, parse_normal by done. done.
Qed.

(** [os.path.abspath] in an absolute directory is normal, and its text is that of the path. *)
Lemma abspath_normal cwd s : startswith "/" cwd = true ->
  normal (parse_path (abspath cwd s)) /\ path_text (parse_path (abspath cwd s)) = abspath cwd s.
Proof.
  intros Hc. apply normpath_of_rooted. destruct (startswith "/" s) eqn:E; [done|]. unfold path_join.
  destruct cwd as [|c cwd]; [done|]. destruct (_ || _); simpl in *; destruct ("/" == c)%char; done.
Qed.

Lemma abspath_of_normal cwd p : normal p -> abspath cwd (path_text p) = path_text p.
Proof.
  intros Hn. unfold abspath. assert (startswith "/" (path_text p) = true) as ->; [|by apply normpath_normal].
  rewrite normal_text by done. destruct (nrm_root _ Hn) as [<-|[<-|[]]]; done.
Qed.

Lemma normal_absolute p : normal p -> is_absolute p = true.
Proof. intros [Hr _]. unfold is_absolute. destruct Hr as [<-|[<-|[]]]; done. Qed.

Lemma normal_no_dots p : normal p -> mem ".." (path_parts p) = false.
Proof.
  intros [Hr Hp]. apply mem_not_In. unfold path_parts.
  destruct Hr as [<-|[<-|[]]]; (intros [?|Hin]; [done|]); rewrite List.Forall_forall in Hp; destruct (Hp _ Hin) as [Hn _]; apply Hn; simpl; auto.
Qed.

Lemma normal_text_nonempty p : normal p -> path_text p <> "".
Proof. intros Hn. rewrite normal_text by done. destruct (nrm_root _ Hn) as [<-|[<-|[]]]; done. Qed.
