(* ===== verification/Base64.v ===== *)
(** * Base64

    [base64.b64encode] and [base64.b64decode(s, validate=True)], as [binascii] of CPython
    3.11 does them in strict mode, on byte strings; and that decoding inverts encoding. *)

From S2P Require Import Prelude PyStr.

Definition b64_char (n : Z) : ascii :=
  if n <? 26 then chr (65 + n) else if n <? 52 then chr (71 + n) else if n <? 62 then chr (n - 4)
  else if n =? 62 then "+"%char else "/"%char.

Definition b64_value (c : ascii) : option Z :=
  if is_ascii_upper c then Some (code c - 65) else if is_ascii_lower c then Some (code c - 71)
  else if is_ascii_digit c then Some (code c + 4)
  else if c == "+"%char then Some 62 else if c == "/"%char then Some 63 else None.

(** [b64encode(bs).decode("ascii")]. *)
Fixpoint b64encode (bs : string) : string :=
  match bs with
  | EmptyString => EmptyString
  | String a EmptyString =>
      String (b64_char (code a / 4)) (String (b64_char (code a mod 4 * 16)) "==")
  | String a (String b EmptyString) =>
      String (b64_char (code a / 4)) (String (b64_char (code a mod 4 * 16 + code b / 16))
        (String (b64_char (code b mod 16 * 4)) "="))
  | String a (String b (String c rest)) =>
      String (b64_char (code a / 4)) (String (b64_char (code a mod 4 * 16 + code b / 16))
        (String (b64_char (code b mod 16 * 4 + code c / 64)) (String (b64_char (code c mod 64)) (b64encode rest))))
  end.

(** The state of the decoder: the position in a group of four, the bits left over, the
    pads seen in a row, and whether any was seen. *)
Record Decoder := { quad_pos : Z; leftchar : Z; pads : Z; padding_started : bool }.

Definition binascii_error {A} : res A := raise ValueError "binascii.Error".

Definition out (byte : Z) (r : res string) : res string := let? s := r in Ok (String (chr byte) s).

Fixpoint a2b_strict (d : Decoder) (s : string) : res string :=
  match s with
  | EmptyString => raise_if negb (quad_pos d =? 0) as ValueError msg "binascii.Error" ;; Ok EmptyString
  | String c s' =>
      if c == "="%char then
        let pads' := pads d + 1 in
        if (2 <=? quad_pos d) && (4 <=? quad_pos d + pads') then
          raise_if negb (s' == "") as ValueError msg "binascii.Error" ;; Ok EmptyString
        else
          a2b_strict {| quad_pos := quad_pos d; leftchar := leftchar d;
                        pads := if 2 <=? quad_pos d then pads' else pads d; padding_started := true |} s'
      else
        match b64_value c with
        | None => binascii_error
        | Some v =>
            if padding_started d then binascii_error
            else if quad_pos d =? 0 then
              a2b_strict {| quad_pos := 1; leftchar := v; pads := 0; padding_started := false |} s'
            else if quad_pos d =? 1 then
              out (leftchar d * 4 + v / 16)
                (a2b_strict {| quad_pos := 2; leftchar := v mod 16; pads := 0; padding_started := false |} s')
            else if quad_pos d =? 2 then
              out (leftchar d * 16 + v / 4)
                (a2b_strict {| quad_pos := 3; leftchar := v mod 4; pads := 0; padding_started := false |} s')
            else
              out (leftchar d * 64 + v)
                (a2b_strict {| quad_pos := 0; leftchar := 0; pads := 0; padding_started := false |} s')
        end
  end.

Definition start_decoder : Decoder := {| quad_pos := 0; leftchar := 0; pads := 0; padding_started := false |}.

(** [base64.b64decode(s, validate=True)] of a text. *)
Definition b64decode (s : string) : res string :=
  raise_if negb (string_all (fun c => code c <? 128) s) as ValueError msg "string argument should contain only ASCII characters" ;;
  raise_if startswith "=" s as ValueError msg "binascii.Error" ;;
  a2b_strict start_decoder s.

(** ** Decoding inverts encoding *)

(** The sextets. *)
Lemma b64_value_char n : 0 <= n < 64 -> b64_value (b64_char n) = Some n /\ (b64_char n == "="%char) = false /\ code (b64_char n) <? 128 = true.
Proof.
  assert (H : forallb (fun n => (b64_value (b64_char n) == Some n) && negb (b64_char n == "="%char) && (code (b64_char n) <? 128))
    (map Z.of_nat (seq 0 64)) = true) by (vm_compute; reflexivity).
  intros Hn. rewrite forallb_forall in H. specialize (H n). rewrite !andb_true_iff, eqb_eq, negb_true_iff in H.
  destruct H as [[? ?] ?]; [|done]. apply in_map_iff. exists (Z.to_nat n). split; [lia|]. apply in_seq. lia.
Qed.

Lemma a2b_char q l n rest : 0 <= n < 64 ->
  a2b_strict {| quad_pos := q; leftchar := l; pads := 0; padding_started := false |} (String (b64_char n) rest) =
  if q =? 0 then a2b_strict {| quad_pos := 1; leftchar := n; pads := 0; padding_started := false |} rest
  else if q =? 1 then out (l * 4 + n / 16) (a2b_strict {| quad_pos := 2; leftchar := n mod 16; pads := 0; padding_started := false |} rest)
  else if q =? 2 then out (l * 16 + n / 4) (a2b_strict {| quad_pos := 3; leftchar := n mod 4; pads := 0; padding_started := false |} rest)
  else out (l * 64 + n) (a2b_strict start_decoder rest).
Proof. intros Hn. cbn [a2b_strict]. destruct (b64_value_char n Hn) as (-> & -> & _). done. Qed.

Lemma out_ok z a r s : z = code a -> r = Ok s -> out z r = Ok (String a s).
Proof. intros -> ->. unfold out. cbn [res_bind]. by rewrite chr_code. Qed.

Lemma string_ind3 (P : string -> Prop) :
  P "" -> (forall a, P (String a "")) -> (forall a b, P (String a (String b ""))) ->
  (forall a b c s, P s -> P (String a (String b (String c s)))) -> forall s, P s.
Proof.
  intros H0 H1 H2 H3. fix IH 1. intros [|a [|b [|c s]]]; [done|done|done|]. apply H3, IH.
Qed.

Ltac sextets :=
  repeat match goal with a : ascii |- _ => lazymatch goal with _ : 0 <= code a < 256 |- _ => fail | _ => pose proof (code_range a) end end.

Lemma a2b_encode bs : a2b_strict start_decoder (b64encode bs) = Ok bs.
Proof.
  assert (Hd : forall x y z, 0 <= y < z -> (x * z + y) / z = x /\ (x * z + y) mod z = y).
  { intros x y z Hy. split; [rewrite Z.div_add_l by lia; rewrite Z.div_small by lia; lia|].
    rewrite Z.add_comm, Z.mod_add by lia. by apply Z.mod_small. }
  assert (Hb : forall x k, 0 < k -> 0 <= x -> 0 <= x mod k < k /\ 0 <= x / k /\ x = k * (x / k) + x mod k).
  { intros x k Hk Hx. pose proof (Z.mod_pos_bound x k Hk). pose proof (Z.div_pos x k Hx Hk).
    pose proof (Z.div_mod x k). lia. }
  induction bs as [|a|a b|a b c s IH] using string_ind3; [done|..]; cbn [b64encode]; unfold start_decoder;
    sextets; destruct (Hb (code a) 4) as (A1 & A2 & A3); try lia.
  - rewrite !a2b_char by lia. destruct (Hd (code a mod 4) 0 16) as [E1 E2]; [lia|]. rewrite Z.add_0_r in E1, E2.
    cbn [Z.eqb Pos.eqb]. by apply out_ok; [lia|].
  - destruct (Hb (code b) 16) as (B1 & B2 & B3); try lia. rewrite !a2b_char by lia.
    destruct (Hd (code a mod 4) (code b / 16) 16) as [E1 E2]; [lia|].
    destruct (Hd (code b mod 16) 0 4) as [E3 E4]; [lia|]. rewrite Z.add_0_r in E3, E4.
    cbn [Z.eqb Pos.eqb]. apply out_ok; [lia|]. by apply out_ok; [lia|].
  - destruct (Hb (code b) 16) as (B1 & B2 & B3); try lia. destruct (Hb (code c) 64) as (C1 & C2 & C3); try lia.
    rewrite !a2b_char by lia.
    destruct (Hd (code a mod 4) (code b / 16) 16) as [E1 E2]; [lia|].
    destruct (Hd (code b mod 16) (code c / 64) 4) as [E3 E4]; [lia|].
    cbn [Z.eqb Pos.eqb]. apply out_ok; [lia|]. apply out_ok; [lia|]. by apply out_ok; [lia|].
Qed.

Lemma b64encode_ascii bs : string_all (fun c => code c <? 128) (b64encode bs) = true /\ startswith "=" (b64encode bs) = false.
Proof.
  assert (Hc : forall n, 0 <= n < 64 -> (code (b64_char n) <? 128) = true /\ ("="%char == b64_char n) = false).
  { intros n Hn. destruct (b64_value_char n Hn) as (_ & E & ?). split; [done|]. apply eqb_neq. apply eqb_false in E. congruence. }
  assert (Hd : forall x k, 0 < k -> 0 <= x < 256 -> 0 <= x / k /\ x / k * k <= x /\ 0 <= x mod k < k).
  { intros x k Hk Hx. pose proof (Z.mod_pos_bound x k Hk). pose proof (Z.div_pos x k ltac:(lia) Hk).
    pose proof (Z.div_mod x k). lia. }
  induction bs as [|a|a b|a b c s [IH _]] using string_ind3; [done|..]; cbn [b64encode string_all startswith]; sextets;
    pose proof (Hd (code a) 4); pose proof (Hd (code a) 16); try pose proof (Hd (code b) 16); try pose proof (Hd (code c) 64);
    repeat match goal with |- context [code (b64_char ?n) <? 128] => rewrite (proj1 (Hc n ltac:(lia))) end;
    rewrite (proj2 (Hc (code a / 4) ltac:(lia))); cbn [andb]; done.
Qed.

Lemma b64decode_encode bs : b64decode (b64encode bs) = Ok bs.
Proof.
  unfold b64decode. destruct (b64encode_ascii bs) as [-> ->]. apply a2b_encode.
Qed.
