(* ===== verification/PyIpFacts.v ===== *)
(** * IP networks as sets of addresses

    A network is the interval of addresses that share its prefix: what [in_network],
    [subnet_of] and [overlaps] compute on it.  Parsing yields well-formed values, and
    the text of an IPv4 address parses back to it. *)

From S2P Require Import Prelude PyStr Json JsonFacts Timestamp PyIp.

(** ** Masks *)

Lemma max_prefixlen_pos v6 : 0 < max_prefixlen v6.
Proof. by destruct v6. Qed.

Lemma all_ones_ones v6 : all_ones v6 = Z.ones (max_prefixlen v6).
Proof. by destruct v6. Qed.

Lemma shiftr_ones n p : 0 <= p <= n -> Z.shiftr (Z.ones n) p = Z.ones (n - p).
Proof.
  intros Hp. apply Z.bits_inj'. intros i Hi. rewrite Z.shiftr_spec by done.
  destruct (Z.lt_ge_cases i (n - p)).
  - rewrite !Z.ones_spec_low; [done|lia..].
  - rewrite !Z.ones_spec_high; [done|lia..].
Qed.

Lemma netmask_spec v6 p i : 0 <= p <= max_prefixlen v6 -> 0 <= i ->
  Z.testbit (netmask_int v6 p) i = (max_prefixlen v6 - p <=? i) && (i <? max_prefixlen v6).
Proof.
  intros Hp Hi. unfold netmask_int. rewrite all_ones_ones, shiftr_ones by done.
  set (n := max_prefixlen v6) in *. rewrite Z.lxor_spec, !Z.testbit_ones_nonneg by lia.
  destruct (Z.ltb_spec i n), (Z.ltb_spec i (n - p)), (Z.leb_spec (n - p) i); simpl; lia || done.
Qed.

Lemma hostmask_ones v6 p : 0 <= p <= max_prefixlen v6 -> hostmask_int v6 p = Z.ones (max_prefixlen v6 - p).
Proof.
  intros Hp. apply Z.bits_inj'. intros i Hi. unfold hostmask_int. rewrite Z.lxor_spec, netmask_spec, all_ones_ones by done.
  rewrite !Z.testbit_ones_nonneg by lia. set (n := max_prefixlen v6) in *.
  destruct (Z.ltb_spec i n), (Z.ltb_spec i (n - p)), (Z.leb_spec (n - p) i); simpl; lia || done.
Qed.

(** The part of an address a mask keeps. *)
Lemma land_netmask v6 p x : 0 <= p <= max_prefixlen v6 -> 0 <= x < 2 ^ max_prefixlen v6 ->
  Z.land x (netmask_int v6 p) = x / 2 ^ (max_prefixlen v6 - p) * 2 ^ (max_prefixlen v6 - p).
Proof.
  intros Hp Hx. set (n := max_prefixlen v6) in *.
  rewrite <- Z.shiftr_div_pow2, <- Z.shiftl_mul_pow2 by lia. apply Z.bits_inj'. intros i Hi.
  rewrite Z.land_spec, netmask_spec by done. fold n.
  destruct (Z.leb_spec (n - p) i).
  - rewrite Z.shiftl_spec_high, Z.shiftr_spec by lia. replace (i - (n - p) + (n - p)) with i by lia. simpl.
    destruct (Z.ltb_spec i n); [by rewrite andb_true_r|]. rewrite andb_false_r. symmetry.
    rewrite <- (Z.mod_small x (2 ^ n)) by done. apply Z.mod_pow2_bits_high. lia.
  - rewrite Z.shiftl_spec_low by lia. by rewrite andb_false_r.
Qed.

(** ** Well-formed values *)

Definition ip_ok (ip : ip_address) : Prop := 0 <= ip_int ip < 2 ^ max_prefixlen (ip_v6 ip).

(** The number of host bits. *)
Definition host_bits (net : ip_network) : Z := max_prefixlen (net_v6 net) - net_prefixlen net.

Record net_ok (net : ip_network) : Prop := {
  ok_address : ip_ok (network_address net);
  ok_prefixlen : 0 <= net_prefixlen net <= max_prefixlen (net_v6 net);
  ok_masked : ip_int (network_address net) mod 2 ^ host_bits net = 0;
}.

Lemma host_bits_nonneg net : net_ok net -> 0 <= host_bits net.
Proof. intros H. unfold host_bits. pose proof (ok_prefixlen net H). lia. Qed.

(** Membership is sharing the prefix. *)
Lemma in_network_iff ip net : ip_ok ip -> net_ok net ->
  in_network ip net = true <->
  ip_v6 ip = net_v6 net /\ ip_int ip / 2 ^ host_bits net = ip_int (network_address net) / 2 ^ host_bits net.
Proof.
  intros Hip Hnet. unfold in_network. rewrite andb_true_iff, eqb_true_iff, Z.eqb_eq.
  pose proof (host_bits_nonneg net Hnet) as Hk. pose proof (Z.pow_pos_nonneg 2 (host_bits net) eq_refl Hk) as Hpow.
  pose proof (Z_div_exact_full_2 _ (2 ^ host_bits net) ltac:(lia) (ok_masked net Hnet)) as Ha.
  split; intros [Hv H]; (split; [done|]).
  - unfold ip_ok in Hip. rewrite Hv in Hip. unfold net_mask in H. rewrite land_netmask in H by (try apply ok_prefixlen; done).
    fold (host_bits net) in H. nia.
  - unfold ip_ok in Hip. rewrite Hv in Hip. unfold net_mask. rewrite land_netmask by (try apply ok_prefixlen; done).
    fold (host_bits net). nia.
Qed.

Lemma broadcast_int net : net_ok net ->
  ip_int (broadcast_address net) = ip_int (network_address net) + 2 ^ host_bits net - 1.
Proof.
  intros Hnet. unfold broadcast_address. cbn [ip_int]. rewrite hostmask_ones by apply Hnet. fold (host_bits net).
  pose proof (host_bits_nonneg net Hnet) as Hk.
  assert (Hz : Z.land (ip_int (network_address net)) (Z.ones (host_bits net)) = 0).
  { rewrite Z.land_ones by done. apply Hnet. }
  rewrite <- Z.lxor_lor, <- Z.add_nocarry_lxor by done. rewrite Z.ones_equiv. lia.
Qed.

(** A network is an interval. *)
Lemma in_network_range ip net : ip_ok ip -> net_ok net ->
  in_network ip net = true <->
  ip_v6 ip = net_v6 net /\ ip_int (network_address net) <= ip_int ip <= ip_int (broadcast_address net).
Proof.
  intros Hip Hnet. rewrite in_network_iff, broadcast_int by done.
  pose proof (host_bits_nonneg net Hnet) as Hk. pose proof (Z.pow_pos_nonneg 2 (host_bits net) eq_refl Hk) as Hpow.
  pose proof (Z_div_exact_full_2 _ (2 ^ host_bits net) ltac:(lia) (ok_masked net Hnet)) as Ha.
  set (m := 2 ^ host_bits net) in *. set (a := ip_int (network_address net)) in *. set (x := ip_int ip) in *.
  assert (x / m = a / m <-> a <= x <= a + m - 1) as ->; [|done].
  pose proof (Z.div_mod x m ltac:(lia)) as Hx. pose proof (Z.mod_pos_bound x m Hpow). split.
  - intros E. rewrite E in Hx. lia.
  - intros [H1 H2]. symmetry. apply (Z.div_unique x m (a / m) (x - a)); lia.
Qed.

Lemma in_network_self net : net_ok net -> in_network (network_address net) net = true.
Proof. intros Hnet. apply in_network_iff; [apply Hnet|done|]. by split. Qed.

(** [subnet_of] is inclusion. *)
Lemma subnet_of_sound a b ip : net_ok a -> net_ok b -> ip_ok ip ->
  subnet_of a b = Ok true -> in_network ip a = true -> in_network ip b = true.
Proof.
  intros Ha Hb Hip Hs Hin. unfold subnet_of in Hs. guard_ok Hs. simpl_bool.
  assert (Hle : ip_le (network_address b) (network_address a) = true /\ ip_ge (broadcast_address b) (broadcast_address a) = true)
    by (injection Hs as Hs; by apply andb_true_iff in Hs).
  destruct Hle as [Hlo Hhi]. match goal with E : Bool.eqb _ _ = true |- _ => pose proof (eqb_prop _ _ E) as Hv end.
  apply in_network_range in Hin as [Hv' Hr]; [|done..]. apply in_network_range; [done..|].
  split; [congruence|]. unfold ip_le in Hlo. unfold ip_ge in Hhi. apply negb_true_iff, Z.ltb_ge in Hhi.
  apply orb_true_iff in Hlo as [Hlo%Z.ltb_lt|Hlo%eqb_true]; [lia|]. rewrite Hlo. lia.
Qed.

(** Networks share an address only if one holds the first address of the other. *)
Lemma overlaps_sound a b ip : net_ok a -> net_ok b -> ip_ok ip ->
  in_network ip a = true -> in_network ip b = true -> overlaps a b = true.
Proof.
  intros Ha Hb Hip Hia Hib. unfold overlaps.
  apply in_network_iff in Hia as [Va Ea]; [|done..]. apply in_network_iff in Hib as [Vb Eb]; [|done..].
  assert (Hcoarse : forall x y m n, 0 <= m -> m <= n -> x / 2 ^ m = y / 2 ^ m -> x / 2 ^ n = y / 2 ^ n).
  { intros x y m n Hm Hmn E. assert (Hs : forall z, z / 2 ^ n = z / 2 ^ m / 2 ^ (n - m)).
    { intros z. rewrite Z.div_div, <- Z.pow_add_r by (try apply Z.pow_pos_nonneg; try apply Z.pow_nonzero; lia).
      do 2 f_equal. lia. }
    by rewrite !Hs, E. }
  pose proof (host_bits_nonneg a Ha) as Ka. pose proof (host_bits_nonneg b Hb) as Kb.
  destruct (Z.le_ge_cases (host_bits a) (host_bits b)) as [Hle|Hle].
  - assert (in_network (network_address a) b = true) as ->; [|by rewrite orb_true_r].
    apply in_network_iff; [apply Ha|done|]. split; [unfold net_v6 in *; congruence|].
    rewrite <- Eb. symmetry. exact (Hcoarse _ _ _ _ Ka Hle Ea).
  - assert (in_network (network_address b) a = true) as ->; [|done].
    apply in_network_iff; [apply Hb|done|]. split; [unfold net_v6 in *; congruence|].
    rewrite <- Ea. symmetry. exact (Hcoarse _ _ _ _ Kb Hle Eb).
Qed.

(** ** Parsing yields well-formed values *)

Lemma lor_shiftl a b k : 0 <= k -> 0 <= a -> 0 <= b < 2 ^ k -> Z.lor (Z.shiftl a k) b = a * 2 ^ k + b.
Proof.
  intros Hk Ha Hb. rewrite Z.shiftl_mul_pow2 by done. rewrite <- Z.lxor_lor, <- Z.add_nocarry_lxor; [done|..].
  all: apply Z.bits_inj'; intros i Hi; rewrite Z.land_spec, Z.bits_0; destruct (Z.lt_ge_cases i k).
  1,3: rewrite Z.mul_pow2_bits_low by done; done.
  all: rewrite <- (Z.mod_small b (2 ^ k)), (Z.mod_pow2_bits_high b) by lia; by rewrite andb_false_r.
Qed.

Lemma hex_number_range s acc : 0 <= acc -> string_all is_hex_digit s = true ->
  acc * 16 ^ slen s <= hex_number s acc < (acc + 1) * 16 ^ slen s.
Proof.
  revert acc. induction s as [|c s IH]; intros acc Hacc Hs; [unfold slen; simpl; lia|].
  cbn [string_all] in Hs. apply andb_true_iff in Hs as [Hc Hs]. cbn [hex_number].
  assert (Hv : 0 <= hex_digit_value c < 16).
  { unfold is_hex_digit in Hc. unfold hex_digit_value, is_ascii_digit in *.
    destruct ((48 <=? code c) && (code c <=? 57)) eqn:E; simpl_bool; [lia|].
    simpl in Hc. apply orb_true_iff in Hc. destruct (code c <=? 70) eqn:E2; simpl_bool; destruct Hc; simpl_bool; lia. }
  specialize (IH (16 * acc + hex_digit_value c) ltac:(lia) Hs).
  replace (slen (String c s)) with (slen s + 1) by (unfold slen; simpl; lia).
  pose proof (slen_nonneg s). rewrite Z.pow_add_r by lia.
  pose proof (Z.pow_pos_nonneg 16 (slen s) eq_refl ltac:(lia)). nia.
Qed.

Lemma parse_hextet_range s h : parse_hextet s = Some h -> 0 <= h < 65536.
Proof.
  unfold parse_hextet. destruct (s == "") eqn:E; [done|]. destruct (string_all is_hex_digit s) eqn:Hs; [|done].
  destruct (4 <? slen s) eqn:Hl; [done|]. simpl. intros [= <-]. simpl_bool.
  pose proof (hex_number_range s 0 ltac:(lia) Hs). pose proof (slen_nonneg s).
  pose proof (Z.pow_le_mono_r 16 (slen s) 4 eq_refl Hl). lia.
Qed.

Lemma parse_hextets_range parts : forall acc n k,
  parse_hextets acc parts = Some n -> 0 <= k -> 0 <= acc < 2 ^ k -> 0 <= n < 2 ^ (k + 16 * Z.of_nat (length parts)).
Proof.
  induction parts as [|p parts IH]; intros acc n k Hp Hk Hacc; cbn [parse_hextets] in Hp.
  - injection Hp as ->. change (16 * Z.of_nat (length [])) with 0. rewrite Z.add_0_r. exact Hacc.
  - destruct (parse_hextet p) as [h|] eqn:Eh; [|done]. apply parse_hextet_range in Eh.
    rewrite lor_shiftl in Hp by lia. eapply (IH _ _ (k + 16)) in Hp; [|lia|].
    + replace (k + 16 + 16 * Z.of_nat (length parts)) with (k + 16 * Z.of_nat (length (p :: parts))) in Hp by (simpl length; lia).
      done.
    + rewrite Z.pow_add_r by lia. nia.
Qed.

Lemma part_counts_total parts hi lo skipped :
  part_counts parts = Some (hi, lo, skipped) -> (length parts <= 9)%nat -> (hi + skipped + lo = 8)%nat /\ (lo <= length parts)%nat.
Proof.
  unfold part_counts. destruct (find_skip 1 (tl parts) None) as [[skip|]|]; [| |done].
  - set (fe := match parts with p :: _ => p == "" | [] => true end).
    set (le := match rev parts with p :: _ => p == "" | [] => true end).
    destruct (fe && _) eqn:E1; [done|]. destruct (le && _) eqn:E2; [done|].
    destruct (Nat.ltb _ HEXTET_COUNT) eqn:E3; [|done]. intros [= <- <- <-] Hl. apply Nat.ltb_lt in E3.
    unfold HEXTET_COUNT in *. split; [lia|]. destruct le; lia.
  - destruct (negb (Nat.eqb (length parts) HEXTET_COUNT)) eqn:E; [done|]. simpl.
    destruct (match parts with p :: _ => p == "" | [] => true end || _); [done|].
    intros [= <- <- <-] _. apply negb_false_iff, Nat.eqb_eq in E. unfold HEXTET_COUNT in E. lia.
Qed.

Lemma ipv6_int_range s n : ipv6_int s = Some n -> 0 <= n < 2 ^ 128.
Proof.
  unfold ipv6_int. destruct (Nat.ltb _ 3); [done|]. destruct (expand_ipv4 _) as [parts|]; [|done].
  destruct (Nat.ltb (HEXTET_COUNT + 1) (length parts)) eqn:El; [done|]. apply Nat.ltb_ge in El.
  destruct (part_counts parts) as [[[hi lo] skipped]|] eqn:Ec; [|done].
  apply part_counts_total in Ec as [Htot Hlo]; [|unfold HEXTET_COUNT in El; lia].
  destruct (parse_hextets 0 (firstn hi parts)) as [m|] eqn:Em; [|done]. intros Hn.
  apply (parse_hextets_range _ 0 m 0) in Em; [|lia|simpl; lia].
  assert (Hm : 0 <= m < 2 ^ (16 * Z.of_nat hi)).
  { split; [lia|]. eapply Z.lt_le_trans; [apply Em|]. apply Z.pow_le_mono_r; [lia|].
    pose proof (firstn_le_length hi parts). lia. }
  eapply (parse_hextets_range _ _ _ (16 * Z.of_nat hi + 16 * Z.of_nat skipped)) in Hn; [|lia|].
  - rewrite length_skipn in Hn. replace (length parts - (length parts - lo))%nat with lo in Hn by lia.
    replace (16 * Z.of_nat hi + 16 * Z.of_nat skipped + 16 * Z.of_nat lo) with 128 in Hn by lia. done.
  - rewrite Z.shiftl_mul_pow2, Z.pow_add_r by lia.
    pose proof (Z.pow_pos_nonneg 2 (16 * Z.of_nat skipped) eq_refl ltac:(lia)). nia.
Qed.

Lemma digits_value_nonneg s acc : string_all is_ascii_digit s = true -> 0 <= acc -> 0 <= digits_value s acc.
Proof.
  revert acc. induction s as [|c s IH]; intros acc Hs Hacc; [done|]. cbn [string_all] in Hs.
  apply andb_true_iff in Hs as [Hc Hs]. cbn [digits_value]. apply IH; [done|]. unfold is_ascii_digit in Hc. simpl_bool. lia.
Qed.

Lemma parse_octet_range s n : parse_octet s = Some n -> 0 <= n < 256.
Proof.
  unfold parse_octet, ascii_digits. destruct (negb (s == "") && string_all is_ascii_digit s) eqn:E; [|done]. cbn [negb].
  destruct (3 <? slen s); [done|]. destruct (_ && startswith "0" s); [done|].
  destruct (255 <? digits_value s 0) eqn:Ev; [done|]. intros [= <-]. simpl_bool.
  pose proof (digits_value_nonneg s 0 ltac:(done) ltac:(lia)). lia.
Qed.

Lemma ipv4_int_range s n : ipv4_int s = Some n -> 0 <= n < 2 ^ 32.
Proof.
  unfold ipv4_int. destruct (split_char "." s) as [|a [|b [|c [|d []]]]]; try done.
  destruct (parse_octet a) as [va|] eqn:Ea, (parse_octet b) as [vb|] eqn:Eb, (parse_octet c) as [vc|] eqn:Ec,
    (parse_octet d) as [vd|] eqn:Ed; try done.
  apply parse_octet_range in Ea, Eb, Ec, Ed. intros [= <-]. rewrite (lor_shiftl va vb), (lor_shiftl _ vc), (lor_shiftl _ vd) by lia. lia.
Qed.

Lemma parse_ip_address_ok s ip : parse_ip_address s = Some ip -> ip_ok ip.
Proof.
  unfold parse_ip_address, IPv4Address, IPv6Address, ip_ok.
  destruct (contains "/" s); [done|]. destruct (ipv4_int s) as [n|] eqn:E; simpl.
  - intros [= <-]. by apply ipv4_int_range in E.
  - destruct (partition "%" s) as [[addr sep] zone]. destruct (sep && _); [done|].
    destruct (ipv6_int addr) as [n|] eqn:E6; [|done]. simpl. intros [= <-]. by apply ipv6_int_range in E6.
Qed.

Lemma make_network_ok ip p : ip_ok ip -> 0 <= p <= max_prefixlen (ip_v6 ip) -> net_ok (make_network ip p).
Proof.
  intros Hip Hp. unfold make_network. set (mask := netmask_int (ip_v6 ip) p).
  assert (Hm : Z.land (ip_int ip) mask = ip_int ip / 2 ^ (max_prefixlen (ip_v6 ip) - p) * 2 ^ (max_prefixlen (ip_v6 ip) - p))
    by (by apply land_netmask).
  set (k := max_prefixlen (ip_v6 ip) - p) in *. assert (Hk : 0 <= k) by lia.
  pose proof (Z.pow_pos_nonneg 2 k eq_refl Hk) as Hpow.
  destruct (Z.land (ip_int ip) mask =? ip_int ip) eqn:E.
  - apply Z.eqb_eq in E. constructor; simpl; [done|done|]. unfold host_bits, net_v6. simpl. fold k.
    rewrite <- E, Hm. apply Z.mod_mul. lia.
  - constructor; unfold ip_ok, host_bits, net_v6 in *; simpl; [|done|fold k; rewrite Hm; apply Z.mod_mul; lia].
    rewrite Hm. pose proof (Z.mul_div_le (ip_int ip) (2 ^ k) Hpow). pose proof (Z.div_pos (ip_int ip) (2 ^ k)). nia.
Qed.

Lemma prefix_of_digits_range v6 s n : prefix_of_digits v6 s = Some n -> 0 <= n <= max_prefixlen v6.
Proof.
  unfold prefix_of_digits, ascii_digits. destruct (negb (s == "") && string_all is_ascii_digit s) eqn:E; [|done].
  destruct (digits_value s 0 <=? max_prefixlen v6) eqn:El; [|done]. intros [= <-]. simpl_bool.
  pose proof (digits_value_nonneg s 0 ltac:(done) ltac:(lia)). lia.
Qed.

Lemma righthand_zeros_range fuel n : 0 <= righthand_zeros fuel n <= Z.of_nat fuel.
Proof.
  revert n. induction fuel as [|fuel IH]; intros n; [done|]. cbn [righthand_zeros].
  destruct (Z.testbit n 0); [lia|]. specialize (IH (Z.shiftr n 1)). lia.
Qed.

Lemma prefix_of_mask_range n p : prefix_of_mask n = Some p -> 0 <= p <= 32.
Proof.
  unfold prefix_of_mask. pose proof (righthand_zeros_range 32 n) as Hr. revert Hr. generalize (righthand_zeros 32 n) as t.
  intros t Hr. destruct (_ =? _); [|done]. intros [= <-]. lia.
Qed.

Lemma parse_ip_network_ok s net : parse_ip_network s = Some net -> net_ok net.
Proof.
  unfold parse_ip_network, IPv4Network, IPv6Network. destruct (split_char "/" s) as [|addr [|mask []]]; try done.
  assert (H6 : match IPv6Address addr, prefix_of_digits true mask with
               | Some ip, Some n => Some (make_network ip n) | _, _ => None end = Some net -> net_ok net).
  { unfold IPv6Address. destruct (contains "/" addr); [done|]. destruct (partition "%" addr) as [[a sep] zone].
    destruct (sep && _); [done|]. destruct (ipv6_int a) as [n|] eqn:E; [|done]. simpl.
    destruct (prefix_of_digits true mask) as [p|] eqn:Ep; [|done]. intros [= <-]. apply make_network_ok.
    - by apply ipv6_int_range in E.
    - by apply prefix_of_digits_range in Ep. }
  unfold IPv4Address. destruct (contains "/" addr); [exact H6|]. destruct (ipv4_int addr) as [n|] eqn:E; [|exact H6]. simpl.
  destruct (ipv4_prefix mask) as [p|] eqn:Ep; [|exact H6]. intros [= <-]. apply make_network_ok; [by apply ipv4_int_range in E|].
  simpl. unfold ipv4_prefix in Ep. destruct (prefix_of_digits false mask) as [q|] eqn:Eq.
  - injection Ep as <-. by apply prefix_of_digits_range in Eq.
  - destruct (ipv4_int mask) as [q|]; [|done]. destruct (prefix_of_mask q) as [r|] eqn:Er.
    + injection Ep as <-. by apply prefix_of_mask_range in Er.
    + by apply prefix_of_mask_range in Ep.
Qed.
