(* ===== verification/ScopeGuard.v ===== *)
(** * The scope guard

    [src/cops/execution/scope_guard.py]: the scope of an engagement and the checks
    of destinations against it.  Sets are lists used only for membership; name
    resolution is an argument. *)

From S2P Require Import Prelude PyStr Json Timestamp Schema PyIp PyUrl.

Definition METADATA_ADDRESSES : list string := ["169.254.169.254"; "fd00:ec2::254"; "100.100.100.200"].

Inductive ip_target := Address (ip : ip_address) | Network (net : ip_network).

Definition parse_ip_or_network (target : string) : option ip_target :=
  let target := strip target in
  if contains "/" target then Network <$> parse_ip_network target else Address <$> parse_ip_address target.

Definition is_ip_in_network (ip : ip_address) (net : ip_network) : bool :=
  if negb (Bool.eqb (ip_v6 ip) (net_v6 net)) then false else in_network ip net.

(** ** Scopes *)

Record ScopeDefinition := {
  included_networks : list ip_network; included_ips : list ip_address;
  included_domains : list string; included_cloud_resources : list string;
  excluded_networks : list ip_network; excluded_ips : list ip_address;
  excluded_domains : list string; excluded_cloud_resources : list string;
  block_cloud_metadata : bool; block_loopback_unless_explicit : bool; egress_allowed : bool
}.

(** [for item in v]. *)
Definition iter_items (v : json) : res (list json) :=
  match v with
  | JList xs => Ok xs
  | JStr s => Ok (map (fun c => JStr (String c "")) (String.list_ascii_of_string s))
  | JObj items => Ok (map (fun kv => JStr (fst kv)) items)
  | _ => raise TypeError "not iterable"
  end.

(** The networks, addresses, domains and resources of a list of targets. *)
Record Targets := {
  tg_networks : list ip_network; tg_ips : list ip_address; tg_domains : list string; tg_resources : list string
}.

Definition no_targets : Targets := {| tg_networks := []; tg_ips := []; tg_domains := []; tg_resources := [] |}.

Definition add_target (t : Targets) (item : string) : Targets :=
  match parse_ip_or_network item with
  | Some (Network net) =>
      {| tg_networks := tg_networks t ++ [net]; tg_ips := tg_ips t; tg_domains := tg_domains t; tg_resources := tg_resources t |}
  | Some (Address ip) =>
      {| tg_networks := tg_networks t; tg_ips := tg_ips t ++ [ip]; tg_domains := tg_domains t; tg_resources := tg_resources t |}
  | None =>
      if contains "/" item || contains ":" item then
        {| tg_networks := tg_networks t; tg_ips := tg_ips t; tg_domains := tg_domains t;
           tg_resources := tg_resources t ++ [lower item] |}
      else
        {| tg_networks := tg_networks t; tg_ips := tg_ips t; tg_domains := tg_domains t ++ [lstrip_char "." (lower item)];
           tg_resources := tg_resources t |}
  end.

Fixpoint parse_targets (t : Targets) (items : list json) : res Targets :=
  match items with
  | [] => Ok t
  | JStr item :: items' => parse_targets (add_target t item) items'
  | _ :: _ => raise AttributeError "strip"
  end.

Definition from_engagement_scope (scope_dict : json) (egress_allowed : bool) : res ScopeDefinition :=
  let? included := dict_get "included_targets" scope_dict (JList []) in
  let? excluded := dict_get "excluded_targets" scope_dict (JList []) in
  let? inc := let? items := iter_items included in parse_targets no_targets items in
  let? exc := let? items := iter_items excluded in parse_targets no_targets items in
  Ok {| included_networks := tg_networks inc; included_ips := tg_ips inc; included_domains := tg_domains inc;
        included_cloud_resources := tg_resources inc; excluded_networks := tg_networks exc;
        excluded_ips := tg_ips exc; excluded_domains := tg_domains exc; excluded_cloud_resources := tg_resources exc;
        block_cloud_metadata := true; block_loopback_unless_explicit := true; egress_allowed := egress_allowed |}.

(** ** Checks *)

Section Guard.
Variable scope : ScopeDefinition.

(** [resolver(host)]. *)
Variable resolver : string -> res (list string).

Definition violation {A} (m : string) : res A := raise ScopeViolationError m.

(** The address an IPv4-mapped IPv6 address stands for. *)
Definition unmap (ip : ip_address) : ip_address := default ip (ipv4_mapped ip).

Definition _validate_ip (ip : ip_address) : res unit :=
  let ip := unmap ip in
  raise_if block_cloud_metadata scope && mem (ip_text ip) METADATA_ADDRESSES
    as ScopeViolationError msg "cloud metadata service" ;;
  raise_if block_loopback_unless_explicit scope && is_loopback ip && negb (mem ip (included_ips scope)) &&
           negb (existsb (is_ip_in_network ip) (included_networks scope))
    as ScopeViolationError msg "loopback address" ;;
  raise_if mem ip (excluded_ips scope) as ScopeViolationError msg "explicitly excluded" ;;
  raise_if existsb (is_ip_in_network ip) (excluded_networks scope) as ScopeViolationError msg "excluded subnet" ;;
  if mem ip (included_ips scope) then Ok tt
  else if existsb (is_ip_in_network ip) (included_networks scope) then Ok tt
  else violation "NOT within authorized scope".

(** The body of the loop over the metadata addresses, inside its [try]. *)
Definition metadata_guard (net : ip_network) (meta_ip_str : string) : res unit :=
  catch is_value_error
    (match parse_ip_address meta_ip_str with
     | None => raise ValueError "address"
     | Some meta_ip =>
         raise_if Bool.eqb (ip_v6 meta_ip) (net_v6 net) && in_network meta_ip net
           as ScopeViolationError msg "covers cloud metadata service" ;; Ok tt
     end)
    (fun _ => Ok tt).

(** [for inc_net in included_networks: if net.subnet_of(inc_net): return]. *)
Fixpoint within_included (net : ip_network) (nets : list ip_network) : res unit :=
  match nets with
  | [] => violation "NOT within authorized scope"
  | inc_net :: nets' => let? b := subnet_of net inc_net in if b then Ok tt else within_included net nets'
  end.

Definition _validate_network (net : ip_network) : res unit :=
  for_each METADATA_ADDRESSES (metadata_guard net) ;;?
  (if block_loopback_unless_explicit scope && network_is_loopback net then
     let? explicit := res_any (subnet_of net) (List.filter (fun n => Bool.eqb (net_v6 n) (net_v6 net)) (included_networks scope)) in
     raise_if negb explicit as ScopeViolationError msg "loopback network" ;; Ok tt
   else Ok tt) ;;?
  raise_if existsb (fun ip => Bool.eqb (ip_v6 ip) (net_v6 net) && in_network ip net) (excluded_ips scope)
    as ScopeViolationError msg "covers excluded IP" ;;
  raise_if existsb (overlaps net) (excluded_networks scope) as ScopeViolationError msg "overlaps with excluded subnet" ;;
  within_included net (included_networks scope).

(** [domain == d or domain.endswith("." + d)] for some [d]. *)
Definition domain_matches (domain : string) (domains : list string) : bool :=
  mem domain domains || existsb (fun d => endswith ("." +:+ d) domain) domains.

Definition _matches_resource (t prefix : string) : bool :=
  let tl := lower t in
  let pl := lower prefix in
  if tl == pl then true
  else
    match strip_prefix pl tl with
    | Some (String c _) => mem c ["/"%char; ":"%char; "."%char; "-"%char]
    | _ => false
    end.

(** The addresses of an answer, each one validated. *)
Fixpoint validate_answers (addresses : list string) : res (list ip_address) :=
  match addresses with
  | [] => Ok []
  | ip_str :: addresses' =>
      match parse_ip_or_network ip_str with
      | Some (Address ip) =>
          let ip := unmap ip in
          _validate_ip ip ;;?
          let? ips := validate_answers addresses' in Ok (ip :: ips)
      | _ => violation "Resolver returned a non-address value"
      end
  end.

Definition check_resolved_destination (host : string) (addresses : list string) : res unit :=
  let domain_clean := lstrip_char "." (rstrip_char "." (lower host)) in
  raise_if domain_clean == "" as ScopeViolationError msg "Empty destination hostname" ;;
  let literal := parse_ip_or_network domain_clean in
  raise_if match literal with Some (Address _) => false | _ => domain_matches domain_clean (excluded_domains scope) end
    as ScopeViolationError msg "explicitly excluded scope" ;;
  raise_if addresses == [] as ScopeViolationError msg "did not resolve to an address" ;;
  let? resolved_addresses := validate_answers addresses in
  match literal with
  | Some (Address ip) =>
      raise_if negb (forallb (fun a => a == unmap ip) resolved_addresses)
        as ScopeViolationError msg "IP literal resolution changed the requested destination" ;; Ok tt
  | _ =>
      raise_if negb (domain_matches domain_clean (included_domains scope))
        as ScopeViolationError msg "outside the included domain scope" ;; Ok tt
  end.

(** The host of a URL, of a [host:port] pair, or the destination itself. *)
Definition destination_host (dest_clean : string) : res string :=
  if contains "://" dest_clean then
    let? hostname := url_hostname dest_clean in Ok (default dest_clean hostname)
  else if contains ":" dest_clean && negb (startswith "[" dest_clean) && negb (contains "/" dest_clean) then
    match split_char ":" dest_clean with
    | [host; port] => Ok (if isdigit port then host else dest_clean)
    | _ => Ok dest_clean
    end
  else Ok dest_clean.

Definition check_destination (destination : string) : res unit :=
  let dest_clean := strip destination in
  raise_if dest_clean == "" as ScopeViolationError msg "Empty destination target" ;;
  let? host := destination_host dest_clean in
  raise_if existsb (_matches_resource host) (excluded_cloud_resources scope)
    as ScopeViolationError msg "explicitly excluded cloud resources" ;;
  if existsb (_matches_resource host) (included_cloud_resources scope) then Ok tt
  else
    match parse_ip_or_network host with
    | Some (Address ip) => _validate_ip ip
    | Some (Network net) => _validate_network net
    | None =>
        let domain_clean := lstrip_char "." (lower host) in
        raise_if domain_matches domain_clean (excluded_domains scope)
          as ScopeViolationError msg "explicitly excluded scope" ;;
        let? resolved_ips := resolver domain_clean in
        if resolved_ips == [] then
          raise_if negb (domain_matches domain_clean (included_domains scope))
            as ScopeViolationError msg "neither resolvable nor in allowed domain scope" ;; Ok tt
        else check_resolved_destination domain_clean resolved_ips
    end.
End Guard.
