(* ===== verification/ScopeGuardProps.v ===== *)
(** * The scope guard: properties

    What an accepted destination is: the checks decide membership in sets of
    addresses and names, exclusions take precedence, and every address of a resolver's
    answer is judged. *)

From S2P Require Import Prelude PyStr Json Timestamp Schema PyIp PyIpFacts ScopeGuard.

(** ** Scopes and targets *)

(** The networks of a scope are well formed, as those parsed from an engagement are. *)
Record scope_ok (scope : ScopeDefinition) : Prop := {
  included_ok : Forall net_ok (included_networks scope);
  excluded_ok : Forall net_ok (excluded_networks scope);
  included_ips_ok : Forall ip_ok (included_ips scope);
  excluded_ips_ok : Forall ip_ok (excluded_ips scope);
}.

Lemma parse_ip_or_network_ok s t : parse_ip_or_network s = Some t ->
  match t with Address ip => ip_ok ip | Network net => net_ok net end.
Proof.
  unfold parse_ip_or_network. destruct (contains "/" (strip s)).
  - destruct (parse_ip_network (strip s)) as [net|] eqn:E; [|done]. intros [= <-]. by eapply parse_ip_network_ok.
  - destruct (parse_ip_address (strip s)) as [ip|] eqn:E; [|done]. intros [= <-]. by eapply parse_ip_address_ok.
Qed.

Definition targets_ok (t : Targets) : Prop := Forall net_ok (tg_networks t) /\ Forall ip_ok (tg_ips t).

Lemma parse_targets_ok items : forall t t', targets_ok t -> parse_targets t items = Ok t' -> targets_ok t'.
Proof.
  induction items as [|item items IH]; intros t t' Ht Hp; cbn [parse_targets] in Hp; [by injection Hp as <-|].
  destruct item as [| | | |s| |]; try done. apply (IH _ _) in Hp; [done|]. destruct Ht as [Hn Hi]. unfold add_target.
  destruct (parse_ip_or_network s) as [[ip|net]|] eqn:E.
  - apply parse_ip_or_network_ok in E. split; simpl; [done|]. apply Forall_app_2; [done|]. by apply Forall_singleton.
  - apply parse_ip_or_network_ok in E. split; simpl; [|done]. apply Forall_app_2; [done|]. by apply Forall_singleton.
  - by destruct (_ || _).
Qed.

Lemma from_engagement_scope_ok scope_dict egress scope :
  from_engagement_scope scope_dict egress = Ok scope -> scope_ok scope.
Proof.
  unfold from_engagement_scope. intros H. apply res_bind_ok in H as (inc & _ & H). apply res_bind_ok in H as (exc & _ & H).
  apply res_bind_ok in H as (ti & Hi & H). apply res_bind_ok in H as (te & He & H). injection H as <-.
  apply res_bind_ok in Hi as (items & _ & Hi). apply res_bind_ok in He as (items' & _ & He).
  assert (Hno : targets_ok no_targets) by (by split; constructor).
  apply parse_targets_ok in Hi as [? ?]; [|done]. apply parse_targets_ok in He as [? ?]; [|done]. by constructor.
Qed.

Lemma mapped_ok ip ip' : ipv4_mapped ip = Some ip' -> ip_ok ip' /\ ipv4_mapped ip' = None.
Proof.
  unfold ipv4_mapped. destruct (ip_v6 ip && _); [|done]. intros [= <-]. split; [|done]. unfold ip_ok, ipv4. cbn [ip_int ip_v6].
  change 4294967295 with (Z.ones 32). rewrite Z.land_ones by done. by apply Z.mod_pos_bound.
Qed.

Lemma unmap_ok ip : ip_ok ip -> ip_ok (unmap ip).
Proof. intros Hip. unfold unmap. destruct (ipv4_mapped ip) as [ip'|] eqn:E; [by apply mapped_ok in E as [? _]|done]. Qed.

Lemma unmap_idemp ip : unmap (unmap ip) = unmap ip.
Proof.
  unfold unmap. destruct (ipv4_mapped ip) as [ip'|] eqn:E; simpl; [|by rewrite E].
  apply mapped_ok in E as [_ ->]. done.
Qed.

Lemma is_ip_in_network_eq ip net : is_ip_in_network ip net = in_network ip net.
Proof. unfold is_ip_in_network, in_network. by destruct (Bool.eqb (ip_v6 ip) (net_v6 net)). Qed.

(** ** Addresses *)

(** What the guard promises of an address: included, not excluded, not a metadata
    service.  The address is the IPv4 one when it is IPv4-mapped. *)
Record authorized_ip (scope : ScopeDefinition) (ip : ip_address) : Prop := {
  not_metadata : block_cloud_metadata scope = true -> ~ In (ip_text ip) METADATA_ADDRESSES;
  not_excluded_ip : ~ In ip (excluded_ips scope);
  not_excluded_net : forall net, In net (excluded_networks scope) -> in_network ip net = false;
  included_somewhere : In ip (included_ips scope) \/ exists net, In net (included_networks scope) /\ in_network ip net = true;
}.

Lemma existsb_in_network ip nets :
  existsb (is_ip_in_network ip) nets = true <-> exists net, In net nets /\ in_network ip net = true.
Proof.
  rewrite existsb_exists. split; intros (net & Hin & H); exists net; (split; [done|]);
    by rewrite is_ip_in_network_eq in *.
Qed.

Lemma validate_ip_iff scope ip : _validate_ip scope ip = Ok tt <-> authorized_ip scope (unmap ip).
Proof.
  unfold _validate_ip. set (a := unmap ip). split.
  - intros Hv. guard_ok Hv. guard_ok Hv. guard_ok Hv. guard_ok Hv. rename Heqb into Hmeta, Heqb1 into Hip, Heqb2 into Hnet.
    constructor.
    + intros Hb. rewrite Hb in Hmeta. by apply mem_not_In.
    + by apply mem_not_In.
    + intros net Hin. rewrite <- is_ip_in_network_eq. by apply (proj1 (existsb_false _ _) Hnet).
    + destruct (mem a (included_ips scope)) eqn:Ei; [left; by apply mem_In|]. right.
      destruct (existsb (is_ip_in_network a) (included_networks scope)) eqn:En; [|done]. by apply existsb_in_network.
  - intros [Hm Hx Hn Hi]. assert (block_cloud_metadata scope && mem (ip_text a) METADATA_ADDRESSES = false) as ->.
    { destruct (block_cloud_metadata scope); [|done]. by apply mem_not_In, Hm. }
    assert (Hinc : mem a (included_ips scope) = true \/ existsb (is_ip_in_network a) (included_networks scope) = true).
    { destruct Hi as [Hi|Hi]; [left; by apply mem_In|right; by apply existsb_in_network]. }
    assert (block_loopback_unless_explicit scope && is_loopback a && negb (mem a (included_ips scope)) &&
            negb (existsb (is_ip_in_network a) (included_networks scope)) = false) as ->.
    { destruct Hinc as [-> | ->]; simpl; rewrite ?andb_false_r; done. }
    assert (mem a (excluded_ips scope) = false) as -> by (by apply mem_not_In).
    assert (existsb (is_ip_in_network a) (excluded_networks scope) = false) as ->.
    { apply existsb_false. intros net Hin. rewrite is_ip_in_network_eq. by apply Hn. }
    destruct Hinc as [-> | ->]; [done|]. by destruct (mem a (included_ips scope)).
Qed.

(** ** Networks *)

Lemma within_included_ok net nets : within_included net nets = Ok tt ->
  exists inc, In inc nets /\ subnet_of net inc = Ok true.
Proof.
  induction nets as [|n nets IH]; cbn [within_included]; [done|]. intros H. apply res_bind_ok in H as (b & Hb & H).
  destruct b; [exists n; split; [by left|done]|]. destruct (IH H) as (inc & Hin & Hs). exists inc. split; [by right|done].
Qed.

(** The metadata guard of networks never rejects: its own exception is a
    [ValueError], which its handler swallows. *)
Lemma metadata_guard_inert net : for_each METADATA_ADDRESSES (metadata_guard net) = Ok tt.
Proof.
  apply for_each_ok. apply Forall_forall. intros s _. unfold metadata_guard.
  destruct (parse_ip_address s) as [ip|]; [|done]. by destruct (_ && _).
Qed.

Lemma validate_network_ok scope net : _validate_network scope net = Ok tt ->
  (forall e, In e (excluded_ips scope) -> in_network e net = false) /\
  (forall e, In e (excluded_networks scope) -> overlaps net e = false) /\
  exists inc, In inc (included_networks scope) /\ subnet_of net inc = Ok true.
Proof.
  unfold _validate_network. rewrite metadata_guard_inert. cbn [res_bind]. intros Hv.
  apply res_bind_ok in Hv as (_ & _ & Hv). guard_ok Hv. guard_ok Hv. rename Heqb into Hip, Heqb0 into Hnet.
  split; [|split; [|by apply within_included_ok]].
  - intros e He. pose proof (proj1 (existsb_false _ _) Hip e He) as H. simpl in H. unfold in_network in *.
    by destruct (Bool.eqb (ip_v6 e) (net_v6 net)).
  - intros e He. by apply (proj1 (existsb_false _ _) Hnet).
Qed.

(** C12. An accepted network lies in scope address by address: every address of it is
    inside an included network, inside no excluded network and, zone aside, none of
    the excluded addresses.  Metadata addresses are not exempt: the guard against
    networks that cover them has no effect, so that a network of one address can be
    accepted where the address itself is refused. *)
Theorem accepted_network_in_scope scope net :
  scope_ok scope -> net_ok net -> _validate_network scope net = Ok tt ->
  (forall ip, ip_ok ip -> in_network ip net = true ->
     (exists inc, In inc (included_networks scope) /\ in_network ip inc = true) /\
     (forall exc, In exc (excluded_networks scope) -> in_network ip exc = false) /\
     (forall e, In e (excluded_ips scope) -> ip_v6 e = ip_v6 ip -> ip_int e <> ip_int ip)) /\
  (forall n, for_each METADATA_ADDRESSES (metadata_guard n) = Ok tt).
Proof.
  intros [Hi He _ _] Hnet (Hxi & Hxn & inc & Hin & Hsub)%validate_network_ok. split; [|exact metadata_guard_inert].
  intros ip Hip Hm. rewrite List.Forall_forall in Hi, He. split; [|split].
  - exists inc. split; [done|]. exact (subnet_of_sound net inc ip Hnet (Hi inc Hin) Hip Hsub Hm).
  - intros exc Hexc. destruct (in_network ip exc) eqn:E; [|done].
    rewrite <- (Hxn exc Hexc). symmetry. exact (overlaps_sound net exc ip Hnet (He exc Hexc) Hip Hm E).
  - intros e Hein Hv Hz. specialize (Hxi e Hein). unfold in_network in Hxi, Hm. rewrite Hv, Hz in Hxi. congruence.
Qed.

(** ** Names *)

(** What the guard promises of a name and its addresses. *)
Definition authorized_answer (scope : ScopeDefinition) (addresses : list string) : Prop :=
  addresses <> [] /\
  forall s, In s addresses -> exists ip, parse_ip_or_network s = Some (Address ip) /\ authorized_ip scope (unmap ip).

Definition clean_name (host : string) : string := lstrip_char "." (rstrip_char "." (lower host)).

Lemma validate_answers_iff scope addresses ips :
  validate_answers scope addresses = Ok ips <->
  Forall2 (fun s a => exists ip, parse_ip_or_network s = Some (Address ip) /\ a = unmap ip /\ authorized_ip scope a) addresses ips.
Proof.
  revert ips. induction addresses as [|s addresses IH]; intros ips; cbn [validate_answers].
  - split; [intros [= <-]; constructor|by inversion 1].
  - split.
    + destruct (parse_ip_or_network s) as [[ip|net]|] eqn:E; try done. intros H.
      apply res_bind_ok in H as ([] & Hv & H). apply res_bind_ok in H as (ips' & Hr & [= <-]).
      apply validate_ip_iff in Hv. rewrite unmap_idemp in Hv. constructor; [by exists ip|]. by apply IH.
    + inversion 1 as [|? a ? ips' (ip & Hp & -> & Ha) Hr]; subst. rewrite Hp.
      assert (_validate_ip scope (unmap ip) = Ok tt) as ->.
      { apply validate_ip_iff. by rewrite unmap_idemp. }
      cbn [res_bind]. by rewrite (proj2 (IH ips') Hr).
Qed.

(** C13. The check of a resolved destination is exact: it accepts a host and the
    answer of its resolution if and only if the answer is not empty, every element of it is
    an address in scope (an IPv4-mapped one being judged as the IPv4 address), and
    the host is either a literal for precisely that address or a name included
    and not excluded. *)
Theorem resolved_destination_exact scope host addresses :
  check_resolved_destination scope host addresses = Ok tt <->
  clean_name host <> "" /\ authorized_answer scope addresses /\
  match parse_ip_or_network (clean_name host) with
  | Some (Address literal) =>
      forall s ip, In s addresses -> parse_ip_or_network s = Some (Address ip) -> unmap ip = unmap literal
  | _ =>
      domain_matches (clean_name host) (excluded_domains scope) = false /\
      domain_matches (clean_name host) (included_domains scope) = true
  end.
Proof.
  unfold check_resolved_destination. fold (clean_name host). set (name := clean_name host). unfold authorized_answer.
  assert (Hans : forall ips, validate_answers scope addresses = Ok ips ->
    forall s, In s addresses -> exists ip, parse_ip_or_network s = Some (Address ip) /\ authorized_ip scope (unmap ip)).
  { intros ips Hips%validate_answers_iff. clear -Hips. induction Hips as [|s a l l' (ip & Hp & -> & Ha) _ IH]; [done|].
    intros s' [<-|Hin]; [by exists ip|by apply IH]. }
  assert (Hall : (forall s, In s addresses -> exists ip, parse_ip_or_network s = Some (Address ip) /\ authorized_ip scope (unmap ip)) ->
    exists ips, validate_answers scope addresses = Ok ips).
  { intros H. assert (exists ips, Forall2 (fun s a => exists ip, parse_ip_or_network s = Some (Address ip) /\ a = unmap ip /\
      authorized_ip scope a) addresses ips) as (ips & Hips); [|exists ips; by apply validate_answers_iff].
    clear -H. induction addresses as [|s l IH]; [by exists []|].
    destruct (H s (or_introl eq_refl)) as (ip & Hp & Ha). destruct IH as (ips & Hips); [intros; apply H; by right|].
    exists (unmap ip :: ips). constructor; [by exists ip|done]. }
  assert (Hlit : forall ips a, validate_answers scope addresses = Ok ips ->
    forallb (fun b => b == a) ips = true <->
    (forall s ip, In s addresses -> parse_ip_or_network s = Some (Address ip) -> unmap ip = a)).
  { intros ips a Hips%validate_answers_iff. clear -Hips. induction Hips as [|s b l l' (ip & Hp & -> & _) _ IH]; [by split|].
    cbn [forallb]. rewrite andb_true_iff, eqb_eq, IH. split.
    - intros [H1 H2] s' ip' [<-|Hin] Hp'; [congruence|by eapply H2].
    - intros H. split; [by eapply H; [left|]|]. intros s' ip' Hin. apply H. by right. }
  split.
  - intros Hc. guard_ok Hc. guard_ok Hc. guard_ok Hc. simpl_bool. apply res_bind_ok in Hc as (ips & Hips & Hc).
    split; [done|]. split; [split; [done|by eapply Hans]|].
    destruct (parse_ip_or_network name) as [[literal|net]|]; guard_ok Hc; simpl_bool; [|done..].
    by apply (Hlit ips).
  - intros (Hne & (Hn & H) & Hrest). destruct (Hall H) as (ips & Hips). apply eqb_neq in Hne, Hn. rewrite Hne, Hn, Hips.
    destruct (parse_ip_or_network name) as [[literal|net]|]; cbn [res_bind].
    + by rewrite (proj2 (Hlit ips _ Hips) Hrest).
    + destruct Hrest as [-> ->]. done.
    + destruct Hrest as [-> ->]. done.
Qed.

(** ** Destinations *)

(** The four ways a destination can be in scope: as a cloud resource, an address, a
    network, or a name, the last with the resolver's answer for it. *)
Definition in_scope (scope : ScopeDefinition) (resolver : string -> res (list string)) (host : string) : Prop :=
  existsb (_matches_resource host) (included_cloud_resources scope) = true \/
  match parse_ip_or_network host with
  | Some (Address ip) => authorized_ip scope (unmap ip)
  | Some (Network net) => _validate_network scope net = Ok tt
  | None =>
      let name := lstrip_char "." (lower host) in
      domain_matches name (excluded_domains scope) = false /\
      exists answer, resolver name = Ok answer /\
        (answer = [] /\ domain_matches name (included_domains scope) = true \/
         check_resolved_destination scope name answer = Ok tt)
  end.

Lemma resolved_some scope host : check_resolved_destination scope host [] <> Ok tt.
Proof.
  unfold check_resolved_destination, raise. change ((@nil string) == []) with true.
  repeat (match goal with |- context [if ?b then _ else _] => destruct b end); done.
Qed.

(** C14. Only destinations in scope are accepted, and all of them are: a destination
    passes exactly when its host is not an excluded resource and is in scope as an
    included resource, an authorized address, an accepted network, or a name that is
    not excluded and whose resolution, done once, is either empty for an included
    name or accepted as a whole. *)
Theorem destination_in_scope scope resolver destination :
  check_destination scope resolver destination = Ok tt <->
  exists host, strip destination <> "" /\ destination_host (strip destination) = Ok host /\
    existsb (_matches_resource host) (excluded_cloud_resources scope) = false /\ in_scope scope resolver host.
Proof.
  unfold check_destination, in_scope. split.
  - intros Hc. guard_ok Hc. simpl_bool. apply res_bind_ok in Hc as (host & Hh & Hc). guard_ok Hc.
    exists host. do 3 (split; [done|]).
    destruct (existsb (_matches_resource host) (included_cloud_resources scope)); [by left|right].
    destruct (parse_ip_or_network host) as [[ip|net]|]; [by apply validate_ip_iff|done|]. guard_ok Hc. split; [done|].
    apply res_bind_ok in Hc as (answer & Ha & Hc). exists answer. split; [done|].
    destruct (answer == []) eqn:E; [|by right]. simpl_bool. guard_ok Hc. simpl_bool. by left.
  - intros (host & Hne & Hh & Hx & Hin). apply eqb_neq in Hne. rewrite Hne, Hh. cbn [res_bind]. rewrite Hx.
    destruct (existsb (_matches_resource host) (included_cloud_resources scope)); [done|].
    destruct Hin as [Hin|Hin]; [done|].
    destruct (parse_ip_or_network host) as [[ip|net]|]; [by apply validate_ip_iff|done|].
    destruct Hin as (-> & answer & -> & Hin). cbn [res_bind].
    destruct Hin as [[-> Hin]|Hin]; [by rewrite eqb_refl, Hin|].
    destruct (answer == []) eqn:E; [|done]. simpl_bool. subst. exfalso.
    by apply resolved_some in Hin.
Qed.

(** ** Witnesses *)

Definition demo_scope_dict : json :=
  JObj [("included_targets", JList [JStr "10.0.0.0/8"; JStr "169.254.0.0/16"; JStr "lab.example"; JStr "fd00::/16"]);
        ("excluded_targets", JList [JStr "10.0.9.0/24"; JStr "10.1.1.1"; JStr "prod.lab.example"])].

Definition demo_scope : ScopeDefinition :=
  match from_engagement_scope demo_scope_dict false with
  | Ok s => s
  | Raise _ => {| included_networks := []; included_ips := []; included_domains := []; included_cloud_resources := [];
                  excluded_networks := []; excluded_ips := []; excluded_domains := []; excluded_cloud_resources := [];
                  block_cloud_metadata := true; block_loopback_unless_explicit := true; egress_allowed := false |}
  end.

Lemma demo_scope_ok : scope_ok demo_scope.
Proof.
  unfold demo_scope. destruct (from_engagement_scope demo_scope_dict false) as [s|e] eqn:E; [by eapply from_engagement_scope_ok|].
  vm_compute in E. discriminate E.
Qed.

Definition demo_resolver : string -> res (list string) := fun name =>
  Ok (if name == "db.lab.example" then ["10.2.3.4"; "::ffff:10.2.3.5"] else if name == "evil.lab.example" then ["10.1.1.1"] else []).

Example demo_destinations :
  map (fun d => is_ok (check_destination demo_scope demo_resolver d))
    ["10.2.3.4"; "https://10.2.3.4:8443/x"; "10.0.9.7"; "10.1.1.1"; "::ffff:10.1.1.1"; "127.0.0.1"; "169.254.169.254";
     "db.lab.example:5432"; "evil.lab.example"; "x.prod.lab.example"; "10.0.0.0/9"; "10.2.0.0/16"; "other.example"] =
  [true; true; false; false; false; false; false; true; false; false; false; true; false].
Proof. vm_compute. reflexivity. Qed.

(** The address is refused and the network that consists of it accepted. *)
Example metadata_network_accepted :
  is_ok (check_destination demo_scope demo_resolver "169.254.169.254") = false /\
  is_ok (check_destination demo_scope demo_resolver "169.254.169.254/32") = true.
Proof. split; vm_compute; reflexivity. Qed.

(** A zone id hides an IPv6 metadata address from the guard. *)
Example metadata_zone_accepted :
  is_ok (check_destination demo_scope demo_resolver "fd00:ec2::254") = false /\
  is_ok (check_destination demo_scope demo_resolver "fd00:ec2::254%eth0") = true.
Proof. split; vm_compute; reflexivity. Qed.

Lemma accepted_network_in_scope_witness : exists net,
  _validate_network demo_scope net = Ok tt /\ in_network (ipv4 167903237) net = true /\
  exists inc, In inc (included_networks demo_scope) /\ in_network (ipv4 167903237) inc = true.
Proof.
  destruct (parse_ip_network "10.2.0.0/16") as [net|] eqn:E; [|vm_compute in E; discriminate E]. exists net.
  pose proof (parse_ip_network_ok _ _ E) as Hnet.
  assert (Hv : _validate_network demo_scope net = Ok tt) by (vm_compute in E; injection E as <-; vm_compute; reflexivity).
  assert (Hm : in_network (ipv4 167903237) net = true) by (vm_compute in E; injection E as <-; vm_compute; reflexivity).
  split; [exact Hv|]. split; [exact Hm|].
  assert (Hip : ip_ok (ipv4 167903237)) by (split; vm_compute; [discriminate|reflexivity]).
  exact (proj1 (proj1 (accepted_network_in_scope demo_scope net demo_scope_ok Hnet Hv) _ Hip Hm)).
Defined.

Lemma resolved_destination_exact_witness :
  authorized_answer demo_scope ["10.2.3.4"; "::ffff:10.2.3.5"].
Proof.
  assert (Hc : check_resolved_destination demo_scope "db.lab.example." ["10.2.3.4"; "::ffff:10.2.3.5"] = Ok tt)
    by (vm_compute; reflexivity).
  apply (proj1 (resolved_destination_exact demo_scope "db.lab.example." ["10.2.3.4"; "::ffff:10.2.3.5"])) in Hc.
  exact (proj1 (proj2 Hc)).
Defined.

Lemma destination_in_scope_witness : in_scope demo_scope demo_resolver "db.lab.example".
Proof.
  assert (Hc : check_destination demo_scope demo_resolver "db.lab.example:5432" = Ok tt) by (vm_compute; reflexivity).
  apply (proj1 (destination_in_scope demo_scope demo_resolver "db.lab.example:5432")) in Hc.
  destruct Hc as (host & _ & Hh & _ & Hin). assert (host = "db.lab.example") as -> by (vm_compute in Hh; by injection Hh).
  exact Hin.
Defined.
