(* ===== verification/Identity.v ===== *)
(** * Service identities and request targets

    The exact scopes of [src/cops/execution/egress.py] and
    [src/cops/execution/egress_policy.py]: identities of authenticated services, the
    allowlist that binds them to request targets, the certificate that carries an
    identity, and the egress policy of an operation. *)

From S2P Require Import Prelude PyStr Json PyRegex Timestamp PyIp PyUrl ScopeGuard.

(** ** Request targets *)

(** [0x21 <= ord(character) <= 0x7E]. *)
Definition is_visible (c : ascii) : bool := (33 <=? code c) && (code c <=? 126).

Definition visible_text (s : string) : bool := string_all is_visible s.

(** [f"{path or '/'}?{query}"], without an empty query. *)
Definition origin_form (parsed : SplitResult) : string :=
  let path := if u_path parsed == "" then "/" else u_path parsed in
  if u_query parsed == "" then path else path +:+ "?" +:+ u_query parsed.

Definition _validate_configured_request_target (target : json) : res string :=
  match target with
  | JStr target =>
      raise_if (target == "") || negb (startswith "/" target) || startswith "//" target || contains "\" target ||
               contains "%" target || contains "#" target || endswith "?" target || negb (visible_text target)
        as ValueError msg "request target must be canonical visible ASCII origin-form" ;;
      let? parsed := urlsplit target "" in
      raise_if negb (u_scheme parsed == "") || negb (u_netloc parsed == "") || negb (u_fragment parsed == "")
        as ValueError msg "request target must be origin-form" ;;
      raise_if existsb (fun segment => mem segment ["."; ".."]) (split_char "/" (u_path parsed))
        as ValueError msg "request target cannot contain dot segments" ;;
      raise_if negb (origin_form parsed == target) as ValueError msg "request target must be canonical" ;;
      Ok target
  | _ => raise ValueError "request target must be canonical visible ASCII origin-form"
  end.

Definition _request_target (parsed : SplitResult) : res string :=
  _validate_configured_request_target (JStr (origin_form parsed)).

(** ** Identities *)

Record AuthenticatedServiceIdentity := {
  provider : string; service : string; account : string; tenant : string; cluster : string; namespace : string;
  resource : string
}.

#[export] Instance AuthenticatedServiceIdentity_eq_dec : EqDecision AuthenticatedServiceIdentity.
Proof. solve_decision. Defined.

(** The names of the fields; also [CertificateURIIdentityVerifier._LABELS]. *)
Definition _LABELS : list string := ["provider"; "service"; "account"; "tenant"; "cluster"; "namespace"; "resource"].

Definition as_dict (i : AuthenticatedServiceIdentity) : list (string * string) :=
  [("provider", provider i); ("service", service i); ("account", account i); ("tenant", tenant i);
   ("cluster", cluster i); ("namespace", namespace i); ("resource", resource i)].

(** The test a part of an identity must pass. *)
Definition exact_text (value : string) : bool :=
  negb (value == "") && (strip value == value) && negb (contains "*" value) && visible_text value.

(** [__post_init__] on one field. *)
Definition identity_field (value : json) : res string :=
  match value with
  | JStr s =>
      raise_if negb (exact_text s) as ValueError msg "authenticated service identity must be exact and non-empty" ;; Ok s
  | _ => raise ValueError "authenticated service identity must be exact and non-empty"
  end.

(** [AuthenticatedServiceIdentity(...)] of the values of the fields in their order. *)
Definition new_identity (values : list json) : res AuthenticatedServiceIdentity :=
  let? values := res_map identity_field values in
  match values with
  | [p; s; a; t; c; n; r] =>
      Ok {| provider := p; service := s; account := a; tenant := t; cluster := c; namespace := n; resource := r |}
  | _ => raise TypeError "__init__"
  end.

(** ** The allowlist *)

(** The items of a mapping from identities to sets of targets. *)
Definition AuthenticatedServiceAllowlist : Type := list (AuthenticatedServiceIdentity * list string).

Definition allowlist_entry (entry : AuthenticatedServiceIdentity * list string)
    : res (AuthenticatedServiceIdentity * list string) :=
  let (identity, targets) := entry in
  raise_if targets == [] as ValueError msg "allowlist targets must be non-empty frozen sets" ;;
  let? checked_targets := res_map (fun t => _validate_configured_request_target (JStr t)) targets in
  Ok (identity, checked_targets).

(** [AuthenticatedServiceAllowlist(request_targets)]. *)
Definition new_allowlist (request_targets : list (AuthenticatedServiceIdentity * list string))
    : res AuthenticatedServiceAllowlist :=
  raise_if request_targets == [] as ValueError msg "allowlist cannot be empty" ;;
  res_map allowlist_entry request_targets.

(** [self.request_targets.get(identity)]. *)
Fixpoint targets_of (allowlist : AuthenticatedServiceAllowlist) (identity : AuthenticatedServiceIdentity)
    : option (list string) :=
  match allowlist with
  | [] => None
  | (i, targets) :: rest => if i == identity then Some targets else targets_of rest identity
  end.

Definition require (allowlist : AuthenticatedServiceAllowlist) (identity : AuthenticatedServiceIdentity)
    (request_target : string) : res unit :=
  match targets_of allowlist identity with
  | None => raise AuthenticatedResourceScopeError "identity is outside the exact allowlist"
  | Some targets =>
      raise_if negb (mem request_target targets)
        as AuthenticatedResourceScopeError msg "request target is outside the exact identity allowlist" ;;
      Ok tt
  end.

(** ** Certificates *)

(** The values of a [getpeercert()] dictionary. *)
Inductive cert_value :=
| CStr (s : string)
| CTuple (items : list cert_value)
| CList (items : list cert_value)
| COther.

Definition certificate : Type := list (string * cert_value).

(** [peer_certificate.get("subjectAltName", ())] when it is a tuple or a list. *)
Definition subject_alt_names (peer_certificate : certificate) : option (list cert_value) :=
  match assoc "subjectAltName" peer_certificate with
  | None => Some []
  | Some (CTuple items) | Some (CList items) => Some items
  | Some _ => None
  end.

(** The text of a URI name; names are pairs. *)
Definition uri_name (item : cert_value) : option string :=
  match item with
  | CTuple [CStr kind; CStr value] | CList [CStr kind; CStr value] => if kind == "URI" then Some value else None
  | _ => None
  end.

(** [CertificateURIIdentityVerifier(trust_domain)]. *)
Definition new_verifier (trust_domain : string) : res string :=
  let canonical := rstrip_char "." (lower trust_domain) in
  raise_if (canonical == "") ||
           negb (string_all (fun c => is_ascii_lower c || is_ascii_digit c || mem c ["-"%char; "."%char]) canonical)
    as ValueError msg "certificate identity trust domain is invalid" ;;
  Ok canonical.

Definition identity_prefix (trust_domain : string) : string := "spiffe://" +:+ trust_domain +:+ "/cops/v1/".

(** The names of a workload in the trust domain. *)
Definition bindings (prefix : string) (names : list cert_value) : list string :=
  List.filter (startswith prefix) (omap uri_name names).

(** One segment of the URI. *)
Definition decode_segment (encoded : string) : res string :=
  match url_unquote encoded with
  | None => raise AuthenticatedResourceScopeError "identity URI is not valid UTF-8"
  | Some value =>
      raise_if negb (exact_text value) || negb (url_quote value == encoded)
        as AuthenticatedResourceScopeError msg "identity URI is not canonical" ;;
      Ok value
  end.

(** [xs[::2]] and [xs[1::2]]. *)
Fixpoint even_items {A} (xs : list A) : list A :=
  match xs with
  | x :: _ :: xs' => x :: even_items xs'
  | _ => xs
  end.

Definition odd_items {A} (xs : list A) : list A := even_items (tl xs).

Definition verify_certificate (trust_domain peer_certificate_der : string) (peer_certificate : certificate)
    : res AuthenticatedServiceIdentity :=
  raise_if peer_certificate_der == ""
    as AuthenticatedResourceScopeError msg "TLS peer did not present an authenticated certificate" ;;
  match subject_alt_names peer_certificate with
  | None => raise AuthenticatedResourceScopeError "TLS peer certificate subjectAltName is malformed"
  | Some names =>
      let prefix := identity_prefix trust_domain in
      match bindings prefix names with
      | [binding] =>
          let path_parts := split_char "/" (drop_str (String.length prefix) binding) in
          raise_if negb (Nat.eqb (length path_parts) (2 * length _LABELS)) || negb (even_items path_parts == _LABELS)
            as AuthenticatedResourceScopeError msg "identity URI is malformed" ;;
          let? values := res_map decode_segment (odd_items path_parts) in
          new_identity (map JStr values)
      | _ => raise AuthenticatedResourceScopeError "TLS peer must carry exactly one COPS resource identity URI"
      end
  end.

(** ["/".join(part for name, value in identity.as_dict().items() for part in (name, quote(value, safe="")))]. *)
Definition identity_path (identity : AuthenticatedServiceIdentity) : string :=
  join "/" (concat (map (fun nv => [fst nv; url_quote (snd nv)]) (as_dict identity))).

(** ** Addresses and origins *)

Definition _canonical_ip (value : string) : res string :=
  match parse_ip_address value with
  | None => raise ValueError "does not appear to be an IPv4 or IPv6 address"
  | Some ip => Ok (ip_text (unmap ip))
  end.

Definition host_literal (hostname : string) : string :=
  if contains ":" hostname then "[" +:+ hostname +:+ "]" else hostname.

(** [_redacted_origin] of a text. *)
Definition redacted_text (url : string) : string :=
  match urlsplit url "" with
  | Raise _ => "unparseable"
  | Ok parsed =>
      match u_port parsed, u_hostname parsed with
      | Raise _, _ | _, None => "unparseable"
      | Ok port, Some hostname =>
          if negb (mem (u_scheme parsed) ["http"; "https"]) then "unparseable"
          else
            let default_port := if u_scheme parsed == "https" then 443 else 80 in
            let port_suffix :=
              match port with
              | None => ""
              | Some p => if p =? default_port then "" else ":" +:+ pretty p
              end in
            u_scheme parsed +:+ "://" +:+ host_literal hostname +:+ port_suffix
      end
  end.

(** [_redacted_origin]: on values that are not texts [urlsplit] takes an empty one for
    an empty text, cannot hash a list or a dict, and otherwise calls [decode]. *)
Definition _redacted_origin (url : json) : res string :=
  match url with
  | JStr s => Ok (redacted_text s)
  | JList _ | JObj _ => Ok "unparseable"
  | _ => if truthy url then raise AttributeError "decode" else Ok "unparseable"
  end.

(** ** The egress policy of an operation *)

Record HTTPSOperationEgressPolicy := {
  ep_host : string; ep_port : Z; ep_identity : AuthenticatedServiceIdentity; ep_request_targets : list string
}.

Definition policy_error {A} (m : string) : res A := raise OperationEgressPolicyError m.

(** [_DNS_LABEL.fullmatch(label)]. *)
Definition dns_label (label : string) : bool := fullmatch "[a-z0-9](?:[a-z0-9-]{0,61}[a-z0-9])?\Z" label.

Definition _canonical_host (value : json) : res string :=
  match value with
  | JStr value =>
      raise_if (value == "") || negb (strip value == value)
        as OperationEgressPolicyError msg "HTTPS egress host must be canonical" ;;
      match parse_ip_address value with
      | None =>
          raise_if (253 <? slen value) || negb (value == lower value) || endswith "." value ||
                   negb (string_any is_alpha value) || negb (forallb dns_label (split_char "." value))
            as OperationEgressPolicyError msg "HTTPS egress host must be canonical" ;;
          Ok value
      | Some address =>
          raise_if negb (ip_text address == value) || match ipv4_mapped address with Some _ => true | None => false end
            as OperationEgressPolicyError msg "HTTPS egress IP literal must be canonical" ;;
          Ok value
      end
  | _ => policy_error "HTTPS egress host must be canonical"
  end.

(** [isinstance(v, Mapping) and set(v) == keys], and then the items. *)
Definition exact_mapping (v : json) (keys : list string) : option (list (string * json)) :=
  match v with
  | JObj items =>
      if forallb (fun k => mem k (map fst items)) keys && forallb (fun kv => mem (fst kv) keys) items
      then Some items else None
  | _ => None
  end.

(** The value of a key that [exact_mapping] has found. *)
Definition field (k : string) (items : list (string * json)) : json := default JNull (assoc k items).

Definition as_texts (v : json) : option (list string) :=
  match v with
  | JList xs => mapM (fun x => match x with JStr s => Some s | _ => None end) xs
  | _ => None
  end.

Definition type_or_value_error (e : exc) : bool := is_value_error e || (exc_cls e == TypeError).

Definition parse_operation_egress_policy (operation : list (string * json)) : res (option HTTPSOperationEgressPolicy) :=
  match assoc "egress_policy" operation with
  | None => Ok None
  | Some policy =>
      match exact_mapping policy ["https_endpoint"] with
      | None => policy_error "operation egress policy must contain one HTTPS endpoint"
      | Some policy =>
          match exact_mapping (field "https_endpoint" policy) ["host"; "port"; "identity"; "request_targets"] with
          | None => policy_error "HTTPS endpoint policy fields are invalid"
          | Some endpoint =>
              let? host := _canonical_host (field "host" endpoint) in
              match field "port" endpoint with
              | JInt port =>
                  raise_if negb ((1 <=? port) && (port <=? 65535))
                    as OperationEgressPolicyError msg "HTTPS endpoint port is invalid" ;;
                  match exact_mapping (field "identity" endpoint) _LABELS with
                  | None => policy_error "authenticated service identity fields are invalid"
                  | Some identity_value =>
                      let? identity :=
                        catch type_or_value_error (new_identity (map (fun l => field l identity_value) _LABELS))
                          (fun _ => policy_error "authenticated service identity is invalid") in
                      match as_texts (field "request_targets" endpoint) with
                      | None | Some [] => policy_error "HTTPS request targets must be non-empty strings"
                      | Some targets =>
                          raise_if negb (bool_decide (NoDup targets))
                            as OperationEgressPolicyError msg "HTTPS request targets must be non-empty and unique" ;;
                          let? allowlist :=
                            catch type_or_value_error (new_allowlist [(identity, targets)])
                              (fun _ => policy_error "HTTPS request targets are invalid") in
                          Ok (Some {| ep_host := host; ep_port := port; ep_identity := identity;
                                      ep_request_targets := default [] (targets_of allowlist identity) |})
                      end
                  end
              | _ => policy_error "HTTPS endpoint port is invalid"
              end
          end
      end
  end.

(** [policy.identity_allowlist]. *)
Definition identity_allowlist (policy : HTTPSOperationEgressPolicy) : res AuthenticatedServiceAllowlist :=
  new_allowlist [(ep_identity policy, ep_request_targets policy)].
