(* ===== verification/IdentityProps.v ===== *)
(** * Service identities and request targets: properties

    Which request targets are accepted, which certificates prove an identity, and that
    the egress policy of an operation is well formed. *)

From S2P Require Import Prelude PyStr Json Timestamp PyIp PyUrl PyUrlFacts ScopeGuard Identity.

(** ** Request targets *)

(** The characters of a target: visible ASCII but backslash, percent and hash. *)
Definition target_char (c : ascii) : bool := is_visible c && negb (mem c ["\"%char; "%"%char; "#"%char]).

(** A target in origin form that has one reading. *)
Record canonical_target (t : string) : Prop := {
  target_rooted : startswith "/" t = true;
  target_no_authority : startswith "//" t = false;
  target_chars : string_all target_char t = true;
  target_query : endswith "?" t = false;
  target_no_dots : forall segment, In segment (split_char "/" (fst (fst (partition "?" t)))) -> segment <> "." /\ segment <> "..";
}.

Lemma target_chars_iff t : string_all target_char t = true <->
  contains "\" t = false /\ contains "%" t = false /\ contains "#" t = false /\ visible_text t = true.
Proof.
  split.
  - intros H. split_and!; try (eapply string_all_contains; [exact H|done]).
    eapply string_all_impl; [|exact H]. unfold target_char. intros c [? ?]%andb_true_iff. done.
  - intros (Hb & Hp & Hh & Hv). unfold visible_text in Hv. induction t as [|c t IH]; [done|].
    rewrite contains_char, orb_false_iff in Hb, Hp, Hh. cbn [string_all] in *.
    apply andb_true_iff in Hv as [Hc Hv]. rewrite IH by tauto. unfold target_char.
    assert (mem c ["\"%char; "%"%char; "#"%char] = false) as ->; [|by rewrite Hc].
    apply mem_not_In. destruct Hb as [Hb _], Hp as [Hp _], Hh as [Hh _]. simpl_bool. simpl. intuition congruence.
Qed.

Lemma visible_ge t : visible_text t = true -> string_all (fun c => 33 <=? code c) t = true.
Proof. apply string_all_impl. unfold is_visible. intros c [? ?]%andb_true_iff. done. Qed.

Lemma endswith_snoc c s : endswith (String c "") (s +:+ String c "") = true.
Proof. apply endswith_spec. by exists s. Qed.

(** The origin form of a rooted target without a bare question mark at its end. *)
Lemma origin_form_partition t : startswith "/" t = true -> endswith "?" t = false ->
  origin_form {| u_scheme := ""; u_netloc := ""; u_path := fst (fst (partition "?" t)); u_query := snd (partition "?" t);
                 u_fragment := "" |} = t.
Proof.
  intros H1 H2. pose proof (partition_spec "?" t) as Hp. destruct (partition "?" t) as [[path f] query].
  destruct Hp as (Hn & Ht & Hq). unfold origin_form. cbn [u_path u_query fst snd].
  assert ((path == "") = false) as ->.
  { apply eqb_neq. intros ->. destruct f; simpl in Ht; subst t; done. }
  destruct f.
  - destruct (query == "") eqn:E; [|by subst t].
    apply eqb_true in E. subst query t. rewrite endswith_snoc in H2. done.
  - rewrite Hq by done. by subst t.
Qed.

Section Targets.
Variable t : string.

Lemma split_target : startswith "/" t = true -> startswith "//" t = false -> visible_text t = true -> contains "#" t = false ->
  urlsplit t "" = Ok {| u_scheme := ""; u_netloc := ""; u_path := fst (fst (partition "?" t));
                        u_query := snd (partition "?" t); u_fragment := "" |}.
Proof.
  intros H1 H2 Hv Hf. pose proof (urlsplit_path t H1 H2 (visible_ge t Hv) Hf) as Hu.
  by destruct (partition "?" t) as [[? ?] ?].
Qed.

Lemma accepted_target t' : _validate_configured_request_target (JStr t) = Ok t' -> t' = t /\ canonical_target t.
Proof.
  unfold _validate_configured_request_target. intros H. guard_ok H. simpl_bool. rewrite split_target in H by done.
  cbn [res_bind] in H. guard_ok H. guard_ok H. guard_ok H.
  injection H as <-. split; [done|]. constructor; [done|done|by apply target_chars_iff|done|].
  intros segment Hs. cbn [u_path] in *. match goal with E : existsb _ _ = false |- _ =>
    pose proof (proj1 (existsb_false _ _) E segment Hs) as Hm end.
  apply mem_not_In in Hm. simpl in Hm. intuition congruence.
Qed.

(** C28. A request target is accepted exactly when it is canonical: one rooted path in
    visible ASCII, without an authority, escapes, a fragment, an empty query or dot
    segments.  It is returned as it was given. *)
Theorem request_target_exact t' :
  _validate_configured_request_target (JStr t) = Ok t' <-> t' = t /\ canonical_target t.
Proof.
  split; [apply accepted_target|]. intros [-> [H1 H2 (Hb & Hp & Hh & Hv)%target_chars_iff H4 H5]].
  unfold _validate_configured_request_target. rewrite H1, H2, Hb, Hp, Hh, H4, Hv, split_target by done.
  assert ((t == "") = false) as -> by (apply eqb_neq; by intros ->).
  cbn [orb negb res_bind u_scheme u_netloc u_fragment u_path].
  change ("" == "") with true. cbn [negb orb]. rewrite (proj2 (existsb_false _ _)).
  - by rewrite origin_form_partition, eqb_refl.
  - intros segment Hs. apply mem_not_In. simpl. destruct (H5 segment Hs). intuition congruence.
Qed.
End Targets.

(** ** Certificates *)

(** Each part of an identity is exact. *)
Definition identity_ok (i : AuthenticatedServiceIdentity) : Prop :=
  Forall (fun nv => exact_text (snd nv) = true) (as_dict i).

Lemma identity_field_ok v s : identity_field v = Ok s -> v = JStr s /\ exact_text s = true.
Proof.
  unfold identity_field. destruct v as [| | | |t| |]; try done. intros H. guard_ok H. injection H as ->. by simpl_bool.
Qed.

Lemma exact_field s : exact_text s = true -> identity_field (JStr s) = Ok s.
Proof. unfold identity_field. by intros ->. Qed.

Lemma new_identity_ok values i : new_identity values = Ok i -> values = map JStr (map snd (as_dict i)) /\ identity_ok i.
Proof.
  unfold new_identity. intros H. apply res_bind_ok in H as (xs & Hx%res_map_ok & H).
  assert (Hf : values = map JStr xs /\ Forall (fun v => exact_text v = true) xs).
  { clear H. induction Hx as [|v s values xs [-> Hs]%identity_field_ok _ [-> IH]]; [done|]. by rewrite Forall_cons. }
  destruct Hf as [-> Hf]. do 8 (destruct xs as [|? xs]; try done). injection H as <-. split; [done|].
  unfold identity_ok, as_dict. repeat rewrite Forall_cons in *. cbn [snd]. naive_solver.
Qed.

Lemma new_identity_texts values i :
  new_identity (map JStr values) = Ok i <-> values = map snd (as_dict i) /\ identity_ok i.
Proof.
  split.
  - intros [Hv ?]%new_identity_ok. split; [|done]. eapply list_fmap_eq_inj; [|exact Hv]. by intros ?? [= ->].
  - intros [-> Hf]. unfold identity_ok, as_dict in Hf. repeat (apply Forall_cons in Hf as [?%exact_field Hf]). cbn [snd] in *.
    unfold new_identity, as_dict. cbn [map snd res_map].
    repeat match goal with E : identity_field _ = _ |- _ => rewrite E; clear E end. cbn [res_bind]. by destruct i.
Qed.

Lemma decode_segment_ok encoded value :
  decode_segment encoded = Ok value <-> encoded = url_quote value /\ exact_text value = true.
Proof.
  unfold decode_segment. split.
  - destruct (url_unquote encoded) as [v|]; [|done]. intros H. guard_ok H. injection H as ->. by simpl_bool.
  - intros [-> He]. by rewrite unquote_quote, He, eqb_refl.
Qed.

Lemma drop_prefix p s : drop_str (String.length p) (p +:+ s) = s.
Proof. induction p; simpl; [by destruct s|done]. Qed.

Lemma bindings_prefix prefix names b bs : bindings prefix names = b :: bs -> exists rest, b = prefix +:+ rest.
Proof.
  unfold bindings. intros H. apply startswith_spec. assert (Hin : In b (List.filter (startswith prefix) (omap uri_name names))).
  { rewrite H. by left. }
  by apply filter_In in Hin as [_ ?].
Qed.

(** The segments of the URI of an identity. *)
Definition identity_segments (i : AuthenticatedServiceIdentity) : list string :=
  concat (map (fun nv => [fst nv; url_quote (snd nv)]) (as_dict i)).

Lemma split_identity_path i : split_char "/" (identity_path i) = identity_segments i.
Proof.
  unfold identity_path. apply split_join; [done|].
  repeat first [apply Forall_cons; split; [first [apply quote_no_slash | done]|] | apply Forall_nil; done].
Qed.

(** The segments read as an identity exactly when they are those of it. *)
Lemma segments_exact parts i :
  (Nat.eqb (length parts) (2 * length _LABELS) = true /\ even_items parts = _LABELS /\
   exists values, res_map decode_segment (odd_items parts) = Ok values /\ new_identity (map JStr values) = Ok i) <->
  parts = identity_segments i /\ identity_ok i.
Proof.
  split.
  - intros (Hl & He & values & Hv & Hi). apply Nat.eqb_eq in Hl. apply new_identity_texts in Hi as [-> Hok]. split; [|done].
    do 15 (destruct parts as [|? parts]; try done). injection He as -> -> -> -> -> -> ->.
    apply res_map_ok in Hv. unfold odd_items in Hv. cbn [tl even_items] in Hv.
    unfold as_dict in Hv. cbn [map snd] in Hv. repeat (apply Forall2_cons in Hv as [?%decode_segment_ok Hv]).
    unfold identity_segments, as_dict. cbn [map concat fst snd app]. intuition congruence.
  - intros [-> Hok]. split; [done|]. split; [done|]. exists (map snd (as_dict i)). split; [|by apply new_identity_texts].
    apply res_map_ok. unfold identity_ok, as_dict in Hok. cbn.
    repeat (apply Forall_cons in Hok as [? Hok]).
    repeat (apply Forall2_cons; split; [by apply decode_segment_ok|]). constructor.
Qed.

(** C27. A certificate proves an identity exactly when it was presented, the parts of
    the identity are exact texts, and among the names of the workload in the trust domain
    there is one, the canonical URI of that identity: reading the URI inverts writing
    it. *)
Theorem certificate_identity_exact trust_domain der certificate i :
  verify_certificate trust_domain der certificate = Ok i <->
  der <> "" /\ identity_ok i /\
  exists names, subject_alt_names certificate = Some names /\
    bindings (identity_prefix trust_domain) names = [identity_prefix trust_domain +:+ identity_path i].
Proof.
  unfold verify_certificate. set (prefix := identity_prefix trust_domain). split.
  - intros H. guard_ok H. guard_ok H. rename l into names. destruct (bindings prefix names) as [|b [|? ?]] eqn:Eb; try done.
    destruct (bindings_prefix _ _ _ _ Eb) as [rest ->]. rewrite drop_prefix in H. guard_ok H.
    apply res_bind_ok in H as (values & Hv & Hi). simpl_bool.
    destruct (proj1 (segments_exact (split_char "/" rest) i)) as [Hp Hok]; [by eauto|].
    split; [done|]. split; [done|]. exists names. split; [done|]. rewrite Eb. unfold identity_path.
    fold (identity_segments i). by rewrite <- Hp, join_split.
  - intros (Hd & Hok & names & Hn & Hb). rewrite Hn, Hb, drop_prefix, split_identity_path.
    rewrite (proj2 (eqb_neq der "")) by done.
    destruct (proj2 (segments_exact (identity_segments i) i)) as (Hl & He & values & Hv & Hi); [done|].
    rewrite Hl, He, eqb_refl. cbn [negb orb]. rewrite Hv. exact Hi.
Qed.

(** ** Operation policies *)

(** A host is an address in its canonical text, not an IPv4 one in disguise, or a DNS
    name in lower case with a letter. *)
Definition canonical_host (host : string) : Prop :=
  match parse_ip_address host with
  | Some ip => ip_text ip = host /\ ipv4_mapped ip = None
  | None => slen host <= 253 /\ lower host = host /\ string_any is_alpha host = true /\
            Forall (fun label => dns_label label = true) (split_char "." host)
  end.

Lemma canonical_host_ok v host : _canonical_host v = Ok host -> canonical_host host.
Proof.
  unfold _canonical_host, canonical_host, policy_error. destruct v as [| | | |s| |]; try done. intros H. guard_ok H.
  destruct (parse_ip_address s) as [ip|] eqn:E; guard_ok H; injection H as <-; rewrite E; simpl_bool.
  - split; [done|]. by destruct (ipv4_mapped ip).
  - split; [done|]. split; [congruence|]. split; [done|]. apply List.Forall_forall. by apply forallb_forall.
Qed.

(** What an accepted policy is. *)
Record policy_ok (p : HTTPSOperationEgressPolicy) : Prop := {
  policy_host : canonical_host (ep_host p);
  policy_port : 1 <= ep_port p <= 65535;
  policy_identity : identity_ok (ep_identity p);
  policy_some_target : ep_request_targets p <> [];
  policy_distinct : NoDup (ep_request_targets p);
  policy_targets : Forall canonical_target (ep_request_targets p);
}.

Lemma checked_targets_same targets checked :
  res_map (fun t => _validate_configured_request_target (JStr t)) targets = Ok checked ->
  checked = targets /\ Forall canonical_target targets.
Proof.
  intros H%res_map_ok. induction H as [|t t' targets checked Ht _ [-> IH]]; [done|].
  apply accepted_target in Ht as [-> ?]. by rewrite Forall_cons.
Qed.

Lemma single_allowlist identity targets allowlist :
  new_allowlist [(identity, targets)] = Ok allowlist ->
  targets <> [] /\ allowlist = [(identity, targets)] /\ Forall canonical_target targets.
Proof.
  unfold new_allowlist. cbn [res_map allowlist_entry]. intros H. guard_ok H. inv_ok.
  destruct (targets == []) eqn:E; [done|]. inv_ok. apply checked_targets_same in Hr0 as [-> Hf]. by simpl_bool.
Qed.

Lemma catch_policy_ok {A} (r : res A) m a :
  catch type_or_value_error r (fun _ => policy_error m) = Ok a -> r = Ok a.
Proof. by apply catch_ok. Qed.

Lemma require_single identity targets i t :
  require [(identity, targets)] i t = Ok tt <-> i = identity /\ In t targets.
Proof.
  unfold require. cbn [targets_of]. destruct (identity == i) eqn:E.
  - apply eqb_true in E as ->. destruct (mem t targets) eqn:Em.
    + apply mem_In in Em. by split.
    + apply mem_not_In in Em. simpl. by split; [|intros [_ ?]].
  - apply eqb_false in E. split; [done|]. intros [-> _]. done.
Qed.

(** C29. The egress policy of an operation that is accepted is well formed: its host is
    canonical, its port in range, its identity exact and its request targets canonical,
    distinct and not none.  Its allowlist then admits that identity for those targets
    and nothing else. *)
Theorem operation_policy_well_formed operation p :
  parse_operation_egress_policy operation = Ok (Some p) ->
  policy_ok p /\
  forall allowlist, identity_allowlist p = Ok allowlist ->
    forall i t, require allowlist i t = Ok tt <-> i = ep_identity p /\ In t (ep_request_targets p).
Proof.
  unfold parse_operation_egress_policy, policy_error. intros H. split.
  - do 3 guard_ok H. apply res_bind_ok in H as (host & Hh & H). do 3 guard_ok H.
    apply res_bind_ok in H as (identity & Hi & H). do 3 guard_ok H. apply res_bind_ok in H as (allowlist & Ha & [= <-]).
    apply catch_policy_ok in Hi. apply catch_policy_ok, single_allowlist in Ha as (Hne & -> & Hc).
    cbn [targets_of]. rewrite eqb_refl. simpl_bool.
    constructor; cbn [ep_host ep_port ep_identity ep_request_targets default].
    + by eapply canonical_host_ok.
    + lia.
    + by apply new_identity_ok in Hi as [_ ?].
    + done.
    + by apply bool_decide_eq_true in Heqb0.
    + done.
  - intros allowlist Ha. unfold identity_allowlist in Ha. apply single_allowlist in Ha as (_ & -> & _).
    intros i t. apply require_single.
Qed.

(** ** Witnesses *)

Definition demo_identity : AuthenticatedServiceIdentity :=
  {| provider := "aws"; service := "s3"; account := "123456789012"; tenant := "t"; cluster := "-"; namespace := "ns";
     resource := "bucket/reports" |}.

Definition demo_certificate : certificate :=
  [("subjectAltName", CTuple [CTuple [CStr "DNS"; CStr "db.lab.example"];
                              CTuple [CStr "URI"; CStr ("spiffe://lab.example/cops/v1/" +:+ identity_path demo_identity)]])].

Definition demo_operation : list (string * json) :=
  [("egress_policy", JObj [("https_endpoint", JObj [
      ("host", JStr "db.lab.example"); ("port", JInt 8443);
      ("identity", JObj (map (fun nv => (fst nv, JStr (snd nv))) (as_dict demo_identity)));
      ("request_targets", JList [JStr "/v1/items?page=1"; JStr "/"])])])].

Definition demo_policy : HTTPSOperationEgressPolicy :=
  {| ep_host := "db.lab.example"; ep_port := 8443; ep_identity := demo_identity;
     ep_request_targets := ["/v1/items?page=1"; "/"] |}.

Example demo_identity_path : identity_path demo_identity =
  "provider/aws/service/s3/account/123456789012/tenant/t/cluster/-/namespace/ns/resource/bucket%2Freports".
Proof. reflexivity. Qed.

Example demo_targets : map (fun t => is_ok (_validate_configured_request_target (JStr t)))
  ["/"; "/a/b?x=1"; "/a/../b"; "//a"; "/a%2e"; "/a?"; "a"; "/a#b"; "/..."] =
  [true; true; false; false; false; false; false; false; true].
Proof. vm_compute. reflexivity. Qed.

(** The origin that is recorded has no path, query or user. *)
Example demo_redacted : map (fun u => redacted_text u)
  ["https://user:pw@Db.Lab.Example:443/secret?token=1#x"; "http://[::1]:8080/a"; "ftp://h/"; "https://[::1/"; "https://h:99999"] =
  ["https://db.lab.example"; "http://[::1]:8080"; "unparseable"; "unparseable"; "unparseable"].
Proof. vm_compute. reflexivity. Qed.

Lemma request_target_exact_witness : canonical_target "/v1/items?page=1".
Proof. apply (proj1 (request_target_exact "/v1/items?page=1" "/v1/items?page=1")). vm_compute. reflexivity. Defined.

Lemma certificate_identity_exact_witness : identity_ok demo_identity.
Proof.
  apply (proj1 (certificate_identity_exact "lab.example" "der" demo_certificate demo_identity)). vm_compute. reflexivity.
Defined.

Lemma operation_policy_well_formed_witness : policy_ok demo_policy.
Proof. apply (operation_policy_well_formed demo_operation demo_policy). vm_compute. reflexivity. Defined.
