(* ===== verification/Egress.v ===== *)
(** * The HTTPS execution mediator

    [HTTPSExecutionMediator] of [src/cops/execution/egress.py]: requests on behalf of an
    isolated adapter, and the one POST to an operator's gateway.  Whatever is outside
    the mediator (the clock, the resolver, the connector and its connections, the
    caller's callback) is an [Environment]: functions of everything that has happened
    so far, so that answers may change between two calls.  The state of a call is the
    trace of events, the last one first; [observations] are the [EvObserve] events.
    Times are microseconds of the monotonic clock. *)

From S2P Require Import Prelude PyStr Json PyUrl ScopeGuard Identity.

(** ** What the mediator sees *)

Record ResolvedEndpoint := {
  en_family : Z; en_socktype : Z; en_proto : Z; en_sockaddr : list json; en_ip : string
}.

(** [OpenEgressConnection]. *)
Record OpenEgressConnection := { peer_ip : string; peer_certificate_der : string; peer_certificate : certificate }.

(** The arguments of [connection.request]. *)
Record Outbound := {
  ob_method : string; ob_target : string; ob_headers : list (string * string); ob_body : string;
  ob_max_response_bytes : Z; ob_max_response_header_bytes : Z; ob_timeout : Z
}.

(** What it returns, before any check; a body that is not of type [bytes] is [None]. *)
Record RawResponse := { raw_status : json; raw_headers : json; raw_body : option string }.

Record MediatedResponse := {
  rs_status : Z; rs_headers : list (string * string); rs_body : string; rs_final_url : string;
  rs_identity : AuthenticatedServiceIdentity
}.

Record EgressObservation := {
  ob_origin : string; ob_decision : string; ob_reason : string; ob_identity : option AuthenticatedServiceIdentity
}.

(** A resolver that does not return a tuple returns [None]. *)
Inductive event :=
| EvClock (t : Z)
| EvResolve (hostname : string) (port : Z) (answer : res (option (list ResolvedEndpoint)))
| EvOpen (endpoint : ResolvedEndpoint) (hostname : string) (port timeout : Z) (answer : res OpenEgressConnection)
| EvVerify (hostname : string) (connection : OpenEgressConnection) (answer : res AuthenticatedServiceIdentity)
| EvBeforeSend (answer : res unit)
| EvRequest (connection : OpenEgressConnection) (request : Outbound) (answer : res RawResponse)
| EvClose (connection : OpenEgressConnection) (answer : res unit)
| EvObserve (observation : EgressObservation).

Definition trace : Type := list event.

Class Environment := {
  env_clock : trace -> Z;
  env_resolver : trace -> string -> Z -> res (option (list ResolvedEndpoint));
  env_open : trace -> ResolvedEndpoint -> string -> Z -> Z -> res OpenEgressConnection;
  env_verify : trace -> string -> OpenEgressConnection -> res AuthenticatedServiceIdentity;
  env_before_send : trace -> res unit;
  env_request : trace -> OpenEgressConnection -> Outbound -> res RawResponse;
  env_close : trace -> OpenEgressConnection -> res unit;
}.

(** ** The mediator *)

(** A [CertificateURIIdentityVerifier] with its trust domain, or another one. *)
Inductive Verifier := CertificateURI (trust_domain : string) | OtherVerifier.

Record Mediator := {
  md_scope : ScopeDefinition; md_verifier : Verifier; md_allowlist : AuthenticatedServiceAllowlist;
  md_approved_origin : option (string * Z); md_timeout : Z; md_max_response_bytes : Z;
  md_max_response_header_bytes : Z; md_max_redirects : Z
}.

Definition _FORBIDDEN_HEADERS : list string :=
  ["connection"; "content-length"; "expect"; "forwarded"; "host"; "proxy-authorization"; "proxy-connection"; "te";
   "trailer"; "transfer-encoding"; "upgrade"; "x-forwarded-for"; "x-forwarded-host"; "x-forwarded-proto"].

Definition _REDIRECT_STATUSES : list Z := [301; 302; 303; 307; 308].

Definition _HEADER_NAME_TOKEN_CHARACTERS : string :=
  "!#$%&'*+-.^_`|~0123456789ABCDEFGHIJKLMNOPQRSTUVWXYZabcdefghijklmnopqrstuvwxyz".

Definition header_name_token (name : string) : bool :=
  string_all (fun c => contains (String c "") _HEADER_NAME_TOKEN_CHARACTERS) name.

(** [0x20 <= ord(character) <= 0x7E]. *)
Definition header_value_text (value : string) : bool := string_all (fun c => (32 <=? code c) && (code c <=? 126)) value.

(** [approved_origin] of [__init__]. *)
Definition checked_origin (approved_origin : option (json * json)) : res (option (string * Z)) :=
  match approved_origin with
  | None => Ok None
  | Some (JStr approved_host, JInt approved_port) =>
      raise_if (strip approved_host == "") || negb ((1 <=? approved_port) && (approved_port <=? 65535))
        as ValueError msg "approved egress origin must contain a non-empty host and valid port" ;;
      Ok (Some (lower (rstrip_char "." approved_host), approved_port))
  | Some _ => raise ValueError "approved egress origin must contain a non-empty host and valid port"
  end.

Definition new_mediator (scope : ScopeDefinition) (verifier : Verifier) (allowlist : AuthenticatedServiceAllowlist)
    (approved_origin : option (json * json))
    (timeout max_response_bytes max_response_header_bytes max_redirects : Z) : res Mediator :=
  raise_if negb (egress_allowed scope) as ValueError msg "requires engagement egress_allowed=true" ;;
  raise_if (timeout <=? 0) || (max_response_bytes <=? 0) || (max_response_header_bytes <=? 0) || (max_redirects <? 0)
    as ValueError msg "execution egress mediator limits must be positive" ;;
  let? origin := checked_origin approved_origin in
  Ok {| md_scope := scope; md_verifier := verifier; md_allowlist := allowlist; md_approved_origin := origin;
        md_timeout := timeout; md_max_response_bytes := max_response_bytes;
        md_max_response_header_bytes := max_response_header_bytes; md_max_redirects := max_redirects |}.

(** *** Checks without effects *)

(** A-Z for a-z.  Other characters never become letters of the methods allowed. *)
Definition upper_method (s : string) : string :=
  string_map (fun c => if is_ascii_lower c then chr (code c - 32) else c) s.

Definition protocol_error {A} (m : string) : res A := raise EgressProtocolError m.

Definition _validate_url (url : json) : res SplitResult :=
  match url with
  | JStr url =>
      raise_if (url == "") || contains "\" url || negb (visible_text url)
        as EgressProtocolError msg "destination URL must contain only visible ASCII characters" ;;
      let? (parsed, port) :=
        catch is_value_error (let? parsed := urlsplit url "" in let? port := u_port parsed in Ok (parsed, port))
          (fun _ => protocol_error "destination URL contains an invalid port or address") in
      raise_if negb (u_scheme parsed == "https") || (u_hostname parsed == None)
        as EgressProtocolError msg "egress broker permits only absolute HTTPS URLs" ;;
      raise_if has_userinfo parsed || negb (u_fragment parsed == "")
        as EgressProtocolError msg "destination URL cannot contain user information or a fragment" ;;
      raise_if endswith "?" url as EgressProtocolError msg "destination URL request target is not canonical" ;;
      raise_if match port with Some p => negb ((1 <=? p) && (p <=? 65535)) | None => false end
        as EgressProtocolError msg "destination URL port is outside the valid range" ;;
      catch is_value_error (_request_target parsed)
        (fun _ => protocol_error "destination URL request target is not canonical") ;;?
      Ok parsed
  | _ => protocol_error "destination URL must contain only visible ASCII characters"
  end.

(** The loop over the items; [checked] is what has been accepted, in order. *)
Fixpoint check_headers (checked : list (string * string)) (items : list (string * json)) : res (list (string * string)) :=
  match items with
  | [] => Ok checked
  | (name, JStr value) :: items' =>
      let lower_name := lower name in
      raise_if mem lower_name _FORBIDDEN_HEADERS || startswith "proxy-" lower_name
        as EgressProtocolError msg "request header is forbidden by the egress broker" ;;
      raise_if (name == "") || negb (header_name_token name) as EgressProtocolError msg "request header name is invalid" ;;
      raise_if negb (header_value_text value) as EgressProtocolError msg "request header value is invalid" ;;
      raise_if mem lower_name (map (fun nv => lower (fst nv)) checked)
        as EgressProtocolError msg "request header names must be unique ignoring case" ;;
      check_headers (checked ++ [(name, value)]) items'
  | _ :: _ => protocol_error "request headers must be a string mapping"
  end.

Definition _validate_headers (headers : json) : res (list (string * string)) :=
  match headers with
  | JObj items => check_headers [] items
  | _ => protocol_error "request headers must be a string mapping"
  end.

Definition mediation_error {A} (m : string) : res A := raise EgressMediationError m.

Definition check_response_header (item : json) : res (string * string) :=
  match item with
  | JList [JStr name; JStr value] =>
      raise_if (name == "") || negb (header_name_token name) || negb (header_value_text value)
        as EgressMediationError msg "mediated HTTPS response headers are invalid" ;;
      Ok (name, value)
  | _ => mediation_error "mediated HTTPS response headers are invalid"
  end.

(** The bytes of the status line and the headers. *)
Definition metadata_bytes (status : Z) (headers : list (string * string)) : Z :=
  slen ("HTTP/1.1 " +:+ pretty status) + 2 + 2 + sumZ (fun nv => slen (fst nv) + 2 + slen (snd nv) + 2) headers.

Definition _validate_response (m : Mediator) (r : RawResponse) : res (Z * list (string * string) * string) :=
  match raw_status r with
  | JInt status =>
      raise_if negb ((100 <=? status) && (status <=? 599))
        as EgressMediationError msg "mediated HTTPS response status is invalid" ;;
      match raw_headers r with
      | JList items =>
          let? checked_headers := res_map check_response_header items in
          raise_if md_max_response_header_bytes m <? metadata_bytes status checked_headers
            as EgressMediationError msg "response metadata exceeded the configured byte limit" ;;
          match raw_body r with
          | None => mediation_error "mediated HTTPS response body is invalid"
          | Some body =>
              raise_if md_max_response_bytes m <? slen body
                as EgressMediationError msg "response body exceeded the configured byte limit" ;;
              Ok (status, checked_headers, body)
          end
      | _ => mediation_error "mediated HTTPS response headers are invalid"
      end
  | _ => mediation_error "mediated HTTPS response status is invalid"
  end.

Definition _required_single_header (headers : list (string * string)) (name : string) : res string :=
  match List.filter (fun nv => lower (fst nv) == lower name) headers with
  | [] => protocol_error "redirect response is missing the required header"
  | [(_, value)] =>
      raise_if value == "" as EgressProtocolError msg "redirect response carries an empty header" ;; Ok value
  | _ => protocol_error "redirect response carries multiple headers"
  end.

(** The addresses of the endpoints, as a sorted list without repetitions. *)
Definition canonical_set (xs : list string) : list string := sorted_strings (remove_dups xs).

Definition _address_set (endpoints : list ResolvedEndpoint) : res (list string) :=
  let? addresses :=
    catch is_value_error (res_map (fun e => _canonical_ip (en_ip e)) endpoints)
      (fun _ => mediation_error "destination DNS resolver returned an invalid address") in
  let? metadata_addresses := res_map _canonical_ip METADATA_ADDRESSES in
  raise_if existsb (fun a => mem a metadata_addresses) addresses
    as ScopeViolationError msg "execution egress to cloud metadata is strictly blocked" ;;
  Ok (canonical_set addresses).

(** [parsed.hostname or ""] and [parsed.port or 443]. *)
Definition connect_host (parsed : SplitResult) : string := default "" (u_hostname parsed).

Definition connect_port (parsed : SplitResult) : res Z :=
  let? port := u_port parsed in
  Ok match port with Some p => if p =? 0 then 443 else p | None => 443 end.

(** The value of the [Host] header. *)
Definition host_header (hostname : string) (port : Z) : string :=
  if port =? 443 then host_literal hostname else host_literal hostname +:+ ":" +:+ pretty port.

(** ** Effects *)

Section Mediator.
Context `{Host} `{Environment}.

Definition always (_ : exc) : bool := true.

Definition monotonic : eff trace Z := fun tr => let t := env_clock tr in (Ok t, EvClock t :: tr).

Definition _remaining_seconds (deadline : Z) : eff trace Z :=
  do! now := monotonic in
  do_if deadline - now <=? 0 as EgressMediationError msg "operation exceeded the configured deadline" ;;
  eff_ret (deadline - now).

Definition observe (observation : EgressObservation) : eff trace unit := fun tr => (Ok tt, EvObserve observation :: tr).

(** The calls of the outside world. *)
Definition call_resolver (hostname : string) (port : Z) : eff trace (option (list ResolvedEndpoint)) := fun tr =>
  let answer := env_resolver tr hostname port in (answer, EvResolve hostname port answer :: tr).

Definition call_open (endpoint : ResolvedEndpoint) (hostname : string) (port timeout : Z) : eff trace OpenEgressConnection :=
  fun tr => let answer := env_open tr endpoint hostname port timeout in
            (answer, EvOpen endpoint hostname port timeout answer :: tr).

Definition call_verify (m : Mediator) (hostname : string) (connection : OpenEgressConnection)
    : eff trace AuthenticatedServiceIdentity := fun tr =>
  let answer :=
    match md_verifier m with
    | CertificateURI trust_domain =>
        verify_certificate trust_domain (peer_certificate_der connection) (peer_certificate connection)
    | OtherVerifier => env_verify tr hostname connection
    end in
  (answer, EvVerify hostname connection answer :: tr).

Definition call_before_send : eff trace unit := fun tr =>
  let answer := env_before_send tr in (answer, EvBeforeSend answer :: tr).

Definition call_request (connection : OpenEgressConnection) (request : Outbound) : eff trace RawResponse := fun tr =>
  let answer := env_request tr connection request in (answer, EvRequest connection request answer :: tr).

Definition call_close (connection : OpenEgressConnection) : eff trace unit := fun tr =>
  let answer := env_close tr connection in (answer, EvClose connection answer :: tr).

(** *** Steps that requests and gateway dispatches share *)

(** [try: m except EgressMediationError: raise except Exception: raise EgressMediationError(text)]. *)
Definition mediated {A} (text : string) (m : eff trace A) : eff trace A :=
  eff_catch always m (fun e => eff_lift (if is_mediation_error e then Raise e else mediation_error text)).

Definition _resolve (hostname : string) (port deadline : Z) : eff trace (list ResolvedEndpoint) :=
  do! _ := _remaining_seconds deadline in
  do! endpoints := mediated "destination DNS resolution failed" (call_resolver hostname port) in
  do! _ := _remaining_seconds deadline in
  match endpoints with
  | None => eff_raise EgressMediationError "destination DNS resolver returned an invalid result"
  | Some endpoints => eff_ret endpoints
  end.

(** The addresses of the host, all of them in scope. *)
Definition _resolve_in_scope (m : Mediator) (hostname : string) (port deadline : Z)
    : eff trace (list ResolvedEndpoint * list string) :=
  do! endpoints := _resolve hostname port deadline in
  do! address_set := eff_lift (_address_set endpoints) in
  do! _ := eff_lift (check_resolved_destination (md_scope m) hostname address_set) in
  eff_ret (endpoints, address_set).

Definition _open (endpoint : ResolvedEndpoint) (hostname : string) (port deadline : Z) : eff trace OpenEgressConnection :=
  mediated "HTTPS connection to the validated endpoint failed"
    (do! timeout := _remaining_seconds deadline in
     do! connection := call_open endpoint hostname port timeout in
     do! _ := _remaining_seconds deadline in
     eff_ret connection).

(** The peer is the endpoint that was validated, the host still has the same
    addresses, and the certificate names a service. *)
Definition _check_peer (m : Mediator) (hostname : string) (port : Z) (endpoint : ResolvedEndpoint)
    (address_set : list string) (connection : OpenEgressConnection) (deadline : Z)
    : eff trace AuthenticatedServiceIdentity :=
  do! ip := eff_lift (catch always (_canonical_ip (peer_ip connection))
                        (fun _ => mediation_error "connected peer address is unavailable or invalid")) in
  do_if negb (ip == en_ip endpoint)
    as EgressMediationError msg "connected peer address differs from the validated endpoint" ;;
  do! (_, pinned_address_set) := _resolve_in_scope m hostname port deadline in
  do_if negb (pinned_address_set == address_set)
    as EgressMediationError msg "DNS address set changed between validation and request dispatch" ;;
  eff_catch always
    (do! _ := _remaining_seconds deadline in
     do! identity := call_verify m hostname connection in
     do! _ := _remaining_seconds deadline in
     eff_ret identity)
    (fun e => eff_lift (if exc_cls e == AuthenticatedResourceScopeError then Raise e
                        else raise AuthenticatedResourceScopeError "TLS peer resource identity verification failed")).

(** The request itself and the checks of its response. *)
Definition _exchange (m : Mediator) (parsed : SplitResult) (identity : AuthenticatedServiceIdentity)
    (connection : OpenEgressConnection) (method target : string) (headers : list (string * string)) (body : string)
    (deadline : Z) (text : string) : eff trace MediatedResponse :=
  do! raw :=
    mediated text
      (do! timeout := _remaining_seconds deadline in
       do! raw := call_request connection
                    {| ob_method := method; ob_target := target; ob_headers := headers; ob_body := body;
                       ob_max_response_bytes := md_max_response_bytes m;
                       ob_max_response_header_bytes := md_max_response_header_bytes m; ob_timeout := timeout |} in
       do! _ := _remaining_seconds deadline in
       eff_ret raw) in
  do! (status, response_headers, response_body) := eff_lift (_validate_response m raw) in
  eff_ret {| rs_status := status; rs_headers := response_headers; rs_body := response_body;
             rs_final_url := urlunsplit parsed; rs_identity := identity |}.

(** [try: body except Exception: close, raise], and then close. *)
Definition _with_connection (connection : OpenEgressConnection) (deadline : Z) (body : eff trace MediatedResponse)
    : eff trace MediatedResponse :=
  do! response :=
    eff_catch always body
      (fun e => do! _ := eff_catch always (call_close connection) (fun _ => eff_ret tt) in eff_lift (Raise e)) in
  do! _ := eff_catch always (call_close connection)
             (fun _ => eff_raise EgressMediationError "HTTPS connection cleanup failed") in
  do! _ := _remaining_seconds deadline in
  eff_ret response.

(** *** [request] *)

Definition _request_once (m : Mediator) (method : string) (parsed : SplitResult) (headers : list (string * string))
    (deadline : Z) : eff trace MediatedResponse :=
  let hostname := connect_host parsed in
  do! port := eff_lift (connect_port parsed) in
  do! (endpoints, address_set) := _resolve_in_scope m hostname port deadline in
  match endpoints with
  | [] => eff_raise EgressMediationError "destination did not resolve to a usable endpoint"
  | endpoint :: _ =>
      do! connection := _open endpoint hostname port deadline in
      _with_connection connection deadline
        (do! identity := _check_peer m hostname port endpoint address_set connection deadline in
         let outbound_headers := ("Host", host_header hostname port) :: headers in
         do! target := eff_lift (_request_target parsed) in
         do! _ := eff_lift (require (md_allowlist m) identity target) in
         _exchange m parsed identity connection method target outbound_headers "" deadline
           "mediated HTTPS request failed")
  end.

Definition blocked_reason (e : exc) : string :=
  match exc_cls e with
  | ScopeViolationError => "ScopeViolationError"
  | EgressProtocolError => "EgressProtocolError"
  | AuthenticatedResourceScopeError => "AuthenticatedResourceScopeError"
  | _ => "EgressMediationError"
  end.

Definition denial (e : exc) : bool := is_mediation_error e || (exc_cls e == ScopeViolationError).

(** [except (EgressMediationError, ScopeViolationError)] of both entry points. *)
Definition _recorded {A} (current_url : json) (m : eff trace A) : eff trace A :=
  eff_catch denial m (fun e =>
    do! origin := eff_lift (_redacted_origin current_url) in
    do! _ := observe {| ob_origin := origin; ob_decision := "blocked"; ob_reason := blocked_reason e; ob_identity := None |} in
    eff_lift (Raise e)).

Definition allowed (current_url : json) (reason : string) (identity : AuthenticatedServiceIdentity) : eff trace unit :=
  do! origin := eff_lift (_redacted_origin current_url) in
  observe {| ob_origin := origin; ob_decision := "allowed"; ob_reason := reason; ob_identity := Some identity |}.

Definition origin_of (parsed : SplitResult) : res (string * string * Z) :=
  let? port := connect_port parsed in Ok (u_scheme parsed, connect_host parsed, port).

(** [origin[1:] == self._approved_origin]. *)
Definition is_approved (m : Mediator) (origin : string * string * Z) : bool :=
  md_approved_origin m == Some (snd (fst origin), snd origin).

Definition unapproved (m : Mediator) (origin : string * string * Z) : bool :=
  match md_approved_origin m with Some _ => negb (is_approved m origin) | None => false end.

Definition changed_origin (initial_origin : option (string * string * Z)) (origin : string * string * Z) : bool :=
  match initial_origin with Some initial => negb (origin == initial) | None => false end.

(** What a pass of the loop ends with: the response, or the next URL. *)
Inductive passed := Answered (response : MediatedResponse) | Redirected (url : json) (origin : string * string * Z).

Definition redirect_pass (m : Mediator) (method : string) (headers : list (string * string)) (deadline : Z) (last : bool)
    (current_url : json) (initial_origin : option (string * string * Z)) : eff trace passed :=
  do! parsed := eff_lift (_validate_url current_url) in
  do! origin := eff_lift (origin_of parsed) in
  do_if unapproved m origin
    as EgressProtocolError msg "mediated request origin does not match the approved operation" ;;
  do_if changed_origin initial_origin origin
    as EgressProtocolError msg "mediated requests cannot redirect to a different origin" ;;
  do! response := _request_once m method parsed headers deadline in
  if negb (mem (rs_status response) _REDIRECT_STATUSES) then
    do! _ := allowed current_url "authenticated_exact_scope" (rs_identity response) in
    eff_ret (Answered response)
  else
    do! location := eff_lift (_required_single_header (rs_headers response) "location") in
    do_if last as EgressProtocolError msg "redirect limit exceeded" ;;
    let base := match current_url with JStr s => s | _ => "" end in
    do! url := eff_lift (urljoin base location) in
    eff_ret (Redirected (JStr url) origin).

(** [for redirect_count in range(self._max_redirects + 1)], with [left] passes left. *)
Fixpoint redirect_loop (m : Mediator) (method : string) (headers : list (string * string)) (deadline : Z) (left : nat)
    (current_url : json) (initial_origin : option (string * string * Z)) : eff trace MediatedResponse :=
  match left with
  | O => eff_raise AssertionError "redirect loop escaped configured bound"
  | S left' =>
      do! pass := _recorded current_url
                    (redirect_pass m method headers deadline (Nat.eqb left' 0) current_url initial_origin) in
      match pass with
      | Answered response => eff_ret response
      | Redirected url origin => redirect_loop m method headers deadline left' url (Some origin)
      end
  end.

(** [monotonic() + self._timeout_seconds], or the caller's deadline when earlier. *)
Definition operation_deadline (m : Mediator) (deadline : option Z) : eff trace Z :=
  do! now := monotonic in
  let own := now + md_timeout m in
  eff_ret match deadline with Some d => Z.min own d | None => own end.

Definition checked_method (method : json) : res string :=
  match method with
  | JStr method =>
      let normalized_method := upper_method method in
      raise_if negb (mem normalized_method ["GET"; "HEAD"])
        as EgressProtocolError msg "egress broker permits only GET and HEAD" ;;
      Ok normalized_method
  | _ => protocol_error "egress broker request method must be a string"
  end.

Definition given_headers (headers : option json) : json := default (JObj []) headers.

Definition request (m : Mediator) (method url : json) (headers : option json) (deadline : option Z)
    : eff trace MediatedResponse :=
  do! operation_deadline := operation_deadline m deadline in
  do! (normalized_method, checked_headers) :=
    _recorded url
      (do! _ := _remaining_seconds operation_deadline in
       do! normalized_method := eff_lift (checked_method method) in
       do! checked_headers := eff_lift (_validate_headers (given_headers headers)) in
       eff_ret (normalized_method, checked_headers)) in
  redirect_loop m normalized_method checked_headers operation_deadline (Z.to_nat (md_max_redirects m + 1)) url None.

(** *** [post_gateway] *)

Definition GATEWAY_POST_BROKER_PROTOCOL : string := "cops.operator-gateway-dispatch/v2".

(** An [expected_identity] of another type is [None]. *)
Record GatewayPostEgressPolicy := {
  gp_protocol : json; gp_gateway_url : json; gp_request_target : json;
  gp_expected_identity : option AuthenticatedServiceIdentity; gp_expected_spiffe_id : json;
  gp_body_sha256 : json; gp_body_bytes : json; gp_max_body_bytes : json
}.

(** The SPIFFE identity is the URI of the identity in the trust domain of the verifier. *)
Definition spiffe_matches (m : Mediator) (identity : AuthenticatedServiceIdentity) (parsed : SplitResult) : bool :=
  (u_scheme parsed == "spiffe") &&
  match u_hostname parsed with
  | None => false
  | Some hostname =>
      (u_netloc parsed == hostname) && (u_path parsed == "/cops/v1/" +:+ identity_path identity) &&
      (u_query parsed == "") && (u_fragment parsed == "") &&
      match md_verifier m with CertificateURI trust_domain => trust_domain == hostname | OtherVerifier => false end
  end.

Definition is_lower_hex (c : ascii) : bool := is_ascii_digit c || ((97 <=? code c) && (code c <=? 102)).

Definition body_size_matches (policy : GatewayPostEgressPolicy) (body : string) : bool :=
  match gp_body_bytes policy, gp_max_body_bytes policy with
  | JInt body_bytes, JInt max_body_bytes =>
      (0 <=? body_bytes) && (0 <? max_body_bytes) && (body_bytes <=? max_body_bytes) && (slen body =? body_bytes)
  | _, _ => false
  end.

Definition body_digest_matches (policy : GatewayPostEgressPolicy) (body : string) : bool :=
  match gp_body_sha256 policy with
  | JStr digest => (slen digest =? 64) && string_all is_lower_hex digest && (sha256_hex body == digest)
  | _ => false
  end.

Definition _validate_gateway_post_policy (m : Mediator) (policy : GatewayPostEgressPolicy) (body : string)
    : res (SplitResult * string * AuthenticatedServiceIdentity * string) :=
  raise_if negb (match gp_protocol policy with JStr p => p == GATEWAY_POST_BROKER_PROTOCOL | _ => false end)
    as EgressProtocolError msg "unsupported gateway dispatch protocol version" ;;
  match gp_expected_identity policy, gp_expected_spiffe_id policy with
  | None, _ => protocol_error "gateway dispatch identity is invalid"
  | Some identity, JStr spiffe_id =>
      let? parsed_identity := urlsplit spiffe_id "" in
      raise_if negb (spiffe_matches m identity parsed_identity)
        as EgressProtocolError msg "gateway dispatch SPIFFE identity is invalid" ;;
      raise_if negb (body_size_matches policy body)
        as EgressProtocolError msg "gateway dispatch body size does not match the configured policy" ;;
      raise_if negb (body_digest_matches policy body)
        as EgressProtocolError msg "gateway dispatch body digest does not match the configured policy" ;;
      let? parsed := _validate_url (gp_gateway_url policy) in
      let? target := _request_target parsed in
      let? configured_target :=
        catch is_value_error (_validate_configured_request_target (gp_request_target policy))
          (fun _ => protocol_error "gateway dispatch target is invalid") in
      raise_if negb (configured_target == target)
        as EgressProtocolError msg "gateway dispatch target does not match the configured policy" ;;
      Ok (parsed, target, identity, spiffe_id)
  | Some _, _ => protocol_error "gateway dispatch SPIFFE identity is invalid"
  end.

(** [item == ("URI", spiffe_id)]. *)
Definition is_spiffe_name (spiffe_id : string) (item : cert_value) : bool :=
  match item with
  | CTuple [CStr kind; CStr value] => (kind == "URI") && (value == spiffe_id)
  | _ => false
  end.

Definition carries_spiffe (connection : OpenEgressConnection) (spiffe_id : string) : bool :=
  match subject_alt_names (peer_certificate connection) with
  | None => false
  | Some names => Nat.eqb (length (List.filter (is_spiffe_name spiffe_id) names)) 1
  end.

Definition _post_gateway_once (m : Mediator) (parsed : SplitResult) (target : string)
    (expected_identity : AuthenticatedServiceIdentity) (spiffe_id body : string) (headers : list (string * string))
    (deadline : Z) : eff trace MediatedResponse :=
  let hostname := connect_host parsed in
  do! port := eff_lift (connect_port parsed) in
  do! (endpoints, address_set) := _resolve_in_scope m hostname port deadline in
  match endpoints with
  | [] => eff_raise EgressMediationError "destination did not resolve to a usable endpoint"
  | endpoint :: _ =>
      do! connection := _open endpoint hostname port deadline in
      _with_connection connection deadline
        (do! identity := _check_peer m hostname port endpoint address_set connection deadline in
         do_if negb (identity == expected_identity)
           as AuthenticatedResourceScopeError msg "TLS peer identity does not match the configured gateway" ;;
         do_if negb (carries_spiffe connection spiffe_id)
           as AuthenticatedResourceScopeError msg "TLS peer SPIFFE identity does not match the configured gateway" ;;
         do! _ := eff_lift (require (md_allowlist m) identity target) in
         let outbound_headers :=
           ("Host", host_header hostname port) :: ("Content-Length", pretty (slen body)) :: headers in
         do! _ := eff_catch always call_before_send
                    (fun _ => eff_raise EgressMediationError "gateway dispatch authorization callback failed") in
         _exchange m parsed identity connection "POST" target outbound_headers body deadline
           "gateway dispatch failed after transmission may have begun")
  end.

Definition post_gateway (m : Mediator) (policy : GatewayPostEgressPolicy) (body : string) (headers : option json)
    (deadline : option Z) : eff trace MediatedResponse :=
  do! operation_deadline := operation_deadline m deadline in
  _recorded (gp_gateway_url policy)
    (do! _ := _remaining_seconds operation_deadline in
     do! (parsed, target, identity, spiffe_id) := eff_lift (_validate_gateway_post_policy m policy body) in
     do! origin := eff_lift (origin_of parsed) in
     do_if negb (is_approved m origin)
       as EgressProtocolError msg "gateway dispatch origin does not match the configured operation" ;;
     do! checked_headers := eff_lift (_validate_headers (given_headers headers)) in
     do! response := _post_gateway_once m parsed target identity spiffe_id body checked_headers operation_deadline in
     do_if mem (rs_status response) _REDIRECT_STATUSES
       as EgressMediationError msg "gateway dispatch did not return a terminal response" ;;
     do! _ := allowed (gp_gateway_url policy) "authenticated_exact_gateway_scope" (rs_identity response) in
     eff_ret response).
End Mediator.
