(* ===== verification/EgressSteps.v ===== *)
(** * The steps of the HTTPS execution mediator

    What each step of a mediated request may do and how it may end, in an arbitrary
    environment: resolvers and peers may answer differently every time. *)

From S2P Require Import Prelude PyStr Json JsonParse Canonical Timestamp PyIp PyUrl PyUrlFacts.
From S2P Require Import ScopeGuard Identity Egress.

(** ** Traces *)

(** The calls of a trace: everything but readings of the clock. *)
Definition is_step (ev : event) : bool := match ev with EvClock _ => false | _ => true end.
Definition steps (tr : trace) : list event := List.filter is_step tr.

Definition is_request (ev : event) : bool := match ev with EvRequest _ _ _ => true | _ => false end.
Definition requests (tr : trace) : nat := length (List.filter is_request tr).

Definition is_callback (ev : event) : bool := match ev with EvBeforeSend _ => true | _ => false end.
Definition callbacks (tr : trace) : nat := length (List.filter is_callback tr).

(** [self.observations], the last one first. *)
Definition observations (tr : trace) : list EgressObservation :=
  omap (fun ev => match ev with EvObserve o => Some o | _ => None end) tr.

(** Of two ends of one trace, the one with more calls is the longer. *)
Lemma suffix_longer (a b later later' : trace) :
  later ++ a = later' ++ b -> (length (steps a) < length (steps b))%nat -> (length a <= length b)%nat.
Proof.
  intros Heq Hs. destruct (Nat.le_gt_cases (length a) (length b)) as [|Hlt]; [done|]. exfalso.
  apply app_eq_inv in Heq as [(mid & -> & ->)|(mid & -> & ->)].
  - rewrite length_app in Hlt. lia.
  - unfold steps in Hs. rewrite List.filter_app, length_app in Hs. lia.
Qed.

(** Events that neither send, nor ask the caller, nor record. *)
Definition quiet_event (_ : trace) (ev : event) : Prop :=
  match ev with EvRequest _ _ _ | EvBeforeSend _ | EvObserve _ => False | _ => True end.
Definition quiet : trace -> trace -> Prop := added quiet_event.

Lemma quiet_counts tr0 tr : quiet tr0 tr ->
  requests tr = requests tr0 /\ callbacks tr = callbacks tr0 /\ observations tr = observations tr0.
Proof.
  induction 1 as [|ev tr _ (IH1 & IH2 & IH3) He]; [done|]. unfold requests, callbacks, observations in *.
  destruct ev; cbn [List.filter is_request is_callback omap list_omap quiet_event] in *; done.
Qed.

Lemma quiet_refl tr : quiet tr tr.
Proof. apply added_none. Qed.

Lemma quiet_trans tr0 tr1 tr2 : quiet tr0 tr1 -> quiet tr1 tr2 -> quiet tr0 tr2.
Proof. apply added_trans. Qed.

Lemma quiet_one ev tr0 tr : quiet tr0 tr -> quiet_event tr ev -> quiet tr0 (ev :: tr).
Proof. by constructor. Qed.

Create HintDb egress.
#[export] Hint Resolve quiet_refl : egress.
#[export] Hint Extern 1 (quiet _ (_ :: _)) => (apply quiet_one; [|exact I]) : egress.
#[export] Hint Extern 2 (quiet _ _) => (eapply quiet_trans; [eassumption|]) : egress.

(** ** Outcomes of the steps *)

Section Steps.
Context `{Host} `{Environment}.

Lemma mediation_denial e : is_mediation_error e = true -> denial e = true.
Proof. unfold denial. by intros ->. Qed.

Lemma remaining_post deadline tr :
  post (_remaining_seconds deadline) tr (fun r tr' => exists now, tr' = EvClock now :: tr /\
    match r with
    | Ok seconds => seconds = deadline - now /\ now < deadline
    | Raise e => exc_cls e = EgressMediationError
    end).
Proof.
  unfold post, _remaining_seconds, eff_bind, monotonic. destruct (_ <=? 0) eqn:E; simpl_bool; cbn.
  - by exists (env_clock tr).
  - exists (env_clock tr). split; [done|]. split; [done|lia].
Qed.

Lemma mediated_post {A} text (m : eff trace A) tr Q :
  post m tr (fun r tr' => match r with
                          | Ok a => Q (Ok a) tr'
                          | Raise e => forall e', is_mediation_error e' = true -> Q (Raise e') tr'
                          end) ->
  post (mediated text m) tr Q.
Proof.
  unfold mediated. intros Hm. apply post_catch. eapply post_mono; [exact Hm|]. intros [a|e] tr' Hq; [done|].
  cbn [always]. unfold post, eff_lift. destruct (is_mediation_error e) eqn:E; [by apply Hq|]. by apply Hq.
Qed.

Lemma mediation_cls e : exc_cls e = EgressMediationError -> is_mediation_error e = true.
Proof. unfold is_mediation_error. by intros ->. Qed.
End Steps.

(** A check of the deadline: time is left, or the call ends with a mediation error. *)
Ltac step_clock :=
  eapply post_seq; [apply remaining_post| |]; cbn beta;
  [intros ? ? (? & -> & -> & ?) | intros ? ? (? & -> & ?%mediation_cls)].

Section Steps.
Context `{Host} `{Environment}.

(** A resolution asks the resolver once. *)
Lemma resolve_post hostname port deadline tr :
  post (_resolve hostname port deadline) tr (fun r tr' => quiet tr tr' /\
    match r with
    | Ok endpoints => steps tr' = EvResolve hostname port (Ok (Some endpoints)) :: steps tr
    | Raise e => is_mediation_error e = true
    end).
Proof.
  unfold _resolve. step_clock; [|by eauto with egress].
  eapply post_seq.
  - apply mediated_post. unfold post, call_resolver. instantiate (1 := fun r tr' => exists answer,
      tr' = EvResolve hostname port answer :: EvClock x :: tr /\
      match r with Ok a => answer = Ok a | Raise e => is_mediation_error e = true end).
    destruct (env_resolver _ _ _); cbn; eauto.
  - intros endpoints tr' (answer & -> & ->). step_clock; [|by eauto 6 with egress].
    destruct endpoints as [endpoints|]; cbn; split; eauto 6 with egress.
  - intros e tr' (answer & -> & He). eauto 6 with egress.
Qed.

Lemma res_map_raises {A B} (f : A -> res B) (P : exc -> Prop) xs e :
  (forall x e, f x = Raise e -> P e) -> res_map f xs = Raise e -> P e.
Proof.
  intros Hf. induction xs as [|x xs IH]; cbn [res_map]; [done|]. destruct (f x) as [y|e'] eqn:E; cbn [res_bind].
  - destruct (res_map f xs); cbn [res_bind]; [done|]. intros [= ->]. by apply IH.
  - intros [= <-]. by eapply Hf.
Qed.

Lemma for_denial m c : c = EgressMediationError \/ c = EgressProtocolError \/ c = ScopeViolationError ->
  denial (Exc c m) = true.
Proof. by intros [->|[->| ->]]. Qed.

Lemma canonical_ip_raises s e : _canonical_ip s = Raise e -> is_value_error e = true.
Proof. unfold _canonical_ip, raise. destruct (parse_ip_address s); [done|]. by intros [= <-]. Qed.

Lemma address_set_raises endpoints e : _address_set endpoints = Raise e -> denial e = true.
Proof.
  unfold _address_set. intros H1.
  destruct (catch is_value_error _ _) as [addresses|e1] eqn:E1; cbn [res_bind] in H1.
  - destruct (res_map _canonical_ip METADATA_ADDRESSES) as [metadata|e2] eqn:E2; cbn [res_bind] in H1.
    + destruct (existsb _ _); [by injection H1 as <-|done].
    + by vm_compute in E2.
  - injection H1 as <-. destruct (res_map _ endpoints) as [|e2] eqn:E2; [done|]. cbn [catch] in E1.
    assert (is_value_error e2 = true) as Hv.
    { eapply (res_map_raises _ (fun e => is_value_error e = true)); [|exact E2].
      intros x e3. apply canonical_ip_raises. }
    rewrite Hv in E1. by injection E1 as <-.
Qed.

Lemma validate_ip_raises scope ip e : _validate_ip scope ip = Raise e -> exc_cls e = ScopeViolationError.
Proof. unfold _validate_ip, violation, raise. intros H1. repeat case_match; congruence || (injection H1 as <-; done). Qed.

Lemma validate_answers_raises scope addresses e :
  validate_answers scope addresses = Raise e -> exc_cls e = ScopeViolationError.
Proof.
  induction addresses as [|s addresses IH]; cbn [validate_answers]; [done|]. unfold violation, raise.
  destruct (parse_ip_or_network s) as [[ip|net]|]; [|by intros [= <-]..].
  destruct (_validate_ip scope (unmap ip)) as [[]|e1] eqn:E; cbn [res_bind].
  - destruct (validate_answers scope addresses); cbn [res_bind]; [done|]. intros [= <-]. by apply IH.
  - intros [= <-]. by eapply validate_ip_raises.
Qed.

Lemma resolved_destination_raises scope host addresses e :
  check_resolved_destination scope host addresses = Raise e -> denial e = true.
Proof.
  assert (Hc : forall e, exc_cls e = ScopeViolationError -> denial e = true) by (intros [c ?]; simpl; by intros ->).
  unfold check_resolved_destination, raise. destruct (validate_answers scope addresses) as [ips|e1] eqn:E; cbn [res_bind]; intros H1;
    repeat case_match; try discriminate; injection H1 as <-; first [done | by eapply Hc, validate_answers_raises].
Qed.

(** A resolution in scope. *)
Definition resolved_in_scope (m : Mediator) (hostname : string) (endpoints : list ResolvedEndpoint)
    (address_set : list string) : Prop :=
  _address_set endpoints = Ok address_set /\ check_resolved_destination (md_scope m) hostname address_set = Ok tt.

Lemma in_scope_post m hostname port deadline tr :
  post (_resolve_in_scope m hostname port deadline) tr (fun r tr' => quiet tr tr' /\
    match r with
    | Ok (endpoints, address_set) =>
        steps tr' = EvResolve hostname port (Ok (Some endpoints)) :: steps tr /\
        resolved_in_scope m hostname endpoints address_set
    | Raise e => denial e = true
    end).
Proof.
  unfold _resolve_in_scope. eapply post_seq; [apply resolve_post|..]; cbn beta.
  - intros endpoints tr' [Hq Hs]. unfold post, eff_bind, eff_lift, resolved_in_scope.
    destruct (_address_set endpoints) as [address_set|e] eqn:Ea; [|split; [done|by eapply address_set_raises]].
    destruct (check_resolved_destination _ _ _) as [[]|e] eqn:Ec; cbn; [done|].
    split; [done|by eapply resolved_destination_raises].
  - intros e tr' [Hq He]. split; [done|by apply mediation_denial].
Qed.

Lemma open_post endpoint hostname port deadline tr :
  post (_open endpoint hostname port deadline) tr (fun r tr' => quiet tr tr' /\
    match r with
    | Ok connection => exists timeout, steps tr' = EvOpen endpoint hostname port timeout (Ok connection) :: steps tr
    | Raise e => is_mediation_error e = true
    end).
Proof.
  unfold _open. apply mediated_post. step_clock; [|by eauto with egress].
  eapply (post_seq _ _ _ (fun r tr' => tr' = EvOpen endpoint hostname port (deadline - x) r :: EvClock x :: tr)); [done|..].
  - intros connection tr' ->. step_clock; [split; [eauto 6 with egress|by exists (deadline - x)]|by eauto 6 with egress].
  - intros e tr' -> e' He'. eauto 6 with egress.
Qed.

Lemma identity_failure {A} text tr (Q : res A -> trace -> Prop) e :
  (forall e', denial e' = true -> Q (Raise e') tr) ->
  post (eff_lift (if exc_cls e == AuthenticatedResourceScopeError then Raise e
                  else raise AuthenticatedResourceScopeError text)) tr Q.
Proof.
  intros Hq. unfold post, eff_lift. destruct (exc_cls e == _) eqn:E; [apply eqb_true in E|]; apply Hq; [|done].
  unfold denial, is_mediation_error. by rewrite E.
Qed.

(** The identity was read from the peer's certificate, when the verifier does so. *)
Definition proved_identity (m : Mediator) (connection : OpenEgressConnection) (identity : AuthenticatedServiceIdentity) : Prop :=
  match md_verifier m with
  | CertificateURI trust_domain =>
      verify_certificate trust_domain (peer_certificate_der connection) (peer_certificate connection) = Ok identity
  | OtherVerifier => True
  end.

(** The identity of a connected peer: what was checked of it, and in which order. *)
Lemma check_peer_post m hostname port endpoint address_set connection deadline tr :
  post (_check_peer m hostname port endpoint address_set connection deadline) tr (fun r tr' => quiet tr tr' /\
    match r with
    | Ok identity =>
        _canonical_ip (peer_ip connection) = Ok (en_ip endpoint) /\
        exists endpoints,
          steps tr' = EvVerify hostname connection (Ok identity) ::
                      EvResolve hostname port (Ok (Some endpoints)) :: steps tr /\
          resolved_in_scope m hostname endpoints address_set /\ proved_identity m connection identity
    | Raise e => denial e = true
    end).
Proof.
  unfold _check_peer. unfold post at 1, eff_bind at 1, eff_lift at 1.
  destruct (_canonical_ip (peer_ip connection)) as [ip|e]; cbn [catch always]; [|by split; [apply quiet_refl|]].
  destruct (negb (ip == en_ip endpoint)) eqn:Eip; [by split; [apply quiet_refl|]|]. simpl_bool. subst ip.
  eapply post_seq; [apply in_scope_post|..]; cbn beta; [|by intros e tr' [Hq He]].
  intros [endpoints pinned] tr1 (Hq1 & Hs1 & Hin). destruct (negb (pinned == address_set)) eqn:Ep; [done|].
  simpl_bool. subst pinned. apply post_catch.
  step_clock; cbn [always]; [|apply identity_failure; by eauto with egress].
  eapply (post_seq _ _ _ (fun r tr' => tr' = EvVerify hostname connection r :: EvClock x :: tr1 /\
            match r with Ok identity => proved_identity m connection identity | Raise _ => True end)).
  { unfold post, call_verify, proved_identity. split; [done|]. destruct (md_verifier m); repeat case_match; done. }
  - intros identity tr' [-> Hid]. step_clock; cbn [always]; [|apply identity_failure; by eauto 6 with egress].
    unfold post, eff_ret. split; [by eauto 6 with egress|]. split; [done|]. exists endpoints. simpl. by rewrite Hs1.
  - intros e tr' [-> _]. cbn [always]. apply identity_failure. by eauto 6 with egress.
Qed.

(** *** Responses *)

(** What a response that is released satisfies. *)
Record response_ok (m : Mediator) (response : MediatedResponse) : Prop := {
  status_range : 100 <= rs_status response <= 599;
  header_texts : Forall (fun nv => fst nv <> "" /\ header_name_token (fst nv) = true /\ header_value_text (snd nv) = true)
                   (rs_headers response);
  metadata_limit : metadata_bytes (rs_status response) (rs_headers response) <= md_max_response_header_bytes m;
  body_limit : slen (rs_body response) <= md_max_response_bytes m;
}.

Lemma check_response_header_ok item nv : check_response_header item = Ok nv ->
  fst nv <> "" /\ header_name_token (fst nv) = true /\ header_value_text (snd nv) = true.
Proof.
  unfold check_response_header, mediation_error. intros H1. repeat guard_ok H1. injection H1 as <-. by simpl_bool.
Qed.

Lemma validate_response_ok m raw status headers body final_url identity :
  _validate_response m raw = Ok (status, headers, body) ->
  response_ok m {| rs_status := status; rs_headers := headers; rs_body := body; rs_final_url := final_url;
                   rs_identity := identity |}.
Proof.
  unfold _validate_response, mediation_error. intros H1. do 3 guard_ok H1. apply res_bind_ok in H1 as (checked & Hc & H1).
  do 3 guard_ok H1. injection H1 as <- <- <-. simpl_bool. constructor; simpl; [lia| |lia|lia].
  apply res_map_ok in Hc. clear -Hc. induction Hc as [|item nv items checked Hi _ IH]; constructor; [|done].
  by eapply check_response_header_ok.
Qed.

Lemma validate_response_raises m raw e : _validate_response m raw = Raise e -> is_mediation_error e = true.
Proof.
  unfold _validate_response, mediation_error, raise. intros H1.
  destruct (raw_status raw) as [| |status| | | |]; try (injection H1 as <-; done).
  destruct (negb _); [by injection H1 as <-|].
  destruct (raw_headers raw) as [| | | | |items|]; try (injection H1 as <-; done).
  destruct (res_map check_response_header items) as [checked|e1] eqn:E; cbn [res_bind] in H1.
  - repeat case_match; try discriminate; injection H1 as <-; done.
  - injection H1 as <-. eapply (res_map_raises _ (fun e => is_mediation_error e = true)); [|exact E].
    intros item e. unfold check_response_header, mediation_error, raise. clear. intros H1.
    repeat case_match; try discriminate; injection H1 as <-; done.
Qed.

(** The arguments of [connection.request]. *)
Definition outbound (m : Mediator) (method target : string) (headers : list (string * string)) (body : string)
    (timeout : Z) : Outbound :=
  {| ob_method := method; ob_target := target; ob_headers := headers; ob_body := body;
     ob_max_response_bytes := md_max_response_bytes m; ob_max_response_header_bytes := md_max_response_header_bytes m;
     ob_timeout := timeout |}.

(** One request or none; a response only after one. *)
Lemma exchange_post m parsed identity connection method target headers body deadline text tr :
  post (_exchange m parsed identity connection method target headers body deadline text) tr (fun r tr' =>
    (quiet tr tr' /\ match r with Ok _ => False | Raise e => denial e = true end) \/
    (exists now answer, now < deadline /\
       quiet (EvRequest connection (outbound m method target headers body (deadline - now)) answer :: EvClock now :: tr) tr' /\
       match r with
       | Ok response => response_ok m response /\ rs_identity response = identity /\ rs_final_url response = urlunsplit parsed
       | Raise e => denial e = true
       end)).
Proof.
  unfold _exchange. eapply (post_seq _ _ _ (fun r tr' =>
    (quiet tr tr' /\ match r with Ok _ => False | Raise e => denial e = true end) \/
    (exists now answer, now < deadline /\
       quiet (EvRequest connection (outbound m method target headers body (deadline - now)) answer :: EvClock now :: tr) tr' /\
       match r with Ok _ => True | Raise e => denial e = true end))).
  - apply mediated_post. step_clock; [|intros e' He'; left; split; [eauto with egress|by apply mediation_denial]].
    fold (outbound m method target headers body (deadline - x)).
    eapply (post_seq _ _ _ (fun r tr' =>
      tr' = EvRequest connection (outbound m method target headers body (deadline - x)) r :: EvClock x :: tr)); [done|..].
    + intros raw tr' ->. step_clock; [|intros e' ?%mediation_denial]; right; exists x; eexists; eauto with egress.
    + intros e tr' -> e' ?%mediation_denial. right. exists x. eexists. eauto with egress.
  - intros raw tr' [[_ []]|(now & answer & Hnow & Hq & _)]. unfold post, eff_bind, eff_lift.
    destruct (_validate_response m raw) as [[[status rheaders] rbody]|e] eqn:E; right; exists now, answer.
    + split; [done|]. split; [done|]. split; [by eapply validate_response_ok|done].
    + split; [done|]. split; [done|]. by eapply mediation_denial, validate_response_raises.
  - intros e tr' [?|(now & answer & ?)]; [by left|right]. by exists now, answer.
Qed.

(** The connection is closed on every path; closing neither sends nor records. *)
Lemma with_connection_post connection deadline body tr (P : res MediatedResponse -> trace -> Prop) :
  post body tr P ->
  post (_with_connection connection deadline body) tr (fun r tr' => exists r1 tr1, P r1 tr1 /\ quiet tr1 tr' /\
    (In (EvClose connection (Ok tt)) tr' \/ exists e, In (EvClose connection (Raise e)) tr') /\
    match r with
    | Ok response => r1 = Ok response
    | Raise e => r1 = Raise e \/ (exists response, r1 = Ok response /\ is_mediation_error e = true)
    end).
Proof.
  intros Hb. unfold _with_connection. eapply (post_seq _ _ _ (fun r tr' => match r with
    | Ok response => P (Ok response) tr'
    | Raise e => exists tr1, P (Raise e) tr1 /\ exists a, tr' = EvClose connection a :: tr1
    end)).
  - apply post_catch. eapply post_mono; [exact Hb|]. intros [response|e] tr1 Hp; [done|]. cbn [always].
    unfold post, eff_bind, eff_catch, eff_lift, eff_ret, call_close. destruct (env_close tr1 connection); cbn; eauto.
  - intros response tr1 Hp. unfold post, eff_bind at 1, eff_catch, call_close.
    destruct (env_close tr1 connection) as [[]|e]; cbn [always].
    + change (post (eff_bind (_remaining_seconds deadline) (fun _ => eff_ret response)) (EvClose connection (Ok tt) :: tr1)
        (fun r tr' => exists r1 tr1, P r1 tr1 /\ quiet tr1 tr' /\
          (In (EvClose connection (Ok tt)) tr' \/ exists e, In (EvClose connection (Raise e)) tr') /\
          match r with
          | Ok response => r1 = Ok response
          | Raise e => r1 = Raise e \/ (exists response, r1 = Ok response /\ is_mediation_error e = true)
          end)).
      step_clock; exists (Ok response), tr1; (split; [done|]); (split; [eauto with egress|]);
        (split; [simpl; by auto|]); [done|by eauto].
    + unfold eff_raise, eff_lift, raise. exists (Ok response), tr1. split; [done|]. split; [eauto with egress|].
      split; [simpl; by eauto|by eauto].
  - intros e tr' (tr1 & Hp & a & ->). exists (Raise e), tr1. split; [done|]. split; [eauto with egress|].
    split; [|by left]. destruct a as [[]|e']; simpl; eauto.
Qed.

(** *** One connection *)

(** What is allowed between two observations: requests as [J] permits, callbacks as [C] does. *)
Definition sends (J : trace -> OpenEgressConnection -> Outbound -> Prop) (C : trace -> Prop) (before : trace) (ev : event) : Prop :=
  match ev with
  | EvRequest connection request _ => J before connection request
  | EvBeforeSend answer => answer = env_before_send before /\ C before
  | EvObserve _ => False
  | _ => True
  end.

Lemma quiet_sends J C tr tr' : quiet tr tr' -> added (sends J C) tr tr'.
Proof. apply added_mono. by intros ? []. Qed.

Lemma sends_observations J C tr tr' : added (sends J C) tr tr' -> observations tr' = observations tr.
Proof. induction 1 as [|ev tr1 _ IH Hs]; [done|]. by destruct ev. Qed.

(** The peer of a connection, at the time [before]: it was opened to the first address of a
    resolution in scope, it is the peer that answered, a second resolution gave the same
    addresses, and then its identity was established; nothing else was done since [start]. *)
Record pinned_peer (m : Mediator) (parsed : SplitResult) (start before : trace) (connection : OpenEgressConnection)
    (identity : AuthenticatedServiceIdentity) (port : Z) : Prop := {
  pinned_port : connect_port parsed = Ok port;
  pinned_steps : exists endpoint rest endpoints address_set timeout,
    let hostname := connect_host parsed in
    steps before = [EvVerify hostname connection (Ok identity); EvResolve hostname port (Ok (Some endpoints));
                    EvOpen endpoint hostname port timeout (Ok connection);
                    EvResolve hostname port (Ok (Some (endpoint :: rest)))] ++ steps start /\
    resolved_in_scope m hostname (endpoint :: rest) address_set /\ resolved_in_scope m hostname endpoints address_set /\
    _canonical_ip (peer_ip connection) = Ok (en_ip endpoint);
  pinned_identity : proved_identity m connection identity;
}.

(** Up to the identity of the peer. *)
Definition connect_and_check (m : Mediator) (parsed : SplitResult) (deadline : Z)
    (use : string -> Z -> OpenEgressConnection -> AuthenticatedServiceIdentity -> eff trace MediatedResponse)
    : eff trace MediatedResponse :=
  let hostname := connect_host parsed in
  do! port := eff_lift (connect_port parsed) in
  do! (endpoints, address_set) := _resolve_in_scope m hostname port deadline in
  match endpoints with
  | [] => eff_raise EgressMediationError "destination did not resolve to a usable endpoint"
  | endpoint :: _ =>
      do! connection := _open endpoint hostname port deadline in
      _with_connection connection deadline
        (do! identity := _check_peer m hostname port endpoint address_set connection deadline in
         use hostname port connection identity)
  end.

(** What one use of a connection does, with at most [k] callbacks, and gives. *)
Definition one_send (k : nat) (J : trace -> OpenEgressConnection -> Outbound -> Prop) (C : trace -> Prop) (m : Mediator)
    (parsed : SplitResult) (tr : trace) (r : res MediatedResponse) (tr' : trace) : Prop :=
  added (sends J C) tr tr' /\ (requests tr' <= S (requests tr))%nat /\ (callbacks tr' <= k + callbacks tr)%nat /\
  match r with
  | Ok response => response_ok m response /\ rs_final_url response = urlunsplit parsed
  | Raise e => denial e = true
  end.

Lemma one_send_before k J C m parsed tr tr1 r tr' :
  quiet tr tr1 -> one_send k J C m parsed tr1 r tr' -> one_send k J C m parsed tr r tr'.
Proof.
  intros Hq (Ha & Hr & Hc & Hres). destruct (quiet_counts _ _ Hq) as (Er & Ec & _). unfold one_send.
  rewrite Er in Hr. rewrite Ec in Hc. split; [|done]. eapply added_trans; [|exact Ha]. by apply quiet_sends.
Qed.

Lemma one_send_after k J C m parsed tr tr1 r1 r tr' :
  one_send k J C m parsed tr r1 tr1 -> quiet tr1 tr' ->
  match r with
  | Ok response => r1 = Ok response
  | Raise e => r1 = Raise e \/ exists response, r1 = Ok response /\ is_mediation_error e = true
  end -> one_send k J C m parsed tr r tr'.
Proof.
  intros (Ha & Hr & Hc & Hres) Hq Hr1. destruct (quiet_counts _ _ Hq) as (Er & Ec & _). unfold one_send. rewrite Er, Ec.
  split; [eapply added_trans; [exact Ha|]; by apply quiet_sends|]. split; [done|]. split; [done|].
  destruct r as [response|e]; [by subst|]. destruct Hr1 as [->|(response & _ & He)]; [done|]. by apply mediation_denial.
Qed.

Lemma one_send_quiet k J C m parsed tr e tr' : quiet tr tr' -> denial e = true -> one_send k J C m parsed tr (Raise e) tr'.
Proof.
  intros Hq He. destruct (quiet_counts _ _ Hq) as (Er & Ec & _). unfold one_send. rewrite Er, Ec.
  split; [by apply quiet_sends|]. auto with lia.
Qed.

Lemma connect_post k J C m parsed port deadline use tr :
  connect_port parsed = Ok port ->
  (forall connection identity before, quiet tr before ->
     pinned_peer m parsed tr before connection identity port ->
     post (use (connect_host parsed) port connection identity) before (one_send k J C m parsed before)) ->
  post (connect_and_check m parsed deadline use) tr (one_send k J C m parsed tr).
Proof.
  intros Hport Huse. unfold connect_and_check. unfold post at 1, eff_bind at 1, eff_lift at 1. rewrite Hport.
  eapply post_seq; [apply in_scope_post|..]; cbn beta; [|intros e tr' [Hq He]; by apply one_send_quiet].
  intros [[|endpoint rest] address_set] tr1 (Hq1 & Hs1 & Hin1); [by apply one_send_quiet|].
  eapply post_seq; [apply open_post|..]; cbn beta;
    [|intros e tr' [Hq He]; apply one_send_quiet; [by eapply quiet_trans|by apply mediation_denial]].
  intros connection tr2 (Hq2 & timeout & Hs2).
  eapply post_mono; [eapply (with_connection_post _ _ _ _ (one_send k J C m parsed tr))|].
  - eapply post_seq; [apply check_peer_post|..]; cbn beta.
    + intros identity tr3 (Hq3 & Hip & endpoints & Hs3 & Hin2 & Hid).
      assert (Hq : quiet tr tr3) by (eapply quiet_trans; [exact Hq1|]; by eapply quiet_trans).
      eapply post_mono; [apply Huse; [done|]|].
      * constructor; [done| |done]. exists endpoint, rest, endpoints, address_set, timeout. cbn zeta.
        split; [|done]. by rewrite Hs3, Hs2, Hs1.
      * intros r tr' Hone. by eapply one_send_before.
    + intros e tr3 [Hq3 He]. apply one_send_quiet; [|done]. eapply quiet_trans; [exact Hq1|]. by eapply quiet_trans.
  - intros r tr' (r1 & tr3 & Hone & Hq & _ & Hr). by eapply one_send_after.
Qed.

(** *** Requests *)

(** A request that may leave: to a peer that is pinned, for a target its identity is allowed,
    with the checked headers and the host of the URL, before the deadline. *)
Record authorized_request (m : Mediator) (parsed : SplitResult) (method : string) (headers : list (string * string))
    (deadline : Z) (start before : trace) (connection : OpenEgressConnection) (request : Outbound) : Prop := {
  request_authority : exists identity port target now earlier,
    before = EvClock now :: earlier /\ now < deadline /\
    pinned_peer m parsed start before connection identity port /\
    _request_target parsed = Ok target /\ require (md_allowlist m) identity target = Ok tt /\
    request = outbound m method target (("Host", host_header (connect_host parsed) port) :: headers) "" (deadline - now);
}.

Lemma pinned_clock m parsed start before connection identity port now :
  pinned_peer m parsed start before connection identity port ->
  pinned_peer m parsed start (EvClock now :: before) connection identity port.
Proof. by intros [? ? ?]. Qed.

Lemma exchange_one_send J C m parsed identity connection method target headers body deadline text tr :
  (forall now, now < deadline -> J (EvClock now :: tr) connection (outbound m method target headers body (deadline - now))) ->
  post (_exchange m parsed identity connection method target headers body deadline text) tr (one_send 0 J C m parsed tr).
Proof.
  intros HJ. eapply post_mono; [apply exchange_post|]. cbn beta.
  intros r tr' [[Hq Hr]|(now & answer & Hnow & Hq & Hr)].
  - destruct r; [done|]. by apply one_send_quiet.
  - eapply (one_send_after _ _ _ _ _ _ (EvRequest connection _ answer :: EvClock now :: tr) r); [|exact Hq|by destruct r; [|left]].
    split; [|split; [|split]].
    + repeat constructor. by apply HJ.
    + unfold requests. simpl. lia.
    + unfold callbacks. simpl. lia.
    + destruct r; [|done]. by destruct Hr as (? & _ & ?).
Qed.

Lemma require_raises allowlist identity target e : require allowlist identity target = Raise e -> denial e = true.
Proof. unfold require, raise. intros H1. repeat case_match; try discriminate; by injection H1 as <-. Qed.

Lemma request_once_post m method parsed headers port target deadline tr :
  connect_port parsed = Ok port -> _request_target parsed = Ok target ->
  post (_request_once m method parsed headers deadline) tr
    (one_send 0 (fun before c o => exists start, authorized_request m parsed method headers deadline start before c o)
       (fun _ => False) m parsed tr).
Proof.
  intros Hport Htarget.
  change (_request_once m method parsed headers deadline) with
    (connect_and_check m parsed deadline (fun hostname port connection identity =>
       do! target := eff_lift (_request_target parsed) in
       do! _ := eff_lift (require (md_allowlist m) identity target) in
       _exchange m parsed identity connection method target (("Host", host_header hostname port) :: headers) "" deadline
         "mediated HTTPS request failed")).
  apply (connect_post _ _ _ _ _ port); [done|]. intros connection identity before _ Hpin.
  unfold post, eff_bind, eff_lift. rewrite Htarget.
  destruct (require (md_allowlist m) identity target) as [[]|e] eqn:Er.
  - apply exchange_one_send. intros now Hnow. exists tr. constructor. exists identity, port, target, now, before.
    split; [done|]. split; [done|]. split; [by apply pinned_clock|done].
  - apply one_send_quiet; [apply quiet_refl|by eapply require_raises].
Qed.
End Steps.
