(* ===== verification/EgressProps.v ===== *)
(** * The HTTPS execution mediator: properties

    When a request leaves the mediator, what it returns, and what it records. *)

From S2P Require Import Prelude PyStr Json JsonParse Canonical Timestamp PyIp PyUrl PyUrlFacts.
From S2P Require Import ScopeGuard Identity IdentityProps Egress EgressSteps.

Section Calls.
Context `{Host} `{Environment}.

(** ** URLs *)

(** What an accepted URL is. *)
Record valid_url (url : json) (parsed : SplitResult) (hostname : string) (port : Z) (target : string) : Prop := {
  url_text : exists text, url = JStr text /\ urlsplit text "" = Ok parsed;
  url_scheme : u_scheme parsed = "https";
  url_host : u_hostname parsed = Some hostname;
  url_plain : has_userinfo parsed = false /\ u_fragment parsed = "";
  url_port : connect_port parsed = Ok port /\ 1 <= port <= 65535;
  url_target : _request_target parsed = Ok target;
}.

Lemma catch_protocol_ok {A} (r : res A) m a : catch is_value_error r (fun _ => protocol_error m) = Ok a -> r = Ok a.
Proof. by apply catch_ok. Qed.

Lemma validate_url_ok url parsed : _validate_url url = Ok parsed -> exists hostname port target, valid_url url parsed hostname port target.
Proof.
  unfold _validate_url, protocol_error. destruct url as [| | | |s| |]; try done. intros H1. guard_ok H1.
  apply res_bind_ok in H1 as ([parsed' port] & Hs%catch_protocol_ok & H1). do 4 guard_ok H1.
  apply res_bind_ok in H1 as (target & Ht%catch_protocol_ok & [= ->]).
  apply res_bind_ok in Hs as (parsed' & Hs & Hp). apply res_bind_ok in Hp as (port' & Hp & [= -> ->]). simpl_bool.
  destruct (u_hostname parsed) as [hostname|] eqn:Eh; [|done].
  exists hostname, (default 443 port), target. constructor; [by exists s|done|done|done| |done].
  unfold connect_port. rewrite Hp. cbn [res_bind]. destruct port as [p|]; cbv beta iota in *; cbn [default]; simpl_bool;
    [|split; [done|lia]].
  destruct (p =? 0) eqn:E; simpl_bool; unfold id; [lia|]. split; [done|lia].
Qed.

Lemma request_target_raises parsed e : _request_target parsed = Raise e -> exc_cls e = ValueError.
Proof.
  unfold _request_target, _validate_configured_request_target, raise.
  destruct (urlsplit (origin_form parsed) "") as [u|e1] eqn:E; cbn [res_bind]; intros H1;
    repeat case_match; try discriminate; injection H1 as <-; first [done | by eapply urlsplit_raises].
Qed.

Lemma value_error_cls e : exc_cls e = ValueError -> is_value_error e = true.
Proof. unfold is_value_error. by intros ->. Qed.

Lemma validate_url_raises url e : _validate_url url = Raise e -> exc_cls e = EgressProtocolError.
Proof.
  unfold _validate_url, protocol_error, raise. destruct url as [| | | |s| |]; try by intros [= <-].
  destruct (_ || _); [by intros [= <-]|].
  set (split := let? parsed := urlsplit s "" in let? port := u_port parsed in Ok (parsed, port)).
  assert (Hs : forall e, split = Raise e -> is_value_error e = true).
  { unfold split. intros e1. destruct (urlsplit s "") as [u|e2] eqn:E1; cbn [res_bind].
    - destruct (u_port u) as [p|e2] eqn:E2; cbn [res_bind]; [done|]. intros [= <-].
      by eapply value_error_cls, u_port_raises.
    - intros [= <-]. by eapply value_error_cls, urlsplit_raises. }
  destruct split as [[parsed port]|e1]; cbn [catch]; [|rewrite (Hs e1) by done; by intros [= <-]]. clear Hs. cbn [res_bind].
  destruct (_ || _); [by intros [= <-]|]. destruct (_ || _); [by intros [= <-]|].
  destruct (endswith _ _); [by intros [= <-]|]. destruct (match port with Some _ => _ | None => _ end); [by intros [= <-]|].
  destruct (_request_target parsed) as [t|e1] eqn:E; cbn [catch]; [done|].
  rewrite value_error_cls by (by eapply request_target_raises). by intros [= <-].
Qed.

Lemma connect_host_valid url parsed hostname port target :
  valid_url url parsed hostname port target -> connect_host parsed = hostname.
Proof. intros [_ _ Hh _ _ _]. unfold connect_host. by rewrite Hh. Qed.

Lemma origin_of_valid url parsed hostname port target :
  valid_url url parsed hostname port target -> origin_of parsed = Ok ("https", hostname, port).
Proof.
  intros Hv. unfold origin_of. rewrite (connect_host_valid _ _ _ _ _ Hv). destruct Hv as [_ Hs _ _ [-> _] _].
  cbn [res_bind]. by rewrite Hs.
Qed.

Lemma redacted_text_ok s : _redacted_origin (JStr s) = Ok (redacted_text s).
Proof. done. Qed.

Lemma redacted_raises url e : _redacted_origin url = Raise e -> exc_cls e = AttributeError /\ is_str url = false.
Proof. destruct url; simpl; try done; case_match; try done; by intros [= <-]. Qed.

(** ** Observations *)

(** What one record of [observations] is about. *)
Definition records (tr tr' : trace) (decision reason : string) (identity : option AuthenticatedServiceIdentity) : Prop :=
  exists origin, observations tr' =
    {| ob_origin := origin; ob_decision := decision; ob_reason := reason; ob_identity := identity |} :: observations tr.

(** How a call that failed was recorded: a denial as blocked; an exception of another
    class not at all. *)
Definition failure_recorded (tr tr' : trace) (url : json) (e : exc) : Prop :=
  (denial e = true /\ records tr tr' "blocked" (blocked_reason e) None) \/
  (exc_cls e = ValueError /\ observations tr' = observations tr) \/
  (exc_cls e = AttributeError /\ is_str url = false /\ observations tr' = observations tr).

Lemma denial_not_value e : denial e = true -> exc_cls e <> ValueError.
Proof. unfold denial, is_mediation_error. intros He Hv. by rewrite Hv in He. Qed.

Lemma recorded_post {A} (P : trace -> event -> Prop) (R : trace -> Prop) url (m : eff trace A) tr (Q : A -> trace -> Prop) :
  (forall before o, P before (EvObserve o)) -> (forall tr' o, R tr' -> R (EvObserve o :: tr')) ->
  post m tr (fun r tr' => added P tr tr' /\ R tr' /\ match r with
    | Ok a => Q a tr'
    | Raise e => observations tr' = observations tr /\ (denial e = true \/ exc_cls e = ValueError)
    end) ->
  post (_recorded url m) tr (fun r tr' => added P tr tr' /\ R tr' /\ match r with
    | Ok a => Q a tr'
    | Raise e => failure_recorded tr tr' url e
    end).
Proof.
  intros HP HR Hm. unfold _recorded. apply post_catch. eapply post_mono; [exact Hm|].
  intros [a|e] tr' (Ha & Hn & Hr); [done|]. destruct Hr as [Ho Hr]. destruct (denial e) eqn:Ed.
  - unfold post, eff_bind, eff_lift, observe. destruct (_redacted_origin url) as [origin|e1] eqn:E1.
    + split; [by constructor|]. split; [by apply HR|]. left. split; [done|]. exists origin. by rewrite <- Ho.
    + apply redacted_raises in E1 as [? ?]. split; [done|]. split; [done|]. right. by right.
  - destruct Hr as [?|Hv]; [done|]. split; [done|]. split; [done|]. right. by left.
Qed.

(** ** The redirect loop *)

(** The requests of a call: each to an accepted URL of one origin, the approved one when there is one. *)
Definition call_sends (m : Mediator) (method : string) (headers : list (string * string)) (deadline : Z)
    (origin : string * string * Z) (before : trace) (ev : event) : Prop :=
  match ev with
  | EvRequest connection request _ =>
      exists url parsed hostname port target start,
        valid_url url parsed hostname port target /\ origin = ("https", hostname, port) /\
        (forall approved, md_approved_origin m = Some approved -> approved = (hostname, port)) /\
        authorized_request m parsed method headers deadline start before connection request
  | EvBeforeSend _ => False
  | _ => True
  end.

Definition answered (m : Mediator) (tr : trace) (response : MediatedResponse) (tr' : trace) : Prop :=
  response_ok m response /\ ~ In (rs_status response) _REDIRECT_STATUSES /\
  records tr tr' "allowed" "authenticated_exact_scope" (Some (rs_identity response)).

Lemma required_header_raises headers name e : _required_single_header headers name = Raise e -> denial e = true.
Proof. unfold _required_single_header, protocol_error, raise. intros H1. repeat case_match; try discriminate; by injection H1 as <-. Qed.

(** The origin of a URL that is accepted. *)
Definition url_origin (url : json) : option (string * string * Z) :=
  match _validate_url url with
  | Ok parsed => match origin_of parsed with Ok origin => Some origin | Raise _ => None end
  | Raise _ => None
  end.

Definition pass_outcome (m : Mediator) (origin : string * string * Z) (last : bool) (tr : trace) (r : res passed) (tr' : trace) : Prop :=
  match r with
  | Ok (Answered response) => answered m tr response tr'
  | Ok (Redirected next o) => is_str next = true /\ o = origin /\ last = false /\ observations tr' = observations tr
  | Raise e => observations tr' = observations tr /\ (denial e = true \/ exc_cls e = ValueError)
  end.

Lemma redirect_pass_post m method headers deadline last url initial origin tr :
  (forall o, match initial with Some i => Some i | None => url_origin url end = Some o -> origin = o) ->
  post (redirect_pass m method headers deadline last url initial) tr (fun r tr' =>
    added (call_sends m method headers deadline origin) tr tr' /\ (requests tr' <= S (requests tr))%nat /\
    pass_outcome m origin last tr r tr').
Proof.
  intros Horigin.
  assert (Hnone : forall e, denial e = true ->
    added (call_sends m method headers deadline origin) tr tr /\ (requests tr <= S (requests tr))%nat /\
    pass_outcome m origin last tr (Raise e) tr).
  { intros e He. split; [constructor|]. split; [lia|]. by split; [|left]. }
  unfold redirect_pass. unfold post at 1, eff_bind at 1, eff_lift at 1.
  destruct (_validate_url url) as [parsed|e] eqn:Ev;
    [|apply Hnone; unfold denial, is_mediation_error; by rewrite (validate_url_raises _ _ Ev)].
  destruct (validate_url_ok _ _ Ev) as (hostname & port & target & Hurl).
  pose proof (origin_of_valid _ _ _ _ _ Hurl) as Ho.
  unfold eff_bind at 1, eff_lift at 1. rewrite Ho.
  destruct (unapproved m _) eqn:Eap; [by apply Hnone|]. destruct (changed_origin initial _) eqn:Ein; [by apply Hnone|].
  assert (origin = ("https", hostname, port)) as ->.
  { apply Horigin. unfold changed_origin in Ein. destruct initial as [i|];
      [apply negb_false_iff, eqb_true in Ein; by rewrite Ein|]. unfold url_origin. by rewrite Ev, Ho. }
  assert (Hsend : forall tr', added (sends (fun before c o => exists start,
            authorized_request m parsed method headers deadline start before c o) (fun _ => False)) tr tr' ->
          added (call_sends m method headers deadline ("https", hostname, port)) tr tr').
  { intros tr'. apply added_mono. intros before [| | | | | | |]; try done; [by intros [_ []]|]. intros [start Hs].
    exists url, parsed, hostname, port, target, start. split; [done|]. split; [done|]. split; [|done].
    intros approved Hap. unfold unapproved, is_approved in Eap. rewrite Hap in Eap. simpl_bool. by injection Eap. }
  eapply post_seq; [apply (request_once_post _ _ _ _ port target); apply Hurl|..]; cbn beta.
  - intros response tr1 (Ha & Hr & _ & Hok & _). pose proof (sends_observations _ _ _ _ Ha) as Hobs. apply Hsend in Ha.
    destruct (mem (rs_status response) _REDIRECT_STATUSES) eqn:Est; cbn [negb].
    + unfold post, eff_bind, eff_lift.
      destruct (_required_single_header _ _) as [location|e] eqn:El; [|apply required_header_raises in El; simpl; auto].
      destruct last; [simpl; auto|]. destruct (urljoin _ _) as [next|e] eqn:Ej; simpl; [done|].
      apply urljoin_raises in Ej. auto.
    + destruct Hurl as [(text & -> & _) _ _ _ _ _]. apply mem_not_In in Est.
      unfold post, allowed, eff_bind, eff_lift, observe. cbn [_redacted_origin].
      split; [by constructor|]. split; [done|]. split; [done|]. split; [done|].
      exists (redacted_text text). by rewrite <- Hobs.
  - intros e tr1 (Ha & Hr & _ & He). pose proof (sends_observations _ _ _ _ Ha) as Hobs. split; [by apply Hsend|].
    split; [done|]. split; [done|]. by left.
Qed.

Definition call_outcome (m : Mediator) (url : json) (tr : trace) (r : res MediatedResponse) (tr' : trace) : Prop :=
  match r with
  | Ok response => answered m tr response tr'
  | Raise e => failure_recorded tr tr' url e
  end.

Lemma outcome_before m url tr tr1 r tr' :
  observations tr1 = observations tr -> call_outcome m url tr1 r tr' -> call_outcome m url tr r tr'.
Proof. unfold call_outcome, answered, failure_recorded, records. by intros ->. Qed.

Lemma outcome_text m url next tr r tr' : is_str next = true -> call_outcome m next tr r tr' -> call_outcome m url tr r tr'.
Proof.
  intros Hs. destruct r as [response|e]; [done|]. intros [?|[?|(_ & Hf & _)]]; [by left|by right; left|]. by rewrite Hs in Hf.
Qed.

Lemma redirect_loop_post m method headers deadline n url initial origin tr :
  (forall o, match initial with Some i => Some i | None => url_origin url end = Some o -> origin = o) ->
  post (redirect_loop m method headers deadline (S n) url initial) tr (fun r tr' =>
    added (call_sends m method headers deadline origin) tr tr' /\ (requests tr' <= S n + requests tr)%nat /\
    call_outcome m url tr r tr').
Proof.
  revert url initial tr. induction n as [|n IH]; intros url initial tr Horigin; cbn [redirect_loop Nat.eqb];
    (eapply post_seq;
     [ eapply (recorded_post (call_sends m method headers deadline origin) (fun tr' => requests tr' <= S (requests tr))%nat url _ tr
                 (fun a tr' => pass_outcome m origin _ tr (Ok a) tr')); [done|done|];
       eapply post_mono; [by apply redirect_pass_post|]; by intros [a|e] tr' (Ha & Hn & Hp)
     | cbn beta | cbn beta; intros e tr1 (Ha & Hn & Hr); split; [done|]; split; [lia|done] ]).
  - intros [response|next o] tr1 (Ha & Hn & Hp); cbn [pass_outcome] in Hp.
    + split; [done|]. by split; [lia|].
    + by destruct Hp as (_ & _ & ? & _).
  - intros [response|next o] tr1 (Ha & Hn & Hp); cbn [pass_outcome] in Hp.
    + split; [done|]. split; [lia|done].
    + destruct Hp as (Hs & -> & _ & Hobs). eapply post_mono; [apply IH; by intros ? [= ->]|].
      intros r tr' (Ha' & Hn' & Ho). split; [by eapply added_trans|]. split; [lia|].
      eapply outcome_text; [exact Hs|]. by eapply outcome_before.
Qed.

Lemma checked_method_ok method name : checked_method method = Ok name -> In name ["GET"; "HEAD"].
Proof. unfold checked_method, protocol_error. intros H1. guard_ok H1. guard_ok H1. injection H1 as <-. simpl_bool. by apply mem_In. Qed.

Lemma checked_method_raises method e : checked_method method = Raise e -> denial e = true.
Proof. unfold checked_method, protocol_error, raise. intros H1. repeat case_match; try discriminate; by injection H1 as <-. Qed.

Lemma validate_headers_raises headers e : _validate_headers headers = Raise e -> denial e = true.
Proof.
  unfold _validate_headers, protocol_error, raise. destruct headers as [| | | | | |items]; try by intros [= <-].
  generalize (@nil (string * string)). induction items as [|[name value] items IH]; intros checked; cbn [check_headers]; [done|].
  unfold protocol_error, raise. destruct value as [| | | |value| |]; try by intros [= <-].
  destruct (mem _ _ || _); [by intros [= <-]|]. destruct (_ || _); [by intros [= <-]|].
  destruct (negb _); [by intros [= <-]|]. destruct (mem _ _); [by intros [= <-]|]. apply IH.
Qed.

(** ** Headers *)

(** Headers that are passed on: a token each, no control characters in the values, none that the
    broker reserves, no name twice. *)
Record headers_ok (headers : list (string * string)) : Prop := {
  names_allowed : Forall (fun nv => ~ In (lower (fst nv)) _FORBIDDEN_HEADERS /\ startswith "proxy-" (lower (fst nv)) = false) headers;
  names_tokens : Forall (fun nv => fst nv <> "" /\ header_name_token (fst nv) = true /\ header_value_text (snd nv) = true) headers;
  names_unique : NoDup (map (fun nv => lower (fst nv)) headers);
}.

Lemma check_headers_ok items checked result :
  headers_ok checked -> check_headers checked items = Ok result -> headers_ok result.
Proof.
  revert checked. induction items as [|[name value] items IH]; intros checked Hc H1; cbn [check_headers] in H1; [by injection H1 as <-|].
  unfold protocol_error in H1. destruct value as [| | | |value| |]; try done. do 4 guard_ok H1.
  apply (IH _) in H1; [done|]. simpl_bool. destruct Hc as [Ha Hv Hu].
  constructor; [apply Forall_app_2; [done|]..|].
  - apply Forall_singleton. cbn [fst]. split; [by apply mem_not_In|done].
  - by apply Forall_singleton.
  - rewrite map_app. apply NoDup_app. split; [done|]. split; [|apply NoDup_singleton].
    intros x Hx. cbn [map fst]. rewrite list_elem_of_singleton. intros ->. apply list_elem_of_In in Hx.
    match goal with E : mem (lower name) (map _ checked) = false |- _ => by apply mem_not_In in E end.
Qed.

Lemma validate_headers_ok headers checked : _validate_headers headers = Ok checked -> headers_ok checked.
Proof.
  unfold _validate_headers, protocol_error. destruct headers; try done. apply check_headers_ok. by repeat constructor.
Qed.

(** ** [request] *)

(** The deadline of a call that starts when the clock reads [now]. *)
Definition call_limit (m : Mediator) (now : Z) (deadline : option Z) : Z :=
  match deadline with Some d => Z.min (now + md_timeout m) d | None => now + md_timeout m end.

Lemma request_post m method url headers deadline tr :
  0 <= md_max_redirects m ->
  post (request m method url headers deadline) tr (fun r tr' =>
    (exists name checked, In name ["GET"; "HEAD"] /\ headers_ok checked /\
       added (call_sends m name checked (call_limit m (env_clock tr) deadline) (default ("", "", 0) (url_origin url))) tr tr') /\
    Z.of_nat (requests tr') <= Z.of_nat (requests tr) + md_max_redirects m + 1 /\
    call_outcome m url tr r tr').
Proof.
  intros Hm. unfold request. set (limit := call_limit m (env_clock tr) deadline).
  eapply (post_seq _ _ _ (fun r tr' => r = Ok limit /\ tr' = EvClock (env_clock tr) :: tr)); [by destruct deadline| |by intros ? ? [? _]].
  intros ? ? [[= ->] ->]. set (tr0 := EvClock (env_clock tr) :: tr).
  assert (Hnil : headers_ok []) by (by repeat constructor).
  set (origin := default ("", "", 0) (url_origin url)).
  eapply post_seq.
  - eapply (recorded_post (call_sends m "GET" [] limit origin) (fun tr' => requests tr' <= requests tr)%nat url _ tr0
      (fun nh tr' => (In (fst nh) ["GET"; "HEAD"] /\ headers_ok (snd nh)) /\ exists now, tr' = EvClock now :: tr0)); [done|done|].
    step_clock; [|split; [repeat constructor|]; split; [done|]; split; [done|left; by apply mediation_denial]].
    unfold post, eff_bind, eff_lift. destruct (checked_method method) as [name|e] eqn:Em;
      [|split; [repeat constructor|]; split; [done|]; split; [done|left; by eapply checked_method_raises]].
    destruct (_validate_headers _) as [checked|e] eqn:Eh; cbn;
      (split; [repeat constructor|]; split; [done|]); [|split; [done|left; by eapply validate_headers_raises]].
    split; [split; [by apply checked_method_ok in Em|by apply validate_headers_ok in Eh]|by eexists].
  - intros [name checked] tr1 (_ & _ & [Hname Hok] & now & ->). cbn [fst snd] in *.
    assert (Z.to_nat (md_max_redirects m + 1) = S (Z.to_nat (md_max_redirects m))) as -> by lia.
    eapply post_mono; [apply (redirect_loop_post _ _ _ _ _ _ _ origin)|].
    + intros o Ho. unfold origin. by rewrite Ho.
    + intros r tr' (Ha & Hn & Ho). split; [|split].
      * exists name, checked. split; [done|]. split; [done|]. eapply added_trans; [|exact Ha]. by repeat constructor.
      * unfold tr0, requests in *. simpl in Hn. lia.
      * by eapply outcome_before; [|exact Ho].
  - intros e tr1 (Ha & Hn & Hr). split; [|split; [unfold requests in *; lia|exact Hr]].
    exists "GET", []. split; [by left|]. split; [done|]. eapply added_trans; [|exact Ha]. by repeat constructor.
Qed.

(** C15. Nothing leaves the mediator but a GET or HEAD without a body, before the
    deadline, to the host and port of an accepted URL (of the origin first asked for, the
    approved one when one is configured), with headers that were checked and a target that
    the allowlist gives to the identity of the peer.  The connection it leaves on was
    opened to the first of the host's addresses, all of them in scope and none a metadata
    service; the peer's own address is that one; after it was opened the host still
    resolved to the same set; and then the identity was proved by its certificate. *)
Theorem request_authorized m method url headers deadline tr r tr' later connection sent answer before :
  0 <= md_max_redirects m ->
  request m method url headers deadline tr = (r, tr') ->
  tr' = later ++ EvRequest connection sent answer :: before -> (length tr <= length before)%nat ->
  exists hostname port identity now,
    url_origin url = Some ("https", hostname, port) /\
    (forall approved, md_approved_origin m = Some approved -> approved = (hostname, port)) /\
    (exists earlier, before = EvClock now :: earlier) /\ now < call_limit m (env_clock tr) deadline /\
    In (ob_method sent) ["GET"; "HEAD"] /\ ob_body sent = "" /\
    require (md_allowlist m) identity (ob_target sent) = Ok tt /\
    (exists checked, headers_ok checked /\ ob_headers sent = ("Host", host_header hostname port) :: checked) /\
    (exists url' parsed start, valid_url url' parsed hostname port (ob_target sent) /\
       pinned_peer m parsed start before connection identity port).
Proof.
  intros Hm Hrun -> Hlen. destruct (post_run _ _ _ _ _ (request_post m method url headers deadline tr Hm) Hrun)
    as ((name & checked & Hname & Hok & Ha) & _ & _).
  destruct (added_event _ _ _ _ _ _ Ha eq_refl Hlen)
    as (url' & parsed & hostname & port & target & start & Hurl & Ho & Hap & [Hauth]).
  destruct Hauth as (identity & port' & target' & now & earlier & Hb & Hnow & Hpin & Ht & Hreq & ->).
  pose proof (pinned_port _ _ _ _ _ _ _ Hpin) as Hp. destruct (url_port _ _ _ _ _ Hurl) as [Hp' _].
  pose proof (url_target _ _ _ _ _ Hurl) as Ht'. assert (port' = port) as -> by congruence.
  assert (target' = target) as -> by congruence. rewrite (connect_host_valid _ _ _ _ _ Hurl).
  exists hostname, port, identity, now. split; [|split; [done|]].
  - destruct (url_origin url) as [o|]; simpl in Ho; [by rewrite Ho|]. destruct (url_port _ _ _ _ _ Hurl). simplify_eq.
  - split; [by exists earlier|]. do 4 (split; [done|]). split; [by exists checked|]. by exists url', parsed, start.
Qed.


(** ** [post_gateway] *)

(** What must hold before the caller is asked, and so before anything is sent. *)
Record gateway_ready (m : Mediator) (parsed : SplitResult) (target spiffe_id : string)
    (expected : AuthenticatedServiceIdentity) (start before : trace) (connection : OpenEgressConnection) (port : Z) : Prop := {
  ready_peer : pinned_peer m parsed start before connection expected port;
  ready_spiffe : carries_spiffe connection spiffe_id = true;
  ready_target : require (md_allowlist m) expected target = Ok tt;
}.

Record authorized_dispatch (m : Mediator) (parsed : SplitResult) (target spiffe_id body : string)
    (expected : AuthenticatedServiceIdentity) (headers : list (string * string)) (deadline : Z) (start before : trace)
    (connection : OpenEgressConnection) (request : Outbound) : Prop := {
  dispatch_authority : exists port now earlier,
    before = EvClock now :: EvBeforeSend (Ok tt) :: earlier /\ now < deadline /\
    gateway_ready m parsed target spiffe_id expected start earlier connection port /\
    request = outbound m "POST" target (("Host", host_header (connect_host parsed) port) ::
                ("Content-Length", pretty (slen body)) :: headers) body (deadline - now);
}.

Lemma post_gateway_once_post m parsed target expected spiffe_id body headers port deadline tr :
  connect_port parsed = Ok port ->
  post (_post_gateway_once m parsed target expected spiffe_id body headers deadline) tr
    (one_send 1 (authorized_dispatch m parsed target spiffe_id body expected headers deadline tr)
       (fun before => exists connection port, gateway_ready m parsed target spiffe_id expected tr before connection port)
       m parsed tr).
Proof.
  intros Hport.
  change (_post_gateway_once m parsed target expected spiffe_id body headers deadline) with
    (connect_and_check m parsed deadline (fun hostname port connection identity =>
       do_if negb (identity == expected)
         as AuthenticatedResourceScopeError msg "TLS peer identity does not match the configured gateway" ;;
       do_if negb (carries_spiffe connection spiffe_id)
         as AuthenticatedResourceScopeError msg "TLS peer SPIFFE identity does not match the configured gateway" ;;
       do! _ := eff_lift (require (md_allowlist m) identity target) in
       do! _ := eff_catch always call_before_send
                  (fun _ => eff_raise EgressMediationError "gateway dispatch authorization callback failed") in
       _exchange m parsed identity connection "POST" target
         (("Host", host_header hostname port) :: ("Content-Length", pretty (slen body)) :: headers) body deadline
         "gateway dispatch failed after transmission may have begun")).
  apply (connect_post _ _ _ _ _ port); [done|]. intros connection identity before _ Hpin.
  destruct (identity == expected) eqn:Ei; cbn [negb]; [|by apply one_send_quiet; [apply quiet_refl|]]. simpl_bool. subst identity.
  destruct (carries_spiffe connection spiffe_id) eqn:Es; cbn [negb]; [|by apply one_send_quiet; [apply quiet_refl|]].
  unfold post at 1, eff_bind at 1, eff_lift at 1.
  destruct (require (md_allowlist m) expected target) as [[]|e] eqn:Er;
    [|apply one_send_quiet; [apply quiet_refl|by eapply require_raises]].
  assert (Hready : gateway_ready m parsed target spiffe_id expected tr before connection port) by done.
  eapply (post_seq _ _ _ (fun r tr' => match r with
    | Ok _ => tr' = EvBeforeSend (Ok tt) :: before /\ env_before_send before = Ok tt
    | Raise e => is_mediation_error e = true /\ tr' = EvBeforeSend (env_before_send before) :: before end)).
  - unfold post, eff_catch, call_before_send. by destruct (env_before_send before) as [[]|e].
  - intros [] tr' [-> Hanswer]. set (C := fun before => exists connection port,
      gateway_ready m parsed target spiffe_id expected tr before connection port).
    set (J := authorized_dispatch m parsed target spiffe_id body expected headers deadline tr).
    eapply post_mono; [apply (exchange_one_send J C)|].
    + intros now Hnow. constructor. by exists port, now, before.
    + intros r tr' (Ha & Hr & Hc & Hres). split; [|split; [exact Hr|split; [exact Hc|exact Hres]]].
      eapply added_trans; [|exact Ha]. constructor; [constructor|]. split; [done|]. by exists connection, port.
  - intros e tr' [He ->]. split; [|split; [|split]].
    + constructor; [constructor|]. split; [done|]. by exists connection, port.
    + unfold requests. simpl. lia.
    + unfold callbacks. simpl. lia.
    + by apply mediation_denial.
Qed.

(** What an accepted dispatch policy says. *)
Record valid_policy (m : Mediator) (policy : GatewayPostEgressPolicy) (body : string) (parsed : SplitResult)
    (hostname : string) (port : Z) (target : string) (identity : AuthenticatedServiceIdentity) (spiffe_id : string) : Prop := {
  policy_url : valid_url (gp_gateway_url policy) parsed hostname port target;
  policy_expects : gp_expected_identity policy = Some identity /\ gp_expected_spiffe_id policy = JStr spiffe_id;
  policy_spiffe : exists spiffe, urlsplit spiffe_id "" = Ok spiffe /\ spiffe_matches m identity spiffe = true;
  policy_body : gp_body_bytes policy = JInt (slen body) /\ gp_body_sha256 policy = JStr (sha256_hex body);
  policy_limit : exists limit, gp_max_body_bytes policy = JInt limit /\ slen body <= limit;
  policy_request_target : _validate_configured_request_target (gp_request_target policy) = Ok target;
}.

Lemma validate_policy_ok m policy body parsed target identity spiffe_id :
  _validate_gateway_post_policy m policy body = Ok (parsed, target, identity, spiffe_id) ->
  exists hostname port, valid_policy m policy body parsed hostname port target identity spiffe_id.
Proof.
  unfold _validate_gateway_post_policy, protocol_error. intros H1. guard_ok H1. guard_ok H1.
  destruct (gp_expected_spiffe_id policy) as [| | | |id| |] eqn:Ei; try done.
  apply res_bind_ok in H1 as (spiffe & Hs & H1). do 3 guard_ok H1.
  apply res_bind_ok in H1 as (parsed' & Hu & H1). apply res_bind_ok in H1 as (target' & Ht & H1).
  apply res_bind_ok in H1 as (target'' & Hc%catch_protocol_ok & H1). guard_ok H1. injection H1 as -> -> -> ->. simpl_bool. subst target''.
  destruct (validate_url_ok _ _ Hu) as (hostname & port & target' & Hurl).
  pose proof (url_target _ _ _ _ _ Hurl) as Ht'. assert (target' = target) as -> by congruence.
  exists hostname, port. unfold body_size_matches, body_digest_matches in *.
  destruct (gp_body_bytes policy) as [| |size| | | |] eqn:E1; try done.
  destruct (gp_max_body_bytes policy) as [| |limit| | | |] eqn:E2; try done.
  destruct (gp_body_sha256 policy) as [| | | |digest| |] eqn:E3; try done. simpl_bool.
  constructor; [done|by split|by exists spiffe| |exists limit; split; [done|lia]|done].
  rewrite E1, E3. split; f_equal; [lia|congruence].
Qed.

Lemma validate_policy_raises m policy body e : _validate_gateway_post_policy m policy body = Raise e ->
  denial e = true \/ exc_cls e = ValueError.
Proof.
  unfold _validate_gateway_post_policy, protocol_error, raise. intros H1.
  destruct (negb _); [by injection H1 as <-; left|].
  destruct (gp_expected_identity policy) as [identity|]; [|by injection H1 as <-; left].
  destruct (gp_expected_spiffe_id policy) as [| | | |id| |]; try (by injection H1 as <-; left).
  destruct (urlsplit id "") as [spiffe|e1] eqn:Es; cbn [res_bind] in H1; [|injection H1 as <-; right; by eapply urlsplit_raises].
  do 3 (destruct (negb _); [by injection H1 as <-; left|]).
  destruct (_validate_url _) as [parsed|e1] eqn:Eu; cbn [res_bind] in H1;
    [|injection H1 as <-; left; unfold denial, is_mediation_error; by rewrite (validate_url_raises _ _ Eu)].
  destruct (validate_url_ok _ _ Eu) as (hostname & port & target & Hurl). rewrite (url_target _ _ _ _ _ Hurl) in H1.
  cbn [res_bind] in H1. destruct (_validate_configured_request_target _) as [t|e1] eqn:Et; cbn [catch res_bind] in H1.
  - destruct (negb _); [by injection H1 as <-; left|done].
  - destruct (is_value_error e1) eqn:Ev; cbn [res_bind] in H1; injection H1 as <-; [by left|].
    exfalso. unfold _validate_configured_request_target, raise in Et. destruct (gp_request_target policy); try (injection Et as <-; done).
    destruct (urlsplit s "") as [u|e2] eqn:E2; cbn [res_bind] in Et; repeat case_match; try discriminate; injection Et as <-; try done.
    by rewrite (value_error_cls e2) in Ev by (by eapply urlsplit_raises).
Qed.

(** The events of a dispatch that starts with the trace [tr0]. *)
Definition dispatch_sends (m : Mediator) (policy : GatewayPostEgressPolicy) (body : string) (deadline : Z)
    (tr0 before : trace) (ev : event) : Prop :=
  match ev with
  | EvRequest connection request _ =>
      exists parsed hostname port target identity spiffe_id checked start,
        valid_policy m policy body parsed hostname port target identity spiffe_id /\
        md_approved_origin m = Some (hostname, port) /\ headers_ok checked /\ steps start = steps tr0 /\
        authorized_dispatch m parsed target spiffe_id body identity checked deadline start before connection request
  | EvBeforeSend answer => answer = env_before_send before /\
      exists parsed hostname port target identity spiffe_id start connection,
        valid_policy m policy body parsed hostname port target identity spiffe_id /\
        md_approved_origin m = Some (hostname, port) /\ steps start = steps tr0 /\
        gateway_ready m parsed target spiffe_id identity start before connection port
  | _ => True
  end.

Lemma dispatch_sends_once m policy body parsed hostname port target identity spiffe_id checked deadline start tr0 tr tr' :
  valid_policy m policy body parsed hostname port target identity spiffe_id ->
  md_approved_origin m = Some (hostname, port) -> headers_ok checked -> steps start = steps tr0 ->
  added (sends (authorized_dispatch m parsed target spiffe_id body identity checked deadline start)
           (fun before => exists connection port,
                  gateway_ready m parsed target spiffe_id identity start before connection port)) tr tr' ->
  added (dispatch_sends m policy body deadline tr0) tr tr'.
Proof.
  intros Hpol Hap Hok Hstart. apply added_mono. intros before [| | | | | | |]; try done.
  - intros (Hanswer & connection & port' & Hready). split; [done|].
    pose proof (pinned_port _ _ _ _ _ _ _ (ready_peer _ _ _ _ _ _ _ _ _ Hready)) as Hp.
    destruct (url_port _ _ _ _ _ (policy_url _ _ _ _ _ _ _ _ _ Hpol)) as [Hp' _].
    assert (port' = port) as -> by congruence.
    by exists parsed, hostname, port, target, identity, spiffe_id, start, connection.
  - intros Hs. by exists parsed, hostname, port, target, identity, spiffe_id, checked, start.
Qed.

(** The callback that precedes a request is one of this dispatch, so its answer is the
    environment's. *)
Lemma dispatch_callback m policy body deadline tr later near earlier parsed target spiffe_id identity start connection port :
  added (dispatch_sends m policy body deadline tr) tr (later ++ near ++ EvBeforeSend (Ok tt) :: earlier) ->
  steps start = steps tr -> gateway_ready m parsed target spiffe_id identity start earlier connection port ->
  (length tr <= length earlier)%nat /\ env_before_send earlier = Ok tt.
Proof.
  intros Ha Hstart Hready. destruct (pinned_steps _ _ _ _ _ _ _ (ready_peer _ _ _ _ _ _ _ _ _ Hready))
    as (endpoint & rest & endpoints & addresses & timeout & Hs & _).
  destruct (added_suffix _ _ _ Ha) as [more Hm].
  assert (Hlen : (length tr <= length earlier)%nat).
  { apply (suffix_longer _ _ more (later ++ near ++ [EvBeforeSend (Ok tt)])); [by rewrite <- Hm, <- !app_assoc|].
    rewrite Hs, Hstart. simpl. lia. }
  split; [done|]. rewrite app_assoc in Ha.
  by destruct (added_event _ _ _ _ _ _ Ha eq_refl Hlen) as [-> _].
Qed.

(** How a dispatch ends. *)
Definition dispatch_outcome (m : Mediator) (policy : GatewayPostEgressPolicy) (tr : trace) (r : res MediatedResponse)
    (tr' : trace) : Prop :=
  match r with
  | Ok response =>
      response_ok m response /\ ~ In (rs_status response) _REDIRECT_STATUSES /\
      records tr tr' "allowed" "authenticated_exact_gateway_scope" (Some (rs_identity response))
  | Raise e => failure_recorded tr tr' (gp_gateway_url policy) e
  end.

Lemma post_gateway_post m policy body headers deadline tr :
  post (post_gateway m policy body headers deadline) tr (fun r tr' =>
    added (dispatch_sends m policy body (call_limit m (env_clock tr) deadline) tr) tr tr' /\
    (requests tr' <= S (requests tr))%nat /\ (callbacks tr' <= S (callbacks tr))%nat /\
    dispatch_outcome m policy tr r tr').
Proof.
  unfold post_gateway. set (limit := call_limit m (env_clock tr) deadline). set (P := dispatch_sends m policy body limit tr).
  eapply (post_seq _ _ _ (fun r tr' => r = Ok limit /\ tr' = EvClock (env_clock tr) :: tr)); [by destruct deadline| |by intros ? ? [? _]].
  intros ? ? [[= ->] ->]. set (tr0 := EvClock (env_clock tr) :: tr).
  set (R := fun tr' => (requests tr' <= S (requests tr))%nat /\ (callbacks tr' <= S (callbacks tr))%nat).
  assert (HR : forall now, R (EvClock now :: tr0)) by (split; unfold requests, callbacks; simpl; lia).
  eapply post_mono; [eapply (recorded_post P R _ _ tr0 (fun response tr' => response_ok m response /\
      ~ In (rs_status response) _REDIRECT_STATUSES /\
      records tr0 tr' "allowed" "authenticated_exact_gateway_scope" (Some (rs_identity response)))); [done|done|]|].
  - step_clock; [|split; [repeat constructor|]; split; [done|]; split; [done|left; by apply mediation_denial]].
    unfold post at 1, eff_bind at 1, eff_lift at 1.
    destruct (_validate_gateway_post_policy m policy body) as [[[[parsed target] identity] spiffe_id]|e] eqn:Ep;
      [|split; [repeat constructor|]; split; [done|]; split; [done|by eapply validate_policy_raises]].
    destruct (validate_policy_ok _ _ _ _ _ _ _ Ep) as (hostname & port & Hpol). pose proof (policy_url _ _ _ _ _ _ _ _ _ Hpol) as Hurl.
    unfold eff_bind at 1, eff_lift at 1. rewrite (origin_of_valid _ _ _ _ _ Hurl).
    assert (Hnone : forall e, denial e = true -> added P tr0 (EvClock x :: tr0) /\ R (EvClock x :: tr0) /\
      observations (EvClock x :: tr0) = observations tr0 /\ (denial e = true \/ exc_cls e = ValueError)).
    { intros e He. split; [repeat constructor|]. split; [done|]. split; [done|by left]. }
    destruct (is_approved m _) eqn:Eap; cbn [negb]; [|by apply Hnone].
    unfold eff_bind at 1, eff_lift at 1. destruct (_validate_headers _) as [checked|e] eqn:Eh;
      [|by apply Hnone; eapply validate_headers_raises].
    unfold is_approved in Eap. simpl_bool. cbn [fst snd] in Eap. apply validate_headers_ok in Eh.
    assert (Hone : forall tr1 r, one_send 1 (authorized_dispatch m parsed target spiffe_id body identity checked limit (EvClock x :: tr0))
        (fun before => exists connection port,
          gateway_ready m parsed target spiffe_id identity (EvClock x :: tr0) before connection port) m parsed (EvClock x :: tr0) r tr1 ->
        added P tr0 tr1 /\ R tr1 /\ observations tr1 = observations tr0 /\
        match r with Ok response => response_ok m response | Raise e => denial e = true end).
    { intros tr1 r (Ha & Hr & Hc & Hres). pose proof (sends_observations _ _ _ _ Ha) as Hobs.
      split; [|split; [unfold R, requests, callbacks in *; simpl in Hr, Hc; lia|split; [done|by destruct r; [destruct Hres|]]]].
      eapply added_trans; [apply (added_one P tr0 (EvClock x)); [constructor|done]|]. by eapply (dispatch_sends_once _ _ _ _ _ _ _ _ _ _ _ (EvClock x :: tr0)). }
    eapply post_seq; [apply (post_gateway_once_post _ _ _ _ _ _ _ port); apply Hurl|..]; cbn beta.
    + intros response tr1 (Ha & HR1 & Hobs & Hres)%Hone. destruct (mem (rs_status response) _REDIRECT_STATUSES) eqn:Est.
      * split; [done|]. split; [done|]. split; [done|by left].
      * destruct Hurl as [(text & Ht & _) _ _ _ _ _]. apply mem_not_In in Est. rewrite Ht.
        unfold post, allowed, eff_bind, eff_lift, observe. cbn [_redacted_origin].
        split; [by constructor|]. split; [done|]. split; [done|]. split; [done|].
        exists (redacted_text text). by rewrite <- Hobs.
    + intros e tr1 (Ha & HR1 & Hobs & Hres)%Hone. split; [done|]. split; [done|]. split; [done|by left].
  - intros r tr' (Ha & [Hr Hc] & Ho). split; [|split; [done|split; [done|by destruct r]]].
    eapply added_trans; [apply (added_one P tr (EvClock (env_clock tr))); [constructor|done]|exact Ha].
Qed.

(** C16. A dispatch to the gateway sends at most one request and asks the caller at most
    once.  The request is the POST that the policy describes, with its body and target,
    to the approved origin; what precedes it is the callback, which succeeded, and what
    precedes the callback is everything else: the addresses in scope and pinned, the
    identity and SPIFFE name of the configured gateway proved by its certificate, and
    the target allowed to it. *)
Theorem gateway_dispatch_authorized m policy body headers deadline tr r tr' :
  post_gateway m policy body headers deadline tr = (r, tr') ->
  (requests tr' <= S (requests tr))%nat /\ (callbacks tr' <= S (callbacks tr))%nat /\ dispatch_outcome m policy tr r tr' /\
  forall later connection sent answer before,
    tr' = later ++ EvRequest connection sent answer :: before -> (length tr <= length before)%nat ->
    exists parsed hostname port identity spiffe_id now start earlier,
      before = EvClock now :: EvBeforeSend (Ok tt) :: earlier /\ now < call_limit m (env_clock tr) deadline /\
      valid_policy m policy body parsed hostname port (ob_target sent) identity spiffe_id /\
      md_approved_origin m = Some (hostname, port) /\ ob_method sent = "POST" /\ ob_body sent = body /\
      steps start = steps tr /\ env_before_send earlier = Ok tt /\
      gateway_ready m parsed (ob_target sent) spiffe_id identity start earlier connection port.
Proof.
  intros Hrun. destruct (post_run _ _ _ _ _ (post_gateway_post m policy body headers deadline tr) Hrun) as (Ha & Hr & Hc & Ho).
  do 3 (split; [done|]). intros later connection sent answer before -> Hlen.
  destruct (added_event _ _ _ _ _ _ Ha eq_refl Hlen)
    as (parsed & hostname & port & target & identity & spiffe_id & checked & start & Hpol & Hap & _ & Hstart & [Hauth]).
  destruct Hauth as (port' & now & earlier & Hb & Hnow & Hready & ->).
  assert (Hanswer : env_before_send earlier = Ok tt).
  { rewrite Hb in Ha. eapply (dispatch_callback _ _ _ _ _ later [_; _]); [exact Ha|exact Hstart|exact Hready]. }
  pose proof (pinned_port _ _ _ _ _ _ _ (ready_peer _ _ _ _ _ _ _ _ _ Hready)) as Hp.
  destruct (url_port _ _ _ _ _ (policy_url _ _ _ _ _ _ _ _ _ Hpol)) as [Hp' _]. assert (port' = port) as -> by congruence.
  by exists parsed, hostname, port, identity, spiffe_id, now, start, earlier.
Qed.
End Calls.

(** ** Witnesses *)

(** A clock that ticks with every event, a host with one address, and a service that
    redirects [/old]. *)
Definition demo_endpoint : ResolvedEndpoint :=
  {| en_family := 2; en_socktype := 1; en_proto := 6; en_sockaddr := [JStr "10.2.3.4"; JInt 443]; en_ip := "10.2.3.4" |}.

Definition demo_connection : OpenEgressConnection :=
  {| peer_ip := "10.2.3.4"; peer_certificate_der := "der"; peer_certificate := demo_certificate |}.

Definition demo_answer (request : Outbound) : res RawResponse :=
  if ob_target request == "/old" then
    Ok {| raw_status := JInt 302; raw_headers := JList [JList [JStr "Location"; JStr "/v1/items?page=1"]]; raw_body := Some "" |}
  else if ob_target request == "/bad" then
    Ok {| raw_status := JInt 302; raw_headers := JList [JList [JStr "Location"; JStr "https://["]]; raw_body := Some "" |}
  else Ok {| raw_status := JInt 200; raw_headers := JList [JList [JStr "Content-Type"; JStr "text/plain"]]; raw_body := Some "ok" |}.

#[local] Instance demo_environment : Environment := {|
  env_clock := fun tr => Z.of_nat (length tr);
  env_resolver := fun _ _ _ => Ok (Some [demo_endpoint]);
  env_open := fun _ _ _ _ _ => Ok demo_connection;
  env_verify := fun _ _ _ => raise RuntimeError "not called";
  env_before_send := fun _ => Ok tt;
  env_request := fun _ _ request => demo_answer request;
  env_close := fun _ _ => Ok tt;
|}.

Definition demo_scope : ScopeDefinition :=
  {| included_networks := []; included_ips := [ipv4 167904004]; included_domains := ["lab.example"];
     included_cloud_resources := []; excluded_networks := []; excluded_ips := []; excluded_domains := [];
     excluded_cloud_resources := []; block_cloud_metadata := true; block_loopback_unless_explicit := true;
     egress_allowed := true |}.

Definition demo_mediator : Mediator :=
  {| md_scope := demo_scope; md_verifier := CertificateURI "lab.example";
     md_allowlist := [(demo_identity, ["/v1/items?page=1"; "/old"; "/bad"; "/dispatch"])];
     md_approved_origin := Some ("db.lab.example", 443); md_timeout := 15000000; md_max_response_bytes := 1048576;
     md_max_response_header_bytes := 65536; md_max_redirects := 3 |}.

Example demo_mediator_accepted :
  new_mediator demo_scope (CertificateURI "lab.example") (md_allowlist demo_mediator)
    (Some (JStr "DB.lab.example.", JInt 443)) 15000000 1048576 65536 3 = Ok demo_mediator.
Proof. vm_compute. reflexivity. Qed.

Definition demo_request (path : string) : res MediatedResponse * trace :=
  @request demo_environment demo_mediator (JStr "get") (JStr ("https://db.lab.example" +:+ path))
    (Some (JObj [("Accept", JStr "*/*")])) None [].

(** The redirect is followed within the origin; a target outside the allowlist is
    refused before anything is sent; a [Location] that cannot be joined escapes as a
    [ValueError] and leaves no record. *)
Example demo_requests :
  map (fun path => let (r, tr) := demo_request path in
         (match r with Ok response => Some (rs_final_url response) | Raise e => None end,
          match r with Ok _ => None | Raise e => Some (exc_cls e) end, requests tr,
          map ob_decision (observations tr)))
    ["/old"; "/other"; "/bad"] =
  [(Some "https://db.lab.example/v1/items?page=1", None, 2%nat, ["allowed"]);
   (None, Some AuthenticatedResourceScopeError, 0%nat, ["blocked"]);
   (None, Some ValueError, 1%nat, [])].
Proof. vm_compute. reflexivity. Qed.

Definition demo_trace : trace := snd (demo_request "/old").

(** The trace up to the last request. *)
Fixpoint until_request (tr : trace) : trace :=
  match tr with
  | EvRequest _ _ _ :: _ | [] => []
  | ev :: tr' => ev :: until_request tr'
  end.

Definition demo_split : trace * trace :=
  let later := until_request demo_trace in (later, skipn (S (length later)) demo_trace).

Lemma request_authorized_witness :
  exists sent answer hostname port identity now,
    demo_trace = fst demo_split ++ EvRequest demo_connection sent answer :: snd demo_split /\
    url_origin (JStr "https://db.lab.example/old") = Some ("https", hostname, port) /\
    require (md_allowlist demo_mediator) identity (ob_target sent) = Ok tt /\
    (exists earlier, snd demo_split = EvClock now :: earlier).
Proof.
  destruct (skipn (length (fst demo_split)) demo_trace) as [|[| | | | |c sent answer| |] ?] eqn:E; try (vm_compute in E; discriminate E).
  assert (Hs : demo_trace = fst demo_split ++ EvRequest demo_connection sent answer :: snd demo_split).
  { vm_compute in E. injection E as <- <- <- <-. vm_compute. reflexivity. }
  destruct (@request_authorized demo_environment demo_mediator (JStr "get") (JStr "https://db.lab.example/old")
    (Some (JObj [("Accept", JStr "*/*")])) None [] (fst (demo_request "/old")) demo_trace (fst demo_split) demo_connection
    sent answer (snd demo_split)) as (hostname & port & identity & now & Ho & _ & He & _ & _ & _ & Hr & _);
    [done|by vm_compute|exact Hs|vm_compute; lia|].
  exists sent, answer, hostname, port, identity, now. exact (conj Hs (conj Ho (conj Hr He))).
Defined.


Definition demo_body : string := "aaaaaaaaaaaaaaaabbbbbbbbbbbbbbbbccccccccccccccccdddddddddddddddd".

Definition demo_dispatch_policy : GatewayPostEgressPolicy :=
  {| gp_protocol := JStr GATEWAY_POST_BROKER_PROTOCOL; gp_gateway_url := JStr "https://db.lab.example/dispatch";
     gp_request_target := JStr "/dispatch"; gp_expected_identity := Some demo_identity;
     gp_expected_spiffe_id := JStr ("spiffe://lab.example/cops/v1/" +:+ identity_path demo_identity);
     gp_body_sha256 := JStr demo_body; gp_body_bytes := JInt 64; gp_max_body_bytes := JInt 1024 |}.

Definition demo_dispatch : res MediatedResponse * trace :=
  @post_gateway demo_host demo_environment demo_mediator demo_dispatch_policy demo_body None None [].

Lemma gateway_dispatch_authorized_witness :
  (requests (snd demo_dispatch) = 1 /\ callbacks (snd demo_dispatch) <= 1)%nat.
Proof.
  split; [vm_compute; reflexivity|].
  pose proof (@gateway_dispatch_authorized demo_host demo_environment demo_mediator demo_dispatch_policy demo_body None None []
    (fst demo_dispatch) (snd demo_dispatch)) as H.
  destruct H as (_ & Hc & _); [exact (surjective_pairing demo_dispatch)|exact Hc].
Defined.
