(* ===== verification/Receipts.v ===== *)
(** * Authorization receipts

    [src/cops/authorization.py]: the unkeyed receipts of operator consent, their
    checksum, their validation and the interactive gate.  The clock, the terminal
    and the bytes of a receipt file are arguments; a receipt's fields are JSON
    values, as the document they are read from is not checked against a schema. *)

From S2P Require Import Prelude PyStr Json JsonParse JsonFacts Canonical Documents Timestamp.
From S2P Require Import TimestampFacts Schema Contracts.

Record AuthorizationReceipt := {
  rc_schema_version : json; rc_receipt_id : json; rc_timestamp_utc : json; rc_operator : json;
  rc_specialist_id : json; rc_action_type : json; rc_target_scope : list json; rc_allowed_operations : list json;
  rc_authorized_until_utc : json; rc_approval_mode : json; rc_verification_hash : json
}.

Definition AuthorizationReceipt_to_dict (r : AuthorizationReceipt) : json :=
  JObj [("schema_version", rc_schema_version r); ("receipt_id", rc_receipt_id r);
        ("timestamp_utc", rc_timestamp_utc r); ("operator", rc_operator r);
        ("specialist_id", rc_specialist_id r); ("action_type", rc_action_type r);
        ("target_scope", JList (rc_target_scope r)); ("allowed_operations", JList (rc_allowed_operations r));
        ("authorized_until_utc", rc_authorized_until_utc r); ("approval_mode", rc_approval_mode r);
        ("verification_hash", rc_verification_hash r)].

(** [tuple(v)]: lists give their items, strings their characters, dicts their keys. *)
Definition json_tuple (v : json) : res (list json) :=
  match v with
  | JList xs => Ok xs
  | JStr s => Ok (map (fun c => JStr (String c "")) (String.list_ascii_of_string s))
  | JObj items => Ok (map (fun kv => JStr (fst kv)) items)
  | _ => raise TypeError "not iterable"
  end.

(** The operator's terminal: whether standard input is one, who is logged in, and
    what is typed at the prompt. *)
Record Terminal := { isatty : bool; current_user : string; typed : string }.

Section Receipts.
Context `{Host}.

Definition _compute_receipt_hash (items : list (string * json)) : res string :=
  digest (JObj (List.filter (fun kv => negb (mem (fst kv) ["verification_hash"; "receipt_id"])) items)).

Definition create_authorization_receipt (now : Z) (operator specialist_id action_type : string)
    (target_scope allowed_operations : list string) (valid_hours : Z) (approval_mode : string)
    : res AuthorizationReceipt :=
  raise_if target_scope == [] as AuthorizationError msg "target_scope must contain at least one target" ;;
  raise_if allowed_operations == [] as AuthorizationError msg "allowed_operations must contain at least one operation" ;;
  raise_if negb (mem approval_mode ["interactive_confirmation"; "pre_signed_envelope"])
    as AuthorizationError msg "invalid approval_mode" ;;
  let timestamp_str := utc_isoformat now in
  let? expiry := add_hours now valid_hours in
  let expiry_str := utc_isoformat expiry in
  let scope := map JStr (sorted_strings target_scope) in
  let operations := map JStr (sorted_strings allowed_operations) in
  let payload := [("schema_version", JStr "1.0"); ("timestamp_utc", JStr timestamp_str); ("operator", JStr operator);
                  ("specialist_id", JStr specialist_id); ("action_type", JStr action_type);
                  ("target_scope", JList scope); ("allowed_operations", JList operations);
                  ("authorized_until_utc", JStr expiry_str); ("approval_mode", JStr approval_mode)] in
  let? verification_hash := _compute_receipt_hash payload in
  let receipt_id := String.substring 0 24 (sha256_hex (encode_utf8 (verification_hash +:+ ":" +:+ timestamp_str))) in
  Ok {| rc_schema_version := JStr "1.0"; rc_receipt_id := JStr receipt_id; rc_timestamp_utc := JStr timestamp_str;
        rc_operator := JStr operator; rc_specialist_id := JStr specialist_id; rc_action_type := JStr action_type;
        rc_target_scope := scope; rc_allowed_operations := operations;
        rc_authorized_until_utc := JStr expiry_str; rc_approval_mode := JStr approval_mode;
        rc_verification_hash := JStr verification_hash |}.

Definition required_fields : list string :=
  ["schema_version"; "receipt_id"; "timestamp_utc"; "operator"; "specialist_id"; "action_type"; "target_scope";
   "allowed_operations"; "authorized_until_utc"; "approval_mode"; "verification_hash"].

(** The [try] around the expiry comparison. *)
Definition check_expiry (now : Z) (until : json) : res unit :=
  catch is_value_error
    (let? s := match until with JStr s => Ok s | _ => raise AttributeError "replace" end in
     match fromisoformat (replace_by "Z" "+00:00" s) with
     | None => raise ValueError "Invalid isoformat string"
     | Some (DateTime _ None) => raise TypeError "can't compare offset-naive and offset-aware datetimes"
     | Some (DateTime local (Some offset)) =>
         raise_if unix_us local offset <? now as AuthorizationError msg "authorization receipt expired" ;; Ok tt
     end)
    (fun _ => raise AuthorizationError "invalid expiration timestamp in authorization receipt").

Definition validate_receipt_document (now : Z) (document : list (string * json)) : res AuthorizationReceipt :=
  raise_if negb (forallb (fun k => has_key k document) required_fields)
    as AuthorizationError msg "authorization receipt missing required fields" ;;
  let? expected_hash := _compute_receipt_hash document in
  let? actual_hash := getitem "verification_hash" (JObj document) in
  raise_if negb (str_is actual_hash expected_hash)
    as AuthorizationError msg "authorization receipt cryptographic verification hash mismatch (tampered)" ;;
  let? until := getitem "authorized_until_utc" (JObj document) in
  check_expiry now until ;;?
  let? schema_version := getitem "schema_version" (JObj document) in
  let? receipt_id := getitem "receipt_id" (JObj document) in
  let? timestamp_utc := getitem "timestamp_utc" (JObj document) in
  let? operator := getitem "operator" (JObj document) in
  let? specialist_id := getitem "specialist_id" (JObj document) in
  let? action_type := getitem "action_type" (JObj document) in
  let? target_scope := let? v := getitem "target_scope" (JObj document) in json_tuple v in
  let? allowed_operations := let? v := getitem "allowed_operations" (JObj document) in json_tuple v in
  let? approval_mode := getitem "approval_mode" (JObj document) in
  Ok {| rc_schema_version := schema_version; rc_receipt_id := receipt_id; rc_timestamp_utc := timestamp_utc;
        rc_operator := operator; rc_specialist_id := specialist_id; rc_action_type := action_type;
        rc_target_scope := target_scope; rc_allowed_operations := allowed_operations;
        rc_authorized_until_utc := until; rc_approval_mode := approval_mode;
        rc_verification_hash := actual_hash |}.

(** [input_func] is the answer of the caller's function, when one is given. *)
Definition request_interactive_authorization (terminal : Terminal) (now : Z) (specialist_id action_type : string)
    (target_scope allowed_operations : list string) (valid_hours : Z) (input_func : option string)
    : res AuthorizationReceipt :=
  let? answer :=
    match input_func with
    | Some answer => Ok answer
    | None =>
        raise_if negb (isatty terminal) as AuthorizationRequiredError msg "Interactive authorization required" ;;
        Ok (typed terminal)
    end in
  raise_if negb (strip answer == "APPROVE") as AuthorizationDeniedError msg "aborted by operator" ;;
  create_authorization_receipt now (current_user terminal) specialist_id action_type target_scope
    allowed_operations valid_hours "interactive_confirmation".

(** [receipt_file] is the bytes of the file at [receipt_path], when there is one. *)
Definition ensure_authorization (terminal : Terminal) (now : Z) (specialist_id action_type : string)
    (target_scope allowed_operations : list string) (receipt_file : option string) (interactive : bool)
    (input_func : option string) : res AuthorizationReceipt :=
  match receipt_file with
  | Some raw =>
      catch (fun e => is_authorization_error e || (e == Exc ValueError "JSONDecodeError"))
        (let? text := match decode_utf8 raw with Some t => Ok t | None => raise ValueError "UnicodeDecodeError" end in
         let? document := loads text in
         let? version := dict_get "schema_version" document JNull in
         raise_if str_is version "1.0" as AuthorizationError msg "legacy unkeyed authorization receipts" ;;
         let? items := dict_items document in
         let? receipt := validate_receipt_document now items in
         raise_if negb (str_is (rc_specialist_id receipt) specialist_id)
           as AuthorizationError msg "receipt specialist mismatch" ;;
         Ok receipt)
        (fun _ => raise AuthorizationError "failed to validate receipt")
  | None =>
      if interactive then
        request_interactive_authorization terminal now specialist_id action_type target_scope allowed_operations 4
          input_func
      else raise AuthorizationRequiredError "Authorization required"
  end.
End Receipts.

(** ** Lemmas *)

Lemma check_expiry_printed now t :
  0 <= t + 719163 * day_us - day_us < max_ordinal * day_us ->
  check_expiry now (JStr (utc_isoformat t)) =
    if t / us_per_second * us_per_second <? now
    then raise AuthorizationError "invalid expiration timestamp in authorization receipt" else Ok tt.
Proof.
  intros Ht. unfold check_expiry. cbn [res_bind]. rewrite fromisoformat_utc_isoformat by done.
  cbv iota beta. replace (unix_us _ _) with (t / us_per_second * us_per_second); [by case_match|].
  unfold unix_us, day_us, us_per_second. Z.to_euclidean_division_equations. lia.
Qed.

Lemma validate_receipt_facts `{Host} now d r :
  validate_receipt_document now d = Ok r ->
  exists h, _compute_receipt_hash d = Ok h /\ assoc "verification_hash" d = Some (JStr h) /\
    rc_verification_hash r = JStr h /\ (forall k, In k required_fields -> has_key k d = true).
Proof.
  unfold validate_receipt_document. intros Hv. guard_ok Hv. simpl_bool.
  apply res_bind_ok in Hv as (h & Hh & Hv). apply res_bind_ok in Hv as (a & Ha & Hv). guard_ok Hv. simpl_bool.
  match goal with E : str_is a h = true |- _ => apply str_is_eq in E as -> end.
  exists h. split; [done|]. unfold getitem in Ha. guard_ok Ha. injection Ha as ->. split; [done|].
  do 11 (apply res_bind_ok in Hv as (? & _ & Hv)). injection Hv as <-. split; [done|].
  by apply forallb_forall.
Qed.

Section Properties.
Context `{HostOk}.

(** A receipt round trips through its document until it expires: the receipt
    created at [now] for [valid_hours] is the one [validate_receipt_document]
    returns for its document at every instant up to the expiry printed in it (whole
    seconds), and at every later instant the document is refused. *)
Theorem receipt_roundtrip now operator specialist_id action_type scope operations hours mode r items t :
  create_authorization_receipt now operator specialist_id action_type scope operations hours mode = Ok r ->
  AuthorizationReceipt_to_dict r = JObj items ->
  validate_receipt_document t items =
    if t <=? (now + hours * 3600 * us_per_second) / us_per_second * us_per_second then Ok r
    else raise AuthorizationError "invalid expiration timestamp in authorization receipt".
Proof.
  unfold create_authorization_receipt. intros Hc [= <-].
  do 3 guard_ok Hc. apply res_bind_ok in Hc as (e & He & Hc). apply res_bind_ok in Hc as (h & Hh & Hc).
  injection Hc as <-. apply add_hours_range in He as [-> He]. cbn [rc_schema_version rc_receipt_id rc_timestamp_utc
    rc_operator rc_specialist_id rc_action_type rc_target_scope rc_allowed_operations rc_authorized_until_utc
    rc_approval_mode rc_verification_hash].
  set (document := [_; _; _; _; _; _; _; _; _; _; _]).
  assert (Hhash : _compute_receipt_hash document = Ok h) by exact Hh.
  unfold validate_receipt_document. change (forallb (fun k => has_key k document) required_fields) with true.
  cbn [negb]. rewrite Hhash. cbn [res_bind]. change (getitem "verification_hash" (JObj document)) with (Ok (JStr h)).
  cbn [res_bind]. rewrite str_is_refl. cbn [negb].
  change (getitem "authorized_until_utc" (JObj document)) with (Ok (JStr (utc_isoformat (now + hours * 3600 * us_per_second)))).
  cbn [res_bind]. rewrite check_expiry_printed by done. rewrite Z.ltb_antisym. by destruct (t <=? _).
Qed.

(** Receipts are tamper evident: two documents accepted with the same
    verification hash agree on everything but their receipt ids, for a
    collision-free hash. *)
Theorem receipt_tamper_evident t1 t2 d1 d2 r1 r2 :
  Inj (=) (=) sha256_hex ->
  float_free (JObj d1) = true -> keys_unique (JObj d1) = true ->
  float_free (JObj d2) = true -> keys_unique (JObj d2) = true ->
  validate_receipt_document t1 d1 = Ok r1 -> validate_receipt_document t2 d2 = Ok r2 ->
  rc_verification_hash r1 = rc_verification_hash r2 ->
  forall k, k <> "receipt_id" -> json_sort <$> assoc k d1 = json_sort <$> assoc k d2.
Proof.
  intros Hinj F1 U1 F2 U2 (h & H1 & E1 & R1 & _)%validate_receipt_facts (h' & H2 & E2 & R2 & _)%validate_receipt_facts.
  rewrite R1, R2. intros [= <-] k Hk.
  destruct (decide (k = "verification_hash")) as [->|Hk']; [by rewrite E1, E2|].
  eapply (select_digest_binds (fun k => negb (mem k ["verification_hash"; "receipt_id"]))); eauto.
  apply negb_true_iff, mem_not_In. intros [|[|[]]]; by subst.
Qed.

End Properties.

(** ** Witnesses *)

#[local] Existing Instance demo_host.
#[local] Existing Instance demo_host_ok.

Definition demo_receipt : res AuthorizationReceipt :=
  create_authorization_receipt 1750000000000000 "alice" "red-team" "scan" ["10.0.0.7"; "10.0.0.5"] ["nmap"] 4
    "interactive_confirmation".

Lemma receipt_roundtrip_witness : exists r items,
  demo_receipt = Ok r /\ AuthorizationReceipt_to_dict r = JObj items /\
  validate_receipt_document 1750014400000000 items = Ok r /\
  validate_receipt_document 1750014400000001 items =
    raise AuthorizationError "invalid expiration timestamp in authorization receipt".
Proof.
  assert (H : exists r, demo_receipt = Ok r) by (eexists; vm_compute; reflexivity).
  destruct H as (r & H). exists r, (match AuthorizationReceipt_to_dict r with JObj items => items | _ => [] end).
  split; [exact H|]. split; [reflexivity|].
  split; (etransitivity; [exact (receipt_roundtrip _ _ _ _ _ _ _ _ r _ _ H eq_refl)|reflexivity]).
Defined.

(** The document of a receipt that claims an unknown version, with the checksum of its content. *)
Definition forged_items (receipt_id : string) : list (string * json) :=
  let items := [("schema_version", JStr "2.0"); ("timestamp_utc", JStr "now"); ("operator", JStr "nobody");
                ("specialist_id", JStr "red-team"); ("action_type", JStr "scan"); ("target_scope", JList []);
                ("allowed_operations", JList []); ("authorized_until_utc", JStr "9999-12-31T00:00:00Z");
                ("approval_mode", JStr "none")] in
  match _compute_receipt_hash items with
  | Ok h => items ++ [("receipt_id", JStr receipt_id); ("verification_hash", JStr h)]
  | Raise _ => []
  end.

Lemma receipt_tamper_evident_witness :
  json_sort <$> assoc "operator" (forged_items "a") = json_sort <$> assoc "operator" (forged_items "b").
Proof.
  assert (H1 : exists r, validate_receipt_document 0 (forged_items "a") = Ok r /\
                         rc_verification_hash r = default JNull (assoc "verification_hash" (forged_items "a")))
    by (eexists; split; vm_compute; reflexivity).
  assert (H2 : exists r, validate_receipt_document 0 (forged_items "b") = Ok r /\
                         rc_verification_hash r = default JNull (assoc "verification_hash" (forged_items "a")))
    by (eexists; split; vm_compute; reflexivity).
  destruct H1 as (r1 & H1 & E1), H2 as (r2 & H2 & E2).
  refine (receipt_tamper_evident 0 0 _ _ r1 r2 _ _ _ _ _ H1 H2 _ "operator" _);
    first [vm_compute; reflexivity | congruence | discriminate | intros a b Heq; exact Heq].
Defined.

(** Nothing but the checksum ties a receipt of an unknown version to an operator: a
    document anyone can compute opens the gate. *)
Lemma forged_receipt_accepted : exists r,
  ensure_authorization {| isatty := false; current_user := "mallory"; typed := "" |} 1750000000000000 "red-team"
    "destroy" ["production"] ["wipe"] (Some (encode_utf8 (dumps false (JObj (forged_items "x"))))) false None = Ok r /\
  rc_operator r = JStr "nobody" /\ rc_action_type r = JStr "scan" /\ rc_target_scope r = [].
Proof. eexists. split; [vm_compute; reflexivity|]. repeat split. Qed.
