(* ===== verification/Authorization.v ===== *)
(** * Execution authorizations

    [src/cops/execution/authorization.py]: signing keys and the verifier's trust
    store, the creation, verification and consumption of authorizations.  The
    clock, the fresh identifier, the environment and the trust-store file are
    arguments; HMAC-SHA256 is an operation of the host. *)

From S2P Require Import Prelude Lifecycle PyStr Json JsonParse Timestamp Schema Contracts Models.
From S2P Require Import Receipts.

(** ** Keys *)

(** Secrets are byte strings. *)
Definition _validate_secret (secret : string) : res string :=
  raise_if slen secret <? 32 as AuthorizationError msg "authorization HMAC secrets must contain at least 32 bytes" ;;
  Ok secret.

Record AuthorizationSigner := {
  sg_key_id : string; sg_operator : string; sg_secret : string; sg_valid_from : json; sg_valid_until : json
}.

Definition AuthorizationSigner_init (key_id operator secret : string) (valid_from valid_until : json)
    : res AuthorizationSigner :=
  _validate_secret secret ;;?
  Ok {| sg_key_id := key_id; sg_operator := operator; sg_secret := secret; sg_valid_from := valid_from;
        sg_valid_until := valid_until |}.

Definition _validate_key_window (valid_from valid_until : json) : res unit :=
  raise_if negb (is_str valid_from && is_str valid_until)
    as AuthorizationError msg "active trusted keys require bounded validity windows" ;;
  let? (start, finish) :=
    catch (fun e => is_value_error e || (exc_cls e == TypeError))
      (let? a := timestamp valid_from in let? b := timestamp valid_until in Ok (a, b))
      (fun _ => raise AuthorizationError "trusted key validity windows must be canonical UTC timestamps") in
  raise_if negb (str_is valid_from (utc_isoformat start)) || negb (str_is valid_until (utc_isoformat finish)) ||
           (finish <=? start)
    as AuthorizationError msg "trusted key validity windows must be canonical, bounded UTC timestamps" ;;
  Ok tt.

Definition _validate_window (valid_from valid_until issued_at expires_at : json) : res unit :=
  let? issued := timestamp issued_at in
  let? expires := timestamp expires_at in
  raise_if expires <=? issued as AuthorizationError msg "authorization expiry must follow issue time" ;;
  let? early := if truthy valid_from then let? t := timestamp valid_from in Ok (issued <? t) else Ok false in
  raise_if early as AuthorizationError msg "authorization issue time precedes validity" ;;
  let? late := if truthy valid_until then let? t := timestamp valid_until in Ok (t <? expires) else Ok false in
  raise_if late as AuthorizationError msg "authorization expiry exceeds validity" ;;
  Ok tt.

Record TrustedAuthorizationKey := {
  tk_key_id : string; tk_operator : string; tk_secret : string; tk_valid_from : json; tk_valid_until : json;
  tk_status : string
}.

Definition TrustedAuthorizationKey_init (key_id operator secret : string) (valid_from valid_until : json)
    (status : string) : res TrustedAuthorizationKey :=
  raise_if negb (mem status ["active"; "revoked"]) as AuthorizationError msg "unsupported trusted key status" ;;
  (if status == "active" then _validate_secret secret ;;? _validate_key_window valid_from valid_until else Ok tt) ;;?
  Ok {| tk_key_id := key_id; tk_operator := operator; tk_secret := secret; tk_valid_from := valid_from;
        tk_valid_until := valid_until; tk_status := status |}.

(** ** The trust store *)

Definition AuthorizationTrustStore := gmap string TrustedAuthorizationKey.

Fixpoint add_keys (keys : list TrustedAuthorizationKey) (store : AuthorizationTrustStore)
    : res AuthorizationTrustStore :=
  match keys with
  | [] => Ok store
  | key :: keys' =>
      raise_if bool_decide (is_Some (store !! tk_key_id key))
        as AuthorizationError msg "duplicate trusted authorization key" ;;
      add_keys keys' (<[tk_key_id key := key]> store)
  end.

Definition AuthorizationTrustStore_init (keys : list TrustedAuthorizationKey) : res AuthorizationTrustStore :=
  add_keys keys ∅.

(** What the file system says of the trust-store file; [tf_bytes] is [None] when
    reading it fails. *)
Record TrustFile := {
  tf_is_symlink : bool; tf_opens : bool; tf_is_regular : bool; tf_size : Z; tf_uid : Z; tf_mode : Z;
  tf_bytes : option string
}.

(** [isinstance(item.get(field), str) and item[field]]. *)
Definition nonempty_field (items : list (string * json)) (field : string) : option string :=
  match assoc field items with
  | Some (JStr s) => if s == "" then None else Some s
  | _ => None
  end.

Section TrustStore.
Context `{Host}.
Variable environment : gmap string string.

(** One entry of the [keys] list. *)
Definition trusted_key (item : json) : res TrustedAuthorizationKey :=
  match item with
  | JObj items =>
      match nonempty_field items "key_id", nonempty_field items "operator_identity" with
      | Some key_id, Some operator =>
          raise_if negb (str_is (assoc_default "algorithm" items JNull) "hmac-sha256")
            as AuthorizationError msg "unsupported algorithm" ;;
          match assoc_default "status" items (JStr "active") with
          | JStr status =>
              raise_if negb (mem status ["active"; "revoked"])
                as AuthorizationError msg "unsupported trusted key status" ;;
              let? secret :=
                if status == "active" then
                  match nonempty_field items "secret_env" with
                  | Some secret_env =>
                      match environment !! secret_env with
                      | Some value => Ok (encode_utf8 value)
                      | None => raise AuthorizationError "secret environment variable is unavailable"
                      end
                  | None => raise AuthorizationError "secret environment variable is unavailable"
                  end
                else Ok "" in
              TrustedAuthorizationKey_init key_id operator secret (assoc_default "valid_from_utc" items JNull)
                (assoc_default "valid_until_utc" items JNull) status
          | _ => raise AuthorizationError "unsupported trusted key status"
          end
      | _, _ => raise AuthorizationError "trusted keys require string key and operator identities"
      end
  | _ => raise AuthorizationError "authorization trust-store key entries must be objects"
  end.

Definition trust_store_of_document (doc : json) : res AuthorizationTrustStore :=
  match doc with
  | JObj items =>
      raise_if negb (str_is (assoc_default "schema_version" items JNull) "cops.authorization-trust-store/v1")
        as AuthorizationError msg "unsupported authorization trust-store schema" ;;
      match assoc_default "keys" items JNull with
      | JList entries => let? keys := res_map trusted_key entries in AuthorizationTrustStore_init keys
      | _ => raise AuthorizationError "authorization trust-store keys must be a list"
      end
  | _ => raise AuthorizationError "authorization trust store must be a JSON object"
  end.

Definition AuthorizationTrustStore_from_file (file : TrustFile) (euid : Z) : res AuthorizationTrustStore :=
  raise_if tf_is_symlink file as AuthorizationError msg "authorization trust store must not be a symbolic link" ;;
  raise_if negb (tf_opens file) as AuthorizationError msg "cannot open authorization trust store" ;;
  raise_if negb (tf_is_regular file) as AuthorizationError msg "authorization trust store must be a regular file" ;;
  raise_if 1048576 <? tf_size file as AuthorizationError msg "authorization trust store exceeds its byte limit" ;;
  raise_if negb (tf_uid file =? euid)
    as AuthorizationError msg "authorization trust store must be owned by the current verifier account" ;;
  raise_if negb (Z.land (tf_mode file) 63 =? 0)
    as AuthorizationError msg "authorization trust store permissions must not allow group or other access" ;;
  let? doc :=
    match tf_bytes file with
    | None => raise AuthorizationError "invalid or oversized authorization trust store"
    | Some raw =>
        catch (fun e => exc_cls e == EvidenceError)
          (decode_json (String.substring 0 (Z.to_nat 1048577) raw) 1048576 32)
          (fun _ => raise AuthorizationError "invalid or oversized authorization trust store")
    end in
  trust_store_of_document doc.
End TrustStore.

Definition resolve (store : AuthorizationTrustStore) (key_id operator issued_at expires_at : json)
    : res TrustedAuthorizationKey :=
  let? key :=
    match key_id with
    | JStr id => Ok (store !! id)
    | JList _ | JObj _ => raise TypeError "unhashable"
    | _ => Ok None
    end in
  match key with
  | Some key =>
      raise_if negb (tk_status key == "active") || negb (str_is operator (tk_operator key))
        as AuthorizationError msg "authorization signing key is unknown, revoked, or not trusted for the operator" ;;
      _validate_key_window (tk_valid_from key) (tk_valid_until key) ;;?
      _validate_window (tk_valid_from key) (tk_valid_until key) issued_at expires_at ;;?
      Ok key
  | None => raise AuthorizationError "authorization signing key is unknown, revoked, or not trusted for the operator"
  end.

(** ** Arguments that are documents or objects *)

Inductive PlanArg := PlanDict (d : json) | PlanObject (p : ActionPlan).
Inductive EngagementArg := NoEngagement | EngagementObject (e : Engagement) | EngagementDict (d : json).

(** [AuthOther] is an object of another class, such as a historical record. *)
Inductive AuthArg := AuthDict (d : json) | AuthObject (a : ExecutionAuthorization) | AuthOther.

(** [object.__setattr__(auth, "signature_digest", d)]. *)
Definition set_signature (a : ExecutionAuthorization) (d : json) : ExecutionAuthorization :=
  {| auth_schema_version := auth_schema_version a; auth_authorization_id := auth_authorization_id a;
     auth_action_plan_id := auth_action_plan_id a; auth_plan_digest := auth_plan_digest a;
     auth_engagement_id := auth_engagement_id a; auth_operator := auth_operator a;
     auth_issued_at := auth_issued_at a; auth_authorized_until_utc := auth_authorized_until_utc a;
     auth_bound_parameters := auth_bound_parameters a; auth_approval_mode := auth_approval_mode a;
     auth_signature_algorithm := auth_signature_algorithm a; auth_signing_key_id := auth_signing_key_id a;
     auth_signature_digest := d; auth_status := auth_status a; auth_consumed_at := auth_consumed_at a;
     auth_consumed_by_worker := auth_consumed_by_worker a |}.

(** [hmac.compare_digest(v, expected)] on strings: only ASCII ones are accepted. *)
Definition compare_digest (v : json) (expected : string) : res bool :=
  match v with
  | JStr s =>
      raise_if negb (string_all (fun c => code c <? 128) s && string_all (fun c => code c <? 128) expected)
        as TypeError msg "comparing strings with non-ASCII characters is not supported" ;;
      Ok (s == expected)
  | _ => raise TypeError "unsupported operand types"
  end.

Section Authorizations.
Context `{Host}.
Variable read_schema : string -> option json.
Variable report_semantics : string -> json -> res unit.

Notation validate document kind :=
  (validate_contract read_schema report_semantics document (Some kind) (1024 * 1024) 32).

Definition _engagement_document (engagement : EngagementArg) (plan : ActionPlan)
    (operator issued_at expires_at : json) : res json :=
  let? doc :=
    match engagement with
    | NoEngagement => raise AuthorizationError "explicit active engagement is required"
    | EngagementObject e => Ok (to_dict e)
    | EngagementDict d => Ok d
    end in
  validate doc "engagement" ;;?
  let? status := getitem "status" doc in
  let? engagement_id := getitem "engagement_id" doc in
  raise_if negb (str_is status "active") || negb (py_eq engagement_id (plan_engagement_id plan))
    as AuthorizationError msg "authorization requires the plan's active engagement" ;;
  let? doc_operator := getitem "operator" doc in
  raise_if negb (py_eq doc_operator operator)
    as AuthorizationError msg "authorization operator does not match the engagement operator" ;;
  let? window := getitem "window" doc in
  let? started_at := getitem "started_at" window in
  let? until := getitem "authorized_until_utc" window in
  catch is_authorization_error (_validate_window started_at until issued_at expires_at)
    (fun _ => raise AuthorizationError "authorization is outside engagement window") ;;?
  Ok doc.

Definition compute_authorization_signature (payload : json) (secret : string) : res string :=
  let? key := _validate_secret secret in
  let? text := canonical payload in
  Ok (hmac_sha256_hex key text).

(** [ActionPlan.from_dict(p) if isinstance(p, dict) else p]. *)
Definition plan_of (action_plan : PlanArg) : res ActionPlan :=
  match action_plan with
  | PlanDict d => from_dict read_schema report_semantics d
  | PlanObject p => Ok p
  end.

(** [now] is the clock and [fresh_id] the [uuid4().hex] of the call. *)
Definition create_execution_authorization (now : Z) (fresh_id : string) (action_plan : PlanArg)
    (signer : AuthorizationSigner) (engagement : EngagementArg) (worker_identity : string) (valid_hours : Z)
    (approval_mode : string) (issued_at authorized_until_utc authorization_id : json)
    : res ExecutionAuthorization :=
  let? plan := plan_of action_plan in
  validate (to_dict plan) "action_plan" ;;?
  let? terminal := in_set (plan_status plan) ["fulfilled"; "rejected"; "cancelled"] in
  raise_if terminal as AuthorizationError msg "cannot authorize terminal action plan" ;;
  let issued_at := json_or issued_at (JStr (utc_isoformat now)) in
  let? authorized_until_utc :=
    if truthy authorized_until_utc then Ok authorized_until_utc
    else let? expiry := add_hours now valid_hours in Ok (JStr (utc_isoformat expiry)) in
  _engagement_document engagement plan (JStr (sg_operator signer)) issued_at authorized_until_utc ;;?
  _validate_window (sg_valid_from signer) (sg_valid_until signer) issued_at authorized_until_utc ;;?
  let auth :=
    ExecutionAuthorization_init (JStr "cops.execution-authorization/v1")
      (json_or authorization_id (JStr ("auth-" +:+ take_prefix 16 fresh_id))) (plan_plan_id plan)
      (plan_plan_digest plan) (plan_engagement_id plan) (JStr (sg_operator signer)) (JStr "approved") issued_at
      authorized_until_utc
      (JObj [("action_plan", ActionPlan_approved_snapshot plan true); ("worker_identity", JStr worker_identity)])
      (JStr approval_mode) (JStr "0000000000000000000000000000000000000000000000000000000000000000")
      (JStr "hmac-sha256") (JStr (sg_key_id signer)) JNull JNull in
  let? signature := compute_authorization_signature (ExecutionAuthorization_signed_payload auth) (sg_secret signer) in
  let auth := set_signature auth (JStr signature) in
  validate (to_dict auth) "execution_authorization" ;;?
  Ok auth.

Definition verify_execution_authorization (now : Z) (authorization : AuthArg) (action_plan : PlanArg)
    (trust_store : option AuthorizationTrustStore) (engagement : EngagementArg) (worker_identity : string)
    (current_time_iso : json) : res ExecutionAuthorization :=
  match trust_store with
  | None => raise AuthorizationError "explicit verifier trust store is required"
  | Some store =>
      let? auth :=
        match authorization with
        | AuthDict d =>
            let? version := dict_get "schema_version" d JNull in
            let? items := dict_items d in
            raise_if str_is version "1.0" || has_key "receipt_id" items
              as AuthorizationError msg "legacy authorization receipts cannot authorize execution" ;;
            catch (fun e => is_value_error e || (exc_cls e == KeyError))
              (from_dict (A := ExecutionAuthorization) read_schema report_semantics d)
              (fun _ => raise AuthorizationError "invalid or tampered execution authorization envelope")
        | AuthObject a => validate (to_dict a) "execution_authorization" ;;? Ok a
        | AuthOther =>
            raise AuthorizationError "unsupported historical authorization record cannot authorize execution"
        end in
      let? plan := plan_of action_plan in
      validate (to_dict plan) "action_plan" ;;?
      let? key := resolve store (auth_signing_key_id auth) (auth_operator auth) (auth_issued_at auth)
                    (auth_authorized_until_utc auth) in
      let? expected := compute_authorization_signature (ExecutionAuthorization_signed_payload auth) (tk_secret key) in
      let? same := compare_digest (auth_signature_digest auth) expected in
      raise_if negb same as AuthorizationError msg "authorization signature verification failed" ;;
      raise_if negb (str_is (auth_status auth) "approved") as AuthorizationError msg "authorization is not approved" ;;
      let? now := if truthy current_time_iso then timestamp current_time_iso else Ok now in
      let? issued := timestamp (auth_issued_at auth) in
      let? outside := if now <? issued then Ok true
                      else let? until := timestamp (auth_authorized_until_utc auth) in Ok (until <=? now) in
      raise_if outside as AuthorizationError msg "authorization is not currently valid" ;;
      _engagement_document engagement plan (auth_operator auth) (auth_issued_at auth)
        (auth_authorized_until_utc auth) ;;?
      raise_if negb (py_eq (auth_action_plan_id auth) (plan_plan_id plan)) ||
               negb (py_eq (auth_plan_digest auth) (plan_plan_digest plan)) ||
               negb (py_eq (auth_engagement_id auth) (plan_engagement_id plan))
        as AuthorizationError msg "authorization does not bind the requested action plan" ;;
      let bound := _thaw (auth_bound_parameters auth) in
      let? bound_plan := dict_get "action_plan" bound JNull in
      raise_if negb (py_eq bound_plan (ActionPlan_approved_snapshot plan true))
        as AuthorizationError msg "authorization's signed action plan snapshot does not match" ;;
      let? bound_worker := dict_get "worker_identity" bound JNull in
      raise_if negb (str_is bound_worker worker_identity)
        as AuthorizationError msg "authorization worker identity does not match" ;;
      Ok auth
  end.

(** [now_iso] is the reading of [utc_now]. *)
Definition consume_execution_authorization (authorization : ExecutionAuthorization) (worker_identity now_iso : string)
    (consumed_at : json) : res ExecutionAuthorization :=
  raise_if negb (str_is (auth_status authorization) "approved")
    as AuthorizationError msg "cannot consume authorization" ;;
  let? a := ExecutionAuthorization_transition_to authorization "consumed" in
  Ok (set_lifecycle a (auth_status a) (json_or consumed_at (JStr now_iso)) (JStr worker_identity)).

Definition request_interactive_plan_authorization (terminal : Terminal) (now : Z) (fresh_id : string)
    (action_plan : PlanArg) (signer : AuthorizationSigner) (engagement : EngagementArg) (worker_identity : string)
    (valid_hours : Z) (input_func : option string) : res ExecutionAuthorization :=
  let? plan := plan_of action_plan in
  let? answer :=
    match input_func with
    | Some answer => Ok answer
    | None =>
        raise_if negb (isatty terminal)
          as AuthorizationRequiredError msg "interactive authorization requires a terminal" ;;
        Ok (typed terminal)
    end in
  raise_if negb (strip answer == "APPROVE") as AuthorizationDeniedError msg "authorization was denied" ;;
  create_execution_authorization now fresh_id (PlanObject plan) signer engagement worker_identity valid_hours
    "interactive_confirmation" JNull JNull JNull.
End Authorizations.
