(* ===== verification/AuthorizationProps.v ===== *)
(** * Execution authorizations: properties

    What a verified authorization guarantees, that issued authorizations verify,
    that a signature binds its payload and that an authorization is used once. *)

From S2P Require Import Prelude Lifecycle PyStr Json JsonParse JsonFacts Canonical Documents Timestamp.
From S2P Require Import TimestampFacts Schema Contracts Models ModelsFacts ContractProps Receipts.
From S2P Require Import Authorization.

(** ** Python equality *)

Lemma num_eqb_refl f : isfinite f = true -> num_eqb f f = true.
Proof.
  destruct f as [m e| |]; try done. intros _. unfold num_eqb, num_compare. by rewrite ?Z.compare_refl.
Qed.

Lemma py_eq_refl v : all_finite v = true -> keys_unique v = true -> py_eq v v = true.
Proof.
  induction v as [|b|z|f|s|xs IH|items IH] using json_ind'; intros Hf Hk.
  - done.
  - destruct b; reflexivity.
  - simpl. by apply num_eqb_refl.
  - simpl. by apply num_eqb_refl.
  - simpl. apply eqb_refl.
  - simpl in *. induction IH as [|x xs Hx _ IHxs]; [done|]. simpl in *.
    apply andb_true_iff in Hf as [? ?], Hk as [? ?]. rewrite Hx by done. simpl. by apply IHxs.
  - pose proof (keys_unique_nodup _ Hk) as Hnd. simpl in Hf, Hk |- *. apply andb_true_iff in Hk as [_ Hk].
    rewrite Nat.eqb_refl. simpl.
    assert (Hsub : forall part, (forall kv, In kv part -> In kv items) ->
      (fix items_eq (xs : list (string * json)) : bool :=
         match xs with
         | [] => true
         | (k, x) :: xs' => match assoc k items with Some y => py_eq x y && items_eq xs' | None => false end
         end) part = true); [|by apply Hsub].
    induction part as [|[k x] part IHp]; intros Hin; [done|].
    assert (Hkx : In (k, x) items) by (apply Hin; by left).
    rewrite (proj2 (assoc_In_nodup k items x Hnd) Hkx).
    rewrite list.Forall_forall in IH. rewrite forallb_forall in Hf, Hk.
    assert (py_eq x x = true) as ->
      by (apply (IH (k, x)); [by apply list_elem_of_In|by apply (Hf (k, x))|by apply (Hk (k, x))]).
    simpl. apply IHp. intros kv ?. apply Hin. by right.
Qed.

Lemma getitem_get k v x : getitem k v = Ok x -> get k v = Some x.
Proof. unfold getitem, get. destruct v; try done. destruct (assoc k items); by intros [= ->]. Qed.

(** ** Windows *)

Lemma validate_window_ok from until issued expires :
  _validate_window from until issued expires = Ok tt ->
  exists i e, timestamp issued = Ok i /\ timestamp expires = Ok e /\ i < e /\
    (truthy from = true -> exists t, timestamp from = Ok t /\ t <= i) /\
    (truthy until = true -> exists t, timestamp until = Ok t /\ e <= t).
Proof.
  unfold _validate_window. intros Hv.
  apply res_bind_ok in Hv as (i & Hi & Hv). apply res_bind_ok in Hv as (e & He & Hv). guard_ok Hv.
  apply res_bind_ok in Hv as (early & Hearly & Hv). guard_ok Hv. apply res_bind_ok in Hv as (late & Hlate & Hv).
  guard_ok Hv. simpl_bool. exists i, e. split; [done|]. split; [done|]. split; [done|]. split; intros Ht.
  - rewrite Ht in Hearly. apply res_bind_ok in Hearly as (t & H1 & [= E]). exists t. split; [done|]. simpl_bool. lia.
  - rewrite Ht in Hlate. apply res_bind_ok in Hlate as (t & H1 & [= E]). exists t. split; [done|]. simpl_bool. lia.
Qed.

Lemma key_window_ok from until :
  _validate_key_window from until = Ok tt -> exists a b, from = JStr a /\ until = JStr b /\ a <> "" /\ b <> "".
Proof.
  unfold _validate_key_window. intros Hv. guard_ok Hv. simpl_bool.
  destruct from as [| | | |a| |]; try done. destruct until as [| | | |b| |]; try done.
  exists a, b. split; [done|]. split; [done|].
  apply res_bind_ok in Hv as ([start finish] & Hs & _). rewrite catch_ok in Hs by done.
  apply res_bind_ok in Hs as (x & Hx & Hs). apply res_bind_ok in Hs as (y & Hy & _).
  split; intros ->; [vm_compute in Hx|vm_compute in Hy]; done.
Qed.

Lemma truthy_str a : a <> "" -> truthy (JStr a) = true.
Proof. intros Ha. simpl. apply negb_true_iff. by apply eqb_neq. Qed.

Lemma resolve_ok store id operator issued expires key :
  resolve store id operator issued expires = Ok key ->
  exists k, id = JStr k /\ store !! k = Some key /\ tk_status key = "active" /\ operator = JStr (tk_operator key) /\
    exists i e f u, timestamp issued = Ok i /\ timestamp expires = Ok e /\ timestamp (tk_valid_from key) = Ok f /\
      timestamp (tk_valid_until key) = Ok u /\ f <= i < e /\ e <= u.
Proof.
  unfold resolve. intros Hv. apply res_bind_ok in Hv as (o & Ho & Hv). destruct o as [k|]; [|done].
  guard_ok Hv. simpl_bool. apply res_bind_ok in Hv as ([] & Hw & Hv). apply res_bind_ok in Hv as ([] & Hx & Hv).
  injection Hv as ->. destruct id as [| | | |k| |]; try done. injection Ho as Ho. exists k.
  split; [done|]. split; [done|]. split; [done|]. split; [by apply str_is_eq|].
  apply key_window_ok in Hw as (a & b & Ha & Hb & Hne1 & Hne2).
  apply validate_window_ok in Hx as (i & e & Hi & He & Hlt & Hf & Hu).
  destruct Hf as (f & Hf & Hfi); [rewrite Ha; by apply truthy_str|].
  destruct Hu as (u & Hu & Hue); [rewrite Hb; by apply truthy_str|].
  exists i, e, f, u. repeat apply conj; try done; lia.
Qed.

Section Properties.
Context `{HostOk}.

(** [hexdigest()] is ASCII text. *)
Definition hmac_is_hex : Prop :=
  forall key text, string_all (fun c => code c <? 128) (hmac_sha256_hex key text) = true.
Context (read_schema : string -> option json) (report_semantics : string -> json -> res unit).

Notation validate document kind :=
  (validate_contract read_schema report_semantics document (Some kind) (1024 * 1024) 32).
Notation create := (create_execution_authorization read_schema report_semantics).
Notation verify := (verify_execution_authorization read_schema report_semantics).

(** The document of an engagement argument. *)
Definition engagement_doc (e : EngagementArg) : json :=
  match e with
  | NoEngagement => JNull
  | EngagementObject e => to_dict e
  | EngagementDict d => d
  end.

Lemma engagement_document_ok engagement plan operator issued expires doc :
  _engagement_document read_schema report_semantics engagement plan operator issued expires = Ok doc ->
  doc = engagement_doc engagement /\ get "status" doc = Some (JStr "active") /\
  (exists v, get "engagement_id" doc = Some v /\ py_eq v (plan_engagement_id plan) = true) /\
  (exists v, get "operator" doc = Some v /\ py_eq v operator = true) /\
  exists window vs vu s u i e,
    get "window" doc = Some window /\ get "started_at" window = Some vs /\ get "authorized_until_utc" window = Some vu /\
    timestamp vs = Ok s /\ timestamp vu = Ok u /\ timestamp issued = Ok i /\ timestamp expires = Ok e /\
    s <= i < e /\ e <= u.
Proof.
  unfold _engagement_document. intros Hv. apply res_bind_ok in Hv as (d & Hd & Hv).
  apply res_bind_ok in Hv as (d' & (_ & _ & _ & Hinv)%validate_contract_ok & Hv).
  assert (d = engagement_doc engagement) as -> by (destruct engagement; try done; by injection Hd as <-).
  apply res_bind_ok in Hv as (status & Hs%getitem_get & Hv). apply res_bind_ok in Hv as (eid & He%getitem_get & Hv).
  guard_ok Hv. simpl_bool. apply res_bind_ok in Hv as (op & Ho%getitem_get & Hv). guard_ok Hv. simpl_bool.
  apply res_bind_ok in Hv as (window & Hw & Hv). apply res_bind_ok in Hv as (vs & Hvs & Hv).
  apply res_bind_ok in Hv as (vu & Hvu & Hv). apply res_bind_ok in Hv as ([] & Hwin & Hv). injection Hv as <-.
  match goal with E : str_is status _ = true |- _ => apply str_is_eq in E as -> end.
  split; [done|]. split; [done|]. split; [by exists eid|]. split; [by exists op|].
  rewrite catch_ok in Hwin by done. apply validate_window_ok in Hwin as (i & e & Hi & Hex & Hlt & Hf & Hu).
  change (check_engagement (engagement_doc engagement) = Ok tt) in Hinv. unfold check_engagement in Hinv.
  apply res_bind_ok in Hinv as ([] & _ & Hinv). apply res_bind_ok in Hinv as (w & Hw' & Hinv).
  apply res_bind_ok in Hinv as ([] & (s & u & vs' & vu' & Hvs' & Hvu' & Hs1 & Hu1 & _)%check_window_ok & _).
  rewrite Hw in Hw'. injection Hw' as <-. rewrite Hvs in Hvs'. injection Hvs' as <-. rewrite Hvu in Hvu'. injection Hvu' as <-.
  destruct (Hf (timestamp_truthy _ _ Hs1)) as (s' & Hs2 & ?). rewrite Hs1 in Hs2. injection Hs2 as <-.
  destruct (Hu (timestamp_truthy _ _ Hu1)) as (u' & Hu2 & ?). rewrite Hu1 in Hu2. injection Hu2 as <-.
  exists window, vs, vu, s, u, i, e. apply getitem_get in Hw, Hvs, Hvu. repeat apply conj; try done; lia.
Qed.

Lemma compute_signature_ok payload secret sig :
  compute_authorization_signature payload secret = Ok sig ->
  exists text, canonical payload = Ok text /\ sig = hmac_sha256_hex secret text /\ 32 <= slen secret.
Proof.
  unfold compute_authorization_signature, _validate_secret. intros Hv.
  apply res_bind_ok in Hv as (k & Hk & Hv). guard_ok Hk. injection Hk as <-. simpl_bool.
  apply res_bind_ok in Hv as (text & Ht & [= <-]). by exists text.
Qed.

(** The fields of a verified authorization, whatever form it was given in. *)
Lemma verify_ok now arg plan_arg store engagement worker time auth :
  verify now arg plan_arg (Some store) engagement worker time = Ok auth ->
  exists plan key text t,
    plan_of read_schema report_semantics plan_arg = Ok plan /\
    resolve store (auth_signing_key_id auth) (auth_operator auth) (auth_issued_at auth) (auth_authorized_until_utc auth) =
      Ok key /\
    canonical (ExecutionAuthorization_signed_payload auth) = Ok text /\
    auth_signature_digest auth = JStr (hmac_sha256_hex (tk_secret key) text) /\
    auth_status auth = JStr "approved" /\
    (if truthy time then timestamp time else Ok now) = Ok t /\
    (exists i u, timestamp (auth_issued_at auth) = Ok i /\ timestamp (auth_authorized_until_utc auth) = Ok u /\ i <= t < u) /\
    _engagement_document read_schema report_semantics engagement plan (auth_operator auth) (auth_issued_at auth)
      (auth_authorized_until_utc auth) = Ok (engagement_doc engagement) /\
    py_eq (auth_action_plan_id auth) (plan_plan_id plan) = true /\
    py_eq (auth_plan_digest auth) (plan_plan_digest plan) = true /\
    py_eq (auth_engagement_id auth) (plan_engagement_id plan) = true /\
    py_eq (default JNull (get "action_plan" (_thaw (auth_bound_parameters auth)))) (ActionPlan_approved_snapshot plan true) = true /\
    get "worker_identity" (_thaw (auth_bound_parameters auth)) = Some (JStr worker).
Proof.
  unfold verify_execution_authorization. intros Hv.
  apply res_bind_ok in Hv as (a & _ & Hv). apply res_bind_ok in Hv as (plan & Hplan & Hv).
  apply res_bind_ok in Hv as (d & _ & Hv). apply res_bind_ok in Hv as (key & Hkey & Hv).
  apply res_bind_ok in Hv as (expected & (text & Htext & -> & _)%compute_signature_ok & Hv).
  apply res_bind_ok in Hv as (same & Hsame & Hv). guard_ok Hv. guard_ok Hv. simpl_bool.
  apply res_bind_ok in Hv as (t & Ht & Hv). apply res_bind_ok in Hv as (i & Hi & Hv).
  apply res_bind_ok in Hv as (outside & Hout & Hv). guard_ok Hv. subst outside.
  apply res_bind_ok in Hv as (doc & Hdoc & Hv). guard_ok Hv. simpl_bool.
  apply res_bind_ok in Hv as (bp & Hbp & Hv). guard_ok Hv. apply res_bind_ok in Hv as (bw & Hbw & Hv). guard_ok Hv.
  simpl_bool. injection Hv as <-.
  match goal with E : str_is (auth_status a) _ = true |- _ => apply str_is_eq in E end.
  match goal with E : str_is bw _ = true |- _ => apply str_is_eq in E as -> end.
  pose proof Hdoc as (-> & _)%engagement_document_ok.
  exists plan, key, text, t. do 3 (split; [done|]). split.
  { unfold compare_digest in Hsame. destruct (auth_signature_digest a); try done. guard_ok Hsame. injection Hsame as <-.
    simpl_bool. by subst. }
  split; [done|]. split; [done|]. split.
  { exists i. destruct (t <? i) eqn:E; [done|]. apply res_bind_ok in Hout as (u & Hu & [= Hle]). simpl_bool.
    exists u. repeat apply conj; try done; lia. }
  do 4 (split; [done|]). destruct (_thaw (auth_bound_parameters a)) as [| | | | | |items]; try done. split.
  - apply dict_get_ok in Hbp. simpl. by rewrite Hbp.
  - apply dict_get_ok in Hbw. simpl in *. by destruct (assoc "worker_identity" items); simplify_eq/=.
Qed.

(** C4. What a verified authorization guarantees at the time it is used: its
    signature is the HMAC of its payload under an active key of the trust store that
    belongs to its operator; it is approved; and the time lies inside the validity
    of the authorization, of the key and of the engagement's window, where the
    engagement is active, the plan's own and the operator's own. *)
Theorem verified_authorization_in_force now arg plan_arg store engagement worker time auth :
  verify now arg plan_arg (Some store) engagement worker time = Ok auth ->
  exists plan id key text t i u kf ku window vs vu ws wu,
    plan_of read_schema report_semantics plan_arg = Ok plan /\
    (auth_signing_key_id auth = JStr id /\ store !! id = Some key /\ tk_status key = "active" /\
     auth_operator auth = JStr (tk_operator key)) /\
    (canonical (ExecutionAuthorization_signed_payload auth) = Ok text /\
     auth_signature_digest auth = JStr (hmac_sha256_hex (tk_secret key) text)) /\
    auth_status auth = JStr "approved" /\
    (if truthy time then timestamp time else Ok now) = Ok t /\
    (timestamp (auth_issued_at auth) = Ok i /\ timestamp (auth_authorized_until_utc auth) = Ok u /\ i <= t < u) /\
    (timestamp (tk_valid_from key) = Ok kf /\ timestamp (tk_valid_until key) = Ok ku /\ kf <= t < ku) /\
    (get "status" (engagement_doc engagement) = Some (JStr "active") /\
     get "window" (engagement_doc engagement) = Some window /\ get "started_at" window = Some vs /\
     get "authorized_until_utc" window = Some vu /\ timestamp vs = Ok ws /\ timestamp vu = Ok wu /\ ws <= t < wu) /\
    py_eq (auth_engagement_id auth) (plan_engagement_id plan) = true /\
    py_eq (auth_plan_digest auth) (plan_plan_digest plan) = true /\
    py_eq (default JNull (get "action_plan" (_thaw (auth_bound_parameters auth)))) (ActionPlan_approved_snapshot plan true) = true /\
    get "worker_identity" (_thaw (auth_bound_parameters auth)) = Some (JStr worker).
Proof.
  intros (plan & key & text & t & Hplan & Hkey & Htext & Hsig & Hst & Ht & (i & u & Hi & Hu & Hw) & Hdoc & _ & Hd & He &
          Hs & Hwk)%verify_ok.
  apply resolve_ok in Hkey as (id & Hid & Hk & Hact & Hop & i' & e' & kf & ku & Hi' & He' & Hkf & Hku & ? & ?).
  apply engagement_document_ok in Hdoc as (_ & Hact' & _ & _ & window & vs & vu & ws & wu & i2 & e2 & Hwin & Hvs & Hvu &
    Hws & Hwu & Hi2 & He2 & ? & ?).
  rewrite Hi in Hi', Hi2. rewrite Hu in He', He2. simplify_eq.
  exists plan, id, key, text, t, i', e', kf, ku, window, vs, vu, ws, wu.
  repeat apply conj; try done; lia.
Qed.

(** C5. A signature binds everything it was computed over: two authorizations that
    verify with the same signature under the same key have the same signed payload
    (identifiers, operator, validity, plan snapshot and worker), up to the order of
    keys, for a collision-free HMAC. *)
Theorem signature_binds_payload now1 now2 arg1 arg2 plan1 plan2 store engagement1 engagement2 worker1 worker2
    time1 time2 auth1 auth2 :
  (forall key, Inj (=) (=) (hmac_sha256_hex key)) ->
  verify now1 arg1 plan1 (Some store) engagement1 worker1 time1 = Ok auth1 ->
  verify now2 arg2 plan2 (Some store) engagement2 worker2 time2 = Ok auth2 ->
  auth_signing_key_id auth1 = auth_signing_key_id auth2 ->
  auth_signature_digest auth1 = auth_signature_digest auth2 ->
  float_free (ExecutionAuthorization_signed_payload auth1) = true ->
  keys_unique (ExecutionAuthorization_signed_payload auth1) = true ->
  float_free (ExecutionAuthorization_signed_payload auth2) = true ->
  keys_unique (ExecutionAuthorization_signed_payload auth2) = true ->
  json_equiv (ExecutionAuthorization_signed_payload auth1) (ExecutionAuthorization_signed_payload auth2) /\
  worker1 = worker2.
Proof.
  intros Hinj (p1 & k1 & t1 & c1 & _ & R1 & T1 & S1 & _ & _ & _ & _ & _ & _ & _ & _ & W1)%verify_ok
    (p2 & k2 & t2 & c2 & _ & R2 & T2 & S2 & _ & _ & _ & _ & _ & _ & _ & _ & W2)%verify_ok Hid Hsig F1 U1 F2 U2.
  apply resolve_ok in R1 as (i1 & I1 & K1 & _), R2 as (i2 & I2 & K2 & _).
  rewrite Hid, I2 in I1. injection I1 as <-. rewrite K1 in K2. injection K2 as <-.
  rewrite Hsig, S2 in S1. injection S1 as S1. apply (Hinj (tk_secret k1)) in S1 as ->.
  pose proof (canonical_equiv _ _ _ _ _ _ _ F1 U1 F2 U2 T1 T2) as Heq.
  split; [done|].
  destruct (json_equiv_entry "bound_parameters" _ _ (_thaw (auth_bound_parameters auth1)) U1 U2 Heq eq_refl) as (w & Hw & Hb).
  injection Hw as <-.
  pose proof (keys_unique_entry "bound_parameters" _ _ U1 eq_refl) as B1.
  pose proof (keys_unique_entry "bound_parameters" _ _ U2 eq_refl) as B2.
  destruct (_thaw (auth_bound_parameters auth1)) as [| | | | | |items1]; try done.
  destruct (_thaw (auth_bound_parameters auth2)) as [| | | | | |items2]; try done.
  destruct (json_equiv_entry "worker_identity" items1 items2 (JStr worker1) B1 B2 Hb W1) as (w & Hw & ->%json_equiv_str).
  simpl in W2. rewrite Hw in W2. by injection W2.
Qed.

(** Reading a stored authorization keeps its status. *)
Lemma reload_status a b : of_dict (to_dict a) = Ok b -> auth_status b = auth_status a.
Proof.
  change (ExecutionAuthorization_of_dict (ExecutionAuthorization_to_dict a) = Ok b -> auth_status b = auth_status a).
  unfold ExecutionAuthorization_of_dict. intros Hv. do 6 (apply res_bind_ok in Hv as (? & _ & Hv)).
  apply res_bind_ok in Hv as (v & Hs & Hv). do 9 (apply res_bind_ok in Hv as (? & _ & Hv)). injection Hv as <-.
  change (Ok (auth_status a) = Ok v) in Hs. by injection Hs as <-.
Qed.

(** What [create_execution_authorization] builds. *)
Lemma create_ok now fresh_id plan_arg signer engagement worker hours mode issued until id auth :
  create now fresh_id plan_arg signer engagement worker hours mode issued until id = Ok auth ->
  exists plan auth_id signature,
    plan_of read_schema report_semantics plan_arg = Ok plan /\
    is_ok (validate (to_dict plan) "action_plan") = true /\
    _engagement_document read_schema report_semantics engagement plan (auth_operator auth) (auth_issued_at auth)
      (auth_authorized_until_utc auth) = Ok (engagement_doc engagement) /\
    compute_authorization_signature (ExecutionAuthorization_signed_payload auth) (sg_secret signer) = Ok signature /\
    is_ok (validate (to_dict auth) "execution_authorization") = true /\
    auth = ExecutionAuthorization_init (JStr "cops.execution-authorization/v1") auth_id (plan_plan_id plan)
      (plan_plan_digest plan) (plan_engagement_id plan) (JStr (sg_operator signer)) (JStr "approved")
      (auth_issued_at auth) (auth_authorized_until_utc auth)
      (JObj [("action_plan", ActionPlan_approved_snapshot plan true); ("worker_identity", JStr worker)])
      (JStr mode) (JStr signature) (JStr "hmac-sha256") (JStr (sg_key_id signer)) JNull JNull.
Proof.
  unfold create_execution_authorization. intros Hc.
  apply res_bind_ok in Hc as (plan & Hplan & Hc). apply res_bind_ok in Hc as (d & Hd & Hc).
  apply res_bind_ok in Hc as (terminal & _ & Hc). guard_ok Hc. apply res_bind_ok in Hc as (fin & _ & Hc).
  apply res_bind_ok in Hc as (doc & Hdoc & Hc). apply res_bind_ok in Hc as ([] & _ & Hc).
  apply res_bind_ok in Hc as (sig & Hsig & Hc). apply res_bind_ok in Hc as (d' & Hd' & Hc). injection Hc as <-.
  pose proof Hdoc as (-> & _)%engagement_document_ok. eexists plan, _, sig.
  repeat apply conj; try (rewrite is_ok_iff; eexists);
    first [exact Hplan | exact Hd | exact Hdoc | exact Hsig | exact Hd' | reflexivity].
Qed.

(** The snapshot of a plan whose document is in bounds equals itself. *)
Lemma snapshot_py_eq plan kind :
  keys_unique (to_dict plan) = true -> is_ok (validate (to_dict plan) kind) = true ->
  py_eq (ActionPlan_approved_snapshot plan true) (ActionPlan_approved_snapshot plan true) = true /\
  py_eq (plan_plan_id plan) (plan_plan_id plan) = true /\
  py_eq (plan_plan_digest plan) (plan_plan_digest plan) = true /\
  py_eq (plan_engagement_id plan) (plan_engagement_id plan) = true.
Proof.
  intros Hu (d & (_ & (t & (_ & _ & Hf & _)%canonical_bounded_ok) & _)%validate_contract_ok)%is_ok_iff.
  change (to_dict plan) with (ActionPlan_to_dict plan) in Hf, Hu. unfold ActionPlan_to_dict in Hf, Hu.
  cbn [all_finite keys_unique] in Hf, Hu. apply andb_true_iff in Hu as [_ Hu]. rewrite forallb_forall in Hf, Hu.
  pose proof (fun k v => Hf (k, v)) as Hf'. pose proof (fun k v => Hu (k, v)) as Hu'. simpl in Hf', Hu'.
  split; [|split_and!; apply py_eq_refl; first [eapply Hf'|eapply Hu']; simpl; tauto].
  apply py_eq_refl.
  - cbn [ActionPlan_approved_snapshot all_finite]. apply forallb_forall. intros kv Hkv. apply Hf.
    revert Hkv. rewrite !in_app_iff. simpl. tauto.
  - unfold ActionPlan_approved_snapshot. cbn [keys_unique]. apply andb_true_iff. split.
    + destruct (plan_offline_research plan); reflexivity.
    + apply forallb_forall. intros kv Hkv. apply Hu. revert Hkv. rewrite !in_app_iff. simpl. tauto.
Qed.

(** C40. Authorizations issued by [create_execution_authorization] verify: for the
    same plan, engagement and worker, whether given as an object or as the document
    stored in between, at every time within their validity, by every trust store
    that resolves the signer's key to the signer's secret. *)
Theorem issued_authorization_verifies now fresh_id plan_arg signer engagement worker hours mode issued until id auth
    plan store key t i u clock time arg :
  create now fresh_id plan_arg signer engagement worker hours mode issued until id = Ok auth ->
  plan_of read_schema report_semantics plan_arg = Ok plan ->
  keys_unique (to_dict plan) = true -> hmac_is_hex ->
  resolve store (JStr (sg_key_id signer)) (JStr (sg_operator signer)) (auth_issued_at auth)
    (auth_authorized_until_utc auth) = Ok key ->
  tk_secret key = sg_secret signer ->
  (if truthy time then timestamp time else Ok clock) = Ok t ->
  timestamp (auth_issued_at auth) = Ok i -> timestamp (auth_authorized_until_utc auth) = Ok u -> i <= t < u ->
  (arg = AuthObject auth \/ arg = AuthDict (to_dict auth)) ->
  verify clock arg plan_arg (Some store) engagement worker time = Ok auth.
Proof.
  intros (plan' & auth_id & sig & Hplan' & Hpv & Hdoc & Hsig & Hav & Hauth)%create_ok Hplan Huniq Hhex Hres Hsec Ht Hi Hu
    Hw Harg. rewrite Hplan in Hplan'. injection Hplan' as <-.
  assert (Hload : match arg with
    | AuthDict d =>
        let? version := dict_get "schema_version" d JNull in
        let? items := dict_items d in
        raise_if str_is version "1.0" || has_key "receipt_id" items
          as AuthorizationError msg "legacy authorization receipts cannot authorize execution" ;;
        catch (fun e => is_value_error e || (exc_cls e == KeyError))
          (from_dict (A := ExecutionAuthorization) read_schema report_semantics d)
          (fun _ => raise AuthorizationError "invalid or tampered execution authorization envelope")
    | AuthObject a => validate (to_dict a) "execution_authorization" ;;? Ok a
    | AuthOther => raise AuthorizationError "unsupported historical authorization record cannot authorize execution"
    end = Ok auth).
  { apply is_ok_iff in Hav as (d & Hav). destruct Harg as [-> | ->]; [by rewrite Hav|].
    unfold from_dict. change contract_kind with "execution_authorization". rewrite Hav. cbn [res_bind].
    rewrite Hauth. rewrite ExecutionAuthorization_reload_init. reflexivity. }
  unfold verify_execution_authorization. rewrite Hload. cbn [res_bind]. rewrite Hplan. cbn [res_bind].
  apply is_ok_iff in Hpv as Hpv'. destruct Hpv' as (d & ->). cbn [res_bind].
  destruct (snapshot_py_eq plan _ Huniq Hpv) as (E1 & E2 & E3 & E4).
  assert (Hkey : resolve store (auth_signing_key_id auth) (auth_operator auth) (auth_issued_at auth)
                   (auth_authorized_until_utc auth) = Ok key) by (rewrite <- Hres; by rewrite Hauth).
  rewrite Hkey. cbn [res_bind]. rewrite Hsec, Hsig. cbn [res_bind].
  pose proof Hsig as (text & _ & -> & _)%compute_signature_ok.
  assert (auth_signature_digest auth = JStr (hmac_sha256_hex (sg_secret signer) text)) as -> by (by rewrite Hauth).
  unfold compare_digest. rewrite Hhex. cbn [andb negb res_bind]. rewrite eqb_refl. cbn [res_bind negb].
  assert (auth_status auth = JStr "approved") as -> by (by rewrite Hauth). rewrite str_is_refl. cbn [negb].
  rewrite Ht. cbn [res_bind]. rewrite Hi. cbn [res_bind]. rewrite Hu. cbn [res_bind].
  rewrite (proj2 (Z.ltb_ge t i)), (proj2 (Z.leb_gt u t)) by lia. cbn [res_bind].
  rewrite Hdoc. cbn [res_bind].
  assert (auth_action_plan_id auth = plan_plan_id plan /\ auth_plan_digest auth = plan_plan_digest plan /\
          auth_engagement_id auth = plan_engagement_id plan /\
          _thaw (auth_bound_parameters auth) =
            JObj [("action_plan", ActionPlan_approved_snapshot plan true); ("worker_identity", JStr worker)])
    as (-> & -> & -> & ->) by (rewrite Hauth; split_and!; try done; apply thaw_freeze).
  rewrite E2, E3, E4. cbn [negb orb].
  change (dict_get "action_plan" _ _) with (Ok (ActionPlan_approved_snapshot plan true)). cbn [res_bind].
  rewrite E1. cbn [negb].
  change (dict_get "worker_identity" _ _) with (Ok (JStr worker)). cbn [res_bind]. by rewrite str_is_refl.
Qed.

(** One use: consuming an approved authorization keeps its signed payload, and
    from then on no consumption, no lifecycle transition and no verification of it
    succeeds, in any form, at any time, with any trust store or engagement. *)
Theorem consumed_authorization_is_spent auth worker now_iso at_time spent :
  consume_execution_authorization auth worker now_iso at_time = Ok spent ->
  auth_status auth = JStr "approved" /\ auth_status spent = JStr "consumed" /\
  auth_consumed_by_worker spent = JStr worker /\
  ExecutionAuthorization_signed_payload spent = ExecutionAuthorization_signed_payload auth /\
  auth_signature_digest spent = auth_signature_digest auth /\
  (forall next, is_ok (ExecutionAuthorization_transition_to spent next) = false) /\
  (forall worker' now_iso' at', is_ok (consume_execution_authorization spent worker' now_iso' at') = false) /\
  (forall now arg plan_arg store engagement worker' time,
     arg = AuthObject spent \/ arg = AuthDict (to_dict spent) ->
     is_ok (verify now arg plan_arg store engagement worker' time) = false).
Proof.
  unfold consume_execution_authorization at 1. intros Hc. guard_ok Hc. simpl_bool.
  match goal with E : str_is _ _ = true |- _ => apply str_is_eq in E as Hst end.
  apply res_bind_ok in Hc as (a & Ha & Hc). unfold ExecutionAuthorization_transition_to in Ha.
  apply res_bind_ok in Ha as (_ & _ & Ha). injection Ha as <-. injection Hc as <-.
  split; [done|]. split; [done|]. split; [done|]. split; [done|]. split; [done|]. split; [|split].
  - intros next. unfold ExecutionAuthorization_transition_to, transition_status. cbn [auth_status set_lifecycle].
    destruct (validate_transition "consumed" next "execution_authorization") as [[]|] eqn:E; [|done].
    apply execution_authorization_edge in E. enum_edges E.
  - done.
  - intros now arg plan_arg [store|] engagement worker' time Harg; [|done].
    destruct (verify now arg plan_arg (Some store) engagement worker' time) as [x|] eqn:E; [|done].
    exfalso. assert (Hx : auth_status x = JStr "consumed").
    { unfold verify_execution_authorization in E. apply res_bind_ok in E as (y & Hy & E).
      assert (x = y) as -> by (by repeat (apply res_bind_ok in E as (? & _ & E) || guard_ok E); injection E).
      destruct Harg as [-> | ->].
      - apply res_bind_ok in Hy as (? & _ & Hy). by injection Hy as <-.
      - apply res_bind_ok in Hy as (? & _ & Hy). apply res_bind_ok in Hy as (? & _ & Hy). guard_ok Hy.
        rewrite catch_ok in Hy by done. apply res_bind_ok in Hy as (? & _ & Hy).
        by apply reload_status in Hy. }
    apply verify_ok in E as (? & ? & ? & ? & _ & _ & _ & _ & Hap & _). congruence.
Qed.
End Properties.

(** ** Witnesses *)

(** A host whose HMAC is the hexadecimal form of the text: collision free and ASCII. *)
#[local] Instance mac_host : Host := {|
  float_repr := fun _ => "0.5";
  float_parse := fun _ => PyFin 1 (-1);
  sha256_hex := fun text => text;
  hmac_sha256_hex := fun key text => hex_text text;
  dumps_recurses := fun _ => false;
  loads_recurses := fun _ => false;
|}.

#[local] Instance mac_host_ok : @HostOk mac_host.
Proof. constructor. intros f _. done. Defined.

Lemma mac_host_hex : hmac_is_hex.
Proof.
  intros key text. change (string_all (fun c => code c <? 128) (hex_text text) = true).
  induction text as [|c s IH]; [done|]. rewrite hex_text_cons. cbn [string_all]. rewrite IH, andb_true_r. apply hex_pair_ascii.
Qed.

Lemma mac_host_inj key : Inj (=) (=) (hmac_sha256_hex key).
Proof. exact hex_text_inj. Qed.


Definition demo_plan_res : res ActionPlan :=
  ActionPlan_create any_schema no_reports (JStr "plan-demo1") (JStr "eng-demo1") (JStr "scen-demo1") (JObj [])
    (JStr "red-team") (JList [JStr "scan"]) (JObj []) (JList []) (JStr "2025-06-15T00:00:00Z") (JStr "approved")
    JNull JNull JNull.

Definition demo_plan : ActionPlan :=
  match demo_plan_res with
  | Ok p => p
  | Raise _ =>
      {| plan_schema_version := JNull; plan_plan_id := JNull; plan_engagement_id := JNull; plan_scenario_id := JNull;
         plan_target := JNull; plan_specialist_id := JNull; plan_operations := FzTuple []; plan_limits := FzTuple [];
         plan_credential_references := FzTuple []; plan_plan_digest := JNull; plan_created_at := JNull;
         plan_platform_prerequisites := FzTuple []; plan_batch := FzTuple []; plan_offline_research := None;
         plan_status := JNull |}
  end.

Definition demo_engagement : json :=
  JObj [("schema_version", JStr "cops.engagement/v1"); ("engagement_id", JStr "eng-demo1"); ("status", JStr "active");
        ("operator", JStr "alice");
        ("window", JObj [("started_at", JStr "2025-01-01T00:00:00Z"); ("authorized_until_utc", JStr "2026-01-01T00:00:00Z")])].

Definition demo_secret : string := "0123456789abcdef0123456789abcdef".
Definition demo_signer : AuthorizationSigner :=
  {| sg_key_id := "key-1"; sg_operator := "alice"; sg_secret := demo_secret; sg_valid_from := JNull; sg_valid_until := JNull |}.
Definition demo_store : AuthorizationTrustStore :=
  {["key-1" := {| tk_key_id := "key-1"; tk_operator := "alice"; tk_secret := demo_secret;
                  tk_valid_from := JStr "2025-01-01T00:00:00Z"; tk_valid_until := JStr "2026-01-01T00:00:00Z";
                  tk_status := "active" |}]}.

(** 2025-06-15T12:00:00Z. *)
Definition demo_now : Z := 1749988800000000.

Definition demo_create : res ExecutionAuthorization :=
  create_execution_authorization any_schema no_reports demo_now "0123456789abcdef0123" (PlanObject demo_plan) demo_signer
    (EngagementDict demo_engagement) "worker-1" 4 "interactive_confirmation" JNull JNull JNull.

Definition demo_verify (arg : AuthArg) : res ExecutionAuthorization :=
  verify_execution_authorization any_schema no_reports demo_now arg (PlanObject demo_plan) (Some demo_store)
    (EngagementDict demo_engagement) "worker-1" JNull.

Lemma demo_create_ok : exists auth, demo_create = Ok auth /\ demo_verify (AuthObject auth) = Ok auth /\
  auth_operator auth = JStr "alice" /\ auth_signing_key_id auth = JStr "key-1" /\
  auth_issued_at auth = JStr "2025-06-15T12:00:00Z" /\ auth_authorized_until_utc auth = JStr "2025-06-15T16:00:00Z" /\
  float_free (ExecutionAuthorization_signed_payload auth) = true /\
  keys_unique (ExecutionAuthorization_signed_payload auth) = true.
Proof. eexists. split; [vm_compute; reflexivity|]. repeat split; vm_compute; reflexivity. Qed.

Lemma verified_authorization_in_force_witness : exists auth,
  demo_verify (AuthObject auth) = Ok auth /\ auth_status auth = JStr "approved".
Proof.
  destruct demo_create_ok as (auth & _ & Hv & _). exists auth. split; [exact Hv|].
  destruct (verified_authorization_in_force any_schema no_reports demo_now (AuthObject auth) (PlanObject demo_plan) demo_store
    (EngagementDict demo_engagement) "worker-1" JNull auth Hv)
    as (? & ? & ? & ? & ? & ? & ? & ? & ? & ? & ? & ? & ? & ? & _ & _ & _ & Hs & _). exact Hs.
Defined.

Lemma signature_binds_payload_witness : exists auth,
  demo_verify (AuthObject auth) = Ok auth /\
  json_equiv (ExecutionAuthorization_signed_payload auth) (ExecutionAuthorization_signed_payload auth).
Proof.
  destruct demo_create_ok as (auth & _ & Hv & _ & _ & _ & _ & Hf & Hk). exists auth. split; [exact Hv|].
  exact (proj1 (signature_binds_payload any_schema no_reports demo_now demo_now (AuthObject auth) (AuthObject auth)
    (PlanObject demo_plan) (PlanObject demo_plan) demo_store (EngagementDict demo_engagement)
    (EngagementDict demo_engagement) "worker-1" "worker-1" JNull JNull auth auth mac_host_inj Hv Hv eq_refl eq_refl
    Hf Hk Hf Hk)).
Defined.

Lemma issued_authorization_verifies_witness : exists auth,
  demo_create = Ok auth /\ demo_verify (AuthDict (to_dict auth)) = Ok auth.
Proof.
  destruct demo_create_ok as (auth & Hc & _ & _ & _ & Hi & Hu & _). exists auth. split; [exact Hc|].
  unfold demo_create in Hc. unfold demo_verify.
  assert (Hr : exists key, resolve demo_store (JStr "key-1") (JStr "alice") (auth_issued_at auth)
                             (auth_authorized_until_utc auth) = Ok key /\ tk_secret key = demo_secret).
  { rewrite Hi, Hu. eexists. split; vm_compute; reflexivity. }
  destruct Hr as (key & Hr & Hs).
  refine (issued_authorization_verifies any_schema no_reports demo_now "0123456789abcdef0123" (PlanObject demo_plan)
    demo_signer (EngagementDict demo_engagement) "worker-1" 4 "interactive_confirmation" JNull JNull JNull auth demo_plan
    demo_store key demo_now demo_now (demo_now + 4 * 3600 * us_per_second) demo_now JNull (AuthDict (to_dict auth)) Hc
    eq_refl _ mac_host_hex Hr Hs eq_refl _ _ _ (or_intror eq_refl)).
  - vm_compute. reflexivity.
  - rewrite Hi. vm_compute. reflexivity.
  - rewrite Hu. vm_compute. reflexivity.
  - vm_compute. split; [discriminate|reflexivity].
Defined.

Lemma consumed_authorization_is_spent_witness : exists auth spent,
  consume_execution_authorization auth "worker-1" "2025-06-15T12:00:00Z" JNull = Ok spent /\
  is_ok (demo_verify (AuthDict (to_dict spent))) = false.
Proof.
  destruct demo_create_ok as (auth & _ & Hv & _). exists auth.
  assert (Hst : auth_status auth = JStr "approved")
    by (destruct (verify_ok any_schema no_reports demo_now (AuthObject auth) (PlanObject demo_plan) demo_store
          (EngagementDict demo_engagement) "worker-1" JNull auth Hv) as (? & ? & ? & ? & _ & _ & _ & _ & Hs & _); exact Hs).
  assert (Hc : exists spent, consume_execution_authorization auth "worker-1" "2025-06-15T12:00:00Z" JNull = Ok spent).
  { unfold consume_execution_authorization. rewrite Hst. eexists. unfold ExecutionAuthorization_transition_to. rewrite Hst. reflexivity. }
  destruct Hc as (spent & Hc). exists spent. split; [exact Hc|].
  destruct (consumed_authorization_is_spent any_schema no_reports _ _ _ _ _ Hc) as (_ & _ & _ & _ & _ & _ & _ & H).
  apply H. right. reflexivity.
Defined.
