(* ===== verification/ApprovalStore.v ===== *)
(** * The approval store

    [src/cops/execution/store.py]: the SQLite tables of authorizations and of their
    consumptions, and the operations on them.  A transaction body is a function
    from the store to its outcome: [Raise] rolls back, [Ok (s, r)] commits [s] and
    then returns or raises [r].  Rows are kept in insertion order.  Columns are
    texts: the published schema makes the bound attributes strings, and a value of
    another type is refused by [bind_text].  What the file system says of the
    store's files is an argument, and so are the clock readings. *)

From S2P Require Import Prelude Lifecycle PyStr Json JsonParse Timestamp Schema Contracts Models.

(** ** Tables *)

Record Approval := {
  ap_authorization_id : string; ap_action_plan_id : string; ap_plan_digest : string; ap_engagement_id : string;
  ap_operator : string; ap_status : string; ap_issued_at : string; ap_authorized_until_utc : string;
  ap_bound_parameters_json : string; ap_approval_mode : string; ap_signature_algorithm : string;
  ap_signing_key_id : string; ap_signature_digest : string; ap_legacy_status : option string;
  ap_consumed_at : option string; ap_consumed_by_worker : option string; ap_created_at : string
}.

Record ApprovalConsumptionRecord := {
  cr_request_id : string; cr_request_digest : string; cr_authorization_id : string; cr_authorization_digest : string;
  cr_action_plan_id : string; cr_plan_digest : string; cr_engagement_id : string; cr_worker_identity : string;
  cr_target : string; cr_created_at : string
}.

Record ApprovalStore := { approvals : list Approval; approval_consumptions : list ApprovalConsumptionRecord }.

(** A historical row, read-only. *)
Record LegacyApprovalRecord := {
  lg_authorization_id : string; lg_action_plan_id : string; lg_plan_digest : string; lg_engagement_id : string;
  lg_operator : string; lg_historical_status : string; lg_issued_at : string; lg_authorized_until_utc : string;
  lg_bound_parameters : json; lg_approval_mode : string; lg_signature_algorithm : string; lg_signing_key_id : string;
  lg_signature_digest : string; lg_consumed_at : option string; lg_consumed_by_worker : option string
}.

Definition json_opt (o : option string) : json := match o with Some s => JStr s | None => JNull end.

Definition LegacyApprovalRecord_to_dict (r : LegacyApprovalRecord) : json :=
  JObj [("record_type", JStr "legacy-untrusted"); ("authorization_id", JStr (lg_authorization_id r));
        ("action_plan_id", JStr (lg_action_plan_id r)); ("plan_digest", JStr (lg_plan_digest r));
        ("engagement_id", JStr (lg_engagement_id r)); ("operator", JStr (lg_operator r));
        ("status", JStr "legacy-untrusted"); ("historical_status", JStr (lg_historical_status r));
        ("issued_at", JStr (lg_issued_at r)); ("authorized_until_utc", JStr (lg_authorized_until_utc r));
        ("bound_parameters", lg_bound_parameters r); ("approval_mode", JStr (lg_approval_mode r));
        ("signature_algorithm", JStr (lg_signature_algorithm r)); ("signing_key_id", JStr (lg_signing_key_id r));
        ("signature_digest", JStr (lg_signature_digest r)); ("consumed_at", json_opt (lg_consumed_at r));
        ("consumed_by_worker", json_opt (lg_consumed_by_worker r))].

Definition set_status (status : string) (r : Approval) : Approval :=
  {| ap_authorization_id := ap_authorization_id r; ap_action_plan_id := ap_action_plan_id r;
     ap_plan_digest := ap_plan_digest r; ap_engagement_id := ap_engagement_id r; ap_operator := ap_operator r;
     ap_status := status; ap_issued_at := ap_issued_at r; ap_authorized_until_utc := ap_authorized_until_utc r;
     ap_bound_parameters_json := ap_bound_parameters_json r; ap_approval_mode := ap_approval_mode r;
     ap_signature_algorithm := ap_signature_algorithm r; ap_signing_key_id := ap_signing_key_id r;
     ap_signature_digest := ap_signature_digest r; ap_legacy_status := ap_legacy_status r;
     ap_consumed_at := ap_consumed_at r; ap_consumed_by_worker := ap_consumed_by_worker r;
     ap_created_at := ap_created_at r |}.

Definition set_consumed (now_str worker : string) (r : Approval) : Approval :=
  {| ap_authorization_id := ap_authorization_id r; ap_action_plan_id := ap_action_plan_id r;
     ap_plan_digest := ap_plan_digest r; ap_engagement_id := ap_engagement_id r; ap_operator := ap_operator r;
     ap_status := "consumed"; ap_issued_at := ap_issued_at r; ap_authorized_until_utc := ap_authorized_until_utc r;
     ap_bound_parameters_json := ap_bound_parameters_json r; ap_approval_mode := ap_approval_mode r;
     ap_signature_algorithm := ap_signature_algorithm r; ap_signing_key_id := ap_signing_key_id r;
     ap_signature_digest := ap_signature_digest r; ap_legacy_status := ap_legacy_status r;
     ap_consumed_at := Some now_str; ap_consumed_by_worker := Some worker; ap_created_at := ap_created_at r |}.

(** ** SQL *)

(** [SELECT ... FROM approvals WHERE authorization_id = ?]. *)
Definition select_approval (id : string) (s : ApprovalStore) : option Approval :=
  List.find (fun r => ap_authorization_id r == id) (approvals s).

Definition select_consumption (request_id : string) (s : ApprovalStore) : option ApprovalConsumptionRecord :=
  List.find (fun r => cr_request_id r == request_id) (approval_consumptions s).

(** [UPDATE approvals SET f WHERE p]: the new table and the number of rows updated. *)
Definition update_where (p : Approval -> bool) (f : Approval -> Approval) (s : ApprovalStore) : ApprovalStore * nat :=
  ({| approvals := map (fun r => if p r then f r else r) (approvals s);
      approval_consumptions := approval_consumptions s |}, length (List.filter p (approvals s))).

(** The primary key is unique. *)
Definition insert_approval (r : Approval) (s : ApprovalStore) : res ApprovalStore :=
  match select_approval (ap_authorization_id r) s with
  | Some _ => raise IntegrityError "UNIQUE constraint failed"
  | None => Ok {| approvals := approvals s ++ [r]; approval_consumptions := approval_consumptions s |}
  end.

(** The request is the primary key, the authorization is unique and a foreign key. *)
Definition insert_consumption (r : ApprovalConsumptionRecord) (s : ApprovalStore) : res ApprovalStore :=
  raise_if existsb (fun r' => (cr_request_id r' == cr_request_id r) ||
                              (cr_authorization_id r' == cr_authorization_id r)) (approval_consumptions s)
    as IntegrityError msg "UNIQUE constraint failed" ;;
  match select_approval (cr_authorization_id r) s with
  | None => raise IntegrityError "FOREIGN KEY constraint failed"
  | Some _ => Ok {| approvals := approvals s; approval_consumptions := approval_consumptions s ++ [r] |}
  end.

(** A [NOT NULL] text column, and a nullable one. *)
Definition bind_text (v : json) : res string :=
  match v with
  | JStr s => Ok s
  | JNull => raise IntegrityError "NOT NULL constraint failed"
  | _ => raise TypeError "Error binding parameter"
  end.

Definition bind_nullable (v : json) : res (option string) :=
  match v with
  | JNull => Ok None
  | _ => let? s := bind_text v in Ok (Some s)
  end.

(** [BEGIN IMMEDIATE ... COMMIT], rolled back when the body raises before the commit. *)
Definition transaction {A} (s : ApprovalStore) (body : res (ApprovalStore * res A)) : ApprovalStore * res A :=
  match body with
  | Ok (s', r) => (s', r)
  | Raise e => (s, Raise e)
  end.

(** [except sqlite3.IntegrityError as err: raise ApprovalStoreConflictError]. *)
Definition conflict_on_integrity {A} (r : res A) : res A :=
  catch (fun e => exc_cls e == IntegrityError) r (fun _ => raise ApprovalStoreConflictError "conflicts with an existing row").

(** ** The files of the store *)

Inductive file_kind := Directory | RegularFile | OtherFile.

#[export] Instance file_kind_eq_dec : EqDecision file_kind.
Proof. solve_decision. Defined.

Record FileStat := { st_kind : file_kind; st_uid : Z; st_mode : Z }.

(** What [lstat] says; [None] when there is no such file. *)
Record StoreFiles := {
  sf_parent : option FileStat; sf_db : option FileStat; sf_wal : option FileStat; sf_shm : option FileStat
}.

(** [os.name == "posix"], [require_secure_perms] and [os.geteuid()]. *)
Record Platform := { posix : bool; require_secure_perms : bool; euid : Z }.

Definition mode_private_dir : Z := 448.
Definition mode_private_file : Z := 384.

Definition _ensure_storage_security (platform : Platform) (files : StoreFiles) : res StoreFiles :=
  let created := {| st_kind := Directory; st_uid := euid platform; st_mode := mode_private_dir |} in
  let files := {| sf_parent := Some (default created (sf_parent files)); sf_db := sf_db files; sf_wal := sf_wal files;
                  sf_shm := sf_shm files |} in
  if posix platform && require_secure_perms platform then
    let parent := default created (sf_parent files) in
    raise_if negb (st_kind parent == Directory) as ApprovalStoreAccessError msg "is not a directory" ;;
    raise_if negb (st_uid parent =? euid platform) as ApprovalStoreAccessError msg "is not owned by the current account" ;;
    raise_if negb (st_mode parent =? mode_private_dir) as ApprovalStoreAccessError msg "has insecure permissions" ;;
    match sf_db files with
    | None => Ok files
    | Some db =>
        raise_if negb (st_kind db == RegularFile) as ApprovalStoreAccessError msg "is not a regular file" ;;
        raise_if negb (st_uid db =? euid platform) as ApprovalStoreAccessError msg "is not owned by the current account" ;;
        raise_if negb (st_mode db =? mode_private_file) as ApprovalStoreAccessError msg "has insecure permissions" ;;
        Ok files
    end
  else Ok files.

(** A new database file is created with its final mode. *)
Definition _prepare_database_file (platform : Platform) (files : StoreFiles) : StoreFiles :=
  if negb (posix platform) || negb (require_secure_perms platform) || bool_decide (is_Some (sf_db files)) then files
  else {| sf_parent := sf_parent files;
          sf_db := Some {| st_kind := RegularFile; st_uid := euid platform; st_mode := mode_private_file |};
          sf_wal := sf_wal files; sf_shm := sf_shm files |}.

Definition check_protected (expected_uid : Z) (kind : file_kind) (mode : Z) (optional : bool) (file : option FileStat)
    : res unit :=
  match file with
  | None => raise_if negb optional as ApprovalStoreAccessError msg "is unavailable" ;; Ok tt
  | Some f =>
      raise_if negb (st_kind f == kind) as ApprovalStoreAccessError msg "must not be a link or special file" ;;
      raise_if negb (st_uid f =? expected_uid) as ApprovalStoreAccessError msg "is not owned by the authority UID" ;;
      raise_if negb (st_mode f =? mode) as ApprovalStoreAccessError msg "permissions" ;; Ok tt
  end.

Definition assert_protected_owner (platform : Platform) (files : StoreFiles) (expected_uid : Z) : res unit :=
  raise_if negb (posix platform) || negb (require_secure_perms platform)
    as ApprovalStoreAccessError msg "protected approval storage requires POSIX permission checks" ;;
  check_protected expected_uid Directory mode_private_dir false (sf_parent files) ;;?
  check_protected expected_uid RegularFile mode_private_file false (sf_db files) ;;?
  check_protected expected_uid RegularFile mode_private_file true (sf_wal files) ;;?
  check_protected expected_uid RegularFile mode_private_file true (sf_shm files).

(** ** Opening: the migration of old databases *)

(** Which columns the table has before the migration. *)
Record Columns := { has_signature_algorithm : bool; has_signing_key_id : bool; has_legacy_status : bool }.

Definition with_legacy_columns (columns : Columns) (r : Approval) : Approval :=
  {| ap_authorization_id := ap_authorization_id r; ap_action_plan_id := ap_action_plan_id r;
     ap_plan_digest := ap_plan_digest r; ap_engagement_id := ap_engagement_id r; ap_operator := ap_operator r;
     ap_status := ap_status r; ap_issued_at := ap_issued_at r; ap_authorized_until_utc := ap_authorized_until_utc r;
     ap_bound_parameters_json := ap_bound_parameters_json r; ap_approval_mode := ap_approval_mode r;
     ap_signature_algorithm := if has_signature_algorithm columns then ap_signature_algorithm r else "legacy-untrusted";
     ap_signing_key_id := if has_signing_key_id columns then ap_signing_key_id r else "";
     ap_signature_digest := ap_signature_digest r;
     ap_legacy_status := if has_legacy_status columns then ap_legacy_status r else None;
     ap_consumed_at := ap_consumed_at r; ap_consumed_by_worker := ap_consumed_by_worker r;
     ap_created_at := ap_created_at r |}.

(** [SET legacy_status = status, status = 'legacy-untrusted']. *)
Definition mark_legacy (r : Approval) : Approval :=
  {| ap_authorization_id := ap_authorization_id r; ap_action_plan_id := ap_action_plan_id r;
     ap_plan_digest := ap_plan_digest r; ap_engagement_id := ap_engagement_id r; ap_operator := ap_operator r;
     ap_status := "legacy-untrusted"; ap_issued_at := ap_issued_at r;
     ap_authorized_until_utc := ap_authorized_until_utc r; ap_bound_parameters_json := ap_bound_parameters_json r;
     ap_approval_mode := ap_approval_mode r; ap_signature_algorithm := ap_signature_algorithm r;
     ap_signing_key_id := ap_signing_key_id r; ap_signature_digest := ap_signature_digest r;
     ap_legacy_status := Some (ap_status r); ap_consumed_at := ap_consumed_at r;
     ap_consumed_by_worker := ap_consumed_by_worker r; ap_created_at := ap_created_at r |}.

Definition _init_db (columns : Columns) (s : ApprovalStore) : ApprovalStore :=
  let legacy_database := negb (has_signature_algorithm columns) || negb (has_signing_key_id columns) in
  let rows := map (with_legacy_columns columns) (approvals s) in
  {| approvals := if legacy_database then map mark_legacy rows else rows;
     approval_consumptions := approval_consumptions s |}.

(** [ApprovalStore(db_path)]: the migrated tables and the files afterwards.  The
    migration commits before the last check of the files. *)
Definition open_store (platform : Platform) (files : StoreFiles) (columns : Columns) (s : ApprovalStore)
    : ApprovalStore * res StoreFiles :=
  match _ensure_storage_security platform files with
  | Raise e => (s, Raise e)
  | Ok files =>
      let files := _prepare_database_file platform files in
      (_init_db columns s,
       (if posix platform && require_secure_perms platform
        then assert_protected_owner platform files (euid platform) else Ok tt) ;;?
       Ok files)
  end.

(** ** Operations *)

Section Operations.
Context `{Host}.
Variable read_schema : string -> option json.
Variable report_semantics : string -> json -> res unit.
Variable platform : Platform.

Notation validate document kind :=
  (validate_contract read_schema report_semantics document (Some kind) (1024 * 1024) 32).

Definition approval_row (now_iso : string) (auth : ExecutionAuthorization) (doc : json) : res Approval :=
  let? bound := let? v := getitem "bound_parameters" doc in canonical v in
  let? authorization_id := bind_text (auth_authorization_id auth) in
  let? action_plan_id := bind_text (auth_action_plan_id auth) in
  let? plan_digest := bind_text (auth_plan_digest auth) in
  let? engagement_id := bind_text (auth_engagement_id auth) in
  let? operator := bind_text (auth_operator auth) in
  let? status := bind_text (auth_status auth) in
  let? issued_at := bind_text (auth_issued_at auth) in
  let? until := bind_text (auth_authorized_until_utc auth) in
  let? approval_mode := bind_text (auth_approval_mode auth) in
  let? algorithm := bind_text (auth_signature_algorithm auth) in
  let? key_id := bind_text (auth_signing_key_id auth) in
  let? signature := bind_text (auth_signature_digest auth) in
  let? consumed_at := bind_nullable (auth_consumed_at auth) in
  let? worker := bind_nullable (auth_consumed_by_worker auth) in
  Ok {| ap_authorization_id := authorization_id; ap_action_plan_id := action_plan_id; ap_plan_digest := plan_digest;
        ap_engagement_id := engagement_id; ap_operator := operator; ap_status := status; ap_issued_at := issued_at;
        ap_authorized_until_utc := until; ap_bound_parameters_json := bound; ap_approval_mode := approval_mode;
        ap_signature_algorithm := algorithm; ap_signing_key_id := key_id; ap_signature_digest := signature;
        ap_legacy_status := None; ap_consumed_at := consumed_at; ap_consumed_by_worker := worker;
        ap_created_at := now_iso |}.

Definition store_authorization (now_iso : string) (s : ApprovalStore) (auth : ExecutionAuthorization)
    : ApprovalStore * res unit :=
  let doc := to_dict auth in
  match validate doc "execution_authorization" with
  | Raise e => (s, Raise e)
  | Ok _ =>
      transaction s (conflict_on_integrity (
        let? row := approval_row now_iso auth doc in
        let? s := insert_approval row s in
        Ok (s, Ok tt)))
  end.

(** The fields of [doc] that every reader of a row builds. *)
Definition row_items (row : Approval) (bound_parameters : json) : list (string * json) :=
  [("schema_version", JStr "cops.execution-authorization/v1");
   ("authorization_id", JStr (ap_authorization_id row)); ("action_plan_id", JStr (ap_action_plan_id row));
   ("plan_digest", JStr (ap_plan_digest row)); ("engagement_id", JStr (ap_engagement_id row));
   ("operator", JStr (ap_operator row)); ("status", JStr (ap_status row)); ("issued_at", JStr (ap_issued_at row));
   ("authorized_until_utc", JStr (ap_authorized_until_utc row)); ("bound_parameters", bound_parameters);
   ("approval_mode", JStr (ap_approval_mode row)); ("signature_algorithm", JStr (ap_signature_algorithm row));
   ("signing_key_id", JStr (ap_signing_key_id row)); ("signature_digest", JStr (ap_signature_digest row))].

(** [if row[k]: doc[k] = row[k]]. *)
Definition optional_text (k : string) (v : option string) : list (string * json) :=
  match v with
  | Some s => if s == "" then [] else [(k, JStr s)]
  | None => []
  end.

Definition consumption_items (row : Approval) : list (string * json) :=
  optional_text "consumed_at" (ap_consumed_at row) ++ optional_text "consumed_by_worker" (ap_consumed_by_worker row).

Definition legacy_record (row : Approval) (bound_parameters : json) : LegacyApprovalRecord :=
  {| lg_authorization_id := ap_authorization_id row; lg_action_plan_id := ap_action_plan_id row;
     lg_plan_digest := ap_plan_digest row; lg_engagement_id := ap_engagement_id row; lg_operator := ap_operator row;
     lg_historical_status :=
       match ap_legacy_status row with Some s => if s == "" then "unknown" else s | None => "unknown" end;
     lg_issued_at := ap_issued_at row; lg_authorized_until_utc := ap_authorized_until_utc row;
     lg_bound_parameters := bound_parameters; lg_approval_mode := ap_approval_mode row;
     lg_signature_algorithm := ap_signature_algorithm row; lg_signing_key_id := ap_signing_key_id row;
     lg_signature_digest := ap_signature_digest row; lg_consumed_at := ap_consumed_at row;
     lg_consumed_by_worker := ap_consumed_by_worker row |}.

(** A row as the object its readers return. *)
Definition read_row (row : Approval) : res (ExecutionAuthorization + LegacyApprovalRecord) :=
  let? bound := loads_bytes (ap_bound_parameters_json row) in
  if ap_status row == "legacy-untrusted" then Ok (inr (legacy_record row bound))
  else
    let? auth := from_dict read_schema report_semantics (JObj (row_items row bound ++ consumption_items row)) in
    Ok (inl auth).

Definition get_authorization (s : ApprovalStore) (authorization_id : string)
    : res (ExecutionAuthorization + LegacyApprovalRecord) :=
  match select_approval authorization_id s with
  | None => raise ApprovalStoreNotFoundError "not found in store"
  | Some row => read_row row
  end.

(** What identifies a consumption request besides its id. *)
Record ConsumptionRequest := {
  rq_request_digest : string; rq_authorization_id : json; rq_action_plan_id : json; rq_plan_digest : json;
  rq_engagement_id : json; rq_worker_identity : string; rq_target : json
}.

Definition _assert_matching_consumption (record : ApprovalConsumptionRecord) (request : ConsumptionRequest) : res unit :=
  raise_if negb ((cr_request_digest record == rq_request_digest request) &&
                 str_is (rq_authorization_id request) (cr_authorization_id record) &&
                 str_is (rq_action_plan_id request) (cr_action_plan_id record) &&
                 str_is (rq_plan_digest request) (cr_plan_digest record) &&
                 str_is (rq_engagement_id request) (cr_engagement_id record) &&
                 (cr_worker_identity record == rq_worker_identity request) &&
                 str_is (rq_target request) (cr_target record))
    as ApprovalStoreConflictError msg "request_id was already used for a different request" ;;
  Ok tt.

Definition get_matching_consumption (s : ApprovalStore) (request_id : string) (request : ConsumptionRequest)
    : res (option ApprovalConsumptionRecord) :=
  match select_consumption request_id s with
  | None => Ok None
  | Some record => _assert_matching_consumption record request ;;? Ok (Some record)
  end.

(** The checks of a stored row against the verified receipt, before any update:
    [extra] is the consumption metadata the caller adds to the document.  The
    result is the items of the document. *)
Definition check_stored_row (row : Approval) (extra : list (string * json)) (expected : ExecutionAuthorization)
    (worker_identity : string) (now_dt : Z) : res (list (string * json)) :=
  raise_if negb (ap_status row == "approved") as ApprovalStoreConflictError msg "already consumed or revoked" ;;
  let? bound := loads_bytes (ap_bound_parameters_json row) in
  let items := row_items row bound ++ extra in
  let? stored := canonical (JObj items) in
  let? wanted := canonical (to_dict expected) in
  raise_if negb (stored == wanted) as ApprovalStoreConflictError msg "differs from the verified receipt" ;;
  let? worker := dict_get "worker_identity" bound JNull in
  raise_if negb (str_is worker worker_identity) as ApprovalStoreConflictError msg "is bound to a different worker" ;;
  let? issued := timestamp (JStr (ap_issued_at row)) in
  raise_if now_dt <? issued as ApprovalStoreConflictError msg "is not yet valid" ;;
  Ok items.

(** [doc.update(status="consumed", consumed_at=..., consumed_by_worker=...)]. *)
Definition consumed_doc (items : list (string * json)) (now_str worker : string) : json :=
  JObj (dict_set "consumed_by_worker" (JStr worker)
         (dict_set "consumed_at" (JStr now_str) (dict_set "status" (JStr "consumed") items))).

Definition expire_row (id : string) : ApprovalStore -> ApprovalStore * nat :=
  update_where (fun r => ap_authorization_id r == id) (set_status "expired").

Definition consume_row (id now_str worker : string) : ApprovalStore -> ApprovalStore * nat :=
  update_where (fun r => (ap_authorization_id r == id) && (ap_status r == "approved")) (set_consumed now_str worker).

(** [current_time_iso or utc_now()]. *)
Definition time_or (current_time_iso : option string) (now_iso : string) : string :=
  match current_time_iso with
  | Some s => if s == "" then now_iso else s
  | None => now_iso
  end.

Definition atomically_consume_request (files : StoreFiles) (now_iso : string) (s : ApprovalStore)
    (request_id request_digest : string) (target : json) (expected : ExecutionAuthorization) (worker_identity : string)
    (expected_authority_uid : Z) (current_time_iso : option string) : ApprovalStore * res ApprovalConsumptionRecord :=
  let now_str := time_or current_time_iso now_iso in
  match timestamp (JStr now_str) with
  | Raise e => (s, Raise e)
  | Ok now_dt =>
      transaction s (conflict_on_integrity (
        match select_consumption request_id s with
        | Some prior =>
            _assert_matching_consumption prior
              {| rq_request_digest := request_digest; rq_authorization_id := auth_authorization_id expected;
                 rq_action_plan_id := auth_action_plan_id expected; rq_plan_digest := auth_plan_digest expected;
                 rq_engagement_id := auth_engagement_id expected; rq_worker_identity := worker_identity;
                 rq_target := target |} ;;?
            Ok (s, Ok prior)
        | None =>
            let? id := bind_text (auth_authorization_id expected) in
            match select_approval id s with
            | None => raise ApprovalStoreNotFoundError "not found in store"
            | Some row =>
                let? items := check_stored_row row [] expected worker_identity now_dt in
                let? until := timestamp (JStr (ap_authorized_until_utc row)) in
                if until <=? now_dt then
                  let (s', _) := expire_row id s in
                  assert_protected_owner platform files expected_authority_uid ;;?
                  Ok (s', raise ApprovalStoreConflictError "expired")
                else
                  let (s', rowcount) := consume_row id now_str worker_identity s in
                  raise_if negb (Nat.eqb rowcount 1) as ApprovalStoreConflictError msg "could not be consumed" ;;
                  let? consumed := from_dict read_schema report_semantics (consumed_doc items now_str worker_identity) in
                  let? authorization_digest := digest (to_dict (A := ExecutionAuthorization) consumed) in
                  let? action_plan_id := bind_text (auth_action_plan_id consumed) in
                  let? plan_digest := bind_text (auth_plan_digest consumed) in
                  let? engagement_id := bind_text (auth_engagement_id consumed) in
                  let? target := bind_text target in
                  let record :=
                    {| cr_request_id := request_id; cr_request_digest := request_digest; cr_authorization_id := id;
                       cr_authorization_digest := authorization_digest; cr_action_plan_id := action_plan_id;
                       cr_plan_digest := plan_digest; cr_engagement_id := engagement_id;
                       cr_worker_identity := worker_identity; cr_target := target; cr_created_at := now_str |} in
                  let? s' := insert_consumption record s' in
                  assert_protected_owner platform files expected_authority_uid ;;?
                  Ok (s', Ok record)
            end
        end))
  end.

(** [minimum_remaining_seconds] must be a finite non-negative [int] or [float];
    [math.isfinite] overflows on an [int] beyond the range of [float]. *)
Definition check_minimum (v : json) : res pyfloat :=
  let error := raise ApprovalStoreConflictError "minimum remaining authorization window must be finite and nonnegative" in
  match v with
  | JInt z =>
      raise_if 2 ^ 1024 - 2 ^ 970 <=? Z.abs z as OverflowError msg "int too large to convert to float" ;;
      if z <? 0 then error else Ok (PyFin z 0)
  | JFloat f => if isfinite f && negb (num_ltb f (PyFin 0 0)) then Ok f else error
  | _ => error
  end.

Definition atomically_consume (now_iso : string) (s : ApprovalStore) (authorization_id : string)
    (expected : ExecutionAuthorization) (worker_identity : string) (current_time_iso : option string)
    (minimum_remaining_seconds : json) : ApprovalStore * res ExecutionAuthorization :=
  match check_minimum minimum_remaining_seconds with
  | Raise e => (s, Raise e)
  | Ok minimum =>
      transaction s (
        let now_str := time_or current_time_iso now_iso in
        let? now_dt := timestamp (JStr now_str) in
        match select_approval authorization_id s with
        | None => raise ApprovalStoreNotFoundError "not found in store"
        | Some row =>
            let? items := check_stored_row row (consumption_items row) expected worker_identity now_dt in
            let? expiry_dt := timestamp (JStr (ap_authorized_until_utc row)) in
            if expiry_dt <=? now_dt then
              let (s', _) := expire_row authorization_id s in
              Ok (s', raise ApprovalStoreConflictError "expired")
            else
              raise_if num_ltb (true_div (expiry_dt - now_dt) us_per_second) minimum
                as ApprovalStoreConflictError msg "authorization has insufficient time for startup and cleanup" ;;
              let (s', _) := consume_row authorization_id now_str worker_identity s in
              Ok (s', from_dict read_schema report_semantics (consumed_doc items now_str worker_identity))
        end)
  end.

(** [ORDER BY issued_at DESC]; SQLite leaves the order of equal times open, here it
    is the order of insertion. *)
Definition issued_desc (a b : Approval) : Prop := String.le (ap_issued_at b) (ap_issued_at a).

#[export] Instance issued_desc_dec : RelDecision issued_desc.
Proof. unfold issued_desc. intros a b. apply _. Defined.

Definition list_approvals (s : ApprovalStore) (status : option string)
    : res (list (ExecutionAuthorization + LegacyApprovalRecord)) :=
  let rows :=
    match status with
    | Some st => if st == "" then approvals s else List.filter (fun r => ap_status r == st) (approvals s)
    | None => approvals s
    end in
  res_map read_row (merge_sort issued_desc rows).
End Operations.
