(* ===== verification/Files.v ===== *)
(** * Files and processes

    The system calls of the modelled code, each answered by a world that knows everything
    that was asked and answered before, so that no theorem depends on what else happens
    on the machine; and [src/cops/execution/filesystem.py]. *)

From S2P Require Import Prelude PyStr Paths ApprovalStore.

(** What [stat] says of a file: its identity and its kind ([OtherFile] for a link). *)
Record Stat := { sr_dev : Z; sr_ino : Z; sr_kind : file_kind }.

(** The calls that change something. *)
Inductive operation :=
| Mkdir (dir : Z) (name : string)
| Rename (src : Z) (name : string) (dst : Z) (new_name : string)
| Unlink (dir : Z) (name : string)
| Rmdir (dir : Z) (name : string)
| Kill (pid signal : Z).

(** The file of a journal as it is at one access: what is found on the way to it, whether
    SQLite opens it, and whether a commit is applied and reported as such. *)
Inductive commit := Committed | CommitLost | CommitUnreported.
Record JournalAccess := {
  ja_parent : res FileStat; ja_link : bool; ja_file : option (res FileStat); ja_sqlite : bool; ja_commit : commit
}.

Inductive action :=
| AcOpen (dir : option Z) (name : string) (answer : res Z)
| AcStat (dir : Z) (name : string) (answer : res Stat)
| AcFstat (descriptor : Z) (answer : res Stat)
| AcLexists (path : string) (answer : bool)
| AcDo (op : operation) (answer : res unit)
| AcAccess (access : JournalAccess)
| AcAppend (event_type : string) (effect_id : option string) (payload : string)
| AcUuid (hex : string)
| AcNow (now : string)
| AcScratch (answer : res Path).

(** What has happened so far, the last first. *)
Definition actions := list action.

(** [w_open None] opens the root; [scratch_parent] is [gettempdir()] resolved;
    [uuid5_hex] is [uuid5(NAMESPACE_URL, text).hex]. *)
Class Machine := {
  mc_open : actions -> option Z -> string -> res Z;
  mc_stat : actions -> Z -> string -> res Stat;
  mc_fstat : actions -> Z -> res Stat;
  mc_lexists : actions -> string -> bool;
  mc_do : actions -> operation -> res unit;
  mc_access : actions -> JournalAccess;
  mc_uuid : actions -> string;
  mc_now : actions -> string;
  mc_scratch : actions -> res Path;
  mc_cwd : string;
  mc_euid : Z;
  uuid5_hex : string -> string;
}.

Section Calls.
Context `{Machine}.

Definition sys_open (dir : option Z) (name : string) : eff actions Z := fun t =>
  let answer := mc_open t dir name in (answer, AcOpen dir name answer :: t).
Definition sys_stat (dir : Z) (name : string) : eff actions Stat := fun t =>
  let answer := mc_stat t dir name in (answer, AcStat dir name answer :: t).
Definition sys_fstat (descriptor : Z) : eff actions Stat := fun t =>
  let answer := mc_fstat t descriptor in (answer, AcFstat descriptor answer :: t).
Definition sys_lexists (path : string) : eff actions bool := fun t =>
  let answer := mc_lexists t path in (Ok answer, AcLexists path answer :: t).
Definition sys_do (op : operation) : eff actions unit := fun t =>
  let answer := mc_do t op in (answer, AcDo op answer :: t).
Definition sys_access : eff actions JournalAccess := fun t =>
  let answer := mc_access t in (Ok answer, AcAccess answer :: t).
Definition sys_uuid : eff actions string := fun t => let hex := mc_uuid t in (Ok hex, AcUuid hex :: t).
Definition utc_now : eff actions string := fun t => let now := mc_now t in (Ok now, AcNow now :: t).
Definition scratch_parent : eff actions Path := fun t => let answer := mc_scratch t in (answer, AcScratch answer :: t).

(** [Path(os.path.abspath(text))]. *)
Definition abs_path (text : string) : Path := parse_path (abspath mc_cwd text).

(** A component of the path; with [create], one that is missing is made. *)
Definition open_component (create : bool) (descriptor : Z) (component : string) : eff actions Z :=
  eff_catch (fun err => exc_cls err == FileNotFoundError) (sys_open (Some descriptor) component)
    (fun err =>
       if create then do! _ := sys_do (Mkdir descriptor component) in sys_open (Some descriptor) component
       else eff_lift (Raise err)).

(** The [for] loop of [open_directory_no_symlinks]. *)
Fixpoint open_components (create : bool) (descriptor : Z) (components : list string) : eff actions Z :=
  match components with
  | [] => eff_ret descriptor
  | component :: components => do! child := open_component create descriptor component in open_components create child components
  end.

(** On POSIX, with [O_NOFOLLOW] and [O_DIRECTORY]. *)
Definition open_directory_no_symlinks (requested : Path) (create : bool) : eff actions Z :=
  do_if mem ".." (path_parts requested) as SecureDirectoryError msg "directory path must not contain '..' components" ;;
  let absolute := abs_path (path_text requested) in
  eff_catch is_os_error
    (do! descriptor := sys_open None (p_root absolute) in open_components create descriptor (p_parts absolute))
    (fun _ => eff_raise SecureDirectoryError ("directory path cannot be accessed without following symbolic links: " +:+ path_text absolute)).

Definition same_directory_identity (opened_fd expected_fd : Z) : eff actions bool :=
  do! opened := sys_fstat opened_fd in
  do! expected := sys_fstat expected_fd in
  eff_ret ((sr_dev opened =? sr_dev expected) && (sr_ino opened =? sr_ino expected)).

Definition create_directory_exclusive_no_symlinks (requested : Path) : eff actions Z :=
  do_if mem ".." (path_parts requested) as SecureDirectoryError msg "directory path must not contain '..' components" ;;
  let absolute := abs_path (path_text requested) in
  do_if mem (name absolute) [""; "."; ".."] as SecureDirectoryError msg "directory path must name a final component" ;;
  eff_catch is_os_error
    (do! parent_fd := open_directory_no_symlinks (parent absolute) false in
     do! _ := sys_do (Mkdir parent_fd (name absolute)) in
     sys_open (Some parent_fd) (name absolute))
    (fun _ => eff_raise SecureDirectoryError
       ("directory path cannot be created exclusively without following symbolic links: " +:+ path_text absolute)).
End Calls.
