(* ===== verification/Cleanup.v ===== *)
(** * Cleanup: effects, the journal and its recovery

    The first part of [src/cops/execution/cleanup.py]: [FilesystemIdentity], [SideEffect],
    the tables of [CleanupJournal] with every call that writes them, and
    [recoverable_runs], which replays them.  Times and identifiers come from the machine;
    a transaction is applied to the tables or not as the commit says. *)

From S2P Require Import Prelude PyStr Json JsonParse Timestamp Schema Contracts Models Identity.
From S2P Require Import ApprovalStore Paths Files.

(** ** Effects *)

Record FilesystemIdentity := { fi_device : Z; fi_inode : Z; fi_resource_type : string }.

Definition from_stat (resource_type : string) (result : Stat) : FilesystemIdentity :=
  {| fi_device := sr_dev result; fi_inode := sr_ino result; fi_resource_type := resource_type |}.

Definition identity_from_dict (data : json) : res FilesystemIdentity :=
  match exact_mapping data ["device"; "inode"; "resource_type"] with
  | None => raise ValueError "filesystem identity payload fields are invalid"
  | Some items =>
      match field "device" items, field "inode" items with
      | JInt device, JInt inode =>
          raise_if (device <? 0) || (inode <? 0)
            as ValueError msg "filesystem identity device and inode must be non-negative integers" ;;
          match field "resource_type" items with
          | JStr t =>
              raise_if negb (mem t ["file"; "directory"]) as ValueError msg "filesystem identity resource type is invalid" ;;
              Ok {| fi_device := device; fi_inode := inode; fi_resource_type := t |}
          | _ => raise ValueError "filesystem identity resource type is invalid"
          end
      | _, _ => raise ValueError "filesystem identity device and inode must be non-negative integers"
      end
  end.

Definition identity_to_dict (i : FilesystemIdentity) : json :=
  JObj [("device", JInt (fi_device i)); ("inode", JInt (fi_inode i)); ("resource_type", JStr (fi_resource_type i))].

(** [stat.S_ISREG] for a file, [stat.S_ISDIR] for the rest. *)
Definition expected_mode (resource_type : string) (result : Stat) : bool :=
  sr_kind result == (if resource_type == "file" then RegularFile else Directory).

Definition matches (i : FilesystemIdentity) (resource_type : string) (result : Stat) : bool :=
  (fi_resource_type i == resource_type) && (fi_device i =? sr_dev result) && (fi_inode i =? sr_ino result) &&
  expected_mode resource_type result.

Record SideEffect := {
  se_effect_id : string; se_step_id : string; se_resource_type : string; se_target : string; se_action_plan_id : string;
  se_engagement_id : string; se_owner : string; se_created_at : string; se_cleanup_action : string; se_status : string;
  se_metadata : list (string * json); se_creation_identity : option FilesystemIdentity;
  se_transition_details : list (string * json)
}.

Definition effect_to_dict (e : SideEffect) : json :=
  JObj [("effect_id", JStr (se_effect_id e)); ("step_id", JStr (se_step_id e)); ("resource_type", JStr (se_resource_type e));
        ("target", JStr (se_target e)); ("action_plan_id", JStr (se_action_plan_id e));
        ("engagement_id", JStr (se_engagement_id e)); ("owner", JStr (se_owner e)); ("created_at", JStr (se_created_at e));
        ("cleanup_action", JStr (se_cleanup_action e)); ("status", JStr (se_status e)); ("metadata", JObj (se_metadata e))].

Definition string_fields : list string :=
  ["effect_id"; "step_id"; "resource_type"; "target"; "action_plan_id"; "engagement_id"; "owner"; "created_at";
   "cleanup_action"; "status"].

Definition statuses : list string := ["pending"; "cleaning"; "cleaned"; "failed"; "unknown"].

Definition nonempty_text (v : json) : bool := match v with JStr s => negb (s == "") | _ => false end.
Definition text (v : json) : string := match v with JStr s => s | _ => "" end.

Definition effect_from_dict (data : json) : res SideEffect :=
  match exact_mapping data ("metadata" :: string_fields) with
  | None => raise ValueError "side-effect payload fields are invalid"
  | Some items =>
      raise_if negb (forallb (fun k => nonempty_text (field k items)) string_fields)
        as ValueError msg "side-effect string fields must be non-empty" ;;
      raise_if negb (mem (text (field "status" items)) statuses) as ValueError msg "side-effect status is invalid" ;;
      match field "metadata" items with
      | JObj metadata =>
          let get k := text (field k items) in
          Ok {| se_effect_id := get "effect_id"; se_step_id := get "step_id"; se_resource_type := get "resource_type";
                se_target := get "target"; se_action_plan_id := get "action_plan_id"; se_engagement_id := get "engagement_id";
                se_owner := get "owner"; se_created_at := get "created_at"; se_cleanup_action := get "cleanup_action";
                se_status := get "status"; se_metadata := metadata; se_creation_identity := None;
                se_transition_details := [] |}
      | _ => raise ValueError "side-effect metadata must be an object"
      end
  end.

Definition with_status (status : string) (e : SideEffect) : SideEffect :=
  {| se_effect_id := se_effect_id e; se_step_id := se_step_id e; se_resource_type := se_resource_type e;
     se_target := se_target e; se_action_plan_id := se_action_plan_id e; se_engagement_id := se_engagement_id e;
     se_owner := se_owner e; se_created_at := se_created_at e; se_cleanup_action := se_cleanup_action e;
     se_status := status; se_metadata := se_metadata e; se_creation_identity := se_creation_identity e;
     se_transition_details := se_transition_details e |}.
Definition with_identity (i : FilesystemIdentity) (e : SideEffect) : SideEffect :=
  {| se_effect_id := se_effect_id e; se_step_id := se_step_id e; se_resource_type := se_resource_type e;
     se_target := se_target e; se_action_plan_id := se_action_plan_id e; se_engagement_id := se_engagement_id e;
     se_owner := se_owner e; se_created_at := se_created_at e; se_cleanup_action := se_cleanup_action e;
     se_status := se_status e; se_metadata := se_metadata e; se_creation_identity := Some i;
     se_transition_details := se_transition_details e |}.

(** [d.update(details)]. *)
Definition dict_update {A} (d details : list (string * A)) : list (string * A) :=
  fold_left (fun d kv => dict_set (fst kv) (snd kv) d) details d.

Definition with_details (details : list (string * json)) (e : SideEffect) : SideEffect :=
  {| se_effect_id := se_effect_id e; se_step_id := se_step_id e; se_resource_type := se_resource_type e;
     se_target := se_target e; se_action_plan_id := se_action_plan_id e; se_engagement_id := se_engagement_id e;
     se_owner := se_owner e; se_created_at := se_created_at e; se_cleanup_action := se_cleanup_action e;
     se_status := se_status e; se_metadata := se_metadata e; se_creation_identity := se_creation_identity e;
     se_transition_details := dict_update (se_transition_details e) details |}.

Definition is_filesystem (resource_type : string) : bool := mem resource_type ["file"; "directory"].

(** ** The journal *)

Record JournalEvent := {
  je_event_id : string; je_run_id : string; je_event_type : string; je_effect_id : option string;
  je_created_at : string; je_payload_json : string
}.

(** The three tables; the events in the order of their sequence numbers. *)
Record Journal := { jn_version : option string; jn_runs : list (string * string); jn_events : list JournalEvent }.

Definition _SUPPORTED_SCHEMA_VERSIONS : list Z := [1; 2].

Definition persistence_error {A} (m : string) : res A := raise CleanupPersistenceError m.

Definition _parse_schema_version (raw_version : string) : res Z :=
  match find (fun v => pretty v == raw_version) _SUPPORTED_SCHEMA_VERSIONS with
  | Some version => Ok version
  | None => persistence_error "unsupported cleanup journal schema version"
  end.

Definition _require_schema_version (required_version : Z) (j : Journal) : res Journal :=
  raise_if negb (mem required_version _SUPPORTED_SCHEMA_VERSIONS)
    as CleanupPersistenceError msg "unsupported cleanup journal schema version" ;;
  match jn_version j with
  | None => persistence_error "cleanup journal schema version is missing"
  | Some raw =>
      let? current_version := _parse_schema_version raw in
      if required_version <=? current_version then Ok j
      else Ok {| jn_version := Some (pretty required_version); jn_runs := jn_runs j; jn_events := jn_events j |}
  end.

(** The [INSERT] of an event; the identifier is unique. *)
Definition insert_event (ev : JournalEvent) (j : Journal) : res Journal :=
  raise_if mem (je_event_id ev) (map je_event_id (jn_events j)) as IntegrityError msg "UNIQUE constraint failed" ;;
  Ok {| jn_version := jn_version j; jn_runs := jn_runs j; jn_events := jn_events j ++ [ev] |}.

Definition insert_run (run_id created_at : string) (j : Journal) : res Journal :=
  raise_if mem run_id (map fst (jn_runs j)) as IntegrityError msg "UNIQUE constraint failed" ;;
  Ok {| jn_version := jn_version j; jn_runs := jn_runs j ++ [(run_id, created_at)]; jn_events := jn_events j |}.

(** [sqlite3.Error], and the errors of [json.dumps]. *)
Definition is_sqlite_error (e : exc) : bool := (exc_cls e == IntegrityError) || (exc_cls e == SQLiteError).
Definition is_persist_error (e : exc) : bool := is_sqlite_error e || type_or_value_error e.

(** Everything a worker's cleanup changes. *)
Record CleanupState := { cs_journal : Journal; cs_effects : list SideEffect; cs_actions : actions }.

Definition on_machine {A} (m : eff actions A) : eff CleanupState A := fun s =>
  let (r, t) := m (cs_actions s) in (r, {| cs_journal := cs_journal s; cs_effects := cs_effects s; cs_actions := t |}).
Definition set_journal (j : Journal) (s : CleanupState) : CleanupState :=
  {| cs_journal := j; cs_effects := cs_effects s; cs_actions := cs_actions s |}.
Definition set_effects (effects : list SideEffect) (s : CleanupState) : CleanupState :=
  {| cs_journal := cs_journal s; cs_effects := effects; cs_actions := cs_actions s |}.

Section Journal.
Context `{Host} `{Machine}.
Variable read_schema : string -> option json.
Variable report_semantics : string -> json -> res unit.
Variable journal_path : Path.

Definition _prepare_path (a : JournalAccess) : res unit :=
  match ja_parent a with
  | Raise e => persistence_error ("cannot protect cleanup journal parent: " +:+ exc_msg e)
  | Ok parent =>
      raise_if negb (st_uid parent =? mc_euid)
        as CleanupPersistenceError msg "cleanup journal parent must be owned by the worker account" ;;
      raise_if negb (Z.land (st_mode parent) 63 =? 0) as CleanupPersistenceError msg "cleanup journal parent must be owner-only" ;;
      raise_if ja_link a as CleanupPersistenceError msg "cleanup journal must not be a symbolic link" ;;
      match ja_file a with
      | None => Ok tt
      | Some (Raise e) => persistence_error ("cannot inspect cleanup journal: " +:+ exc_msg e)
      | Some (Ok file) =>
          raise_if negb (st_kind file == RegularFile) as CleanupPersistenceError msg "cleanup journal must be a regular file" ;;
          raise_if negb (st_uid file =? mc_euid)
            as CleanupPersistenceError msg "cleanup journal must be owned by the worker account" ;;
          raise_if negb (Z.land (st_mode file) 63 =? 0) as CleanupPersistenceError msg "cleanup journal must be owner-only" ;;
          Ok tt
      end
  end.

Definition _connect (a : JournalAccess) : res unit :=
  _prepare_path a ;;?
  raise_if match ja_file a with None => true | Some _ => false end
    as CleanupPersistenceError msg "cleanup journal disappeared after initialization" ;;
  raise_if negb (ja_sqlite a) as CleanupPersistenceError msg "cannot open cleanup journal" ;;
  Ok tt.

(** The end of a transaction; what is applied is logged by [logged]. *)
Definition end_transaction (c : commit) (logged : list action) (j : Journal) : eff CleanupState unit := fun s =>
  let applied := {| cs_journal := j; cs_effects := cs_effects s; cs_actions := logged ++ cs_actions s |} in
  match c with
  | Committed => (Ok tt, applied)
  | CommitLost => (raise SQLiteError "commit", s)
  | CommitUnreported => (raise SQLiteError "commit", applied)
  end.

(** [with closing(self._connect()) as connection, connection: body]. *)
Definition transaction (logged : list action) (body : Journal -> eff actions Journal) : eff CleanupState unit :=
  do! access := on_machine sys_access in
  do! _ := eff_lift (_connect access) in
  do! j := (fun s => on_machine (body (cs_journal s)) s) in
  end_transaction (ja_commit access) logged j.

Definition serialized (payload : json) : res string :=
  raise_if negb (printable payload) as ValueError msg "int_max_str_digits" ;; Ok (dumps true payload).

Definition append (run_id event_type : string) (payload : json) (effect_id : option string) (required_schema_version : Z)
    : eff CleanupState unit :=
  eff_catch is_persist_error
    (do! payload_json := eff_lift (serialized payload) in
     transaction [AcAppend event_type effect_id payload_json]
       (fun j => do! j := eff_lift (_require_schema_version required_schema_version j) in
                 do! hex := sys_uuid in
                 do! created_at := utc_now in
                 eff_lift (insert_event {|
                   je_event_id := "evt-" +:+ hex; je_run_id := run_id; je_event_type := event_type; je_effect_id := effect_id;
                   je_created_at := created_at; je_payload_json := payload_json |} j)))
    (fun e => eff_lift (persistence_error ("cannot persist cleanup event '" +:+ event_type +:+ "': " +:+ exc_msg e))).

Definition run_payload (plan_id engagement_id worker_identity : string) (workspace_dir : option Path) : json :=
  JObj [("plan_id", JStr plan_id); ("engagement_id", JStr engagement_id); ("worker_identity", JStr worker_identity);
        ("workspace_dir", match workspace_dir with Some p => JStr (path_text p) | None => JNull end)].

Definition start_run (run_id plan_id engagement_id worker_identity : string) (workspace_dir : option Path)
    : eff CleanupState unit :=
  eff_catch is_persist_error
    (do! payload_json := eff_lift (serialized (run_payload plan_id engagement_id worker_identity workspace_dir)) in
     transaction [AcAppend "run_started" None payload_json]
       (fun j => do! created_at := utc_now in
                 do! j := eff_lift (insert_run run_id created_at j) in
                 do! hex := sys_uuid in
                 eff_lift (insert_event {|
                   je_event_id := "evt-" +:+ hex; je_run_id := run_id; je_event_type := "run_started"; je_effect_id := None;
                   je_created_at := created_at; je_payload_json := payload_json |} j)))
    (fun e => if exc_cls e == IntegrityError
              then eff_lift (persistence_error ("cleanup journal already contains execution run '" +:+ run_id +:+ "'"))
              else eff_lift (persistence_error ("cannot persist cleanup run start: " +:+ exc_msg e))).

Definition record_run_event (run_id event_type : string) (payload : json) : eff CleanupState unit :=
  append run_id event_type payload None 1.

Definition journal_record_effect (run_id : string) (e : SideEffect) : eff CleanupState unit :=
  append run_id "effect_recorded" (effect_to_dict e) (Some (se_effect_id e)) 1.

Definition record_creation_identity (run_id : string) (e : SideEffect) (i : FilesystemIdentity) : eff CleanupState unit :=
  append run_id "creation_identity_recorded" (identity_to_dict i) (Some (se_effect_id e)) 2.

Definition journal_transition (run_id : string) (e : SideEffect) (status : string) (details : list (string * json))
    : eff CleanupState unit :=
  append run_id "cleanup_transition" (JObj [("status", JStr status); ("details", JObj details)]) (Some (se_effect_id e)) 1.

Definition record_receipt (run_id : string) (receipt : CleanupReceipt) : eff CleanupState unit :=
  append run_id "cleanup_receipt" (CleanupReceipt_to_dict receipt) None
    (if str_is (clean_schema_version receipt) "cops.cleanup-receipt/v2" then 2 else 1).

(** The journal is not inside the workspace. *)
Definition assert_external_to (workspace : Path) : res unit :=
  raise_if is_relative_to journal_path workspace
    as CleanupPersistenceError msg "cleanup journal must be outside the execution workspace" ;;
  Ok tt.

(** [_initialize]: the file, the tables where they do not exist yet, the version. *)
Definition _initialize (created : res bool) (chmod : res unit) : eff CleanupState unit :=
  do! _ := eff_catch (fun e => is_os_error e || is_sqlite_error e)
    (do! _ := eff_lift created in
     do! access := on_machine sys_access in
     do! _ := eff_lift (_prepare_path access) in
     transaction []
       (fun j => match jn_version j with
                 | None => eff_ret {| jn_version := Some (pretty 1); jn_runs := jn_runs j; jn_events := jn_events j |}
                 | Some raw => do! _ := eff_lift (_parse_schema_version raw) in eff_ret j
                 end))
    (fun e => eff_lift (persistence_error ("cannot initialize cleanup journal: " +:+ exc_msg e))) in
  do! _ := eff_lift (catch is_os_error chmod (fun e => persistence_error ("cannot protect cleanup journal: " +:+ exc_msg e))) in
  do! access := on_machine sys_access in eff_lift (_prepare_path access).

(** [CleanupJournal(path)]: its path. *)
Definition new_journal (candidate : Path) (created : res bool) (chmod : res unit) : eff CleanupState Path :=
  do_if negb (is_absolute candidate) as CleanupPersistenceError msg "cleanup journal path must be absolute" ;;
  do! access := on_machine sys_access in
  do! _ := eff_lift (_prepare_path access) in
  do! _ := _initialize created chmod in
  eff_ret (abs_path (path_text candidate)).

(** ** Recovery *)

Record RunState := { rn_started : option (list (string * json)); rn_effects : list (string * SideEffect); rn_receipt : option CleanupReceipt }.

Definition fresh_run : RunState := {| rn_started := None; rn_effects := []; rn_receipt := None |}.

Definition value_error {A} (m : string) : res A := raise ValueError m.

(** The checks of a [run_started] payload. *)
Definition check_started (payload : json) : res (list (string * json)) :=
  match exact_mapping payload ["plan_id"; "engagement_id"; "worker_identity"; "workspace_dir"] with
  | None => value_error "run_started payload fields are invalid"
  | Some items =>
      raise_if negb (forallb (fun k => nonempty_text (field k items)) ["plan_id"; "engagement_id"; "worker_identity"])
        as ValueError msg "run_started identity fields must be non-empty strings" ;;
      match field "workspace_dir" items with
      | JNull => Ok items
      | JStr workspace_value =>
          raise_if workspace_value == "" as ValueError msg "run_started workspace_dir must be an absolute string or null" ;;
          let workspace_path := parse_path workspace_value in
          raise_if negb (is_absolute workspace_path) || mem ".." (path_parts workspace_path)
            as ValueError msg "run_started workspace_dir must be an absolute normalized path" ;;
          let normalized := abs_path (path_text workspace_path) in
          raise_if negb (path_text normalized == workspace_value) as ValueError msg "run_started workspace_dir must be normalized" ;;
          assert_external_to normalized ;;?
          Ok items
      | _ => value_error "run_started workspace_dir must be an absolute string or null"
      end
  end.

Definition started_text (k : string) (started : list (string * json)) : string := text (field k started).

Definition replay_effect (effect_id : option string) (payload : json) (started : list (string * json)) (run : RunState)
    : res RunState :=
  match effect_id with
  | None | Some "" => value_error "effect_recorded requires an effect ID"
  | Some effect_id =>
      let? e := effect_from_dict payload in
      raise_if negb (se_effect_id e == effect_id) as ValueError msg "effect event ID does not match its payload" ;;
      raise_if negb (se_action_plan_id e == started_text "plan_id" started) ||
               negb (se_engagement_id e == started_text "engagement_id" started)
        as ValueError msg "effect identity does not match its cleanup run" ;;
      raise_if negb (se_status e == "pending") as ValueError msg "newly recorded effect must have pending status" ;;
      raise_if mem effect_id (map fst (rn_effects run)) as ValueError msg "duplicate effect ID" ;;
      Ok {| rn_started := rn_started run; rn_effects := rn_effects run ++ [(effect_id, e)]; rn_receipt := rn_receipt run |}
  end.

(** [run["effects"].get(row["effect_id"])]. *)
Definition find_effect (effect_id : option string) (run : RunState) : option SideEffect :=
  match effect_id with Some effect_id => assoc effect_id (rn_effects run) | None => None end.

(** The effect object is changed in place. *)
Definition change_effect (effect_id : option string) (f : SideEffect -> SideEffect) (run : RunState) : RunState :=
  {| rn_started := rn_started run;
     rn_effects := map (fun ke => if Some (fst ke) == effect_id then (fst ke, f (snd ke)) else ke) (rn_effects run);
     rn_receipt := rn_receipt run |}.

Definition replay_identity (effect_id : option string) (payload : json) (run : RunState) : res RunState :=
  match find_effect effect_id run with
  | None => value_error "creation identity refers to an unknown effect"
  | Some e =>
      raise_if negb (is_filesystem (se_resource_type e)) as ValueError msg "creation identity requires a filesystem effect" ;;
      raise_if negb (se_status e == "pending") || bool_decide (is_Some (se_creation_identity e))
        as ValueError msg "creation identity must be recorded once while the effect is pending" ;;
      let? i := identity_from_dict payload in
      raise_if negb (fi_resource_type i == se_resource_type e)
        as ValueError msg "creation identity resource type does not match its effect" ;;
      Ok (change_effect effect_id (with_identity i) run)
  end.

Definition replay_transition (effect_id : option string) (payload : json) (run : RunState) : res RunState :=
  match exact_mapping payload ["status"; "details"] with
  | None => value_error "cleanup transition payload fields are invalid"
  | Some items =>
      match field "details" items with
      | JObj details =>
          match find_effect effect_id run with
          | None => value_error "cleanup transition refers to an unknown effect"
          | Some _ =>
              match field "status" items with
              | JStr status =>
                  raise_if negb (mem status statuses) as ValueError msg "cleanup transition status is invalid" ;;
                  Ok (change_effect effect_id (fun e => with_details details (with_status status e)) run)
              | _ => value_error "cleanup transition status is invalid"
              end
          end
      | _ => value_error "cleanup transition payload fields are invalid"
      end
  end.

Definition replay_receipt (payload : json) (started : list (string * json)) (run : RunState) : res RunState :=
  let? receipt := from_dict read_schema report_semantics payload in
  raise_if negb (str_is (clean_plan_id receipt) (started_text "plan_id" started)) ||
           negb (str_is (clean_engagement_id receipt) (started_text "engagement_id" started)) ||
           negb (str_is (clean_worker_identity receipt) (started_text "worker_identity" started))
    as ValueError msg "cleanup receipt identity does not match its cleanup run" ;;
  raise_if mem (text (clean_status receipt)) ["completed"; "not_required"] && truthy (clean_unresolved_effects receipt)
    as ValueError msg "terminal cleanup receipt cannot contain unresolved effects" ;;
  raise_if mem (text (clean_status receipt)) ["partial"; "failed"] && negb (truthy (clean_unresolved_effects receipt))
    as ValueError msg "incomplete cleanup receipt must contain unresolved effects" ;;
  Ok {| rn_started := rn_started run; rn_effects := rn_effects run; rn_receipt := Some receipt |}.

(** One event of its run. *)
Definition replay_event (ev : JournalEvent) (run : RunState) : res RunState :=
  let? payload := loads (je_payload_json ev) in
  raise_if negb (is_dict payload) as ValueError msg "event payload must be an object" ;;
  match rn_started run with
  | None =>
      raise_if negb (je_event_type ev == "run_started") as ValueError msg "event before run_started" ;;
      let? started := check_started payload in
      Ok {| rn_started := Some started; rn_effects := rn_effects run; rn_receipt := rn_receipt run |}
  | Some started =>
      if je_event_type ev == "run_started" then value_error "duplicate run_started events"
      else if je_event_type ev == "effect_recorded" then replay_effect (je_effect_id ev) payload started run
      else if je_event_type ev == "creation_identity_recorded" then replay_identity (je_effect_id ev) payload run
      else if je_event_type ev == "cleanup_transition" then replay_transition (je_effect_id ev) payload run
      else if je_event_type ev == "cleanup_receipt" then replay_receipt payload started run
      else if mem (je_event_type ev) ["approval_consumption_started"; "approval_consumed"] then
        raise_if bool_decide (is_Some (je_effect_id ev)) as ValueError msg "approval journal event must not refer to an effect" ;;
        Ok run
      else value_error "unknown cleanup journal event type"
  end.

(** The dict [state], keyed by run. *)
Fixpoint replay (events : list JournalEvent) (state : list (string * RunState)) : res (list (string * RunState)) :=
  match events with
  | [] => Ok state
  | ev :: events =>
      match assoc (je_run_id ev) state with
      | None =>
          let? payload := loads (je_payload_json ev) in
          raise_if negb (is_dict payload) as ValueError msg "event payload must be an object" ;;
          value_error "event refers to unknown cleanup run"
      | Some run => let? run := replay_event ev run in replay events (dict_set (je_run_id ev) run state)
      end
  end.

(** [ORDER BY created_at, run_id]. *)
Definition run_order (a b : string * string) : Prop := (String.le (snd a) (snd b) /\ snd a <> snd b) \/ (snd a = snd b /\ String.le (fst a) (fst b)).
#[export] Instance run_order_dec a b : Decision (run_order a b).
Proof. unfold run_order. apply _. Defined.

Definition initial_state (j : Journal) : res (list (string * RunState)) :=
  let runs := map fst (merge_sort run_order (jn_runs j)) in
  raise_if mem "" runs as ValueError msg "cleanup run ID must be a non-empty string" ;;
  Ok (map (fun run_id => (run_id, fresh_run)) runs).

Record RecoveredCleanupRun := {
  rc_run_id : string; rc_plan_id : string; rc_engagement_id : string; rc_worker_identity : string;
  rc_workspace_dir : option Path; rc_effects : list SideEffect
}.

(** A receipt that ends the run: nothing is left to do. *)
Definition run_finished (run : RunState) : bool :=
  match rn_receipt run with
  | Some receipt =>
      mem (text (clean_status receipt)) ["completed"; "not_required"] &&
      forallb (fun ke => se_status (snd ke) == "cleaned") (rn_effects run)
  | None => false
  end.

Definition recovered_run (run_id : string) (started : list (string * json)) (run : RunState) : RecoveredCleanupRun := {|
  rc_run_id := run_id; rc_plan_id := started_text "plan_id" started; rc_engagement_id := started_text "engagement_id" started;
  rc_worker_identity := started_text "worker_identity" started;
  rc_workspace_dir := match field "workspace_dir" started with JStr s => Some (parse_path s) | _ => None end;
  rc_effects := map snd (rn_effects run)
|}.

Fixpoint recover_runs (worker_identity : string) (state : list (string * RunState)) : res (list RecoveredCleanupRun) :=
  match state with
  | [] => Ok []
  | (run_id, run) :: state =>
      match rn_started run with
      | None => persistence_error "cleanup journal run is missing run_started"
      | Some started =>
          let? others := recover_runs worker_identity state in
          if negb (started_text "worker_identity" started == worker_identity) || run_finished run then Ok others
          else Ok (recovered_run run_id started run :: others)
      end
  end.

Definition replay_journal (j : Journal) : res (list (string * RunState)) :=
  catch (fun e => type_or_value_error e || (exc_cls e == KeyError)) (let? state := initial_state j in replay (jn_events j) state)
    (fun e => persistence_error ("cleanup journal contains invalid event data: " +:+ exc_msg e)).

(** The two queries may fail. *)
Definition recoverable_runs (access : JournalAccess) (read : bool) (worker_identity : string) (j : Journal)
    : res (list RecoveredCleanupRun) :=
  _connect access ;;?
  raise_if negb read as CleanupPersistenceError msg "cannot recover cleanup journal" ;;
  let? state := replay_journal j in
  recover_runs worker_identity state.
End Journal.
