(* ===== verification/RollbackOrder.v ===== *)
(** * The order of a rollback

    [CleanupManager._rollback_order] of [src/cops/execution/cleanup.py], on effects of any
    type with their target: the latest first, but a directory after everything below it.
    The heap is the list of its elements; [heappop] takes the least. *)

From S2P Require Import Prelude Paths.

Section Order.
Context {A : Type}.
(** [effect.resource_type == "directory"] and [_filesystem_target(effect)]. *)
Variable is_directory : A -> bool.
Variable filesystem_target : A -> option Path.

Definition directory_target (x : A) : option Path := if is_directory x then filesystem_target x else None.

(** The strict ancestors of a target; an effect without one has none. *)
Definition ancestors (x : A) : list Path := match filesystem_target x with Some p => parents p | None => [] end.

(** [directory_indices[target]]: the positions of the directories with this target. *)
Definition directory_indices (baseline : list A) (target : Path) : list nat :=
  List.filter (fun i => match baseline !! i with Some x => directory_target x == Some target | None => false end)
    (seq 0 (length baseline)).

(** [remaining_descendants], by directory. *)
Definition initial_counts (baseline : list A) : gmap Path nat :=
  let zeros := fold_left (fun m x => match directory_target x with Some d => <[d := 0%nat]> m | None => m end) baseline ∅ in
  fold_left (fun m x => fold_left (fun m a => match m !! a with Some k => <[a := S k]> m | None => m end) (ancestors x) m)
    baseline zeros.

Definition is_ready (remaining : gmap Path nat) (x : A) : bool :=
  match directory_target x with
  | Some d => match remaining !! d with Some k => Nat.eqb k 0 | None => false end
  | None => true
  end.

Definition initial_ready (baseline : list A) : list nat :=
  List.filter (fun i => match baseline !! i with Some x => is_ready (initial_counts baseline) x | None => false end)
    (seq 0 (length baseline)).

Fixpoint take_out (x : nat) (heap : list nat) : list nat :=
  match heap with
  | [] => []
  | y :: heap => if Nat.eqb x y then heap else y :: take_out x heap
  end.

Definition heappop (heap : list nat) : option (nat * list nat) :=
  match heap with
  | [] => None
  | y :: ys => let least := foldr Nat.min y ys in Some (least, take_out least heap)
  end.

(** One [ancestor] of the inner loop. *)
Definition settle (baseline : list A) (s : list nat * gmap Path nat) (ancestor : Path) : list nat * gmap Path nat :=
  let (ready, remaining) := s in
  match remaining !! ancestor with
  | None | Some O => (ready, remaining)
  | Some (S k) => ((if Nat.eqb k 0 then ready ++ directory_indices baseline ancestor else ready), <[ancestor := k]> remaining)
  end.

(** The [while ready] loop; every pass takes one effect out of the heap. *)
Fixpoint drain (fuel : nat) (baseline : list A) (ready : list nat) (remaining : gmap Path nat) : list nat :=
  match fuel with
  | O => []
  | S fuel =>
      match heappop ready with
      | None => []
      | Some (index, ready) =>
          let ancestors := match baseline !! index with Some x => ancestors x | None => [] end in
          let (ready, remaining) := fold_left (settle baseline) ancestors (ready, remaining) in
          index :: drain fuel baseline ready remaining
      end
  end.

Definition positions (baseline : list A) : list nat :=
  drain (S (length baseline)) baseline (initial_ready baseline) (initial_counts baseline).

Definition _rollback_order (effects : list A) : list A := omap (fun i => rev effects !! i) (positions (rev effects)).

(** ** The heap *)

Lemma take_out_perm x heap : In x heap -> heap ≡ₚ x :: take_out x heap.
Proof.
  induction heap as [|y heap IH]; intros Hin; [done|]. simpl. destruct (Nat.eqb_spec x y) as [->|Hne]; [done|].
  destruct Hin as [?|Hin]; [congruence|]. rewrite (IH Hin) at 1. apply perm_swap.
Qed.

Lemma foldr_min_In y ys : In (foldr Nat.min y ys) (y :: ys).
Proof.
  induction ys as [|z ys IH]; [by left|]. simpl. destruct (Nat.min_dec z (foldr Nat.min y ys)) as [->| ->].
  - right. by left.
  - destruct IH as [IH|IH]; [by left|]. by right; right.
Qed.

Lemma foldr_min_le y ys x : In x (y :: ys) -> (foldr Nat.min y ys <= x)%nat.
Proof.
  induction ys as [|z ys IH]; simpl; [by intros [->|[]]|]. intros [->|[->|Hin]]; [|lia|].
  - specialize (IH (or_introl eq_refl)). lia.
  - specialize (IH (or_intror Hin)). lia.
Qed.

Lemma heappop_some heap i heap' : heappop heap = Some (i, heap') -> heap ≡ₚ i :: heap' /\ forall j, In j heap -> (i <= j)%nat.
Proof.
  destruct heap as [|y ys]; [done|]. intros [= <- <-]. split; [|intros j; apply foldr_min_le].
  apply (take_out_perm (foldr Nat.min y ys) (y :: ys)), foldr_min_In.
Qed.

Lemma heappop_none heap : heappop heap = None -> heap = [].
Proof. by destruct heap. Qed.

(** ** Counting what is left below a directory *)

Section Run.
Variable baseline : list A.

Definition below (d : Path) (i : nat) : bool :=
  match baseline !! i with Some x => mem d (ancestors x) | None => false end.

(** The positions not taken yet. *)
Definition left_over (taken : list nat) : list nat := List.filter (fun i => negb (existsb (Nat.eqb i) taken)) (seq 0 (length baseline)).

Definition count (taken : list nat) (d : Path) : nat := length (List.filter (below d) (left_over taken)).

Definition is_target (d : Path) : Prop := exists x, In x baseline /\ directory_target x = Some d.

Lemma left_over_In taken i : In i (left_over taken) <-> (i < length baseline)%nat /\ ~ In i taken.
Proof.
  unfold left_over. rewrite filter_In, in_seq, negb_true_iff, existsb_false. split.
  - intros [[_ Hi] Hn]. split; [lia|]. intros Hin. specialize (Hn i Hin). by rewrite Nat.eqb_refl in Hn.
  - intros [Hi Hn]. split; [lia|]. intros j Hj. apply Nat.eqb_neq. by intros ->.
Qed.

Lemma left_over_NoDup taken : NoDup (left_over taken).
Proof. apply NoDup_ListNoDup, List.NoDup_filter, seq_NoDup. Qed.

Lemma left_over_snoc taken i : In i (left_over taken) -> left_over taken ≡ₚ i :: left_over (taken ++ [i]).
Proof.
  intros Hi. apply NoDup_Permutation; [apply left_over_NoDup|..].
  - constructor; [|apply left_over_NoDup]. rewrite list_elem_of_In, left_over_In, in_app_iff. simpl. tauto.
  - intros j. rewrite !list_elem_of_In. cbn [In]. rewrite !left_over_In, in_app_iff. apply left_over_In in Hi. simpl.
    destruct (decide (j = i)) as [->|Hne]; [tauto|]. intuition congruence.
Qed.

Lemma filter_perm_length {B} (p : B -> bool) xs ys : xs ≡ₚ ys -> length (List.filter p xs) = length (List.filter p ys).
Proof. induction 1; simpl; repeat case_match; simpl; congruence. Qed.

Lemma count_snoc taken i d : In i (left_over taken) -> count taken d = ((if below d i then 1 else 0) + count (taken ++ [i]) d)%nat.
Proof. intros Hi. unfold count. rewrite (filter_perm_length _ _ _ (left_over_snoc _ _ Hi)). simpl. by destruct (below d i). Qed.

Lemma count_zero taken d : count taken d = 0%nat <-> forall i, In i (left_over taken) -> below d i = false.
Proof.
  unfold count. rewrite length_zero_iff_nil. split.
  - intros Hnil i Hi. destruct (below d i) eqn:E; [|done]. assert (In i (List.filter (below d) (left_over taken))) by (by apply filter_In).
    by rewrite Hnil in *.
  - intros Hz. destruct (List.filter _ _) as [|i r] eqn:E; [done|]. assert (In i (i :: r)) as Hi by (by left). rewrite <- E in Hi.
    apply filter_In in Hi as [Hi Hb]. by rewrite Hz in Hb.
Qed.

Lemma count_mono taken i d : In i (left_over taken) -> (count (taken ++ [i]) d <= count taken d)%nat.
Proof. intros Hi. rewrite (count_snoc _ _ d Hi). lia. Qed.

(** An effect that may go next: it is no directory, or nothing is left below it. *)
Definition free (taken : list nat) (i : nat) : Prop :=
  forall x d, baseline !! i = Some x -> directory_target x = Some d -> count taken d = 0%nat.

Lemma free_snoc taken i j : In i (left_over taken) -> free taken j -> free (taken ++ [i]) j.
Proof. intros Hi Hf x d Hx Hd. pose proof (count_mono taken i d Hi). specialize (Hf x d Hx Hd). lia. Qed.

Definition depth (x : A) : nat := match filesystem_target x with Some p => length (p_parts p) | None => 0%nat end.

Lemma directory_target_some x d : directory_target x = Some d -> filesystem_target x = Some d.
Proof. unfold directory_target. by destruct (is_directory x). Qed.

Lemma below_deeper d i x : baseline !! i = Some x -> below d i = true -> (length (p_parts d) < depth x)%nat.
Proof.
  unfold below, depth, ancestors. intros ->. rewrite mem_In. destruct (filesystem_target x) as [p|]; [|done]. apply parents_shorter.
Qed.

Lemma depth_bound : exists m, forall i x, baseline !! i = Some x -> (depth x <= m)%nat.
Proof.
  exists (foldr Nat.max 0%nat (map depth baseline)). clear. intros i x Hx. apply list_elem_of_lookup_2, list_elem_of_In in Hx.
  induction baseline as [|y l IH]; [done|]. simpl. destruct Hx as [->|Hx]; [lia|]. specialize (IH Hx). lia.
Qed.

Lemma free_dec taken i : free taken i \/ exists x d k, baseline !! i = Some x /\ directory_target x = Some d /\ In k (left_over taken) /\ below d k = true.
Proof.
  destruct (baseline !! i) as [x|] eqn:Ex; [|left; intros x d Hx; congruence].
  destruct (directory_target x) as [d|] eqn:Ed; [|left; intros x' d Hx; congruence].
  destruct (List.filter (below d) (left_over taken)) as [|k r] eqn:Ef.
  - left. intros x' d' Hx Hd. assert (d' = d) as -> by congruence. unfold count. by rewrite Ef.
  - right. exists x, d, k. assert (In k (k :: r)) as Hk by (by left). rewrite <- Ef in Hk. by apply filter_In in Hk.
Qed.

(** As long as an effect is left, one may go: the deepest. *)
Lemma progress taken i : In i (left_over taken) -> exists j, In j (left_over taken) /\ free taken j.
Proof.
  destruct depth_bound as [m Hm].
  assert (forall n i x, In i (left_over taken) -> baseline !! i = Some x -> (m - depth x <= n)%nat ->
    exists j, In j (left_over taken) /\ free taken j) as Hmain.
  { intros n. induction n as [|n IH]; intros j x Hj Hx Hn; (destruct (free_dec taken j) as [Hf|(x' & d & k & Hx' & Hd & Hk & Hb)];
      [by exists j|]); assert (x' = x) as -> by congruence; apply directory_target_some in Hd.
    all: destruct (baseline !! k) as [y|] eqn:Ey; [|apply left_over_In in Hk as [Hk _]; apply lookup_lt_is_Some in Hk as [? ?]; congruence].
    all: pose proof (below_deeper _ _ _ Ey Hb) as Hdeep; pose proof (Hm _ _ Ey); unfold depth in Hn at 1; rewrite Hd in Hn.
    - lia.
    - apply (IH k y); [done|done|lia]. }
  intros Hi. destruct (baseline !! i) as [x|] eqn:Ex; [by apply (Hmain (m - depth x)%nat i x)|].
  apply left_over_In in Hi as [Hi _]. apply lookup_lt_is_Some in Hi as [? ?]. congruence.
Qed.

(** ** The counts and the heap agree with what is left *)

Record consistent (taken ready : list nat) (remaining : gmap Path nat) : Prop := {
  con_taken : NoDup taken /\ forall i, In i taken -> (i < length baseline)%nat;
  con_targets : forall d, is_target d -> remaining !! d = Some (count taken d);
  con_others : forall d, ~ is_target d -> remaining !! d = None;
  con_ready : NoDup ready /\ forall i, In i ready <-> In i (left_over taken) /\ free taken i;
  con_done : forall i, In i taken -> free taken i;
}.

Lemma target_dec d : is_target d \/ ~ is_target d.
Proof.
  destruct (existsb (fun x => directory_target x == Some d) baseline) eqn:E.
  - left. apply existsb_exists in E as (x & Hx & Hd%eqb_true). by exists x.
  - right. intros (x & Hx & Hd). rewrite existsb_false in E. specialize (E x Hx). by rewrite Hd, eqb_refl in E.
Qed.

Definition pushed (remaining : gmap Path nat) (a : Path) : list nat :=
  if bool_decide (remaining !! a = Some 1%nat) then directory_indices baseline a else [].

Lemma settle_fold ancestors : forall ready remaining, NoDup ancestors -> (forall a, In a ancestors -> remaining !! a <> Some 0%nat) ->
  exists remaining', fold_left (settle baseline) ancestors (ready, remaining) =
    (ready ++ concat (map (pushed remaining) ancestors), remaining') /\ forall d, remaining' !! d = if mem d ancestors then Nat.pred <$> (remaining !! d) else remaining !! d.
Proof.
  induction ancestors as [|a ancestors IH]; intros ready remaining Hnd Hpos; cbn [fold_left map concat].
  - exists remaining. rewrite app_nil_r. by split.
  - inversion_clear Hnd as [|? ? Hni Hnd']. rewrite list_elem_of_In in Hni.
    set (m := match remaining !! a with Some (S k) => <[a := k]> remaining | _ => remaining end).
    assert (Hs : fold_left (settle baseline) ancestors (settle baseline (ready, remaining) a) =
      fold_left (settle baseline) ancestors (ready ++ pushed remaining a, m)).
    { f_equal. unfold settle, m, pushed. destruct (remaining !! a) as [[|k]|]; rewrite ?app_nil_r; try done.
      destruct (Nat.eqb_spec k 0) as [->|Hk]; [by rewrite bool_decide_true|]. rewrite bool_decide_false by congruence.
      by rewrite app_nil_r. }
    rewrite Hs. assert (Hother : forall d, d <> a -> m !! d = remaining !! d).
    { intros d Hd. unfold m. destruct (remaining !! a) as [[|k]|]; try done. by rewrite lookup_insert_ne by congruence. }
    destruct (IH (ready ++ pushed remaining a) m Hnd') as (m' & Heq & Hm').
    { intros b Hb. rewrite Hother by congruence. apply Hpos. by right. }
    exists m'. split.
    + rewrite Heq. f_equal. rewrite <- app_assoc. f_equal. f_equal. f_equal. apply map_ext_in. intros b Hb. unfold pushed.
      by rewrite Hother by congruence.
    + intros d. rewrite Hm'. unfold mem. cbn [existsb]. fold (mem d ancestors). destruct (mem d ancestors) eqn:Hin.
      * rewrite orb_true_r. apply mem_In in Hin. by rewrite Hother by congruence.
      * rewrite orb_false_r. destruct (d == a) eqn:Eda.
        -- apply eqb_true in Eda as ->. unfold m. specialize (Hpos a (or_introl eq_refl)).
           destruct (remaining !! a) as [[|k]|] eqn:Ea; try done. by rewrite lookup_insert_eq.
        -- apply eqb_false in Eda. by apply Hother.
Qed.

Lemma directory_indices_In d i : In i (directory_indices baseline d) <-> exists x, baseline !! i = Some x /\ directory_target x = Some d.
Proof.
  unfold directory_indices. rewrite filter_In, in_seq. split.
  - intros [_ Hi]. destruct (baseline !! i) as [x|]; [|done]. apply eqb_true in Hi. by exists x.
  - intros (x & Hx & Hd). rewrite Hx. split; [|by apply eqb_eq]. apply lookup_lt_Some in Hx. lia.
Qed.

Lemma pushed_In remaining ancestors j :
  In j (concat (map (pushed remaining) ancestors)) <->
  exists x d, In d ancestors /\ remaining !! d = Some 1%nat /\ baseline !! j = Some x /\ directory_target x = Some d.
Proof.
  rewrite in_concat. setoid_rewrite in_map_iff. split.
  - intros (l & (d & <- & Hd) & Hj). unfold pushed in Hj. case_bool_decide as E; [|done].
    apply directory_indices_In in Hj as (x & Hx & Ht). by exists x, d.
  - intros (x & d & Hd & Hr & Hx & Ht). exists (pushed remaining d). split; [by exists d|]. unfold pushed.
    rewrite bool_decide_true by done. apply directory_indices_In. by exists x.
Qed.

Lemma pushed_NoDup remaining ancestors : NoDup ancestors -> NoDup (concat (map (pushed remaining) ancestors)).
Proof.
  induction 1 as [|a l Hni Hnd IH]; simpl; [constructor|]. rewrite list_elem_of_In in Hni. apply NoDup_app. split.
  - unfold pushed. case_bool_decide; [|constructor]. apply NoDup_ListNoDup, List.NoDup_filter, seq_NoDup.
  - split; [|done]. intros j Hj. rewrite list_elem_of_In in Hj |- *. intros (x & d & Hd & _ & Hx & Ht)%pushed_In.
    unfold pushed in Hj. case_bool_decide; [|done]. apply directory_indices_In in Hj as (y & Hy & Hty).
    assert (d = a) by congruence. by subst.
Qed.

Lemma ancestors_NoDup x : NoDup (ancestors x).
Proof. unfold ancestors. destruct (filesystem_target x); [apply parents_NoDup|constructor]. Qed.

Lemma own_target_not_below i x d : baseline !! i = Some x -> directory_target x = Some d -> below d i = false.
Proof.
  intros Hx Hd. destruct (below d i) eqn:E; [|done]. apply (below_deeper _ _ _ Hx) in E. unfold depth in E.
  apply directory_target_some in Hd. rewrite Hd in E. lia.
Qed.

Lemma lookup_target i x d : baseline !! i = Some x -> directory_target x = Some d -> is_target d.
Proof. intros Hx Hd. exists x. split; [|done]. by apply list_elem_of_In, list_elem_of_lookup_2 with i. Qed.

(** One pass of the loop keeps the counts and the heap right. *)
Lemma pass_consistent taken ready remaining i ready0 x :
  consistent taken ready remaining -> ready ≡ₚ i :: ready0 -> baseline !! i = Some x ->
  exists remaining', fold_left (settle baseline) (ancestors x) (ready0, remaining) =
    (ready0 ++ concat (map (pushed remaining) (ancestors x)), remaining') /\
  consistent (taken ++ [i]) (ready0 ++ concat (map (pushed remaining) (ancestors x))) remaining'.
Proof.
  intros [[Hnd Hlt] Ht Ho [Hrnd Hr] Hdone] Hperm Hx.
  assert (Hi : In i (left_over taken) /\ free taken i).
  { apply Hr. rewrite <- list_elem_of_In, Hperm. apply list_elem_of_here. }
  destruct Hi as [Hi Hfree].
  assert (Hbelow : forall d, In d (ancestors x) <-> below d i = true).
  { intros d. unfold below. by rewrite Hx, mem_In. }
  destruct (settle_fold (ancestors x) ready0 remaining (ancestors_NoDup x)) as (m & Heq & Hm).
  { intros a Ha. destruct (target_dec a) as [Hta|Hta]; [|by rewrite Ho]. rewrite Ht by done.
    intros [= Hz]. rewrite count_zero in Hz. apply Hbelow in Ha. by rewrite (Hz i Hi) in Ha. }
  assert (Hone : forall d, In d (ancestors x) -> remaining !! d = Some 1%nat ->
    count (taken ++ [i]) d = 0%nat /\ count taken d = 1%nat).
  { intros d Hd Hd1. destruct (target_dec d) as [Htd|Htd]; [|by rewrite Ho in Hd1]. rewrite Ht in Hd1 by done.
    injection Hd1 as Hd1. split; [|done]. rewrite (count_snoc _ _ d Hi) in Hd1. apply Hbelow in Hd. rewrite Hd in Hd1. lia. }
  rewrite Hperm in Hrnd. inversion_clear Hrnd as [|? ? Hni Hrnd0]. rewrite list_elem_of_In in Hni.
  assert (Hr0 : forall j, In j ready0 <-> In j ready /\ j <> i).
  { intros j. rewrite <- !list_elem_of_In, Hperm, !list_elem_of_In. simpl. split; [|intuition congruence].
    intros Hj. split; [by right|]. by intros ->. }
  exists m. split; [exact Heq|]. constructor.
  - split.
    + apply NoDup_app. split; [done|]. split; [|apply NoDup_singleton]. intros j Hj. rewrite list_elem_of_singleton. intros ->.
      apply left_over_In in Hi as [_ Hi]. by apply list_elem_of_In in Hj.
    + intros j [Hj|[<-|[]]]%in_app_iff; [by apply Hlt|]. by apply left_over_In in Hi as [Hi _].
  - intros d Hd. rewrite Hm, Ht by done. rewrite (count_snoc _ _ d Hi). destruct (mem d (ancestors x)) eqn:Hin.
    + apply mem_In, Hbelow in Hin. by rewrite Hin.
    + apply mem_not_In in Hin. destruct (below d i) eqn:E; [by apply Hbelow in E|done].
  - intros d Hd. rewrite Hm, Ho by done. by destruct (mem _ _).
  - split.
    + apply NoDup_app. split; [done|]. split; [|apply pushed_NoDup, ancestors_NoDup]. intros j Hj Hp.
      rewrite list_elem_of_In in Hj, Hp. apply pushed_In in Hp as (y & d & Hd & Hd1 & Hy & Hty).
      apply Hr0 in Hj as [[_ Hf]%Hr _]. specialize (Hf y d Hy Hty). destruct (Hone d Hd Hd1). lia.
    + intros j. rewrite in_app_iff, Hr0, Hr, pushed_In, !left_over_In, in_app_iff. split.
      * intros [[[[Hj Hn] Hf] Hne]|(y & d & Hd & Hd1 & Hy & Hty)].
        -- split; [split; [done|]; intros [?|[?|[]]]; congruence|]. by apply free_snoc.
        -- destruct (Hone d Hd Hd1) as [Hz H1]. split; [split; [by eapply lookup_lt_Some|]|].
           ++ intros [Hj|[->|[]]]; [specialize (Hdone j Hj y d Hy Hty); lia|]. assert (y = x) as -> by congruence.
              apply Hbelow in Hd. by rewrite (own_target_not_below _ _ _ Hx Hty) in Hd.
           ++ intros y' d' Hy' Hd'. by simplify_eq.
      * intros [[Hj Hn] Hf]. destruct (free_dec taken j) as [Hf'|(y & d & k & Hy & Hd & Hk & Hb)].
        -- left. split; [split; [split; [done|]|done]|]; intros ?; apply Hn; [by left|subst; right; by left].
        -- right. specialize (Hf y d Hy Hd). exists y, d.
           assert (Hc : count taken d <> 0%nat). { intros Hz. rewrite count_zero in Hz. by rewrite (Hz k Hk) in Hb. }
           pose proof (count_snoc _ _ d Hi) as Hs. destruct (below d i) eqn:E; [|lia].
           split; [by apply Hbelow|]. split; [|done]. rewrite Ht by (by eapply lookup_target). f_equal. lia.
  - intros j [Hj|[<-|[]]]%in_app_iff; apply free_snoc; auto.
Qed.

(** What comes out: everything once, and each when it is free, the least of those first. *)
Lemma drain_spec fuel taken ready remaining :
  consistent taken ready remaining -> (length (left_over taken) < fuel)%nat ->
  drain fuel baseline ready remaining ≡ₚ left_over taken /\
  forall l1 i l2, drain fuel baseline ready remaining = l1 ++ i :: l2 ->
    free (taken ++ l1) i /\ forall j, In j l2 -> (j < i)%nat -> ~ free (taken ++ l1) j.
Proof.
  revert taken ready remaining. induction fuel as [|fuel IH]; intros taken ready remaining Hcon Hf; [lia|]. cbn [drain].
  destruct (heappop ready) as [[i ready0]|] eqn:Ep.
  - apply heappop_some in Ep as [Hperm Hleast].
    assert (Hin : In i ready) by (rewrite <- list_elem_of_In, Hperm; apply list_elem_of_here).
    pose proof Hcon as [_ _ _ [_ Hr] _]. pose proof Hin as [Hi Hfree]%Hr.
    destruct (baseline !! i) as [x|] eqn:Ex; [|apply left_over_In in Hi as [Hi _]; apply lookup_lt_is_Some in Hi as [? ?]; congruence].
    destruct (pass_consistent _ _ _ _ _ _ Hcon Hperm Ex) as (m & -> & Hcon').
    pose proof (left_over_snoc taken i Hi) as Hsnoc.
    destruct (IH _ _ _ Hcon') as [Hout Hord]; [apply Permutation_length in Hsnoc; simpl in Hsnoc; lia|].
    split; [by rewrite Hout, <- Hsnoc|]. intros [|j l1] k l2 [= <- Heq].
    + rewrite app_nil_r. split; [done|]. intros j Hj Hlt Hfj.
      assert (In j (left_over taken)) as Hjl.
      { rewrite <- list_elem_of_In, Hsnoc, list_elem_of_In. right. rewrite <- list_elem_of_In, <- Hout, list_elem_of_In.
        by rewrite Heq. }
      assert (In j ready) as Hjr by (by apply Hr). specialize (Hleast j Hjr). lia.
    + rewrite Heq in Hord. specialize (Hord l1 k l2 eq_refl). by rewrite <- app_assoc in Hord.
  - apply heappop_none in Ep as ->. destruct Hcon as [_ _ _ [_ Hr] _]. split; [|by intros []].
    destruct (left_over taken) as [|i l] eqn:El; [done|]. destruct (progress taken i) as (j & Hj & Hfj); [rewrite El; by left|].
    rewrite El in Hj. by destruct (proj2 (Hr j) (conj Hj Hfj)).
Qed.

(** *** The start *)

Lemma zeros_lookup l (m : gmap Path nat) d :
  fold_left (fun (m : gmap Path nat) x => match directory_target x with Some d => <[d := 0%nat]> m | None => m end) l m !! d =
  if existsb (fun x => directory_target x == Some d) l then Some 0%nat else m !! d.
Proof.
  revert m. induction l as [|x l IH]; intros m; [done|]. cbn [fold_left existsb]. rewrite IH.
  destruct (existsb _ l); [by rewrite orb_true_r|]. rewrite orb_false_r. destruct (directory_target x) as [d'|] eqn:E; [|done].
  destruct (Some d' == Some d) eqn:Ed.
  - apply eqb_true in Ed. injection Ed as ->. by rewrite lookup_insert_eq.
  - apply eqb_false in Ed. by rewrite lookup_insert_ne by congruence.
Qed.

Definition bump (m : gmap Path nat) (a : Path) : gmap Path nat := match m !! a with Some k => <[a := S k]> m | None => m end.

Lemma bump_fold ancestors m d : NoDup ancestors ->
  fold_left bump ancestors m !! d = (fun k => ((if mem d ancestors then 1 else 0) + k)%nat) <$> (m !! d).
Proof.
  intros Hnd. revert m. induction Hnd as [|a l Hni Hnd IH]; intros m; cbn [fold_left].
  - simpl. by destruct (m !! d).
  - rewrite list_elem_of_In in Hni. rewrite IH. unfold mem at 2. cbn [existsb]. fold (mem d l).
    destruct (d == a) eqn:E; cbn [orb].
    + apply eqb_true in E as ->. apply mem_not_In in Hni. rewrite Hni. unfold bump. destruct (m !! a) eqn:Ea; simpl.
      * by rewrite lookup_insert_eq.
      * by rewrite Ea.
    + apply eqb_false in E. unfold bump. destruct (m !! a) eqn:Ea; [by rewrite lookup_insert_ne by congruence|done].
Qed.

Lemma bumps_lookup l m d :
  fold_left (fun m x => fold_left bump (ancestors x) m) l m !! d =
  (fun k => (length (List.filter (fun x => mem d (ancestors x)) l) + k)%nat) <$> (m !! d).
Proof.
  revert m. induction l as [|x l IH]; intros m; cbn [fold_left List.filter]; [by destruct (m !! d)|].
  rewrite IH, bump_fold by apply ancestors_NoDup. destruct (m !! d); simpl; [|done]. f_equal.
  destruct (mem d (ancestors x)); simpl; lia.
Qed.

Lemma filter_positions {B} (p : B -> bool) (l : list B) :
  length (List.filter (fun i => match l !! i with Some x => p x | None => false end) (seq 0 (length l))) = length (List.filter p l).
Proof.
  induction l as [|x l IH]; [done|]. cbn [length seq List.filter lookup list_lookup].
  assert (Hs : forall q, length (List.filter q (seq 1 (length l))) = length (List.filter (fun i => q (S i)) (seq 0 (length l)))).
  { intros q. rewrite <- seq_shift. generalize (seq 0 (length l)). intros s. induction s as [|i s IHs]; [done|]. simpl.
    destruct (q (S i)); simpl; by rewrite IHs. }
  destruct (p x); cbn [length]; rewrite Hs, <- IH; done.
Qed.

Lemma left_over_nil : left_over [] = seq 0 (length baseline).
Proof. unfold left_over. simpl. induction (seq 0 (length baseline)) as [|i l IH]; simpl; congruence. Qed.

Lemma initial_counts_lookup d :
  initial_counts baseline !! d = if existsb (fun x => directory_target x == Some d) baseline then Some (count [] d) else None.
Proof.
  unfold initial_counts. change (fun m a => match m !! a with Some k => <[a := S k]> m | None => m end) with bump.
  rewrite bumps_lookup, zeros_lookup. destruct (existsb _ _); [|by rewrite lookup_empty]. simpl. f_equal.
  unfold count, below. rewrite left_over_nil, (filter_positions (fun x => mem d (ancestors x))). lia.
Qed.

Lemma initial_consistent : consistent [] (initial_ready baseline) (initial_counts baseline).
Proof.
  assert (Ht : forall d, is_target d -> initial_counts baseline !! d = Some (count [] d)).
  { intros d (x & Hx & Hd). rewrite initial_counts_lookup, (proj2 (existsb_exists _ _)); [done|]. exists x. split; [done|].
    by apply eqb_eq. }
  constructor; [split; [constructor|done]|exact Ht| | |done].
  - intros d Hd. rewrite initial_counts_lookup. destruct (existsb _ _) eqn:E; [|done]. exfalso. apply Hd.
    apply existsb_exists in E as (x & Hx & Hxd%eqb_true). by exists x.
  - split; [apply NoDup_ListNoDup, List.NoDup_filter, seq_NoDup|]. intros i. unfold initial_ready. rewrite filter_In, left_over_nil, in_seq.
    split; intros [Hi Hr]; (split; [done|]).
    + intros x d Hx Hd. rewrite Hx in Hr. unfold is_ready in Hr. rewrite Hd, Ht in Hr by (by eapply lookup_target).
      by apply Nat.eqb_eq in Hr.
    + destruct (lookup_lt_is_Some_2 baseline i) as [x Hx]; [lia|]. rewrite Hx. unfold is_ready.
      destruct (directory_target x) as [d|] eqn:Hd; [|done]. rewrite Ht by (by eapply lookup_target). by rewrite (Hr x d).
Qed.

Lemma positions_spec :
  positions baseline ≡ₚ seq 0 (length baseline) /\
  forall l1 i l2, positions baseline = l1 ++ i :: l2 -> free l1 i /\ forall j, In j l2 -> (j < i)%nat -> ~ free l1 j.
Proof.
  destruct (drain_spec (S (length baseline)) [] _ _ initial_consistent) as [Hp Ho]; [rewrite left_over_nil, length_seq; lia|].
  by rewrite left_over_nil in Hp.
Qed.
End Run.

Lemma omap_map {B C D} (f : C -> option D) (g : B -> C) l : omap f (map g l) = omap (fun x => f (g x)) l.
Proof. induction l as [|x l IH]; [done|]. cbn. by rewrite IH. Qed.

Lemma omap_lookup_seq {B} (l : list B) : omap (fun i => l !! i) (seq 0 (length l)) = l.
Proof.
  induction l as [|x l IH]; [done|]. cbn [length seq]. rewrite <- seq_shift. cbn. f_equal.
  etransitivity; [apply (omap_map (fun i => (x :: l) !! i) S)|exact IH].
Qed.

(** The order is a permutation of the effects. *)
Lemma rollback_order_perm effects : _rollback_order effects ≡ₚ effects.
Proof.
  unfold _rollback_order. destruct (positions_spec (rev effects)) as [Hp _]. rewrite Hp, omap_lookup_seq.
  symmetry. apply Permutation_rev.
Qed.

(** C26. A rollback takes every effect exactly once.  A directory comes after everything
    below it, whatever the number of effects on a path; and the order is otherwise that
    of the ledger reversed: an effect that comes later than one recorded before it is a
    directory that still has an effect below it at that point. *)
Theorem rollback_order_correct effects :
  let baseline := rev effects in
  exists order, _rollback_order effects = omap (fun i => baseline !! i) order /\ order ≡ₚ seq 0 (length effects) /\
  forall l1 i l2, order = l1 ++ i :: l2 ->
    (forall x d j y, baseline !! i = Some x -> directory_target x = Some d -> In j l2 -> baseline !! j = Some y ->
       ~ In d (ancestors y)) /\
    (forall j, In j l2 -> (j < i)%nat -> exists x d k y, baseline !! j = Some x /\ directory_target x = Some d /\
       In k (i :: l2) /\ baseline !! k = Some y /\ In d (ancestors y)).
Proof.
  intros baseline. destruct (positions_spec baseline) as [Hp Ho]. exists (positions baseline). split; [done|].
  assert (Hn : length baseline = length effects) by apply length_rev. rewrite Hn in Hp. split; [done|].
  intros l1 i l2 Heq. destruct (Ho l1 i l2 Heq) as [Hf Hleast].
  assert (Hnd : NoDup (l1 ++ i :: l2)) by (rewrite <- Heq, Hp; apply NoDup_ListNoDup, seq_NoDup).
  apply NoDup_app in Hnd as (_ & Hdis & _).
  assert (Hleft : forall k, In k (left_over baseline l1) <-> In k (i :: l2)).
  { intros k. rewrite left_over_In, Hn. assert (Hk : In k (l1 ++ i :: l2) <-> (k < length effects)%nat).
    { rewrite <- Heq, <- list_elem_of_In, Hp, list_elem_of_In, in_seq. lia. }
    rewrite in_app_iff in Hk. split; [tauto|]. intros Hin. split; [tauto|]. intros Hl.
    apply (Hdis k); by apply list_elem_of_In. }
  split.
  - intros x d j y Hx Hd Hj Hy Hin. specialize (Hf x d Hx Hd). rewrite count_zero in Hf.
    assert (Hb : below baseline d j = false) by (apply Hf, Hleft; by right). unfold below in Hb. rewrite Hy in Hb.
    by apply mem_not_In in Hb.
  - intros j Hj Hlt. destruct (free_dec baseline l1 j) as [?|(x & d & k & Hx & Hd & Hk%Hleft & Hb)]; [by destruct (Hleast j Hj Hlt)|].
    unfold below in Hb. destruct (baseline !! k) as [y|] eqn:Ey; [|done]. apply mem_In in Hb. by exists x, d, k, y.
Qed.
End Order.

(** A directory recorded after the file in it, twice, and a file elsewhere. *)
Example order_example :
  _rollback_order fst (fun x => Some (parse_path (snd x)))
    [(true, "/w/a"); (false, "/w/b"); (false, "/w/a/f"); (true, "/w"); (true, "/w/a")] =
  [(false, "/w/a/f"); (true, "/w/a"); (false, "/w/b"); (true, "/w/a"); (true, "/w")].
Proof. vm_compute. reflexivity. Qed.
