(* ===== verification/Rollback.v ===== *)
(** * Cleanup: the ledger and the manager

    The second part of [src/cops/execution/cleanup.py]: [SideEffectLedger], whose effects
    are objects shared with their holders and are named here by their position, and
    [CleanupManager]: ownership, the quarantine, [cleanup_effect], [rollback] and its
    receipt. *)

From S2P Require Import Prelude PyStr Json JsonParse Timestamp Schema Contracts Models Identity.
From S2P Require Import ApprovalStore Paths Files.
From S2P Require Import Cleanup RollbackOrder.

Definition PLAN_DECLARED_PROVENANCE_KEY : string := "_cops_plan_declared_provenance".
Definition PLAN_DECLARED_PROVENANCE_UNVERIFIED : string := "unverified".

Record SideEffectLedger := {
  lg_plan_id : string; lg_engagement_id : string; lg_default_owner : string; lg_journal : bool; lg_run_id : string;
  lg_workspace_dir : option Path
}.

Record CleanupManager := { mg_ledger : SideEffectLedger; mg_worker_identity : string; mg_workspace_dir : option Path }.

(** [int(text)] in base ten. *)
Definition underscored_digits (s : string) : bool :=
  forallb (fun part => negb (part == "") && string_all is_ascii_digit part) (split_char "_" s).
Definition py_int (s : string) : res Z :=
  let s := strip s in
  let '(negative, digits) := match s with
    | String "-" s => (true, s)
    | String "+" s => (false, s)
    | s => (false, s)
    end in
  raise_if negb (underscored_digits digits) || (4300 <? slen (remove_sub "_" 0%nat digits)) as ValueError msg "invalid literal for int()" ;;
  let n := JsonParse.digits_value 0 (remove_sub "_" 0%nat digits) in
  Ok (if negative then - n else n).

Section Rollback.
Context `{Host} `{Machine}.
Variable read_schema : string -> option json.
Variable report_semantics : string -> json -> res unit.
Variable journal_path : Path.

Definition is_persistence_error (e : exc) : bool := exc_cls e == CleanupPersistenceError.

(** ** The ledger *)

Definition new_ledger (plan_id engagement_id default_owner : string) (journal : bool) (run_id : option string)
    (workspace_dir : option Path) (recovered_effects : list SideEffect) (start : bool) : eff CleanupState SideEffectLedger :=
  do! run_id := match run_id with
                | None | Some "" => do! hex := on_machine sys_uuid in eff_ret ("run-" +:+ hex)
                | Some run_id => eff_ret run_id
                end in
  let workspace_dir := option_map (fun p => abs_path (path_text p)) workspace_dir in
  do! _ := (fun s => (Ok tt, set_effects recovered_effects s)) in
  do! _ := if journal then
             do! _ := match workspace_dir with
                      | Some p => eff_lift (assert_external_to journal_path p)
                      | None => eff_ret tt
                      end in
             if start then start_run run_id plan_id engagement_id default_owner workspace_dir else eff_ret tt
           else eff_ret tt in
  eff_ret {| lg_plan_id := plan_id; lg_engagement_id := engagement_id; lg_default_owner := default_owner;
             lg_journal := journal; lg_run_id := run_id; lg_workspace_dir := workspace_dir |}.

(** The effect at a position; another object is not of this ledger. *)
Definition effect_at (m : string) (i : nat) : eff CleanupState SideEffect := fun s =>
  match cs_effects s !! i with
  | Some e => (Ok e, s)
  | None => (persistence_error m, s)
  end.

Definition update_effect (i : nat) (f : SideEffect -> SideEffect) : eff CleanupState unit := fun s =>
  (Ok tt, set_effects (alter f i (cs_effects s)) s).

Definition get_effects (status : option string) : eff CleanupState (list SideEffect) := fun s =>
  (Ok (match status with
       | None => cs_effects s
       | Some status => List.filter (fun e => se_status e == status) (cs_effects s)
       end), s).

(** The position of the new effect. *)
Definition record_effect (l : SideEffectLedger) (step_id resource_type target cleanup_action : string) (owner : option string)
    (metadata : list (string * json)) : eff CleanupState nat :=
  do! hex := on_machine sys_uuid in
  do! now := on_machine utc_now in
  let e := {| se_effect_id := "eff-" +:+ String.substring 0 16 hex; se_step_id := step_id; se_resource_type := resource_type;
              se_target := target; se_action_plan_id := lg_plan_id l; se_engagement_id := lg_engagement_id l;
              se_owner := match owner with None | Some "" => lg_default_owner l | Some owner => owner end;
              se_created_at := now; se_cleanup_action := cleanup_action; se_status := "pending"; se_metadata := metadata;
              se_creation_identity := None; se_transition_details := [] |} in
  do! _ := if lg_journal l then journal_record_effect (lg_run_id l) e else eff_ret tt in
  fun s => (Ok (length (cs_effects s)), set_effects (cs_effects s ++ [e]) s).

Definition record_created_identity (l : SideEffectLedger) (i : nat) (creation_fd : Z) : eff CleanupState FilesystemIdentity :=
  do! e := effect_at "cannot identify an effect outside this ledger" i in
  do_if negb (is_filesystem (se_resource_type e))
    as CleanupPersistenceError msg "creation identity applies only to filesystem effects" ;;
  do_if negb (se_status e == "pending") || bool_decide (is_Some (se_creation_identity e))
    as CleanupPersistenceError msg "creation identity must be recorded once while the effect is pending" ;;
  let path := parse_path (se_target e) in
  do_if negb (is_absolute path) || negb (path == abs_path (path_text path)) || mem ".." (path_parts path)
    as CleanupPersistenceError msg "filesystem effect target must be an absolute normalized path" ;;
  do! (created, current) := eff_catch is_os_error
    (do! created := on_machine (sys_fstat creation_fd) in
     do! parent_fd := on_machine (open_directory_no_symlinks (parent path) false) in
     do! current := on_machine (sys_stat parent_fd (name path)) in
     eff_ret (created, current))
    (fun _ => eff_raise CleanupPersistenceError "cannot verify created resource") in
  do_if negb (expected_mode (se_resource_type e) created)
    as CleanupPersistenceError msg "creation descriptor does not match declared type" ;;
  let identity := from_stat (se_resource_type e) created in
  do_if negb (matches identity (se_resource_type e) current)
    as CleanupPersistenceError msg "created resource changed before its identity could be persisted" ;;
  do! _ := if lg_journal l then record_creation_identity (lg_run_id l) e identity else eff_ret tt in
  do! _ := update_effect i (with_identity identity) in
  eff_ret identity.

(** The transition is persisted before it is seen in memory. *)
Definition transition_effect (l : SideEffectLedger) (i : nat) (status : string) (details : list (string * json))
    : eff CleanupState unit :=
  do! e := effect_at "cannot transition an effect outside this ledger" i in
  do! _ := if lg_journal l then journal_transition (lg_run_id l) e status details else eff_ret tt in
  update_effect i (fun e => with_details details (with_status status e)).

(** ** Paths of effects *)

Definition _filesystem_target (e : SideEffect) : option Path :=
  if is_filesystem (se_resource_type e) then Some (abs_path (se_target e)) else None.

Definition _is_strict_descendant (child ancestor : SideEffect) : bool :=
  match _filesystem_target child, _filesystem_target ancestor with
  | Some c, Some a => negb (c == a) && is_relative_to c a
  | _, _ => false
  end.

(** [f".cops-cleanup-{token}"]. *)
Definition _quarantine_name (e : SideEffect) : string := ".cops-cleanup-" +:+ uuid5_hex (se_effect_id e).
Definition quarantine_root (e : SideEffect) : string := path_text (child (parent (abs_path (se_target e))) (_quarantine_name e)).
Definition _quarantine_target (e : SideEffect) : string :=
  path_text (child (child (parent (abs_path (se_target e))) (_quarantine_name e)) "resource").

Definition quarantine_details (e : SideEffect) : list (string * json) :=
  if is_filesystem (se_resource_type e) then [("quarantine_target", JStr (_quarantine_target e))] else [].

(** ** Ownership *)

Definition scratch_prefix : string := "cops-credential-operation-".

(** A path directly below the temporary directory with the prefix of the scratch directories. *)
Definition is_scratch (scratch_parent path : Path) : bool := (parent path == scratch_parent) && startswith scratch_prefix (name path).

Definition metadata_text (k : string) (e : SideEffect) : option string :=
  match assoc k (se_metadata e) with Some (JStr s) => Some s | _ => None end.

Definition in_scratch (scratch_parent target_path : Path) (e : SideEffect) : bool :=
  match metadata_text "credential_scratch_root" e with
  | None | Some "" => false
  | Some root => is_relative_to target_path (abs_path root) && is_scratch scratch_parent (abs_path root)
  end ||
  ((se_resource_type e == "directory") && (metadata_text "purpose" e == Some "credential_operation_scratch") &&
   is_scratch scratch_parent target_path).

Definition check_location (m : CleanupManager) (e : SideEffect) (target_path : Path) : eff CleanupState unit :=
  match mg_workspace_dir m with
  | None => eff_ret tt
  | Some workspace =>
      if is_relative_to target_path workspace then eff_ret tt
      else
        do! parent := on_machine scratch_parent in
        do_if negb (in_scratch parent target_path e) as CleanupOwnershipError msg "Resource path is outside worker workspace" ;;
        eff_ret tt
  end.

Definition _verify_resource_ownership (m : CleanupManager) (e : SideEffect) : eff CleanupState (option Z) :=
  do_if negb (se_owner e == mg_worker_identity m) as CleanupOwnershipError msg "Resource not owned by the worker" ;;
  if is_filesystem (se_resource_type e) then
    let target_path := abs_path (se_target e) in
    do! _ := check_location m e target_path in
    do! parent_fd := eff_catch is_os_error (on_machine (open_directory_no_symlinks (parent target_path) false))
      (fun _ => eff_raise CleanupOwnershipError "Resource parent cannot be verified without following symbolic links") in
    match se_creation_identity e with
    | None => eff_raise CleanupOwnershipError "Resource has no durably recorded creation identity"
    | Some identity =>
        do! current := eff_catch is_os_error (on_machine (sys_stat parent_fd (name target_path)))
          (fun err => eff_raise CleanupOwnershipError
             (if exc_cls err == FileNotFoundError then "Resource is missing; ownership cannot be verified"
              else "Resource cannot be inspected without following symbolic links")) in
        do_if negb (matches identity (se_resource_type e) current)
          as CleanupOwnershipError msg "Resource no longer matches its recorded creation identity" ;;
        eff_ret (Some parent_fd)
    end
  else eff_ret None.

(** ** The destructive part *)

(** The [try] of [_execute_filesystem_cleanup]: the action taken on the quarantined resource. *)
Definition delete_quarantined (e : SideEffect) (identity : FilesystemIdentity) (path : Path) (parent_fd : Z) : eff actions string :=
  do! _ := sys_do (Mkdir parent_fd (_quarantine_name e)) in
  do! quarantine_fd := sys_open (Some parent_fd) (_quarantine_name e) in
  do! _ := sys_do (Rename parent_fd (name path) quarantine_fd "resource") in
  do! moved := sys_stat quarantine_fd "resource" in
  do_if negb (matches identity (se_resource_type e) moved)
    as CleanupOwnershipError msg "Resource changed after verification; unverified object was preserved" ;;
  do! current := sys_stat quarantine_fd "resource" in
  do_if negb (matches identity (se_resource_type e) current)
    as CleanupOwnershipError msg "Quarantined resource changed before deletion and was preserved" ;;
  if se_resource_type e == "file" then do! _ := sys_do (Unlink quarantine_fd "resource") in eff_ret "deleted_file"
  else do! _ := sys_do (Rmdir quarantine_fd "resource") in eff_ret "deleted_directory".

Definition _execute_filesystem_cleanup (e : SideEffect) (parent_fd : Z) : eff actions string :=
  let path := abs_path (se_target e) in
  match se_creation_identity e with
  | None => eff_raise CleanupOwnershipError "Resource has no durably recorded creation identity"
  | Some identity =>
      do! action := delete_quarantined e identity path parent_fd in
      do! _ := eff_catch is_os_error (sys_do (Rmdir parent_fd (_quarantine_name e)))
        (fun err => eff_raise CleanupQuarantineError ("resource was deleted but quarantine directory '" +:+ quarantine_root e +:+
                      "' could not be removed: " +:+ exc_msg err)) in
      eff_ret action
  end.

Definition kill_process (e : SideEffect) : eff actions string :=
  do! pid := eff_lift (py_int (se_target e)) in
  do! _ := eff_catch (fun err => exc_cls err == ProcessLookupError)
    (eff_catch (fun err => exc_cls err == PermissionError) (sys_do (Kill pid 15))
       (fun _ => eff_raise CleanupError "permission denied killing PID"))
    (fun _ => eff_ret tt) in
  eff_ret "terminated_process".

Definition _execute_cleanup (e : SideEffect) (parent_fd : option Z) : eff actions string :=
  if is_filesystem (se_resource_type e) then
    match parent_fd with
    | None => eff_raise CleanupError "parent was not verified"
    | Some parent_fd => _execute_filesystem_cleanup e parent_fd
    end
  else if se_resource_type e == "process" then kill_process e
  else eff_ret ("custom_reverted_" +:+ se_cleanup_action e).

Definition _terminal_status (error : exc) (action_started : bool) : string :=
  if action_started || (exc_cls error == CleanupOwnershipError) then "unknown" else "failed".

Definition error_details (e : SideEffect) (error : exc) : list (string * json) :=
  ("reason", JStr (exc_msg error)) ::
  if exc_cls error == CleanupQuarantineError then [("quarantine_target", JStr (quarantine_root e))] else [].

(** The [try] block of [cleanup_effect] and of [rollback], up to the action: [inl] for an
    exception before the action has started, [inr] for what the action came to. *)
Definition attempt {A} (m : eff CleanupState A) : eff CleanupState (res A) := fun s =>
  let (r, s) := m s in (Ok r, s).

Definition before_action (m : CleanupManager) (i : nat) (e : SideEffect) : eff CleanupState (option Z) :=
  do! parent_fd := _verify_resource_ownership m e in
  do! _ := transition_effect (mg_ledger m) i "cleaning" (quarantine_details e) in
  eff_ret parent_fd.

(** ** [cleanup_effect] *)

Definition _unresolved_descendant (ancestor : nat) (effects : list SideEffect) : option SideEffect :=
  match effects !! ancestor with
  | Some a =>
      if negb (se_resource_type a == "directory") then None
      else omap (fun ie => if negb (Nat.eqb (fst ie) ancestor) && negb (se_status (snd ie) == "cleaned") && _is_strict_descendant (snd ie) a
                           then Some (snd ie) else None) (imap pair effects) !! 0%nat
  | None => None
  end.

(** [_transition] in a handler: when it cannot be persisted, the memory says [unknown]. *)
Definition transition_or_unknown (m : CleanupManager) (i : nat) (status : string) (details : list (string * json))
    : eff CleanupState (option exc) :=
  eff_catch is_persistence_error
    (do! _ := transition_effect (mg_ledger m) i status details in eff_ret None)
    (fun err => do! _ := update_effect i (with_status "unknown") in eff_ret (Some err)).

Definition cleanup_effect (m : CleanupManager) (i : nat) : eff CleanupState string :=
  do! e := effect_at "not an effect of this ledger" i in
  do_if negb (se_status e == "pending") as CleanupPreconditionError msg "effect is not pending" ;;
  do! started := attempt
    (do! effects := get_effects None in
     match _unresolved_descendant i effects with
     | Some _ => eff_raise CleanupOwnershipError "ancestor directory contains unresolved descendant; ancestor was preserved"
     | None => before_action m i e
     end) in
  let failed (action_started : bool) (err : exc) : eff CleanupState string :=
    do! _ := transition_or_unknown m i (_terminal_status err action_started) (error_details e err) in
    eff_lift (Raise err) in
  match started with
  | Raise err => failed false err
  | Ok parent_fd =>
      do! done := attempt
        (do! action := on_machine (_execute_cleanup e parent_fd) in
         do! _ := transition_effect (mg_ledger m) i "cleaned" [("action_taken", JStr action)] in
         eff_ret action) in
      match done with
      | Ok action => eff_ret action
      | Raise err => failed true err
      end
  end.

(** ** [rollback] *)

(** The lists of the receipt, the effects they are about, and [unresolved_targets]. *)
Record Outcome := { oc_cleaned : list (nat * json); oc_unresolved : list (nat * json); oc_targets : list Path }.

Definition receipt_entry (e : SideEffect) (k v : string) : list (string * json) :=
  [("effect_id", JStr (se_effect_id e)); ("resource_type", JStr (se_resource_type e)); ("target", JStr (se_target e)); (k, JStr v)].

Definition add_cleaned (i : nat) (e : SideEffect) (action_taken : string) (o : Outcome) : Outcome :=
  {| oc_cleaned := oc_cleaned o ++ [(i, JObj (receipt_entry e "action_taken" action_taken))];
     oc_unresolved := oc_unresolved o; oc_targets := oc_targets o |}.

(** [_unresolved]: a quarantine that still exists is named. *)
Definition _unresolved (e : SideEffect) (reason : string) : eff actions json :=
  let entry := receipt_entry e "reason" reason in
  match assoc "quarantine_target" (se_transition_details e) with
  | Some (JStr target) =>
      if target == "" then eff_ret (JObj entry)
      else do! exists_ := sys_lexists target in
           eff_ret (JObj (if exists_ then entry ++ [("quarantine_target", JStr target)] else entry))
  | _ => eff_ret (JObj entry)
  end.

Definition record_unresolved (i : nat) (reason : string) (o : Outcome) : eff CleanupState Outcome := fun s =>
  match cs_effects s !! i with
  | None => (Ok o, s)
  | Some e =>
      (do! entry := on_machine (_unresolved e reason) in
       eff_ret {| oc_cleaned := oc_cleaned o; oc_unresolved := oc_unresolved o ++ [(i, entry)];
                  oc_targets := oc_targets o ++ match _filesystem_target e with Some p => [p] | None => [] end |}) s
  end.

Definition action_taken (e : SideEffect) : option string :=
  match assoc "action_taken" (se_transition_details e) with
  | Some (JStr "") | None => None
  | Some (JStr s) => Some s
  | Some _ => None
  end.

(** [_durably_cleaned_effect]: the action that was taken. *)
Definition _durably_cleaned_effect (e : SideEffect) : option string :=
  if se_status e == "cleaned" then action_taken e else None.

(** The first loop: what the ledger already knows, and the positions left to act on. *)
Fixpoint sort_effects (i : nat) (effects : list SideEffect) (actionable : list nat) (o : Outcome)
    : eff CleanupState (list nat * Outcome) :=
  match effects with
  | [] => eff_ret (actionable, o)
  | e :: effects =>
      match _durably_cleaned_effect e with
      | Some action => sort_effects (S i) effects actionable (add_cleaned i e action o)
      | None =>
          if se_status e == "cleaned" then
            do! o := record_unresolved i "durably cleaned effect is missing action_taken evidence" o in
            sort_effects (S i) effects actionable o
          else if mem (se_status e) ["failed"; "unknown"] then
            do! o := record_unresolved i ("cleanup outcome remains " +:+ se_status e) o in
            sort_effects (S i) effects actionable o
          else sort_effects (S i) effects (actionable ++ [i]) o
      end
  end.

Definition persistence_failed (err : exc) : string := "cleanup state persistence failed: " +:+ exc_msg err.

(** An effect that is left alone: marked [unknown] with [detail], recorded with [reason]. *)
Definition preserve (m : CleanupManager) (i : nat) (detail reason : string) (o : Outcome) : eff CleanupState Outcome :=
  do! failed := transition_or_unknown m i "unknown" [("reason", JStr detail)] in
  record_unresolved i (match failed with Some err => persistence_failed err | None => reason end) o.

Definition blocked_ancestor (m : CleanupManager) (i : nat) (descendant : Path) (o : Outcome) : eff CleanupState Outcome :=
  let reason := "ancestor directory contains unresolved descendant '" +:+ path_text descendant +:+ "'; ancestor was preserved" in
  do! failed := transition_or_unknown m i "unknown" [("reason", JStr reason)] in
  record_unresolved i (match failed with Some err => reason +:+ "; " +:+ persistence_failed err | None => reason end) o.

Definition failure_reason (action_started : bool) (err : exc) (failed : option exc) : string :=
  match failed with
  | Some persistence_err => "cleanup failed and state persistence failed: " +:+ exc_msg err +:+ "; " +:+ exc_msg persistence_err
  | None => (if action_started then "cleanup outcome unknown after resource action started: " else "cleanup failed: ") +:+ exc_msg err
  end.

Definition handle_failure (m : CleanupManager) (i : nat) (e : SideEffect) (action_started : bool) (err : exc) (o : Outcome)
    : eff CleanupState Outcome :=
  do! failed := transition_or_unknown m i (_terminal_status err action_started) (error_details e err) in
  record_unresolved i (failure_reason action_started err failed) o.

(** The [try] block of the second loop. *)
Definition clean_one (m : CleanupManager) (i : nat) (e : SideEffect) (o : Outcome) : eff CleanupState Outcome :=
  do! started := attempt (before_action m i e) in
  match started with
  | Raise err => handle_failure m i e false err o
  | Ok parent_fd =>
      do! taken := attempt (on_machine (_execute_cleanup e parent_fd)) in
      match taken with
      | Raise err => handle_failure m i e true err o
      | Ok action =>
          do! failed := transition_or_unknown m i "cleaned" [("action_taken", JStr action)] in
          match failed with
          | Some err => record_unresolved i ("resource action completed but " +:+ persistence_failed err) o
          | None => eff_ret (add_cleaned i e action o)
          end
      end
  end.

Definition unresolved_below (e : SideEffect) (o : Outcome) : option Path :=
  match directory_target (fun e => se_resource_type e == "directory") _filesystem_target e with
  | Some effect_target => find (fun target => negb (target == effect_target) && is_relative_to target effect_target) (oc_targets o)
  | None => None
  end.

Definition rollback_one (m : CleanupManager) (dry_run recovered : bool) (i : nat) (o : Outcome) : eff CleanupState Outcome := fun s =>
  match cs_effects s !! i with
  | None => (Ok o, s)
  | Some e =>
      match unresolved_below e o with
      | Some descendant => blocked_ancestor m i descendant o s
      | None =>
          if se_status e == "cleaning" then
            preserve m i "worker restart interrupted cleanup" "cleanup may have completed before worker restart" o s
          else if metadata_text PLAN_DECLARED_PROVENANCE_KEY e == Some PLAN_DECLARED_PROVENANCE_UNVERIFIED then
            let reason := "plan cleanup declaration does not establish worker ownership; cleanup target was preserved" in
            preserve m i reason reason o s
          else if recovered && (se_resource_type e == "process") then
            preserve m i "process identity cannot be verified after worker restart"
              "process PID ownership cannot be verified after worker restart" o s
          else if dry_run then (Ok (add_cleaned i e ("dry_run_" +:+ se_cleanup_action e) o), s)
          else clean_one m i e o s
      end
  end.

Fixpoint rollback_all (m : CleanupManager) (dry_run recovered : bool) (order : list nat) (o : Outcome) : eff CleanupState Outcome :=
  match order with
  | [] => eff_ret o
  | i :: order => do! o := rollback_one m dry_run recovered i o in rollback_all m dry_run recovered order o
  end.

(** [cls._rollback_order(actionable_effects)], by position. *)
Definition order_of (effects : list SideEffect) (actionable : list nat) : list nat :=
  _rollback_order (fun i => match effects !! i with Some e => se_resource_type e == "directory" | None => false end)
    (fun i => match effects !! i with Some e => _filesystem_target e | None => None end) actionable.

(** ** The receipt *)

Definition receipt_status (cleaned unresolved : list json) : string :=
  match unresolved, cleaned with
  | _ :: _, _ :: _ => "partial"
  | _ :: _, [] => "failed"
  | [], _ :: _ => "completed"
  | [], [] => "not_required"
  end.

Definition receipt_payload (m : CleanupManager) (receipt_id : string) (cleaned unresolved : list json) : list (string * json) :=
  [("receipt_id", JStr receipt_id); ("plan_id", JStr (lg_plan_id (mg_ledger m)));
   ("engagement_id", JStr (lg_engagement_id (mg_ledger m))); ("worker_identity", JStr (mg_worker_identity m));
   ("cleaned_effects", JList cleaned); ("unresolved_effects", JList unresolved)].

Definition names_quarantine (entry : json) : bool := match get "quarantine_target" entry with Some _ => true | None => false end.

Definition _build_receipt (m : CleanupManager) (created_at : string) (cleaned unresolved : list json) : eff CleanupState CleanupReceipt :=
  do! hex := on_machine sys_uuid in
  let receipt_id := "cln-" +:+ String.substring 0 16 hex in
  let payload := receipt_payload m receipt_id cleaned unresolved in
  let schema_version := if existsb names_quarantine unresolved then "cops.cleanup-receipt/v2" else "cops.cleanup-receipt/v1" in
  do! completed_at := on_machine utc_now in
  do! evidence_hash := eff_lift (Json.digest (JObj payload)) in
  eff_lift (from_dict read_schema report_semantics
    (JObj (("schema_version", JStr schema_version) :: payload ++
       [("status", JStr (receipt_status cleaned unresolved)); ("created_at", JStr created_at);
        ("completed_at", JStr completed_at); ("evidence_hash", JStr evidence_hash)]))).

(** The effect of the journal itself, when the receipt cannot be persisted. *)
Definition audit_entry (m : CleanupManager) (err : exc) : json :=
  JObj [("effect_id", JStr ("audit-" +:+ lg_run_id (mg_ledger m))); ("resource_type", JStr "cleanup_journal");
        ("target", JStr (path_text journal_path));
        ("reason", JStr ("cleanup receipt persistence failed: " +:+ exc_msg err))].

(** The two loops. *)
Definition rollback_effects (m : CleanupManager) (dry_run recovered : bool) : eff CleanupState Outcome :=
  do! effects := get_effects None in
  do! (actionable, o) := sort_effects 0 effects [] {| oc_cleaned := []; oc_unresolved := []; oc_targets := [] |} in
  rollback_all m dry_run recovered (order_of effects actionable) o.

Definition rollback (m : CleanupManager) (dry_run recovered : bool) : eff CleanupState CleanupReceipt :=
  do! created_at := on_machine utc_now in
  do! o := rollback_effects m dry_run recovered in
  let cleaned := map snd (oc_cleaned o) in
  let unresolved := map snd (oc_unresolved o) in
  do! receipt := _build_receipt m created_at cleaned unresolved in
  if negb (lg_journal (mg_ledger m)) || dry_run then eff_ret receipt
  else
    do! persisted := attempt (record_receipt (lg_run_id (mg_ledger m)) receipt) in
    match persisted with
    | Ok _ => eff_ret receipt
    | Raise err =>
        if is_persistence_error err then _build_receipt m created_at cleaned (unresolved ++ [audit_entry m err])
        else eff_lift (Raise err)
    end.
End Rollback.
