(* ===== verification/RollbackFacts.v ===== *)
(** * Cleanup: what a worker does to its machine

    Which system calls the cleanup of an effect makes, in what order, and what it knew
    when it made them; and what happens to the effects of the ledger. *)

From S2P Require Import Prelude PyStr Json JsonParse Schema Contracts Models Identity ApprovalStore.
From S2P Require Import Paths Files.
From S2P Require Import Cleanup RollbackOrder Rollback.

Section Facts.
Context `{Host} `{Machine}.
Variable m : CleanupManager.

(** ** What must be known before an effect is touched *)

Definition path_of (e : SideEffect) : Path := abs_path (se_target e).

(** [d] was reached from a directory by opening these components, without links. *)
Fixpoint chain (recent : actions) (descriptor : Z) (components : list string) (d : Z) : Prop :=
  match components with
  | [] => d = descriptor
  | component :: components => exists next, In (AcOpen (Some descriptor) component (Ok next)) recent /\ chain recent next components d
  end.

Definition opened (recent : actions) (p : Path) (d : Z) : Prop :=
  exists anchor, In (AcOpen None (p_root (abs_path (path_text p))) (Ok anchor)) recent /\
    chain recent anchor (p_parts (abs_path (path_text p))) d.

Definition located (recent : actions) (e : SideEffect) : Prop :=
  match mg_workspace_dir m with
  | None => True
  | Some workspace => is_relative_to (path_of e) workspace = true \/
      exists scratch, In (AcScratch (Ok scratch)) recent /\ in_scratch scratch (path_of e) e = true
  end.

(** The object at the target, in the directory [d] it was verified in, is the one created. *)
Record verified (recent : actions) (e : SideEffect) (identity : FilesystemIdentity) (d : Z) : Prop := {
  ver_identity : se_creation_identity e = Some identity;
  ver_location : located recent e;
  ver_parent : opened recent (parent (path_of e)) d;
  ver_object : exists found, In (AcStat d (name (path_of e)) (Ok found)) recent /\ matches identity (se_resource_type e) found = true;
}.

Definition cleaning_payload (e : SideEffect) : string :=
  dumps true (JObj [("status", JStr "cleaning"); ("details", JObj (quarantine_details e))]).

(** The intent is durable before the effect is touched. *)
Definition announced (recent : actions) (e : SideEffect) : Prop :=
  lg_journal (mg_ledger m) = true -> In (AcAppend "cleanup_transition" (Some (se_effect_id e)) (cleaning_payload e)) recent.

(** The object in the quarantine [q] was seen to be the one created, twice, after it had
    been moved there out of the verified directory. *)
Definition confirmed (recent : actions) (e : SideEffect) (q : Z) : Prop :=
  exists d identity found found' before,
    recent = AcStat q "resource" (Ok found') :: AcStat q "resource" (Ok found) ::
             AcDo (Rename d (name (path_of e)) q "resource") (Ok tt) :: AcOpen (Some d) (_quarantine_name e) (Ok q) ::
             AcDo (Mkdir d (_quarantine_name e)) (Ok tt) :: before /\
    verified before e identity d /\ matches identity (se_resource_type e) found = true /\
    matches identity (se_resource_type e) found' = true.

(** Why a system call that changes something is made for an effect. *)
Definition warranted (recent : actions) (e : SideEffect) (op : operation) : Prop :=
  match op with
  | Mkdir d x => x = _quarantine_name e /\ exists identity, verified recent e identity d
  | Rename d x q y => x = name (path_of e) /\ y = "resource" /\ exists identity before, verified before e identity d /\
      recent = AcOpen (Some d) (_quarantine_name e) (Ok q) :: AcDo (Mkdir d (_quarantine_name e)) (Ok tt) :: before
  | Unlink q x => x = "resource" /\ se_resource_type e = "file" /\ confirmed recent e q
  | Rmdir q x =>
      (x = "resource" /\ se_resource_type e = "directory" /\ confirmed recent e q) \/
      (x = _quarantine_name e /\ exists identity, verified recent e identity q)
  | Kill pid signal => signal = 15 /\ se_resource_type e = "process" /\ py_int (se_target e) = Ok pid
  end.

Record justified (recent : actions) (e : SideEffect) (op : operation) : Prop := {
  just_owner : se_owner e = mg_worker_identity m;
  just_announced : announced recent e;
  just_warranted : warranted recent e op;
}.

(** *** Knowing more *)

Lemma chain_incl recent recent' fd components d : incl recent recent' -> chain recent fd components d -> chain recent' fd components d.
Proof.
  intros Hi. revert fd. induction components as [|c cs IH]; intros fd; simpl; [done|]. intros (next & Hin & Hc).
  exists next. auto.
Qed.

Lemma verified_incl recent recent' e identity d : incl recent recent' -> verified recent e identity d -> verified recent' e identity d.
Proof.
  intros Hi [Hid Hl (anchor & Ha & Hc) (found & Hf & Hm)]. constructor; [done| | |exists found; auto].
  - unfold located in *. destruct (mg_workspace_dir m); [|done]. destruct Hl as [?|(s & Hs & ?)]; [by left|right]. exists s. auto.
  - exists anchor. split; [auto|]. by eapply chain_incl.
Qed.

Lemma announced_incl recent recent' e : incl recent recent' -> announced recent e -> announced recent' e.
Proof. intros Hi Ha Hj. auto. Qed.

Lemma justified_more recent more e op : justified recent e op -> justified (recent ++ more) e op.
Proof.
  assert (Hi : forall before, incl before (before ++ more)) by (intros before x; rewrite in_app_iff; by left).
  intros [Ho Ha Hw]. constructor; [done|by eapply announced_incl|].
  assert (Hc : forall q, confirmed recent e q -> confirmed (recent ++ more) e q).
  { intros q (d & identity & found & found' & before & -> & Hv & Hm). exists d, identity, found, found', (before ++ more).
    split; [done|]. split; [by eapply verified_incl|done]. }
  destruct op; simpl in *.
  - destruct Hw as [-> [identity Hv]]. split; [done|]. exists identity. by eapply verified_incl.
  - destruct Hw as (-> & -> & identity & before & Hv & ->). do 2 (split; [done|]). exists identity, (before ++ more).
    split; [by eapply verified_incl|done].
  - destruct Hw as (-> & Ht & Hw). auto.
  - destruct Hw as [(-> & Ht & Hw)|(-> & identity & Hv)]; [left; auto|right]. split; [done|]. exists identity.
    by eapply verified_incl.
  - done.
Qed.

(** ** Steps *)

(** What the cleanup of [e], which began at [t0], may do. *)
Definition acts (e : SideEffect) (t0 : actions) (before : actions) (ev : action) : Prop :=
  match ev with
  | AcDo op _ => exists recent, before = recent ++ t0 /\ justified recent e op
  | AcAppend event_type effect_id _ => event_type = "cleanup_transition" /\ effect_id = Some (se_effect_id e)
  | _ => True
  end.

(** Calls that change nothing. *)
Definition calm (_ : actions) (ev : action) : Prop := match ev with AcDo _ _ | AcAppend _ _ _ => False | _ => True end.

Lemma calm_acts e t0 t t' : added calm t t' -> added (acts e t0) t t'.
Proof. apply added_mono. by intros ? []. Qed.

Lemma post_machine {A} (c : eff actions A) s (Q : res A -> CleanupState -> Prop) :
  post c (cs_actions s) (fun r t => Q r {| cs_journal := cs_journal s; cs_effects := cs_effects s; cs_actions := t |}) ->
  post (on_machine c) s Q.
Proof. unfold post, on_machine. by destruct (c (cs_actions s)). Qed.

Lemma open_component_plain fd component t : open_component false fd component t = sys_open (Some fd) component t.
Proof. unfold open_component, eff_catch, sys_open. destruct (mc_open t (Some fd) component) as [d|e]; [done|]. by destruct (_ == _). Qed.

Lemma open_components_post components : forall fd t,
  post (open_components false fd components) t (fun r t' => added calm t t' /\
    forall d, r = Ok d -> exists recent, t' = recent ++ t /\ chain recent fd components d).
Proof.
  induction components as [|c cs IH]; intros fd t; simpl.
  - split; [constructor|]. intros d [= <-]. by exists [].
  - apply post_bind. unfold post at 1. rewrite open_component_plain. unfold sys_open. destruct (mc_open t (Some fd) c) as [next|e] eqn:E.
    + eapply post_mono; [apply IH|]. intros r t' [Ha Hd]. split; [eapply added_trans; [|exact Ha]; by repeat constructor|].
      intros d ->. destruct (Hd d eq_refl) as (recent & -> & Hc). exists (recent ++ [AcOpen (Some fd) c (Ok next)]).
      split; [by rewrite <- app_assoc|]. exists next. split; [apply in_app_iff; right; by left|].
      eapply chain_incl; [|exact Hc]. intros x Hx. apply in_app_iff. by left.
    + split; [by repeat constructor|done].
Qed.

Lemma open_directory_post p t :
  post (open_directory_no_symlinks p false) t (fun r t' => added calm t t' /\
    match r with
    | Ok d => exists recent, t' = recent ++ t /\ opened recent p d
    | Raise e => exc_cls e = SecureDirectoryError \/ is_os_error e = false
    end).
Proof.
  unfold open_directory_no_symlinks. destruct (mem ".." (path_parts p)); [split; [constructor|by left]|].
  apply post_catch, post_bind. unfold post, sys_open. destruct (mc_open t None _) as [anchor|e] eqn:E.
  - eapply post_mono; [apply open_components_post|]. intros [d|e] t' [Ha Hd].
    + split; [eapply added_trans; [|exact Ha]; by repeat constructor|]. destruct (Hd d eq_refl) as (recent & -> & Hc).
      exists (recent ++ [AcOpen None (p_root (abs_path (path_text p))) (Ok anchor)]). split; [by rewrite <- app_assoc|].
      exists anchor. split; [apply in_app_iff; right; by left|]. eapply chain_incl; [|exact Hc]. intros x Hx. apply in_app_iff. by left.
    + assert (Ht : added calm t t') by (eapply added_trans; [|exact Ha]; by repeat constructor).
      destruct (is_os_error e) eqn:Ee; [|by split; [|right]]. unfold post, eff_raise, eff_lift. split; [done|by left].
  - destruct (is_os_error e) eqn:Ee; [|by split; [repeat constructor|right]]. unfold post, eff_raise, eff_lift.
    split; [by repeat constructor|by left].
Qed.

(** *** Ownership *)

Definition same_tables (s s' : CleanupState) : Prop := cs_journal s' = cs_journal s /\ cs_effects s' = cs_effects s.

Lemma ownership_post e s :
  post (_verify_resource_ownership m e) s (fun r s' => same_tables s s' /\ added calm (cs_actions s) (cs_actions s') /\
    match r with
    | Ok parent_fd => se_owner e = mg_worker_identity m /\
        if is_filesystem (se_resource_type e)
        then exists d identity recent, parent_fd = Some d /\ cs_actions s' = recent ++ cs_actions s /\ verified recent e identity d
        else parent_fd = None
    | Raise _ => True
    end).
Proof.
  unfold _verify_resource_ownership. destruct (se_owner e == mg_worker_identity m) eqn:Eo; cbn [negb];
    [|split; [done|]; by split; [constructor|]]. apply eqb_true in Eo.
  destruct (is_filesystem (se_resource_type e)); [|split; [done|]; split; [constructor|done]]. fold (path_of e).
  eapply (post_seq _ _ _ (fun r s' => same_tables s s' /\ added calm (cs_actions s) (cs_actions s') /\
    match r with Ok _ => exists recent, cs_actions s' = recent ++ cs_actions s /\ located recent e | Raise _ => True end)).
  - unfold check_location, located. destruct (mg_workspace_dir m) as [w|]; [|split; [done|]; split; [constructor|by exists []]].
    destruct (is_relative_to (path_of e) w) eqn:Er; [split; [done|]; split; [constructor|exists []; split; [done|by left]]|].
    apply post_bind, post_machine. unfold post, scratch_parent. destruct (mc_scratch (cs_actions s)) as [sp|err] eqn:Es;
      [|split; [done|]; by split; [repeat constructor|]].
    destruct (in_scratch sp (path_of e) e) eqn:Ei; cbn; (split; [done|]; split; [by repeat constructor|]); [|done].
    exists [AcScratch (Ok sp)]. split; [done|]. right. exists sp. split; [by left|done].
  - intros [] s1 ([Hj He] & Ha & recent & Hr & Hl). apply post_bind. apply post_catch, post_machine.
    eapply post_mono; [apply open_directory_post|]. intros [d|err] t [Ht Hd].
    + destruct Hd as (recent' & -> & Hop). destruct (se_creation_identity e) as [identity|] eqn:Eid.
      2: { split; [done|]. split; [by eapply added_trans|done]. }
      apply post_bind, post_catch, post_machine. unfold post, sys_stat. cbn [cs_actions].
      destruct (mc_stat _ d (name (path_of e))) as [found|err] eqn:Ef.
      * destruct (matches identity (se_resource_type e) found) eqn:Em; cbn; (split; [done|];
          split; [eapply added_trans; [exact Ha|]; eapply added_trans; [exact Ht|]; by repeat constructor|]); [|done].
        split; [done|]. exists d, identity, (AcStat d (name (path_of e)) (Ok found) :: recent' ++ recent).
        split; [done|]. split; [by rewrite Hr, app_assoc|]. constructor; [done| | |].
        -- unfold located in *. destruct (mg_workspace_dir m); [|done]. destruct Hl as [?|(sp & Hsp & ?)]; [by left|right].
           exists sp. split; [|done]. right. apply in_app_iff. by right.
        -- destruct Hop as (anchor & Hin & Hc). exists anchor. split; [right; apply in_app_iff; by left|].
           eapply chain_incl; [|exact Hc]. intros x Hx. right. apply in_app_iff. by left.
        -- exists found. split; [by left|done].
      * destruct (is_os_error err); cbn; (split; [done|];
          split; [eapply added_trans; [exact Ha|]; eapply added_trans; [exact Ht|]; by repeat constructor|done]).
    + destruct (is_os_error err); cbn; (split; [done|]; split; [by eapply added_trans|done]).
  - intros err s1 (Hs & Ha & _). done.
Qed.

(** *** The action *)

(** When something is done because of what is known. *)
Lemma acts_now e t0 t recent op answer :
  t = recent ++ t0 -> se_owner e = mg_worker_identity m -> announced recent e -> warranted recent e op ->
  acts e t0 t (AcDo op answer).
Proof. intros -> Ho Ha Hw. exists recent. by split. Qed.

Lemma announced_cons e ev recent : announced recent e -> announced (ev :: recent) e.
Proof. apply announced_incl. intros x. by right. Qed.

Lemma verified_cons e ev recent identity d : verified recent e identity d -> verified (ev :: recent) e identity d.
Proof. apply verified_incl. intros x. by right. Qed.

Hint Resolve announced_cons verified_cons : core.

Ltac sys_step := unfold eff_bind, eff_ret, eff_lift, eff_raise, eff_catch, sys_do, sys_open, sys_stat, post; cbv beta iota zeta.

(** Events that are all allowed. *)
Ltac leaf := repeat (apply added_one; [|first [exact I|eassumption|eauto]]); apply added_none.

Lemma filesystem_cleanup_post e t0 recent identity d :
  se_creation_identity e = Some identity -> is_filesystem (se_resource_type e) = true ->
  se_owner e = mg_worker_identity m -> announced recent e -> verified recent e identity d ->
  post (_execute_filesystem_cleanup e d) (recent ++ t0) (fun _ t' => added (acts e t0) (recent ++ t0) t').
Proof.
  intros Hid Hfs Ho Han Hver. unfold _execute_filesystem_cleanup. rewrite Hid. fold (path_of e).
  set (q0 := _quarantine_name e). set (t := recent ++ t0).
  eapply (post_seq _ _ _ (fun _ t' => added (acts e t0) t t' /\ exists more, t' = more ++ t)).
  - unfold delete_quarantined. fold q0. sys_step.
    assert (Hmk : forall a, acts e t0 t (AcDo (Mkdir d q0) a)).
    { intros a. apply (acts_now _ _ _ recent); [done|done|done|]. split; [done|]. by exists identity. }
    destruct (mc_do t (Mkdir d q0)) as [[]|err] eqn:E1; [|split; [leaf|by eexists [_]]].
    destruct (mc_open _ (Some d) q0) as [q|err] eqn:E2; [|split; [leaf|by eexists [_; _]]].
    set (ops := AcOpen (Some d) q0 (Ok q) :: AcDo (Mkdir d q0) (Ok tt) :: t).
    assert (Hrn : forall a, acts e t0 ops (AcDo (Rename d (name (path_of e)) q "resource") a)).
    { intros a. apply (acts_now _ _ _ (AcOpen (Some d) q0 (Ok q) :: AcDo (Mkdir d q0) (Ok tt) :: recent)); auto.
      do 2 (split; [done|]). by exists identity, recent. }
    destruct (mc_do ops (Rename d (name (path_of e)) q "resource")) as [[]|err] eqn:E3; [|split; [leaf|by eexists [_; _; _]]].
    destruct (mc_stat _ q "resource") as [found|err] eqn:E4; [|split; [leaf|by eexists [_; _; _; _]]].
    destruct (matches identity (se_resource_type e) found) eqn:M1; cbn [negb]; [|split; [leaf|by eexists [_; _; _; _]]].
    destruct (mc_stat (AcStat q "resource" (Ok found) :: _) q "resource") as [found'|err] eqn:E5; [|split; [leaf|by eexists [_; _; _; _; _]]].
    destruct (matches identity (se_resource_type e) found') eqn:M2; cbn [negb]; [|split; [leaf|by eexists [_; _; _; _; _]]].
    set (before := AcStat q "resource" (Ok found') :: AcStat q "resource" (Ok found) ::
                   AcDo (Rename d (name (path_of e)) q "resource") (Ok tt) :: ops).
    assert (Hconf : confirmed (AcStat q "resource" (Ok found') :: AcStat q "resource" (Ok found) ::
                   AcDo (Rename d (name (path_of e)) q "resource") (Ok tt) :: AcOpen (Some d) q0 (Ok q) :: AcDo (Mkdir d q0) (Ok tt) :: recent) e q).
    { by exists d, identity, found, found', recent. }
    destruct (se_resource_type e == "file") eqn:Ef.
    + apply eqb_true in Ef.
      assert (Hun : forall a, acts e t0 before (AcDo (Unlink q "resource") a)).
      { intros a. eapply acts_now; [|done| |split; [done|split; [done|exact Hconf]]]; [done|auto 8]. }
      destruct (mc_do before (Unlink q "resource")) as [[]|err]; (split; [leaf|by eexists [_; _; _; _; _; _]]).
    + apply eqb_false in Ef. assert (Hd : se_resource_type e = "directory").
      { unfold is_filesystem in Hfs. apply mem_In in Hfs as [Hx|[Hx|[]]]; congruence. }
      assert (Hrm : forall a, acts e t0 before (AcDo (Rmdir q "resource") a)).
      { intros a. eapply acts_now; [|done| |left; split; [done|split; [done|exact Hconf]]]; [done|auto 8]. }
      destruct (mc_do before (Rmdir q "resource")) as [[]|err]; (split; [leaf|by eexists [_; _; _; _; _; _]]).
  - intros action t1 [Ha (more & ->)].
    assert (Hq : forall a, acts e t0 (more ++ t) (AcDo (Rmdir d q0) a)).
    { intros a. apply (acts_now _ _ _ (more ++ recent)); [by unfold t; rewrite app_assoc|done| |].
      - eapply announced_incl; [|exact Han]. intros x Hx. apply in_app_iff. by right.
      - right. split; [done|]. exists identity. eapply verified_incl; [|exact Hver]. intros x Hx. apply in_app_iff. by right. }
    sys_step. fold q0. destruct (mc_do (more ++ t) (Rmdir d q0)) as [[]|err]; [|destruct (is_os_error err)];
      (eapply added_trans; [exact Ha|leaf]).
  - intros err t1 [Ha _]. exact Ha.
Qed.

Lemma execute_post e parent_fd t0 recent :
  se_owner e = mg_worker_identity m -> announced recent e ->
  (if is_filesystem (se_resource_type e) then exists d identity, parent_fd = Some d /\ verified recent e identity d else True) ->
  post (_execute_cleanup e parent_fd) (recent ++ t0) (fun _ t' => added (acts e t0) (recent ++ t0) t').
Proof.
  intros Ho Han Hfs. unfold _execute_cleanup. destruct (is_filesystem (se_resource_type e)) eqn:Ef.
  - destruct Hfs as (d & identity & -> & Hver). eapply filesystem_cleanup_post; try done. by destruct Hver.
  - destruct (se_resource_type e == "process") eqn:Ep; [|constructor]. apply eqb_true in Ep. unfold kill_process. sys_step.
    destruct (py_int (se_target e)) as [pid|err] eqn:Epid; [|constructor].
    assert (Hk : forall a, acts e t0 (recent ++ t0) (AcDo (Kill pid 15) a)).
    { intros a. eapply acts_now; try done. }
    destruct (mc_do _ _) as [[]|err]; [leaf|]. destruct (exc_cls err == PermissionError); cbn [exc_cls];
      [|destruct (exc_cls err == ProcessLookupError)]; leaf.
Qed.

(** ** Transitions *)

(** The rows a call may add to the journal. *)
Definition appends (event_type : string) (effect_id : option string) (_ : actions) (ev : action) : Prop :=
  match ev with
  | AcDo _ _ => False
  | AcAppend ty id _ => ty = event_type /\ id = effect_id
  | _ => True
  end.

Lemma connect_raises (a : JournalAccess) e : _connect a = Raise e -> exc_cls e = CleanupPersistenceError.
Proof. unfold _connect, _prepare_path, persistence_error, raise. intros E. repeat (case_match; simplify_eq/=; try done). Qed.

Lemma require_version_raises v j e : _require_schema_version v j = Raise e -> exc_cls e = CleanupPersistenceError.
Proof.
  unfold _require_schema_version, _parse_schema_version, persistence_error, raise. intros E. repeat (case_match; simplify_eq/=; try done).
Qed.

(** A transaction is not applied, or applied and logged, whatever is reported. *)
Lemma transaction_post logged body s (P : Journal -> Prop) :
  post (body (cs_journal s)) (AcAccess (mc_access (cs_actions s)) :: cs_actions s) (fun r t => added calm (cs_actions s) t /\
    match r with Ok j => P j | Raise e => exc_cls e = CleanupPersistenceError \/ exc_cls e = IntegrityError end) ->
  post (transaction logged body) s (fun r s' => cs_effects s' = cs_effects s /\ exists t, added calm (cs_actions s) t /\
    ((cs_actions s' = t /\ cs_journal s' = cs_journal s /\
      exists e, r = Raise e /\ In (exc_cls e) [CleanupPersistenceError; IntegrityError; SQLiteError]) \/
     (cs_actions s' = logged ++ t /\ P (cs_journal s') /\ (r = Ok tt \/ exists e, r = Raise e /\ exc_cls e = SQLiteError)))).
Proof.
  intros Hb. unfold transaction. apply post_bind. unfold post, eff_bind, on_machine, sys_access, eff_lift. set (a := mc_access (cs_actions s)) in *.
  destruct (_connect a) as [[]|e] eqn:E; cbn [cs_journal cs_effects cs_actions].
  2: { apply connect_raises in E. split; [done|]. exists (AcAccess a :: cs_actions s). split; [by repeat constructor|].
    left. split; [done|]. split; [done|]. exists e. rewrite E. simpl. auto. }
  unfold post in Hb. destruct (body (cs_journal s) (AcAccess a :: cs_actions s)) as [[j|e] t]; destruct Hb as [Ha Hr].
  - unfold end_transaction. destruct (ja_commit a); (split; [done|]; exists t; split; [done|]); [right|left|right];
      (split; [done|]; split; [done|]); [by left|eexists; simpl; auto|right; by eexists].
  - split; [done|]. exists t. split; [done|]. left. do 2 (split; [done|]). exists e. split; [done|]. simpl. destruct Hr as [-> | ->]; auto.
Qed.

(** The journal with one more event. *)
Record appended (run_id event_type : string) (effect_id : option string) (payload : json) (j j' : Journal) : Prop := {
  app_printable : printable payload = true;
  app_runs : jn_runs j' = jn_runs j;
  app_events : exists event_id created_at, jn_events j' = jn_events j ++ [{|
    je_event_id := event_id; je_run_id := run_id; je_event_type := event_type; je_effect_id := effect_id;
    je_created_at := created_at; je_payload_json := dumps true payload |}];
}.

Lemma require_version_tables v j j' : _require_schema_version v j = Ok j' -> jn_runs j' = jn_runs j /\ jn_events j' = jn_events j.
Proof.
  unfold _require_schema_version, persistence_error, raise. destruct (negb _); [done|]. destruct (jn_version j); [|done].
  intros (v' & _ & Hr)%res_bind_ok. by destruct (v <=? v'); injection Hr as <-.
Qed.

Lemma append_post run_id event_type payload effect_id version s :
  post (append run_id event_type payload effect_id version) s (fun r s' => cs_effects s' = cs_effects s /\
    exists t, added calm (cs_actions s) t /\
    ((cs_actions s' = t /\ cs_journal s' = cs_journal s /\ exists e, r = Raise e /\ exc_cls e = CleanupPersistenceError) \/
     (cs_actions s' = AcAppend event_type effect_id (dumps true payload) :: t /\
      appended run_id event_type effect_id payload (cs_journal s) (cs_journal s') /\
      (r = Ok tt \/ exists e, r = Raise e /\ exc_cls e = CleanupPersistenceError)))).
Proof.
  unfold append. apply post_catch, post_bind. unfold serialized. destruct (printable payload) eqn:Epr; cbn [negb].
  2: { unfold post, eff_lift. split; [done|]. exists (cs_actions s). split; [constructor|]. left. do 2 (split; [done|]). by eexists. }
  unfold post at 1, eff_lift. eapply post_mono.
  { apply (transaction_post _ _ _ (appended run_id event_type effect_id payload (cs_journal s))). apply post_bind. unfold post at 1.
    destruct (_require_schema_version version (cs_journal s)) as [j|e] eqn:Ev; cycle 1.
    { split; [by repeat constructor|]. left. by eapply require_version_raises. }
    unfold post, eff_bind, sys_uuid, utc_now. split; [by repeat constructor|]. unfold insert_event, raise.
    apply require_version_tables in Ev as [Hruns Hevents]. destruct (mem _ _); [by right|].
    constructor; [done|done|]. cbn [jn_events]. rewrite Hevents. by eexists _, _. }
  intros r s' (He & t & Ha & Hr).
  assert (Hend : forall e, In (exc_cls e) [CleanupPersistenceError; IntegrityError; SQLiteError] -> forall Q : res unit -> CleanupState -> Prop,
    (forall e', exc_cls e' = CleanupPersistenceError -> Q (Raise e') s') ->
    if is_persist_error e then post (eff_lift (persistence_error ("cannot persist cleanup event '" +:+ event_type +:+ "': " +:+ exc_msg e))) s' Q
    else Q (Raise e) s').
  { intros e Hin Q HQ. unfold is_persist_error, is_sqlite_error.
    destruct (_ || _) eqn:E.
    - unfold post, eff_lift, persistence_error, raise. by apply HQ.
    - apply HQ. apply orb_false_iff in E as [E _]. destruct Hin as [<-|[Hc|[Hc|[]]]]; [done|by rewrite <- Hc in E..]. }
  destruct Hr as [(Ht & Hj & e & -> & Hc)|(Ht & Hj & [->|(e & -> & Hc)])].
  - apply Hend; [done|]. intros e' Hc'. split; [done|]. exists t. split; [done|]. left. do 2 (split; [done|]). by exists e'.
  - split; [done|]. exists t. split; [done|]. right. split; [done|]. split; [done|]. by left.
  - apply Hend; [simpl; rewrite Hc; auto|]. intros e' Hc'. split; [done|]. exists t. split; [done|]. right. do 2 (split; [done|]).
    right. by exists e'.
Qed.

(** What is done by it. *)
Lemma append_done run_id event_type payload effect_id version s :
  post (append run_id event_type payload effect_id version) s (fun r s' => cs_effects s' = cs_effects s /\
    added (appends event_type effect_id) (cs_actions s) (cs_actions s') /\
    match r with
    | Ok _ => exists more, cs_actions s' = more ++ cs_actions s /\ In (AcAppend event_type effect_id (dumps true payload)) more
    | Raise e => exc_cls e = CleanupPersistenceError
    end).
Proof.
  eapply post_mono; [apply append_post|]. intros r s' (He & t & Ha & Hr). split; [done|].
  assert (Ha' : added (appends event_type effect_id) (cs_actions s) t) by (eapply added_mono; [|exact Ha]; by intros ? []).
  destruct Hr as [(-> & _ & e & -> & Hc)|(Ht & _ & Hr)]; [done|]. rewrite Ht. split; [by constructor|].
  destruct Hr as [->|(e & -> & Hc)]; [|done]. destruct (added_suffix _ _ _ Ha) as [more ->].
  exists (AcAppend event_type effect_id (dumps true payload) :: more). split; [done|by left].
Qed.

(** What an effect is, apart from how far its cleanup got. *)
Definition resource (e : SideEffect) :=
  (se_effect_id e, se_step_id e, se_resource_type e, se_target e, (se_action_plan_id e, se_engagement_id e, se_owner e, se_created_at e),
   se_cleanup_action e, se_metadata e, se_creation_identity e).

Lemma transition_post i e status details s : cs_effects s !! i = Some e ->
  post (transition_effect (mg_ledger m) i status details) s (fun r s' =>
    added (appends "cleanup_transition" (Some (se_effect_id e))) (cs_actions s) (cs_actions s') /\
    match r with
    | Ok _ => cs_effects s' = alter (fun e => with_details details (with_status status e)) i (cs_effects s) /\
        (lg_journal (mg_ledger m) = true -> exists more, cs_actions s' = more ++ cs_actions s /\
           In (AcAppend "cleanup_transition" (Some (se_effect_id e))
                 (dumps true (JObj [("status", JStr status); ("details", JObj details)]))) more)
    | Raise err => exc_cls err = CleanupPersistenceError /\ cs_effects s' = cs_effects s
    end).
Proof.
  intros Hi. unfold transition_effect, effect_at. apply post_bind. unfold post at 1. rewrite Hi. cbn beta iota.
  destruct (lg_journal (mg_ledger m)).
  - eapply post_seq; [apply append_done|..]; cbn beta.
    + intros [] s1 (He & Ha & Hm). unfold post, update_effect. cbn [set_effects cs_effects cs_actions]. split; [done|]. by rewrite He.
    + intros err s1 (He & Ha & Hc). done.
  - unfold post, eff_bind, eff_ret, update_effect. cbn. split; [constructor|done].
Qed.

Lemma appends_acts e t0 t t' : added (appends "cleanup_transition" (Some (se_effect_id e))) t t' -> added (acts e t0) t t'.
Proof. apply added_mono. by intros ? []. Qed.

(** The effects but for one; that one is still the same resource. *)
Record changes (i : nat) (es es' : list SideEffect) : Prop := {
  ch_length : length es' = length es;
  ch_others : forall j, j <> i -> es' !! j = es !! j;
  ch_this : forall e, es !! i = Some e -> exists e', es' !! i = Some e' /\ resource e' = resource e;
}.

Lemma changes_refl i es : changes i es es.
Proof. constructor; [done|done|]. intros e He. by exists e. Qed.

Lemma changes_trans i es es' es'' : changes i es es' -> changes i es' es'' -> changes i es es''.
Proof.
  intros [L1 O1 T1] [L2 O2 T2]. constructor; [congruence|intros j Hj; by rewrite O2, O1|].
  intros e He. destruct (T1 e He) as (e' & He' & Hr). destruct (T2 e' He') as (e'' & ? & ?). exists e''. split; [done|congruence].
Qed.

Lemma changes_alter i f es : (forall e, resource (f e) = resource e) -> changes i es (alter f i es).
Proof.
  intros Hf. constructor; [apply length_alter|intros j Hj; by rewrite list_lookup_alter_ne|].
  intros e He. exists (f e). by rewrite list_lookup_alter_eq, He.
Qed.

(** A transition in a handler always succeeds: the memory says [status], or [unknown]. *)
Lemma transition_or_unknown_post i e status details s : cs_effects s !! i = Some e ->
  post (transition_or_unknown m i status details) s (fun r s' =>
    added (appends "cleanup_transition" (Some (se_effect_id e))) (cs_actions s) (cs_actions s') /\
    changes i (cs_effects s) (cs_effects s') /\
    exists failed e', r = Ok failed /\ cs_effects s' !! i = Some e' /\
      match failed with
      | None => e' = with_details details (with_status status e)
      | Some _ => e' = with_status "unknown" e
      end).
Proof.
  intros Hi. unfold transition_or_unknown. apply post_catch, post_bind.
  eapply post_mono; [by apply transition_post|]. intros [[]|err] s1 [Ha Hr].
  - destruct Hr as [He _]. unfold post, eff_ret. rewrite He. split; [done|]. split; [by apply changes_alter|].
    exists None. eexists. split; [done|]. by rewrite list_lookup_alter_eq, Hi.
  - destruct Hr as [Hc He]. unfold is_persistence_error. rewrite Hc, eqb_refl. unfold post, eff_bind, update_effect, eff_ret.
    cbn [set_effects cs_effects cs_actions]. rewrite He. split; [done|]. split; [by apply changes_alter|].
    exists (Some err). eexists. split; [done|]. by rewrite list_lookup_alter_eq, Hi.
Qed.

(** ** One effect of a rollback *)

(** An entry about this effect. *)
Definition entry_of (e : SideEffect) (k : string) (entry : json) : Prop :=
  get "effect_id" entry = Some (JStr (se_effect_id e)) /\ get "resource_type" entry = Some (JStr (se_resource_type e)) /\
  get "target" entry = Some (JStr (se_target e)) /\ exists v, get k entry = Some (JStr v).

Lemma resource_entry e e' k entry : resource e' = resource e -> entry_of e' k entry -> entry_of e k entry.
Proof. intros Hr. injection Hr as Hi _ Ht Hg _ _ _ _. unfold entry_of. by rewrite Hi, Ht, Hg. Qed.

(** One more effect is accounted for: cleaned, with the action taken, or unresolved. *)
Inductive accounted (i : nat) (e' : SideEffect) (o : Outcome) : Outcome -> Prop :=
| acc_cleaned action :
    se_status e' = "cleaned" -> action_taken e' = Some action -> accounted i e' o (add_cleaned i e' action o)
| acc_unresolved entry targets :
    In (se_status e') ["failed"; "unknown"] \/ (se_status e' = "cleaned" /\ action_taken e' = None) ->
    entry_of e' "reason" entry ->
    accounted i e' o {| oc_cleaned := oc_cleaned o; oc_unresolved := oc_unresolved o ++ [(i, entry)]; oc_targets := targets |}.

Lemma unresolved_post e reason t :
  post (_unresolved e reason) t (fun r t' => added calm t t' /\ exists entry, r = Ok entry /\ entry_of e "reason" entry).
Proof.
  unfold _unresolved, entry_of.
  assert (Hc : forall more, get "effect_id" (JObj (receipt_entry e "reason" reason ++ more)) = Some (JStr (se_effect_id e)) /\
    get "resource_type" (JObj (receipt_entry e "reason" reason ++ more)) = Some (JStr (se_resource_type e)) /\
    get "target" (JObj (receipt_entry e "reason" reason ++ more)) = Some (JStr (se_target e)) /\
    exists v, get "reason" (JObj (receipt_entry e "reason" reason ++ more)) = Some (JStr v)) by (intros more; simpl; eauto).
  destruct (assoc _ _) as [[| | | |target| |]|]; try (split; [constructor|]; eexists; split; [done|]; rewrite <- (app_nil_r (receipt_entry _ _ _)); apply Hc).
  destruct (target == ""); [split; [constructor|]; eexists; split; [done|]; rewrite <- (app_nil_r (receipt_entry _ _ _)); apply Hc|].
  unfold post, eff_bind, sys_lexists, eff_ret. split; [by repeat constructor|]. eexists. split; [done|].
  destruct (mc_lexists t target); [apply Hc|]. rewrite <- (app_nil_r (receipt_entry _ _ _)). apply Hc.
Qed.

Lemma record_unresolved_post i e reason o s : cs_effects s !! i = Some e ->
  (In (se_status e) ["failed"; "unknown"] \/ (se_status e = "cleaned" /\ action_taken e = None)) ->
  post (record_unresolved i reason o) s (fun r s' => added calm (cs_actions s) (cs_actions s') /\
    cs_effects s' = cs_effects s /\ exists o', r = Ok o' /\ accounted i e o o').
Proof.
  intros Hi Hst. unfold record_unresolved. unfold post. rewrite Hi.
  change (post (do! entry := on_machine (_unresolved e reason) in
    eff_ret {| oc_cleaned := oc_cleaned o; oc_unresolved := oc_unresolved o ++ [(i, entry)];
               oc_targets := oc_targets o ++ match _filesystem_target e with Some p => [p] | None => [] end |}) s
    (fun r s' => added calm (cs_actions s) (cs_actions s') /\ cs_effects s' = cs_effects s /\ exists o', r = Ok o' /\ accounted i e o o')).
  apply post_bind, post_machine. eapply post_mono; [apply unresolved_post|]. intros r t (Ha & entry & -> & He).
  split; [done|]. split; [done|]. eexists. split; [done|]. by constructor.
Qed.

(** What handling one effect leaves behind. *)
Definition handled (i : nat) (e : SideEffect) (s : CleanupState) (o : Outcome) (r : res Outcome) (s' : CleanupState) : Prop :=
  added (acts e (cs_actions s)) (cs_actions s) (cs_actions s') /\ changes i (cs_effects s) (cs_effects s') /\
  exists o' e', r = Ok o' /\ cs_effects s' !! i = Some e' /\ accounted i e' o o'.

(** Mark, then record: the common end of every way of not cleaning an effect. *)
Lemma mark_and_record_post i e status details (reason : option exc -> string) o s :
  cs_effects s !! i = Some e -> In status ["failed"; "unknown"] ->
  post (do! failed := transition_or_unknown m i status details in record_unresolved i (reason failed) o) s (fun r s' =>
    added (fun before ev => appends "cleanup_transition" (Some (se_effect_id e)) before ev \/ calm before ev) (cs_actions s) (cs_actions s') /\
    changes i (cs_effects s) (cs_effects s') /\ exists o' e', r = Ok o' /\ cs_effects s' !! i = Some e' /\ accounted i e' o o').
Proof.
  intros Hi Hst. apply post_bind. eapply post_mono; [by apply transition_or_unknown_post|].
  intros r s1 (Ha & Hch & failed & e' & -> & He' & Hf).
  assert (Hs' : In (se_status e') ["failed"; "unknown"]).
  { destruct failed; subst e'; [right; by left|exact Hst]. }
  eapply post_mono; [apply record_unresolved_post; [exact He'|by left]|].
  intros r s2 (Ha2 & Heff & o' & -> & Hacc). split.
  - eapply added_trans; (eapply added_mono; [|eassumption]); auto.
  - rewrite Heff. split; [done|]. by exists o', e'.
Qed.

Lemma either_acts e t0 t t' :
  added (fun before ev => appends "cleanup_transition" (Some (se_effect_id e)) before ev \/ calm before ev) t t' -> added (acts e t0) t t'.
Proof. apply added_mono. intros ? []; simpl; tauto. Qed.

Lemma terminal_status_in err started : In (_terminal_status err started) ["failed"; "unknown"].
Proof. unfold _terminal_status. destruct (_ || _); simpl; auto. Qed.

Lemma handle_failure_post i e e0 started err o s : cs_effects s !! i = Some e -> se_effect_id e = se_effect_id e0 ->
  post (handle_failure m i e0 started err o) s (fun r s' =>
    (forall t0, added (acts e0 t0) (cs_actions s) (cs_actions s')) /\
    changes i (cs_effects s) (cs_effects s') /\ exists o' e', r = Ok o' /\ cs_effects s' !! i = Some e' /\ accounted i e' o o').
Proof.
  intros Hi Hid. eapply post_mono; [apply (mark_and_record_post i e _ _ (failure_reason started err)); [done|apply terminal_status_in]|].
  intros r s' (Ha & Hrest). split; [|done]. intros t0. rewrite Hid in Ha. by apply either_acts.
Qed.

(** Up to the action: what is known when it starts. *)
Lemma before_action_post i e s : cs_effects s !! i = Some e ->
  post (before_action m i e) s (fun r s' =>
    added (acts e (cs_actions s)) (cs_actions s) (cs_actions s') /\ changes i (cs_effects s) (cs_effects s') /\
    match r with
    | Ok parent_fd => se_owner e = mg_worker_identity m /\ exists recent, cs_actions s' = recent ++ cs_actions s /\ announced recent e /\
        if is_filesystem (se_resource_type e) then exists d identity, parent_fd = Some d /\ verified recent e identity d else True
    | Raise _ => True
    end).
Proof.
  intros Hi. unfold before_action. eapply post_seq; [apply ownership_post|..]; cbn beta.
  2: { intros err s1 ([_ He] & Ha & _). rewrite He. split; [by apply calm_acts|]. split; [apply changes_refl|done]. }
  intros parent_fd s1 ([_ He] & Ha & Ho & Hv). rewrite <- He in Hi. eapply post_seq; [by apply transition_post|..]; cbn beta.
  - intros [] s2 (Ha2 & Heff & Hann). unfold post, eff_ret. split; [eapply added_trans; [by apply calm_acts|by apply appends_acts]|].
    split; [rewrite Heff, He; by apply changes_alter|]. split; [done|].
    destruct (added_suffix _ _ _ Ha) as [r1 Hr1]. destruct (added_suffix _ _ _ Ha2) as [r2 Hr2].
    exists (r2 ++ r1). split; [by rewrite Hr2, Hr1, app_assoc|]. split.
    + intros Hj. destruct (Hann Hj) as (more & Hmore & Hin). rewrite Hr2 in Hmore. apply app_inv_tail in Hmore as ->.
      apply in_app_iff. by left.
    + destruct (is_filesystem (se_resource_type e)); [|done]. destruct Hv as (d & identity & recent & -> & Hrec & Hver).
      exists d, identity. split; [done|]. rewrite Hr1 in Hrec. apply app_inv_tail in Hrec as ->.
      eapply verified_incl; [|exact Hver]. intros x Hx. apply in_app_iff. by right.
  - intros err s2 (Ha2 & _ & Heff). split; [eapply added_trans; [by apply calm_acts|by apply appends_acts]|].
    rewrite Heff, He. split; [apply changes_refl|done].
Qed.

Lemma execute_action e parent_fd t : post (_execute_cleanup e parent_fd) t (fun r _ => forall a, r = Ok a -> a <> "").
Proof.
  unfold _execute_cleanup, _execute_filesystem_cleanup, delete_quarantined, kill_process, post, eff_bind, eff_ret, eff_raise, eff_lift, eff_catch,
    sys_do, sys_open, sys_stat. repeat (case_match; simplify_eq/=; try (by intros ? [= <-])).
Qed.

Lemma action_taken_set action e : action <> "" -> action_taken (with_details [("action_taken", JStr action)] e) = Some action.
Proof.
  intros Hne. unfold action_taken, with_details, dict_update. cbn [se_transition_details fold_left fst snd].
  assert (Hs : assoc "action_taken" (dict_set "action_taken" (JStr action) (se_transition_details e)) = Some (JStr action)).
  { induction (se_transition_details e) as [|[k v] d IH]; [done|]. cbn [dict_set]. destruct ("action_taken" == k) eqn:E; cbn [assoc];
      [by rewrite E|]. by rewrite E. }
  rewrite Hs. by destruct action.
Qed.

Lemma attempt_post {A} (c : eff CleanupState A) s (Q : res (res A) -> CleanupState -> Prop) :
  post c s (fun r s' => Q (Ok r) s') -> post (attempt c) s Q.
Proof. unfold post, attempt. by destruct (c s). Qed.

Lemma resource_id e e' : resource e' = resource e -> se_effect_id e' = se_effect_id e.
Proof. by intros [= ->]. Qed.

Lemma clean_one_post i e o s : cs_effects s !! i = Some e -> post (clean_one m i e o) s (handled i e s o).
Proof.
  intros Hi. unfold clean_one, handled. apply post_bind, attempt_post. eapply post_mono; [by apply before_action_post|].
  intros [parent_fd|err] s1 (Ha & Hch & Hr); destruct (ch_this _ _ _ Hch e Hi) as (e1 & He1 & Hr1).
  2: { eapply post_mono; [eapply handle_failure_post; [exact He1|by apply resource_id]|]. intros r s2 (Ha2 & Hch2 & Hacc).
       split; [by eapply added_trans|]. split; [by eapply changes_trans|done]. }
  destruct Hr as (Ho & recent & Hrec & Han & Hfs). apply post_bind, attempt_post, post_machine. rewrite Hrec.
  eapply post_mono; [apply post_and; [by apply execute_post|apply execute_action]|].
  intros r t [Ha2 Hne]. rewrite Hrec in Ha. destruct r as [action|err].
  - apply post_bind. eapply post_mono; [by apply transition_or_unknown_post|]. cbn [cs_effects cs_actions].
    intros r s2 (Ha3 & Hch3 & failed & e3 & -> & He3 & Hf). pose proof (resource_id _ _ Hr1) as Hid. rewrite Hid in Ha3.
    assert (Htrace : added (acts e (cs_actions s)) (cs_actions s) (cs_actions s2)).
    { eapply added_trans; [exact Ha|]. eapply added_trans; [exact Ha2|]. by apply appends_acts. }
    pose proof (changes_trans _ _ _ _ Hch Hch3) as Hch'. destruct failed as [err|].
    + eapply post_mono; [eapply record_unresolved_post; [exact He3|subst e3; left; right; by left]|].
      intros r s3 (Ha4 & Heff & o' & -> & Hacc). split; [eapply added_trans; [exact Htrace|by apply calm_acts]|].
      rewrite Heff. split; [done|]. by exists o', e3.
    + unfold post, eff_ret. split; [done|]. split; [done|]. exists (add_cleaned i e action o), e3. split; [done|]. split; [done|].
      assert (Heq : add_cleaned i e action o = add_cleaned i e3 action o).
      { subst e3. injection Hr1 as H1 _ H2 H3 _ _ _ _. unfold add_cleaned, receipt_entry. cbn. by rewrite H1, H2, H3. }
      rewrite Heq. subst e3. constructor; [done|]. apply action_taken_set. by apply Hne.
  - eapply post_mono; [eapply handle_failure_post; [exact He1|by apply resource_id]|]. cbn [cs_actions cs_effects]. intros r s2 (Ha3 & Hch3 & Hacc).
    split; [eapply added_trans; [exact Ha|]; by eapply added_trans|]. split; [by eapply changes_trans|done].
Qed.
End Facts.
