(* ===== verification/RollbackProps.v ===== *)
(** * Cleanup: properties

    What a rollback touches, what its receipt says, and what it leaves. *)

From S2P Require Import Prelude PyStr Json JsonParse JsonFacts Canonical Timestamp Schema Contracts.
From S2P Require Import Models Identity ContractProps.
From S2P Require Import ApprovalStore Paths Files Cleanup RollbackOrder Rollback RollbackFacts.

Section Rollback.
Context `{Host} `{Machine}.
Variable m : CleanupManager.

(** ** Outcomes *)

Variables dry_run recovered : bool.

(** A dry run lists what it would do for an effect that is still pending. *)
Definition previewed (e : SideEffect) (action : string) : Prop :=
  dry_run = true /\ ~ In (se_status e) ["cleaning"; "cleaned"; "failed"; "unknown"] /\
  action = "dry_run_" +:+ se_cleanup_action e.

(** What the entries of an outcome say is true of the effects. *)
Record recorded (es : list SideEffect) (o : Outcome) : Prop := {
  rec_cleaned : forall i entry, In (i, entry) (oc_cleaned o) -> exists e action,
    es !! i = Some e /\ entry = JObj (receipt_entry e "action_taken" action) /\
    ((se_status e = "cleaned" /\ action_taken e = Some action) \/ previewed e action);
  rec_unresolved : forall i entry, In (i, entry) (oc_unresolved o) -> exists e,
    es !! i = Some e /\ (In (se_status e) ["failed"; "unknown"] \/ (se_status e = "cleaned" /\ action_taken e = None)) /\
    entry_of e "reason" entry;
}.

Definition accounted_positions (o : Outcome) : list nat := map fst (oc_cleaned o) ++ map fst (oc_unresolved o).

Lemma add_cleaned_position i e action o : accounted_positions (add_cleaned i e action o) ≡ₚ i :: accounted_positions o.
Proof.
  unfold accounted_positions, add_cleaned. simpl. rewrite map_app, <- app_assoc. symmetry. apply Permutation_middle.
Qed.

Lemma accounted_position i e' o o' : accounted i e' o o' -> accounted_positions o' ≡ₚ i :: accounted_positions o.
Proof.
  intros [action _ _|entry targets _ _]; [apply add_cleaned_position|]. unfold accounted_positions. simpl.
  rewrite !map_app, app_assoc. simpl. symmetry. apply Permutation_cons_append.
Qed.

Lemma previewed_recorded es i e action o :
  es !! i = Some e -> previewed e action -> recorded es o -> recorded es (add_cleaned i e action o).
Proof.
  intros Hi Hp [Hc Hu]. constructor; simpl; [|done]. intros j x [Hin|[[= <- <-]|[]]]%in_app_iff; [by apply Hc|].
  exists e, action. auto.
Qed.

Lemma accounted_recorded es i e' o o' : es !! i = Some e' -> accounted i e' o o' -> recorded es o -> recorded es o'.
Proof.
  intros Hi Hacc [Hc Hu]. destruct Hacc as [action Hs Ha|entry targets Hs Hen]; constructor; simpl; try done; intros j x [Hin|[[= <- <-]|[]]]%in_app_iff; eauto 8.
Qed.

Lemma recorded_changes i es es' o : changes i es es' -> ~ In i (accounted_positions o) -> recorded es o -> recorded es' o.
Proof.
  intros Hch Hni [Hc Hu]. unfold accounted_positions in Hni. rewrite in_app_iff in Hni.
  assert (Hne : forall (j : nat) (x : json) l, In (j, x) l -> ~ In i (map fst l) -> j <> i).
  { intros j x l Hin Hn ->. apply Hn. apply in_map_iff. by exists (i, x). }
  constructor; intros j x Hin.
  - rewrite (ch_others _ _ _ Hch) by (eapply Hne; [exact Hin|tauto]). by apply Hc.
  - rewrite (ch_others _ _ _ Hch) by (eapply Hne; [exact Hin|tauto]). by apply Hu.
Qed.

(** The effects are the same resources. *)
Definition same_resources (es es' : list SideEffect) : Prop := map resource es' = map resource es.

Lemma changes_resources i es es' : changes i es es' -> same_resources es es'.
Proof.
  intros [Hl Ho Ht]. unfold same_resources. apply list_eq. intros j. rewrite !list_lookup_fmap.
  destruct (decide (j = i)) as [->|Hne]; [|by rewrite Ho]. destruct (es !! i) as [e|] eqn:E.
  - destruct (Ht e eq_refl) as (e' & -> & Hr). simpl. by rewrite Hr.
  - apply lookup_ge_None in E. rewrite <- Hl in E. apply lookup_ge_None in E. by rewrite E.
Qed.

Lemma same_resources_lookup es es' i e : same_resources es es' -> es !! i = Some e -> exists e', es' !! i = Some e' /\ resource e' = resource e.
Proof.
  intros Hs Hi. assert (Hr : map resource es' !! i = Some (resource e)) by (rewrite Hs, list_lookup_fmap, Hi; done).
  apply list_lookup_fmap_Some in Hr as (e' & Hr & He'). by exists e'.
Qed.

(** ** The loops *)

(** The effects a rollback may act on. *)
Definition permitted (e : SideEffect) : Prop :=
  dry_run = false /\ ~ In (se_status e) ["cleaning"; "cleaned"; "failed"; "unknown"] /\
  metadata_text PLAN_DECLARED_PROVENANCE_KEY e <> Some PLAN_DECLARED_PROVENANCE_UNVERIFIED /\
  ~ (recovered = true /\ se_resource_type e = "process").

(** What a rollback that began with the effects [es] at [t0] may do. *)
Definition allowed (es : list SideEffect) (t0 before : actions) (ev : action) : Prop :=
  match ev with
  | AcDo op _ => exists i e recent, es !! i = Some e /\ permitted e /\ before = recent ++ t0 /\ justified m recent e op
  | AcAppend event_type effect_id _ =>
      event_type = "cleanup_receipt" \/
      (event_type = "cleanup_transition" /\ exists i e, es !! i = Some e /\ effect_id = Some (se_effect_id e))
  | _ => True
  end.

Lemma acts_allowed es t0 i e t t' : es !! i = Some e -> permitted e -> (exists more, t = more ++ t0) ->
  added (acts m e t) t t' -> added (allowed es t0) t t'.
Proof.
  intros Hi Hp [more ->]. apply added_mono. intros before [| | | |op answer| |ty id p| | |]; simpl; try done.
  - intros (recent & -> & Hj). exists i, e, (recent ++ more). split; [done|]. split; [done|]. split; [by rewrite app_assoc|].
    by apply justified_more.
  - intros [-> ->]. right. split; [done|]. by exists i, e.
Qed.

Lemma either_allowed es t0 i e t t' : es !! i = Some e ->
  added (fun before ev => appends "cleanup_transition" (Some (se_effect_id e)) before ev \/ calm before ev) t t' -> added (allowed es t0) t t'.
Proof.
  intros Hi. apply added_mono. intros before [| | | |op answer| |ty id p| | |]; simpl; try tauto. intros [[-> ->]|[]]. right.
  split; [done|]. by exists i, e.
Qed.

(** One more effect is accounted for, or previewed. *)
Definition noted (i : nat) (e' : SideEffect) (o o' : Outcome) : Prop :=
  accounted i e' o o' \/ exists action, previewed e' action /\ o' = add_cleaned i e' action o.

Lemma noted_recorded es i e' o o' : es !! i = Some e' -> noted i e' o o' -> recorded es o -> recorded es o'.
Proof.
  intros Hi [Hacc|(action & Hp & ->)] Hrec; [by eapply accounted_recorded|by apply previewed_recorded].
Qed.

Lemma rollback_one_post i e o s es t0 :
  cs_effects s !! i = Some e -> es !! i = Some e -> ~ In (se_status e) ["cleaned"; "failed"; "unknown"] ->
  (exists more, cs_actions s = more ++ t0) ->
  post (rollback_one m dry_run recovered i o) s (fun r s' =>
    added (allowed es t0) (cs_actions s) (cs_actions s') /\ changes i (cs_effects s) (cs_effects s') /\
    exists o', r = Ok o' /\ accounted_positions o' ≡ₚ i :: accounted_positions o /\
      exists e', cs_effects s' !! i = Some e' /\ noted i e' o o').
Proof.
  intros Hi Hes Hst Hmore. unfold rollback_one. unfold post. rewrite Hi.
  assert (Hmark : forall details reason, post (do! failed := transition_or_unknown m i "unknown" details in record_unresolved i (reason failed) o) s
    (fun r s' => added (allowed es t0) (cs_actions s) (cs_actions s') /\ changes i (cs_effects s) (cs_effects s') /\
      exists o', r = Ok o' /\ accounted_positions o' ≡ₚ i :: accounted_positions o /\
        exists e', cs_effects s' !! i = Some e' /\ noted i e' o o')).
  { intros details reason. eapply post_mono; [apply mark_and_record_post; [exact Hi|simpl; auto]|].
    intros r s' (Ha & Hch & o' & e' & -> & He' & Hacc). split; [by eapply either_allowed|]. split; [done|].
    exists o'. split; [done|]. split; [by eapply accounted_position|]. exists e'. split; [done|by left]. }
  destruct (unresolved_below e o) as [descendant|]; [apply Hmark|].
  destruct (se_status e == "cleaning") eqn:E1.
  { apply (Hmark _ (fun failed => match failed with Some err => persistence_failed err | None => _ end)). }
  destruct (metadata_text _ e == _) eqn:E2.
  { apply (Hmark _ (fun failed => match failed with Some err => persistence_failed err | None => _ end)). }
  destruct (recovered && (se_resource_type e == "process")) eqn:E3.
  { apply (Hmark _ (fun failed => match failed with Some err => persistence_failed err | None => _ end)). }
  apply eqb_false in E1. apply eqb_false in E2. destruct dry_run eqn:Ed.
  { split; [constructor|]. split; [apply changes_refl|]. eexists. split; [done|]. split; [apply add_cleaned_position|].
    exists e. split; [done|]. right. eexists. split; [|done]. unfold previewed. rewrite Ed. split; [done|].
    simpl in *. split; [intuition congruence|done]. }
  pose proof (clean_one_post m i e o s Hi) as Hc. unfold post in Hc. destruct (clean_one m i e o s) as [r s'].
  destruct Hc as (Ha & Hch & o' & e' & -> & He' & Hacc). split.
  - eapply acts_allowed; [exact Hes| |exact Hmore|exact Ha]. unfold permitted. rewrite Ed. split; [done|]. split.
    { simpl in *. intuition congruence. } split; [done|]. intros [-> Hp]. by rewrite Hp, eqb_refl in E3.
  - split; [done|]. exists o'. split; [done|]. split; [by eapply accounted_position|]. exists e'. split; [done|by left].
Qed.

Lemma rollback_all_post order : forall o s es t0,
  NoDup order -> (forall i, In i order -> ~ In i (accounted_positions o)) ->
  (forall i, In i order -> exists e, cs_effects s !! i = Some e /\ es !! i = Some e /\ ~ In (se_status e) ["cleaned"; "failed"; "unknown"]) ->
  (exists more, cs_actions s = more ++ t0) ->
  post (rollback_all m dry_run recovered order o) s (fun r s' =>
    added (allowed es t0) (cs_actions s) (cs_actions s') /\ same_resources (cs_effects s) (cs_effects s') /\
    exists o', r = Ok o' /\ accounted_positions o' ≡ₚ order ++ accounted_positions o /\
      (recorded (cs_effects s) o -> recorded (cs_effects s') o')).
Proof.
  induction order as [|i order IH]; intros o s es t0 Hnd Hfresh Hes Hmore; cbn [rollback_all].
  - split; [constructor|]. split; [done|]. exists o. by split_and!.
  - inversion_clear Hnd as [|? ? Hni Hnd']. rewrite list_elem_of_In in Hni.
    destruct (Hes i (or_introl eq_refl)) as (e & Hi & Hesi & Hst). apply post_bind.
    eapply post_mono; [by apply (rollback_one_post i e o s es t0)|].
    intros r s1 (Ha & Hch & o1 & -> & Hp1 & Hacc). destruct (added_suffix _ _ _ Ha) as [r1 Hr1]. destruct Hmore as [more Hmore].
    assert (Hrest : forall j, In j order -> j <> i) by (by intros j Hj ->).
    eapply post_mono; [apply (IH o1 s1 es t0); [done| | |exists (r1 ++ more); by rewrite Hr1, Hmore, app_assoc]|].
    + intros j Hj. rewrite <- list_elem_of_In, Hp1, list_elem_of_In. intros [->|Hin]; [done|]. apply (Hfresh j); [by right|done].
    + intros j Hj. destruct (Hes j (or_intror Hj)) as (e' & He' & Hrest'). exists e'. split; [|done].
      by rewrite (ch_others _ _ _ Hch) by auto.
    + intros r s2 (Ha2 & Hsame & o2 & -> & Hp2 & Hrec). split; [by eapply added_trans|]. split.
      { unfold same_resources in *. rewrite Hsame. by eapply changes_resources. }
      exists o2. split; [done|]. split.
      * rewrite Hp2, Hp1. symmetry. apply Permutation_middle.
      * intros Hrec0. apply Hrec. destruct Hacc as (e' & He' & Hacc'). eapply noted_recorded; [exact He'|exact Hacc'|].
        eapply recorded_changes; [exact Hch| |exact Hrec0]. apply Hfresh. by left.
Qed.

(** The first loop: every effect is recorded, or left to act on. *)
Lemma sort_effects_post es : forall k before actionable o s, cs_effects s = before ++ es -> k = length before ->
  recorded (cs_effects s) o -> actionable ++ accounted_positions o ≡ₚ seq 0 k ->
  (forall i, In i actionable -> exists e, cs_effects s !! i = Some e /\ ~ In (se_status e) ["cleaned"; "failed"; "unknown"]) ->
  post (sort_effects k es actionable o) s (fun r s' => added calm (cs_actions s) (cs_actions s') /\ cs_effects s' = cs_effects s /\
    exists actionable' o', r = Ok (actionable', o') /\ recorded (cs_effects s) o' /\
      actionable' ++ accounted_positions o' ≡ₚ seq 0 (length (cs_effects s)) /\
      (forall i, In i actionable' -> exists e, cs_effects s !! i = Some e /\ ~ In (se_status e) ["cleaned"; "failed"; "unknown"])).
Proof.
  induction es as [|e es IH]; intros k before actionable o s Hes -> Hrec Hperm Hact; cbn [sort_effects].
  - split; [constructor|]. split; [done|]. exists actionable, o. rewrite Hes, app_nil_r in *. by split_and!.
  - assert (Hi : cs_effects s !! length before = Some e) by (rewrite Hes; by apply list_lookup_middle).
    assert (Hes' : cs_effects s = (before ++ [e]) ++ es) by (by rewrite <- app_assoc).
    assert (Hk : S (length before) = length (before ++ [e])) by (rewrite length_app; simpl; lia).
    assert (Hseq : forall l, l ≡ₚ seq 0 (length before) -> length before :: l ≡ₚ seq 0 (S (length before))).
    { intros l ->. rewrite seq_S. apply Permutation_cons_append. }
    assert (Hunres : forall reason, In (se_status e) ["failed"; "unknown"] \/ (se_status e = "cleaned" /\ action_taken e = None) ->
      post (do! o := record_unresolved (length before) reason o in sort_effects (S (length before)) es actionable o) s
       (fun r s' => added calm (cs_actions s) (cs_actions s') /\ cs_effects s' = cs_effects s /\
         exists actionable' o', r = Ok (actionable', o') /\ recorded (cs_effects s) o' /\
           actionable' ++ accounted_positions o' ≡ₚ seq 0 (length (cs_effects s)) /\
           (forall i, In i actionable' -> exists e, cs_effects s !! i = Some e /\ ~ In (se_status e) ["cleaned"; "failed"; "unknown"]))).
    { intros reason Hst. apply post_bind. eapply post_mono; [by apply record_unresolved_post|].
      intros r s1 (Ha & Heff & o1 & -> & Hacc). rewrite <- Heff in *. eapply post_mono; [apply (IH _ (before ++ [e]) actionable o1 s1)|].
      - done.
      - done.
      - by eapply accounted_recorded.
      - rewrite (accounted_position _ _ _ _ Hacc), <- Permutation_middle. by apply Hseq.
      - done.
      - intros r s2 (Ha2 & Heff2 & Hrest). split; [by eapply added_trans|]. by split. }
    destruct (_durably_cleaned_effect e) as [action|] eqn:Ed.
    + unfold _durably_cleaned_effect in Ed. destruct (se_status e == "cleaned") eqn:Es; [|done]. apply eqb_true in Es.
      assert (Hacc : accounted (length before) e o (add_cleaned (length before) e action o)) by (by constructor).
      apply (IH _ (before ++ [e])); [done|done|by eapply accounted_recorded| |done].
      rewrite (accounted_position _ _ _ _ Hacc), <- Permutation_middle. by apply Hseq.
    + unfold _durably_cleaned_effect in Ed. destruct (se_status e == "cleaned") eqn:Es.
      * apply eqb_true in Es. apply Hunres. by right.
      * destruct (mem (se_status e) ["failed"; "unknown"]) eqn:Em; [apply Hunres; left; by apply mem_In|].
        apply eqb_false in Es. apply mem_not_In in Em. apply (IH _ (before ++ [e])); [done|done|done| |].
        -- rewrite <- app_assoc. simpl. rewrite <- Permutation_middle. by apply Hseq.
        -- intros i [Hin|[<-|[]]]%in_app_iff; [by apply Hact|]. exists e. split; [done|]. simpl in *. intuition congruence.
Qed.

Lemma rollback_effects_post s :
  post (rollback_effects m dry_run recovered) s (fun r s' =>
    added (allowed (cs_effects s) (cs_actions s)) (cs_actions s) (cs_actions s') /\ same_resources (cs_effects s) (cs_effects s') /\
    exists o, r = Ok o /\ accounted_positions o ≡ₚ seq 0 (length (cs_effects s)) /\
      recorded (cs_effects s') o).
Proof.
  unfold rollback_effects. apply post_bind. unfold post at 1. apply post_bind.
  eapply post_mono; [apply (sort_effects_post (cs_effects s) 0 [] [] _ s)|]; try done.
  intros r s1 (Ha & Heff & actionable & o & -> & Hrec & Hperm & Hact).
  assert (Hord : order_of (cs_effects s) actionable ≡ₚ actionable) by apply rollback_order_perm.
  assert (Hnd : NoDup (actionable ++ accounted_positions o)) by (rewrite Hperm; apply NoDup_ListNoDup, seq_NoDup).
  apply NoDup_app in Hnd as (Hnda & Hdis & _). eapply post_mono; [apply (rollback_all_post _ o s1 (cs_effects s) (cs_actions s))|].
  - by rewrite Hord.
  - intros i. rewrite <- !list_elem_of_In, Hord. apply Hdis.
  - intros i Hi. rewrite <- list_elem_of_In, Hord, list_elem_of_In in Hi. destruct (Hact i Hi) as (e & He & Hst).
    exists e. by rewrite Heff.
  - by eapply added_suffix.
  - intros r s2 (Ha2 & Hsame & o' & -> & Hp & Hrec'). rewrite Heff in *. split.
    { eapply added_trans; [|exact Ha2]. eapply added_mono; [|exact Ha]. by intros ? []. }
    split; [done|]. exists o'. split; [done|]. split; [by rewrite Hp, Hord|]. auto.
Qed.
End Rollback.

(** ** The receipt *)

Section Receipt.
Context `{Host} `{Machine}.
Variable read_schema : string -> option json.
Variable report_semantics : string -> json -> res unit.
Variable journal_path : Path.
Variable m : CleanupManager.
Variables dry_run recovered : bool.

Notation rollback := (rollback read_schema report_semantics journal_path m dry_run recovered).
Notation _build_receipt := (_build_receipt read_schema report_semantics m).

(** The receipt of these lists. *)
Definition receipt_of (cleaned unresolved : list json) (receipt : CleanupReceipt) : Prop :=
  clean_cleaned_effects receipt = JList cleaned /\ clean_unresolved_effects receipt = JList unresolved /\
  clean_status receipt = JStr (receipt_status cleaned unresolved) /\ clean_plan_id receipt = JStr (lg_plan_id (mg_ledger m)) /\
  clean_engagement_id receipt = JStr (lg_engagement_id (mg_ledger m)) /\ clean_worker_identity receipt = JStr (mg_worker_identity m).

Lemma build_receipt_post created_at cleaned unresolved s :
  post (_build_receipt created_at cleaned unresolved) s (fun r s' =>
    added calm (cs_actions s) (cs_actions s') /\ cs_effects s' = cs_effects s /\
    forall receipt, r = Ok receipt -> receipt_of cleaned unresolved receipt).
Proof.
  unfold post, Rollback._build_receipt, eff_bind, on_machine, sys_uuid, utc_now, eff_lift. cbn [cs_actions cs_effects cs_journal].
  destruct (Json.digest _) as [d|e]; (split; [by repeat constructor|]; split; [done|]); [|done].
  intros receipt Hr. unfold from_dict in Hr. apply res_bind_ok in Hr as (checked & _ & Hr). unfold of_dict in Hr. cbn in Hr.
  injection Hr as <-. by split_and!.
Qed.

Lemma record_receipt_post run_id receipt s :
  post (record_receipt run_id receipt) s (fun r s' => cs_effects s' = cs_effects s /\
    added (appends "cleanup_receipt" None) (cs_actions s) (cs_actions s')).
Proof. eapply post_mono; [apply append_done|]. by intros r s' (He & Ha & _). Qed.

(** Everything about a rollback that does not depend on how it ends. *)
Lemma rollback_post s :
  post rollback s (fun r s' =>
    added (allowed m dry_run recovered (cs_effects s) (cs_actions s)) (cs_actions s) (cs_actions s') /\
    same_resources (cs_effects s) (cs_effects s') /\
    exists o, accounted_positions o ≡ₚ seq 0 (length (cs_effects s)) /\ recorded dry_run (cs_effects s') o /\
      forall receipt, r = Ok receipt -> exists audit, (length audit <= 1)%nat /\
        receipt_of (map snd (oc_cleaned o)) (map snd (oc_unresolved o) ++ audit) receipt).
Proof.
  set (P := allowed m dry_run recovered (cs_effects s) (cs_actions s)).
  assert (Hcalm : forall t t', added calm t t' -> added P t t') by (intros t t'; apply added_mono; by intros ? []).
  unfold Rollback.rollback. apply post_bind, post_machine. unfold post at 1, utc_now. cbn beta iota.
  set (s0 := {| cs_journal := cs_journal s |}).
  assert (H0s : added P (cs_actions s) (cs_actions s0)) by (by repeat constructor).
  apply post_bind. eapply post_mono; [apply rollback_effects_post|]. intros r s1 (Ha & Hsame & o & -> & Hp & Hrec).
  change (cs_effects s0) with (cs_effects s) in *.
  assert (Ha1 : added P (cs_actions s) (cs_actions s1)).
  { eapply added_trans; [exact H0s|]. eapply added_mono; [|exact Ha]. intros before [| | | |op answer| |ty id p| | |]; simpl; try done.
    intros (i & e & recent & He & Hpm & -> & Hj). exists i, e, (recent ++ [AcNow (mc_now (cs_actions s))]). split; [done|]. split; [done|].
    split; [by rewrite <- app_assoc|by apply justified_more]. }
  apply post_bind. eapply post_mono; [apply build_receipt_post|]. intros r s2 (Ha2 & He2 & Hr2).
  assert (H2 : added P (cs_actions s) (cs_actions s2)) by (eapply added_trans; [exact Ha1|by apply Hcalm]).
  assert (Hfail : forall e, added P (cs_actions s) (cs_actions s2) /\ same_resources (cs_effects s) (cs_effects s2) /\
    exists o, accounted_positions o ≡ₚ seq 0 (length (cs_effects s)) /\ recorded dry_run (cs_effects s2) o /\
      forall receipt, Raise e = Ok receipt -> exists audit, (length audit <= 1)%nat /\
        receipt_of (map snd (oc_cleaned o)) (map snd (oc_unresolved o) ++ audit) receipt).
  { intros e. rewrite He2. split; [done|]. split; [done|]. exists o. by split_and!. }
  destruct r as [receipt|e]; [|apply Hfail]. specialize (Hr2 receipt eq_refl).
  assert (Hdone : forall s', added P (cs_actions s) (cs_actions s') -> cs_effects s' = cs_effects s1 ->
    added P (cs_actions s) (cs_actions s') /\ same_resources (cs_effects s) (cs_effects s') /\
    exists o, accounted_positions o ≡ₚ seq 0 (length (cs_effects s)) /\ recorded dry_run (cs_effects s') o /\
      forall receipt', Ok receipt = Ok receipt' -> exists audit, (length audit <= 1)%nat /\
        receipt_of (map snd (oc_cleaned o)) (map snd (oc_unresolved o) ++ audit) receipt').
  { intros s' Ha' He'. rewrite He'. split; [done|]. split; [done|]. exists o. split; [done|]. split; [done|]. intros ? [= <-].
    exists []. split; [simpl; lia|]. by rewrite app_nil_r. }
  destruct (negb (lg_journal (mg_ledger m)) || dry_run); [by apply Hdone|].
  apply post_bind, attempt_post. eapply post_mono; [apply record_receipt_post|]. intros r s3 [He3 Ha3].
  assert (H3 : added P (cs_actions s) (cs_actions s3)).
  { eapply added_trans; [exact H2|]. eapply added_mono; [|exact Ha3]. intros before [| | | |op answer| |ty id p| | |]; simpl; try done.
    intros [-> _]. by left. }
  destruct r as [[]|err]; [apply Hdone; [done|congruence]|]. destruct (is_persistence_error err).
  - eapply post_mono; [apply build_receipt_post|]. intros r s4 (Ha4 & He4 & Hr4). rewrite He4, He3, He2.
    split; [eapply added_trans; [exact H3|by apply Hcalm]|]. split; [done|]. exists o. split; [done|]. split; [done|].
    intros receipt' Hok. exists [audit_entry journal_path m err]. split; [done|]. by apply Hr4.
  - unfold post, eff_lift. rewrite He3, He2. split; [done|]. split; [done|]. exists o. by split_and!.
Qed.

(** C24. Whatever else happens on the machine, a rollback makes no call that changes it but
    for an effect of the ledger that is pending, is owned by the worker, is not a bare
    declaration of the plan, and, after a restart, is no process; never in a dry run.
    Before the call the intent was durable in the journal.  A file or directory is moved
    only out of a directory reached without symbolic links, in the workspace or the
    credential scratch, where the object found was the one the worker created; and what
    is deleted was seen to be that object again, twice, in the quarantine it was moved to. *)
Theorem rollback_touches_only_owned s r s' later op answer before :
  rollback s = (r, s') -> cs_actions s' = later ++ AcDo op answer :: before -> (length (cs_actions s) <= length before)%nat ->
  exists i e recent, cs_effects s !! i = Some e /\ permitted dry_run recovered e /\ before = recent ++ cs_actions s /\
    justified m recent e op.
Proof.
  intros Hrun Htr Hlen. destruct (post_run _ _ _ _ _ (rollback_post s) Hrun) as (Ha & _).
  exact (added_event _ _ _ _ _ _ Ha Htr Hlen).
Qed.

(** C25. A receipt of a rollback accounts for every effect of the ledger exactly once.  A
    cleaned entry is the effect's, with the action taken, and the effect is marked
    cleaned; an unresolved one says why, and the effect is marked failed or unknown, or
    cleaned without evidence.  So a rollback leaves nothing pending, and its receipt says
    [completed] or [not_required] only when every effect is cleaned.  A dry run lists
    among the cleaned entries, with an action that starts with [dry_run_], the effects it
    would act on and leaves them pending; its receipt says [completed] when every effect
    is cleaned or so listed.  Only the failure to persist the receipt itself adds an
    entry. *)
Theorem rollback_accounts_for_every_effect s receipt s' :
  rollback s = (Ok receipt, s') ->
  exists o audit, accounted_positions o ≡ₚ seq 0 (length (cs_effects s)) /\ recorded dry_run (cs_effects s') o /\
    same_resources (cs_effects s) (cs_effects s') /\ (length audit <= 1)%nat /\
    receipt_of (map snd (oc_cleaned o)) (map snd (oc_unresolved o) ++ audit) receipt /\
    (forall e, In e (cs_effects s') -> In (se_status e) ["cleaned"; "failed"; "unknown"] \/ exists action, previewed dry_run e action) /\
    (In (clean_status receipt) [JStr "completed"; JStr "not_required"] ->
     forall e, In e (cs_effects s') -> exists action,
       (se_status e = "cleaned" /\ action_taken e = Some action) \/ previewed dry_run e action).
Proof.
  intros Hrun. destruct (post_run _ _ _ _ _ (rollback_post s) Hrun) as (_ & Hsame & o & Hp & Hrec & Hr).
  destruct (Hr receipt eq_refl) as (audit & Ha & Hof). exists o, audit.
  assert (Hall : forall e, In e (cs_effects s') -> exists i, cs_effects s' !! i = Some e /\
    (In i (map fst (oc_cleaned o)) \/ In i (map fst (oc_unresolved o)))).
  { intros e He. apply list_elem_of_In, list_elem_of_lookup in He as [i Hi]. exists i. split; [done|].
    rewrite <- in_app_iff. change (In i (accounted_positions o)). rewrite <- list_elem_of_In, Hp, list_elem_of_In, in_seq.
    apply lookup_lt_Some in Hi. apply (f_equal length) in Hsame. rewrite !length_map in Hsame. lia. }
  do 5 (split; [done|]). split.
  - intros e He. destruct (Hall e He) as (i & Hi & [Hin|Hin]); apply in_map_iff in Hin as ([j entry] & <- & Hin); simpl in Hi.
    + destruct (rec_cleaned _ _ _ Hrec _ _ Hin) as (e' & a & He' & _ & [[Hs _]|Hpre]); simplify_eq; [left; by left|right; by exists a].
    + left. destruct (rec_unresolved _ _ _ Hrec _ _ Hin) as (e' & He' & Hs & _). simplify_eq. simpl in *. intuition congruence.
  - intros Hst e He. destruct (Hall e He) as (i & Hi & [Hin|Hin]); apply in_map_iff in Hin as ([j entry] & <- & Hin); simpl in Hi.
    + destruct (rec_cleaned _ _ _ Hrec _ _ Hin) as (e' & a & He' & _ & Hcase). simplify_eq. by exists a.
    + exfalso. destruct Hof as (_ & _ & Hstatus & _). rewrite Hstatus in Hst. destruct (oc_unresolved o) as [|x l]; [done|].
      simpl in Hst. unfold receipt_status in Hst. simpl in Hst. destruct (map snd (oc_cleaned o)); simpl in Hst; intuition congruence.
Qed.
End Receipt.

(** ** A worker that undoes two effects *)

Definition private_dir : FileStat := {| st_kind := Directory; st_uid := 1000; st_mode := 448 |}.
Definition private_file : FileStat := {| st_kind := RegularFile; st_uid := 1000; st_mode := 384 |}.
Definition good_access : JournalAccess :=
  {| ja_parent := Ok private_dir; ja_link := false; ja_file := Some (Ok private_file); ja_sqlite := true; ja_commit := Committed |}.
Definition demo_stat : Stat := {| sr_dev := 1; sr_ino := 7; sr_kind := RegularFile |}.

(** Descriptors are numbered as they are opened, and nothing goes wrong. *)
#[local] Instance demo_machine : Machine := {|
  mc_open := fun t _ _ => Ok (Z.of_nat (length t)); mc_stat := fun _ _ _ => Ok demo_stat; mc_fstat := fun _ _ => Ok demo_stat;
  mc_lexists := fun _ _ => false; mc_do := fun _ _ => Ok tt; mc_access := fun _ => good_access;
  mc_uuid := fun t => "0123456789abcdef" +:+ pretty (Z.of_nat (length t)); mc_now := fun _ => "2025-06-15T12:00:00Z";
  mc_scratch := fun _ => Ok (parse_path "/tmp"); mc_cwd := "/srv"; mc_euid := 1000; uuid5_hex := fun s => s
|}.

Definition demo_effect (id kind target owner : string) (identity : option FilesystemIdentity) : SideEffect := {|
  se_effect_id := id; se_step_id := "step-1"; se_resource_type := kind; se_target := target; se_action_plan_id := "plan-0123456789abcdef";
  se_engagement_id := "eng-demo1"; se_owner := owner; se_created_at := "2025-06-15T11:00:00Z"; se_cleanup_action := "delete";
  se_status := "pending"; se_metadata := []; se_creation_identity := identity; se_transition_details := []
|}.

(** A file of the worker and a process of another one. *)
Definition demo_effects : list SideEffect :=
  [demo_effect "eff-1" "file" "/w/a" "worker-1" (Some (from_stat "file" demo_stat));
   demo_effect "eff-2" "process" "77" "worker-2" None].

Definition demo_state : CleanupState := {|
  cs_journal := {| jn_version := Some "1"; jn_runs := [("run-1", "2025-06-15T11:00:00Z")]; jn_events := [] |};
  cs_effects := demo_effects; cs_actions := []
|}.

Definition demo_manager : CleanupManager := {|
  mg_ledger := {| lg_plan_id := "plan-0123456789abcdef"; lg_engagement_id := "eng-demo1"; lg_default_owner := "worker-1"; lg_journal := true;
                  lg_run_id := "run-1"; lg_workspace_dir := Some (parse_path "/w") |};
  mg_worker_identity := "worker-1"; mg_workspace_dir := Some (parse_path "/w")
|}.

Definition demo_rollback : res CleanupReceipt * CleanupState :=
  @rollback hex_host demo_machine any_schema no_reports (parse_path "/var/journal.db") demo_manager false false demo_state.

(** The file is deleted, in the quarantine; the process is not killed. *)
Example demo_operations :
  rev (omap (fun ev => match ev with AcDo op _ => Some op | _ => None end) (cs_actions (snd demo_rollback))) =
  [Mkdir 6 ".cops-cleanup-eff-1"; Rename 6 "a" 13 "resource"; Unlink 13 "resource"; Rmdir 6 ".cops-cleanup-eff-1"].
Proof. vm_compute. reflexivity. Qed.

(** What is known when the file is deleted. *)
Definition demo_before : actions := skipn 12 (cs_actions (snd demo_rollback)).

Lemma rollback_touches_only_owned_witness : exists i e recent,
  cs_effects demo_state !! i = Some e /\ permitted false false e /\ demo_before = recent ++ cs_actions demo_state /\
  @justified hex_host demo_machine demo_manager recent e (Unlink 13 "resource").
Proof.
  destruct demo_rollback as [r s'] eqn:E.
  assert (Htr : cs_actions (snd demo_rollback) = firstn 11 (cs_actions (snd demo_rollback)) ++ AcDo (Unlink 13 "resource") (Ok tt) :: demo_before)
    by (vm_compute; reflexivity).
  refine (@rollback_touches_only_owned hex_host demo_machine any_schema no_reports (parse_path "/var/journal.db") demo_manager false false
    demo_state r s' (firstn 11 (cs_actions (snd demo_rollback))) (Unlink 13 "resource") (Ok tt) demo_before E _ _).
  - rewrite <- Htr, E. reflexivity.
  - apply Nat.le_0_l.
Defined.

(** A dry run of the same rollback does nothing and leaves the file's effect pending. *)
Definition demo_dry_run : res CleanupReceipt * CleanupState :=
  @rollback hex_host demo_machine any_schema no_reports (parse_path "/var/journal.db") demo_manager true false demo_state.

Lemma rollback_accounts_for_every_effect_witness :
  (exists receipt s', demo_rollback = (Ok receipt, s') /\ clean_status receipt = JStr "partial" /\
   forall e, In e (cs_effects s') -> In (se_status e) ["cleaned"; "failed"; "unknown"]) /\
  exists receipt s' o, demo_dry_run = (Ok receipt, s') /\ recorded true (cs_effects s') o.
Proof.
  split.
  - destruct demo_rollback as [[receipt|err] s'] eqn:E; [|vm_compute in E; discriminate E].
    exists receipt, s'. split; [reflexivity|]. split; [vm_compute in E; injection E as <- _; reflexivity|].
    destruct (@rollback_accounts_for_every_effect hex_host demo_machine any_schema no_reports (parse_path "/var/journal.db") demo_manager
      false false demo_state receipt s' E) as (o & audit & _ & _ & _ & _ & _ & Hall & _).
    intros e He. destruct (Hall e He) as [Hs|(action & Hd & _)]; [exact Hs|discriminate Hd].
  - destruct demo_dry_run as [[receipt|err] s'] eqn:E; [|vm_compute in E; discriminate E].
    destruct (@rollback_accounts_for_every_effect hex_host demo_machine any_schema no_reports (parse_path "/var/journal.db") demo_manager
      true false demo_state receipt s' E) as (o & audit & _ & Hrec & _).
    exists receipt, s', o. split; [reflexivity|exact Hrec].
Defined.
