(* ===== verification/RecoveryFacts.v ===== *)
(** * Recovery of the cleanup journal: facts

    How replaying the journal goes on when an event is added, and what the events of the
    ledger's operations do to a run. *)

From S2P Require Import Prelude PyStr Json JsonParse JsonFacts Canonical Documents Equivalence Schema.
From S2P Require Import Contracts Models Identity.
From S2P Require Import ApprovalStore Paths PathsFacts Files Cleanup RollbackOrder Rollback.
From S2P Require Import RollbackFacts.

(** ** Dicts *)

Lemma dict_set_map {A} k (v : A) d : NoDup (map fst d) -> In k (map fst d) ->
  dict_set k v d = map (fun kv => if k == fst kv then (k, v) else kv) d.
Proof.
  induction d as [|[k' v'] d IH]; [done|]. cbn [map fst dict_set]. intros Hnd Hin. inversion_clear Hnd as [|? ? Hni Hnd'].
  rewrite list_elem_of_In in Hni. destruct (k == k') eqn:E.
  - apply eqb_true in E as ->. f_equal. rewrite <- (map_id d) at 1. apply map_ext_in. intros [k'' v''] Hk. cbn [fst].
    rewrite (proj2 (eqb_neq k' k'')); [done|]. intros ->. apply Hni. apply in_map_iff. by exists (k'', v'').
  - apply eqb_false in E. f_equal. apply IH; [done|]. destruct Hin; congruence.
Qed.

Lemma dict_set_keys {A} k (v : A) d : In k (map fst d) -> map fst (dict_set k v d) = map fst d.
Proof.
  induction d as [|[k' v'] d IH]; [done|]. cbn [map fst dict_set]. intros Hin. destruct (k == k') eqn:E; [done|].
  apply eqb_false in E. cbn [map fst]. f_equal. apply IH. destruct Hin; congruence.
Qed.

Lemma dict_set_perm {A} k (v : A) d1 d2 : NoDup (map fst d1) -> In k (map fst d1) -> d1 ≡ₚ d2 -> dict_set k v d1 ≡ₚ dict_set k v d2.
Proof.
  intros Hnd Hin Hp. assert (Hp' : map fst d1 ≡ₚ map fst d2) by (by rewrite Hp).
  rewrite !dict_set_map; [by rewrite Hp|by rewrite <- Hp'| |done|done].
  rewrite <- list_elem_of_In, <- Hp', list_elem_of_In. done.
Qed.

Lemma assoc_key {A} k (d : list (string * A)) v : assoc k d = Some v -> In k (map fst d).
Proof. intros Ha%assoc_In. apply in_map_iff. by exists (k, v). Qed.

Lemma assoc_dict_set {A} k k' (v : A) d : assoc k (dict_set k' v d) = if k == k' then Some v else assoc k d.
Proof.
  induction d as [|[k1 v1] d IH]; [done|]. cbn [dict_set]. destruct (k' == k1) eqn:E1; cbn [assoc].
  - apply eqb_true in E1 as ->. by destruct (k == k1).
  - destruct (k == k1) eqn:E2; [|exact IH]. apply eqb_true in E2 as ->. apply eqb_false in E1.
    rewrite (proj2 (eqb_neq k1 k')) by congruence. done.
Qed.

Lemma assoc_update {A} k (details d : list (string * A)) : NoDup (map fst details) ->
  assoc k (dict_update d details) = match assoc k details with Some v => Some v | None => assoc k d end.
Proof.
  unfold dict_update. revert d. induction details as [|[k' v] details IH]; intros d Hnd; [done|]. cbn [fold_left fst snd assoc map] in *.
  inversion_clear Hnd as [|? ? Hni Hnd']. rewrite list_elem_of_In in Hni. rewrite IH by done. destruct (k == k') eqn:E.
  - apply eqb_true in E as ->. apply assoc_none in Hni. by rewrite Hni, assoc_dict_set, eqb_refl.
  - by rewrite assoc_dict_set, E.
Qed.

(** The items of a document as the journal gives them back. *)
Definition sorted_items (d : list (string * json)) : list (string * json) :=
  sort_items (map (fun kv => (fst kv, json_sort (snd kv))) d).

Lemma json_sort_items d : json_sort (JObj d) = JObj (sorted_items d).
Proof. done. Qed.

Lemma assoc_sorted k d : NoDup (map fst d) -> assoc k (sorted_items d) = json_sort <$> assoc k d.
Proof.
  intros Hnd. rewrite <- assoc_map_sort. symmetry. apply assoc_perm; [by rewrite map_map|]. symmetry. apply sort_items_perm.
Qed.

Lemma sorted_items_NoDup d : NoDup (map fst d) -> NoDup (map fst (sorted_items d)).
Proof. intros Hnd. unfold sorted_items. rewrite sort_items_keys, map_map. done. Qed.

(** A document that survives the journal. *)
Definition durable (v : json) : bool := float_free v && keys_unique v.

Lemma durable_keys d : durable (JObj d) = true -> NoDup (map fst d).
Proof. unfold durable. rewrite andb_true_iff. intros [_ Hk]. by apply keys_unique_nodup. Qed.

Section Replay.
Context `{Host} `{Machine}.
Variable read_schema : string -> option json.
Variable report_semantics : string -> json -> res unit.
Variable journal_path : Path.

Notation replay_event := (replay_event read_schema report_semantics journal_path).
Notation replay := (replay read_schema report_semantics journal_path).
Notation replay_journal := (replay_journal read_schema report_semantics journal_path).

(** ** Replaying more *)

Lemma replay_app evs1 : forall evs2 state, replay (evs1 ++ evs2) state = let? state := replay evs1 state in replay evs2 state.
Proof.
  induction evs1 as [|ev evs1 IH]; intros evs2 state; [done|]. cbn [app Cleanup.replay].
  destruct (assoc (je_run_id ev) state) as [run|].
  - rewrite res_bind_assoc. destruct (replay_event ev run); [apply IH|done].
  - rewrite res_bind_assoc. destruct (loads (je_payload_json ev)); [|done]. cbn [res_bind]. by destruct (negb _).
Qed.

Lemma replay_cons_ok ev evs state r : replay (ev :: evs) state = Ok r ->
  exists run run', assoc (je_run_id ev) state = Some run /\ replay_event ev run = Ok run' /\
    replay evs (dict_set (je_run_id ev) run' state) = Ok r.
Proof.
  cbn [Cleanup.replay]. destruct (assoc (je_run_id ev) state) as [run|].
  - intros (run' & Hr & Hrest)%res_bind_ok. by exists run, run'.
  - intros (payload & _ & Hr)%res_bind_ok. by destruct (negb _).
Qed.

Lemma replay_keys evs : forall state r, replay evs state = Ok r -> map fst r = map fst state.
Proof.
  induction evs as [|ev evs IH]; intros state r Hr; [by injection Hr as ->|].
  apply replay_cons_ok in Hr as (run & run' & Ha & _ & Hrest). rewrite (IH _ _ Hrest). apply dict_set_keys. by eapply assoc_key.
Qed.

Lemma replay_perm evs : forall s1 s2 r1, NoDup (map fst s1) -> s1 ≡ₚ s2 -> replay evs s1 = Ok r1 ->
  exists r2, replay evs s2 = Ok r2 /\ r1 ≡ₚ r2.
Proof.
  induction evs as [|ev evs IH]; intros s1 s2 r1 Hnd Hp Hr; [injection Hr as <-; by exists s2|].
  apply replay_cons_ok in Hr as (run & run' & Ha & He & Hrest). cbn [Cleanup.replay].
  rewrite <- (assoc_perm _ _ _ Hnd Hp), Ha, He. cbn [res_bind]. pose proof (assoc_key _ _ _ Ha) as Hk.
  eapply IH; [|by apply dict_set_perm|exact Hrest]. by rewrite dict_set_keys.
Qed.

(** A run that no event mentions. *)
Lemma replay_extra evs run_id x : forall state r, ~ In run_id (map fst state) -> replay evs state = Ok r ->
  replay evs ((run_id, x) :: state) = Ok ((run_id, x) :: r).
Proof.
  induction evs as [|ev evs IH]; intros state r Hni Hr; [by injection Hr as <-|].
  apply replay_cons_ok in Hr as (run & run' & Ha & He & Hrest). cbn [Cleanup.replay assoc]. pose proof (assoc_key _ _ _ Ha) as Hk.
  rewrite (proj2 (eqb_neq (je_run_id ev) run_id)) by (intros <-; done). rewrite Ha, He. cbn [res_bind dict_set].
  rewrite (proj2 (eqb_neq (je_run_id ev) run_id)) by (intros <-; done). apply IH; [|done]. by rewrite dict_set_keys.
Qed.

Lemma change_started id f run : rn_started (change_effect id f run) = rn_started run.
Proof. done. Qed.

Lemma replay_event_started ev run run' started : rn_started run = Some started -> replay_event ev run = Ok run' -> rn_started run' = Some started.
Proof.
  unfold Cleanup.replay_event. intros Hs (payload & _ & Hr)%res_bind_ok. rewrite Hs in Hr.
  unfold replay_effect, replay_identity, replay_transition, replay_receipt, value_error, raise in Hr.
  repeat (case_match; simplify_eq/=; try done); repeat match goal with
    | H : res_bind _ _ = Ok _ |- _ => apply res_bind_ok in H as (? & ? & H)
    end; repeat (case_match; simplify_eq/=; try done).
Qed.

(** *** Journals that replay *)

Record healthy (j : Journal) (state : list (string * RunState)) : Prop := {
  hl_replay : exists state0, initial_state j = Ok state0 /\ replay (jn_events j) state0 = Ok state;
  hl_runs : NoDup (map fst (jn_runs j));
  hl_keys : forall run_id, In run_id (map fst state) <-> In run_id (map fst (jn_runs j));
  hl_nodup : NoDup (map fst state);
  hl_started : forall run_id run, assoc run_id state = Some run -> exists started, rn_started run = Some started;
}.

Lemma healthy_journal j state : healthy j state -> replay_journal j = Ok state.
Proof. intros [(s0 & Hi & Hr) _ _ _ _]. unfold Cleanup.replay_journal. by rewrite Hi; cbn [res_bind]; rewrite Hr. Qed.

Lemma healthy_append j j' state run_id run run' ev :
  healthy j state -> assoc run_id state = Some run -> je_run_id ev = run_id -> replay_event ev run = Ok run' ->
  jn_runs j' = jn_runs j -> jn_events j' = jn_events j ++ [ev] -> healthy j' (dict_set run_id run' state).
Proof.
  intros [(s0 & Hi & Hr) Hruns Hkeys Hnd Hst] Ha Hid He Hj Hev. pose proof (assoc_key _ _ _ Ha) as Hk. constructor.
  - exists s0. split; [unfold initial_state in *; by rewrite Hj|]. rewrite Hev, replay_app, Hr. cbn [res_bind Cleanup.replay].
    rewrite Hid, Ha, He. done.
  - by rewrite Hj.
  - intros k. rewrite dict_set_keys by done. by rewrite Hj.
  - by rewrite dict_set_keys.
  - intros k x. rewrite assoc_dict_set. destruct (k == run_id) eqn:E; [|apply Hst]. intros [= <-].
    destruct (Hst _ _ Ha) as [started Hs]. exists started. by eapply replay_event_started.
Qed.

Lemma merge_sort_perm (runs : list (string * string)) : merge_sort run_order runs ≡ₚ runs.
Proof. apply merge_sort_Permutation. Qed.

Lemma initial_state_ok j state : initial_state j = Ok state ->
  ~ In "" (map fst (jn_runs j)) /\ state ≡ₚ map (fun r => (fst r, fresh_run)) (jn_runs j).
Proof.
  unfold initial_state. destruct (mem "" _) eqn:E; [done|]. intros [= <-]. apply mem_not_In in E. split.
  - rewrite <- list_elem_of_In in E |- *. by rewrite <- (merge_sort_perm (jn_runs j)).
  - rewrite map_map. by rewrite (merge_sort_perm (jn_runs j)).
Qed.

(** A new run begins. *)
Lemma healthy_start j j' state run_id created_at ev run' :
  healthy j state -> run_id <> "" -> ~ In run_id (map fst (jn_runs j)) ->
  jn_runs j' = jn_runs j ++ [(run_id, created_at)] -> jn_events j' = jn_events j ++ [ev] -> je_run_id ev = run_id ->
  replay_event ev fresh_run = Ok run' -> (exists started, rn_started run' = Some started) ->
  exists state', healthy j' state' /\ state' ≡ₚ (run_id, run') :: state.
Proof.
  intros [(s0 & Hi & Hr) Hruns Hkeys Hnd Hst] Hne Hni Hj Hev Hid He Hstarted.
  pose proof (initial_state_ok _ _ Hi) as [Hempty Hs0].
  assert (Hnk : ~ In run_id (map fst s0)).
  { rewrite <- list_elem_of_In, Hs0, map_map, list_elem_of_In. done. }
  assert (Hi' : exists s0', initial_state j' = Ok s0' /\ (run_id, fresh_run) :: s0 ≡ₚ s0').
  { unfold initial_state. rewrite Hj. destruct (mem "" _) eqn:E.
    - exfalso. apply mem_In in E. rewrite <- list_elem_of_In, (merge_sort_perm _), list_elem_of_In, map_app, in_app_iff in E.
      destruct E as [E|[E|[]]]; [done|]. simpl in E. congruence.
    - eexists. split; [done|]. rewrite map_map, (merge_sort_perm _), map_app, Hs0. simpl. apply Permutation_cons_append. }
  destruct Hi' as (s0' & Hi' & Hp). pose proof (replay_extra (jn_events j) run_id fresh_run s0 state Hnk Hr) as Hx.
  assert (Hnd0 : NoDup (map fst ((run_id, fresh_run) :: s0))).
  { simpl. constructor; [by rewrite list_elem_of_In|]. by rewrite <- (replay_keys _ _ _ Hr). }
  destruct (replay_perm _ _ _ _ Hnd0 Hp Hx) as (r2 & Hr2 & Hp2).
  assert (Hnd2 : NoDup (map fst ((run_id, fresh_run) :: state))) by (by rewrite <- (replay_keys _ _ _ Hx) in Hnd0).
  assert (Ha : assoc run_id r2 = Some fresh_run).
  { rewrite <- (assoc_perm run_id _ _ Hnd2 Hp2). simpl. by rewrite eqb_refl. }
  assert (Hset : dict_set run_id run' r2 ≡ₚ (run_id, run') :: state).
  { rewrite <- (dict_set_perm run_id run' _ _ Hnd2 ltac:(by left) Hp2). cbn [dict_set]. by rewrite eqb_refl. }
  exists (dict_set run_id run' r2). split; [|done]. constructor.
  - exists s0'. split; [done|]. rewrite Hev, replay_app, Hr2. cbn [res_bind Cleanup.replay]. by rewrite Hid, Ha, He.
  - rewrite Hj, map_app. apply NoDup_app. split; [done|]. split; [|apply NoDup_singleton]. intros x Hx'.
    cbn [map fst]. rewrite list_elem_of_singleton. intros ->. by apply list_elem_of_In in Hx'.
  - intros k. rewrite <- list_elem_of_In, Hset, list_elem_of_In, Hj, map_app, in_app_iff. cbn [map fst In]. rewrite Hkeys. tauto.
  - rewrite Hset. simpl in *. done.
  - intros k x Hk. rewrite (assoc_perm k (dict_set run_id run' r2) ((run_id, run') :: state)) in Hk; [|by rewrite Hset|exact Hset]. cbn [assoc] in Hk.
    destruct (k == run_id); [by injection Hk as <-|by eapply Hst].
Qed.
End Replay.
