(* ===== verification/RecoveryEvents.v ===== *)
(** * Recovery of the cleanup journal: events

    What the events that a ledger writes do to their run when the journal is replayed. *)

From S2P Require Import Prelude PyStr Json JsonParse JsonFacts Canonical Documents Equivalence Schema.
From S2P Require Import Contracts Models Identity.
From S2P Require Import ApprovalStore Paths PathsFacts Files Cleanup RollbackOrder Rollback.
From S2P Require Import RollbackFacts RecoveryFacts.

(** ** Effects as the journal has them *)

Definition with_metadata (metadata : list (string * json)) (e : SideEffect) : SideEffect :=
  {| se_effect_id := se_effect_id e; se_step_id := se_step_id e; se_resource_type := se_resource_type e;
     se_target := se_target e; se_action_plan_id := se_action_plan_id e; se_engagement_id := se_engagement_id e;
     se_owner := se_owner e; se_created_at := se_created_at e; se_cleanup_action := se_cleanup_action e;
     se_status := se_status e; se_metadata := metadata; se_creation_identity := se_creation_identity e;
     se_transition_details := se_transition_details e |}.

Definition new_effect (e : SideEffect) : Prop :=
  se_status e = "pending" /\ se_creation_identity e = None /\ se_transition_details e = [].
Definition recordable (e : SideEffect) : bool :=
  forallb (fun s => negb (s == "")) [se_effect_id e; se_step_id e; se_resource_type e; se_target e; se_action_plan_id e;
    se_engagement_id e; se_owner e; se_created_at e; se_cleanup_action e].

Lemma effect_round_trip e : new_effect e -> recordable e = true ->
  effect_from_dict (json_sort (effect_to_dict e)) = Ok (with_metadata (sorted_items (se_metadata e)) e).
Proof.
  intros (Hs & Hi & Hd) Hr. destruct e as [a1 a2 a3 a4 a5 a6 a7 a8 a9 st md i d]. cbn in Hs, Hi, Hd. subst.
  unfold recordable in Hr. cbn [forallb se_effect_id se_step_id se_resource_type se_target se_action_plan_id
    se_engagement_id se_owner se_created_at se_cleanup_action] in Hr.
  apply andb_true_iff in Hr as [H1 Hr]; apply andb_true_iff in Hr as [H2 Hr]; apply andb_true_iff in Hr as [H3 Hr];
  apply andb_true_iff in Hr as [H4 Hr]; apply andb_true_iff in Hr as [H5 Hr]; apply andb_true_iff in Hr as [H6 Hr];
  apply andb_true_iff in Hr as [H7 Hr]; apply andb_true_iff in Hr as [H8 Hr]; apply andb_true_iff in Hr as [H9 _].
  unfold effect_from_dict.
  change (exact_mapping (json_sort (effect_to_dict _)) _) with (Some [
    ("action_plan_id", JStr a5); ("cleanup_action", JStr a9); ("created_at", JStr a8); ("effect_id", JStr a1);
    ("engagement_id", JStr a6); ("metadata", JObj (sorted_items md)); ("owner", JStr a7); ("resource_type", JStr a3);
    ("status", JStr "pending"); ("step_id", JStr a2); ("target", JStr a4)]).
  cbv beta iota zeta. set (items := [_;_;_;_;_;_;_;_;_;_;_]).
  assert (Hall : forallb (fun k => nonempty_text (field k items)) string_fields = true).
  { change (negb (a1 == "") && (negb (a2 == "") && (negb (a3 == "") && (negb (a4 == "") && (negb (a5 == "") && (negb (a6 == "") &&
      (negb (a7 == "") && (negb (a8 == "") && (negb (a9 == "") && (true && true))))))))) = true).
    by rewrite H1, H2, H3, H4, H5, H6, H7, H8, H9. }
  rewrite Hall. reflexivity.
Qed.


(** ** What an event does to its run *)

Section Events.
Context `{Host} `{Machine}.
Variable read_schema : string -> option json.
Variable report_semantics : string -> json -> res unit.
Variable journal_path : Path.

Notation replay_event := (replay_event read_schema report_semantics journal_path).

Definition event_of (run_id event_type : string) (effect_id : option string) (payload : json) (ev : JournalEvent) : Prop :=
  je_run_id ev = run_id /\ je_event_type ev = event_type /\ je_effect_id ev = effect_id /\ je_payload_json ev = dumps true payload.

Lemma payload_read run_id event_type effect_id payload ev :
  event_of run_id event_type effect_id payload ev -> durable payload = true -> printable payload = true ->
  loads (je_payload_json ev) = Ok (json_sort payload).
Proof. intros (_ & _ & _ & ->) [Hf Hk]%andb_true_iff Hp. by apply loads_printed. Qed.

Definition add_effect (id : string) (e : SideEffect) (run : RunState) : RunState :=
  {| rn_started := rn_started run; rn_effects := rn_effects run ++ [(id, e)]; rn_receipt := rn_receipt run |}.

Lemma replay_recorded run_id ev run started e :
  rn_started run = Some started -> event_of run_id "effect_recorded" (Some (se_effect_id e)) (effect_to_dict e) ev ->
  durable (effect_to_dict e) = true -> printable (effect_to_dict e) = true -> new_effect e -> recordable e = true ->
  se_action_plan_id e = started_text "plan_id" started -> se_engagement_id e = started_text "engagement_id" started ->
  ~ In (se_effect_id e) (map fst (rn_effects run)) ->
  replay_event ev run = Ok (add_effect (se_effect_id e) (with_metadata (sorted_items (se_metadata e)) e) run).
Proof.
  intros Hst Hev Hd Hp Hnew Hrec Hplan Heng Hfresh. unfold Cleanup.replay_event. rewrite (payload_read _ _ _ _ _ Hev Hd Hp).
  destruct Hev as (_ & -> & -> & _). cbn [res_bind]. change (is_dict (json_sort (effect_to_dict e))) with true. cbn [negb]. rewrite Hst.
  change ("effect_recorded" == "run_started") with false. change ("effect_recorded" == "effect_recorded") with true. cbv iota.
  unfold replay_effect. rewrite effect_round_trip by done. cbn [res_bind].
  assert (Hid : se_effect_id e <> "").
  { unfold recordable in Hrec. cbn [forallb] in Hrec. apply andb_true_iff in Hrec as [Hrec _]. by apply negb_true_iff, eqb_false in Hrec. }
  destruct (se_effect_id e) as [|c id] eqn:E; [done|]. rewrite <- E in *. clear E.
  change (se_effect_id (with_metadata _ e)) with (se_effect_id e). change (se_action_plan_id (with_metadata _ e)) with (se_action_plan_id e).
  change (se_engagement_id (with_metadata _ e)) with (se_engagement_id e). change (se_status (with_metadata _ e)) with (se_status e).
  destruct Hnew as (Hs & _ & _). rewrite Hplan, Heng, Hs, !eqb_refl. cbn [negb orb].
  destruct (mem _ _) eqn:Em; [by apply mem_In in Em|done].
Qed.

Lemma replay_created run_id ev run started id r i :
  rn_started run = Some started -> event_of run_id "creation_identity_recorded" (Some id) (identity_to_dict i) ev ->
  assoc id (rn_effects run) = Some r -> is_filesystem (se_resource_type r) = true -> se_status r = "pending" ->
  se_creation_identity r = None -> fi_resource_type i = se_resource_type r -> 0 <= fi_device i -> 0 <= fi_inode i ->
  printable (identity_to_dict i) = true ->
  replay_event ev run = Ok (change_effect (Some id) (with_identity i) run).
Proof.
  intros Hst Hev Hr Hfs Hs Hi Ht Hdev Hino Hp. unfold Cleanup.replay_event.
  rewrite (payload_read _ _ _ _ _ Hev eq_refl Hp). destruct Hev as (_ & -> & -> & _). cbn [res_bind].
  change (is_dict (json_sort (identity_to_dict i))) with true. cbn [negb]. rewrite Hst.
  change ("creation_identity_recorded" == "run_started") with false. change ("creation_identity_recorded" == "effect_recorded") with false.
  change ("creation_identity_recorded" == "creation_identity_recorded") with true. cbv iota.
  unfold replay_identity, find_effect. rewrite Hr, Hfs, Hs, Hi. cbn [negb]. change ("pending" == "pending") with true.
  rewrite bool_decide_eq_false_2 by (by intros []). cbn [negb orb].
  destruct i as [dev ino t]. cbn [fi_device fi_inode fi_resource_type] in *. subst t.
  unfold identity_from_dict.
  change (exact_mapping (json_sort (identity_to_dict _)) _) with
    (Some [("device", JInt dev); ("inode", JInt ino); ("resource_type", JStr (se_resource_type r))]).
  cbv beta iota zeta. set (items := [_; _; _]).
  change (field "device" items) with (JInt dev). change (field "inode" items) with (JInt ino).
  change (field "resource_type" items) with (JStr (se_resource_type r)). cbv iota.
  rewrite (proj2 (Z.ltb_ge dev 0) Hdev), (proj2 (Z.ltb_ge ino 0) Hino). cbn [orb].
  unfold is_filesystem in Hfs. rewrite Hfs. cbn [negb res_bind fi_resource_type]. by rewrite eqb_refl.
Qed.

Lemma durable_transition status details :
  durable (JObj [("status", JStr status); ("details", JObj details)]) = durable (JObj details).
Proof. unfold durable. cbn [float_free keys_unique forallb map fst snd andb]. by rewrite !andb_true_r. Qed.

Lemma replay_moved run_id ev run started id r status details :
  rn_started run = Some started ->
  event_of run_id "cleanup_transition" (Some id) (JObj [("status", JStr status); ("details", JObj details)]) ev ->
  assoc id (rn_effects run) = Some r -> In status statuses -> durable (JObj details) = true ->
  printable (JObj [("status", JStr status); ("details", JObj details)]) = true ->
  replay_event ev run = Ok (change_effect (Some id) (fun e => with_details (sorted_items details) (with_status status e)) run).
Proof.
  intros Hst Hev Hr Hs Hd Hp. unfold Cleanup.replay_event. rewrite (payload_read _ _ _ _ _ Hev) by (by rewrite ?durable_transition).
  destruct Hev as (_ & -> & -> & _). cbn [res_bind].
  change (is_dict (json_sort (JObj _))) with true at 1. cbn [negb]. rewrite Hst.
  change ("cleanup_transition" == "run_started") with false. change ("cleanup_transition" == "effect_recorded") with false.
  change ("cleanup_transition" == "creation_identity_recorded") with false. change ("cleanup_transition" == "cleanup_transition") with true.
  cbv iota. unfold replay_transition, find_effect.
  change (exact_mapping (json_sort _) _) with (Some [("details", JObj (sorted_items details)); ("status", JStr status)]).
  cbv beta iota zeta. set (items := [_; _]). change (field "details" items) with (JObj (sorted_items details)).
  change (field "status" items) with (JStr status). cbv iota. rewrite Hr. by rewrite (proj2 (mem_In _ _) Hs).
Qed.

Lemma replay_noted run_id ev run started event_type payload :
  rn_started run = Some started -> event_of run_id event_type None payload ev ->
  In event_type ["approval_consumption_started"; "approval_consumed"] -> is_dict payload = true -> durable payload = true ->
  printable payload = true -> replay_event ev run = Ok run.
Proof.
  intros Hst Hev Hty Hdict Hd Hp. unfold Cleanup.replay_event. rewrite (payload_read _ _ _ _ _ Hev Hd Hp).
  destruct Hev as (_ & -> & -> & _). cbn [res_bind]. destruct payload; try done. rewrite json_sort_items. cbn [is_dict negb]. rewrite Hst.
  destruct Hty as [<-|[<-|[]]]; reflexivity.
Qed.

(** What a run was started with, as it is read back. *)
Definition started_items (plan_id engagement_id worker_identity : string) (workspace_dir : option Path) : list (string * json) :=
  [("engagement_id", JStr engagement_id); ("plan_id", JStr plan_id); ("worker_identity", JStr worker_identity);
   ("workspace_dir", match workspace_dir with Some p => JStr (path_text p) | None => JNull end)].

Definition started_run (started : list (string * json)) : RunState :=
  {| rn_started := Some started; rn_effects := []; rn_receipt := None |}.

Lemma durable_start plan_id engagement_id worker_identity workspace_dir :
  durable (run_payload plan_id engagement_id worker_identity workspace_dir) = true /\
  printable (run_payload plan_id engagement_id worker_identity workspace_dir) = true.
Proof. by destruct workspace_dir. Qed.

Lemma replay_begun run_id ev plan_id engagement_id worker_identity workspace_dir :
  event_of run_id "run_started" None (run_payload plan_id engagement_id worker_identity workspace_dir) ev ->
  plan_id <> "" -> engagement_id <> "" -> worker_identity <> "" ->
  (forall p, workspace_dir = Some p -> normal p /\ assert_external_to journal_path p = Ok tt) ->
  replay_event ev fresh_run = Ok (started_run (started_items plan_id engagement_id worker_identity workspace_dir)).
Proof.
  intros Hev Hp He Hw Hws. unfold Cleanup.replay_event. destruct (durable_start plan_id engagement_id worker_identity workspace_dir) as [Hd Hpr].
  rewrite (payload_read _ _ _ _ _ Hev Hd Hpr). destruct Hev as (_ & -> & _ & _). cbn [res_bind rn_started fresh_run].
  change (is_dict (json_sort (run_payload _ _ _ _))) with true. change ("run_started" == "run_started") with true. cbn [negb].
  assert (check_started journal_path (json_sort (run_payload plan_id engagement_id worker_identity workspace_dir)) =
    Ok (started_items plan_id engagement_id worker_identity workspace_dir)) as ->; [|done].
  unfold check_started.
  assert (exact_mapping (json_sort (run_payload plan_id engagement_id worker_identity workspace_dir))
    ["plan_id"; "engagement_id"; "worker_identity"; "workspace_dir"] =
    Some (started_items plan_id engagement_id worker_identity workspace_dir)) as -> by (by destruct workspace_dir).
  set (items := started_items plan_id engagement_id worker_identity workspace_dir).
  assert (forallb (fun k => nonempty_text (field k items)) ["plan_id"; "engagement_id"; "worker_identity"] = true) as ->.
  { change (negb (plan_id == "") && (negb (engagement_id == "") && (negb (worker_identity == "") && true)) = true).
    by rewrite (proj2 (eqb_neq _ _) Hp), (proj2 (eqb_neq _ _) He), (proj2 (eqb_neq _ _) Hw). }
  cbn [negb]. change (field "workspace_dir" items) with (match workspace_dir with Some p => JStr (path_text p) | None => JNull end).
  destruct workspace_dir as [p|]; [|done]. destruct (Hws p eq_refl) as [Hn Hx].
  rewrite (proj2 (eqb_neq _ _) (normal_text_nonempty p Hn)). cbv zeta. rewrite (parse_normal p Hn).
  rewrite (normal_absolute p Hn), (normal_no_dots p Hn). cbn [negb orb]. unfold abs_path.
  rewrite (abspath_of_normal _ p Hn), (parse_normal p Hn), eqb_refl. cbn [negb]. by rewrite Hx.
Qed.

(** ** Effects of the ledger in the journal *)

(** What is written of an effect once. *)
Definition written (e : SideEffect) :=
  (se_effect_id e, se_step_id e, se_resource_type e, se_target e, se_action_plan_id e, se_engagement_id e, se_owner e,
   se_created_at e, se_cleanup_action e).

(** The same effect, whose metadata has been through the journal. *)
Definition same_resource (e r : SideEffect) : Prop := written r = written e /\ se_metadata r = sorted_items (se_metadata e).

Definition same_details (d d' : list (string * json)) : Prop := forall k, assoc k d' = json_sort <$> assoc k d.

Record exactly (e r : SideEffect) : Prop := {
  ex_status : se_status r = se_status e;
  ex_identity : se_creation_identity r = se_creation_identity e;
  ex_details : same_details (se_transition_details e) (se_transition_details r);
}.

Lemma same_details_update d d' details : NoDup (map fst details) -> same_details d d' ->
  same_details (dict_update d details) (dict_update d' (sorted_items details)).
Proof.
  intros Hnd Hd k. rewrite !assoc_update by (try apply sorted_items_NoDup; done). rewrite assoc_sorted by done.
  destruct (assoc k details); [done|]. apply Hd.
Qed.

Lemma assoc_change id f (effects : list (string * SideEffect)) k :
  assoc k (map (fun ke => if Some (fst ke) == Some id then (fst ke, f (snd ke)) else ke) effects) =
  if k == id then f <$> assoc k effects else assoc k effects.
Proof.
  induction effects as [|[k' r] effects IH]; [by destruct (k == id)|]. cbn [map fst snd assoc].
  destruct (Some k' == Some id) eqn:E; cbn [assoc].
  - apply eqb_true in E. injection E as ->. destruct (k == id) eqn:E'; [done|]. by rewrite IH.
  - rewrite IH. destruct (k == k') eqn:E'; [|done]. apply eqb_true in E' as ->. apply eqb_false in E.
    by rewrite (proj2 (eqb_neq k' id)) by congruence.
Qed.

Lemma change_keys id f run : map fst (rn_effects (change_effect id f run)) = map fst (rn_effects run).
Proof.
  unfold change_effect. cbn [rn_effects]. rewrite map_map. apply map_ext. intros [k r]. by destruct (_ == _).
Qed.
End Events.
