(* ===== verification/RecoveryProps.v ===== *)
(** * Recovery of the cleanup journal: properties

    The journal of [src/cops/execution/cleanup.py] is a faithful record of the ledger: after
    any calls and any failures a new process recovers from it what the ledger held. *)

From S2P Require Import Prelude PyStr Json JsonParse JsonFacts Canonical Documents Equivalence Schema.
From S2P Require Import Contracts Models Identity.
From S2P Require Import ContractProps ApprovalStore Paths PathsFacts Files Cleanup RollbackOrder.
From S2P Require Import Rollback RollbackFacts.
From S2P Require Import RollbackProps RecoveryFacts RecoveryEvents.

(** ** Calls *)

(** What a worker asks of its ledger before the rollback. *)
Inductive ledger_call :=
| RecordEffect (step_id resource_type target cleanup_action : string) (owner : option string) (metadata : list (string * json))
| RecordIdentity (i : nat) (creation_fd : Z)
| Transition (i : nat) (status : string) (details : list (string * json))
| RecordEvent (event_type : string) (payload : json).

(** Facts about every machine: the working directory is absolute, the clock prints
    something, and device and inode numbers are not negative. *)
Class MachineOk `{Machine} := {
  cwd_rooted : startswith "/" mc_cwd = true;
  now_text : forall t, mc_now t <> "";
  fstat_numbers : forall t fd found, mc_fstat t fd = Ok found -> 0 <= sr_dev found /\ 0 <= sr_ino found;
}.

Section Recovery.
Context `{Host} `{Machine} `{!MachineOk}.
Variable read_schema : string -> option json.
Variable report_semantics : string -> json -> res unit.
Variable journal_path : Path.
Variable l : SideEffectLedger.

Notation replay_event := (replay_event read_schema report_semantics journal_path).
Notation healthy := (healthy read_schema report_semantics journal_path).

Definition run_call (c : ledger_call) : eff CleanupState unit :=
  match c with
  | RecordEffect step_id resource_type target cleanup_action owner metadata =>
      do! _ := record_effect l step_id resource_type target cleanup_action owner metadata in eff_ret tt
  | RecordIdentity i creation_fd => do! _ := record_created_identity l i creation_fd in eff_ret tt
  | Transition i status details => transition_effect l i status details
  | RecordEvent event_type payload => record_run_event (lg_run_id l) event_type payload
  end.

(** Whose record is in doubt when a call raises: an effect of the ledger, or one that did
    not enter it. *)
Definition doubtful (c : ledger_call) : list (option nat) :=
  match c with
  | RecordEffect _ _ _ _ _ _ => [None]
  | RecordIdentity i _ | Transition i _ _ => [Some i]
  | RecordEvent _ _ => []
  end.

Definition failed_after (c : ledger_call) (r : res unit) (failed : list (option nat)) : list (option nat) :=
  match r with Raise _ => doubtful c ++ failed | Ok _ => failed end.

(** Whose status in the journal may be ahead of the ledger. *)
Definition behind_after (c : ledger_call) (r : res unit) (behind : list (option nat)) : list (option nat) :=
  match r, c with
  | Raise _, _ => doubtful c ++ behind
  | Ok _, Transition i _ _ => List.filter (fun x => negb (x == Some i)) behind
  | Ok _, _ => behind
  end.

(** What the callers see to: documents that JSON can carry, texts that are not empty, an
    identity recorded only where nothing failed before, an effect id not used before. *)
Definition valid_call (failed : list (option nat)) (s : CleanupState) (c : ledger_call) : Prop :=
  match c with
  | RecordEffect step_id resource_type target cleanup_action owner metadata =>
      ~ In "" [step_id; resource_type; target; cleanup_action] /\ durable (JObj metadata) = true /\
      ~ In (Some ("eff-" +:+ String.substring 0 16 (mc_uuid (cs_actions s)))) (map je_effect_id (jn_events (cs_journal s)))
  | RecordIdentity i _ => ~ In (Some i) failed
  | Transition _ status details => In status statuses /\ durable (JObj details) = true
  | RecordEvent event_type payload =>
      In event_type ["approval_consumption_started"; "approval_consumed"] /\ is_dict payload = true /\ durable payload = true
  end.

(** The calls of a worker; it may go on after any failure. *)
Inductive history (s0 : CleanupState) : list (option nat) -> list (option nat) -> CleanupState -> Prop :=
| begun : history s0 [] [] s0
| called failed behind s c r s' : history s0 failed behind s -> valid_call failed s c -> run_call c s = (r, s') ->
    history s0 (failed_after c r failed) (behind_after c r behind) s'.

(** What the journal has of the effect at a position. *)
Record recovered_as (failed behind : list (option nat)) (i : nat) (e r : SideEffect) : Prop := {
  ra_resource : same_resource e r;
  ra_identity : forall x, se_creation_identity e = Some x -> se_creation_identity r = Some x;
  ra_status : ~ In (Some i) behind -> se_status r = se_status e;
  ra_exactly : ~ In (Some i) failed -> exactly e r;
}.

Record follows (failed behind : list (option nat)) (j : Journal) (run : RunState) (effects : list SideEffect) : Prop := {
  fo_keys : forall id, In id (map fst (rn_effects run)) -> In (Some id) (map je_effect_id (jn_events j));
  fo_ids : NoDup (map se_effect_id effects);
  fo_effects : forall i e, effects !! i = Some e ->
    exists r, assoc (se_effect_id e) (rn_effects run) = Some r /\ recovered_as failed behind i e r;
  fo_order : ~ In None failed -> map fst (rn_effects run) = map se_effect_id effects;
}.

Definition started : list (string * json) :=
  started_items (lg_plan_id l) (lg_engagement_id l) (lg_default_owner l) (lg_workspace_dir l).

Definition tracked (state0 : list (string * RunState)) (failed behind : list (option nat)) (s : CleanupState) : Prop :=
  exists state run, healthy (cs_journal s) state /\ assoc (lg_run_id l) state = Some run /\
    rn_started run = Some started /\ rn_receipt run = None /\
    (forall id, id <> lg_run_id l -> assoc id state = assoc id state0) /\
    follows failed behind (cs_journal s) run (cs_effects s).

Hypothesis l_journal : lg_journal l = true.
Hypothesis l_texts : lg_plan_id l <> "" /\ lg_engagement_id l <> "" /\ lg_default_owner l <> "".

(** ** What stays *)

Lemma recovered_weaken failed failed' behind behind' i e r : incl failed failed' -> incl behind behind' ->
  recovered_as failed behind i e r -> recovered_as failed' behind' i e r.
Proof. intros Hf Hb [Hres Hid Hst Hex]. constructor; auto. Qed.

Lemma follows_weaken failed failed' behind behind' j run effects : incl failed failed' -> incl behind behind' ->
  follows failed behind j run effects -> follows failed' behind' j run effects.
Proof.
  intros Hf Hb [Hk Hn He Ho]. constructor; [done|done| |auto]. intros i e Hi. destruct (He i e Hi) as (r & Hr & Hra).
  exists r. split; [done|]. by eapply recovered_weaken.
Qed.

(** Nothing was written. *)
Lemma tracked_same state0 failed failed' behind behind' s s' :
  cs_journal s' = cs_journal s -> cs_effects s' = cs_effects s -> incl failed failed' -> incl behind behind' ->
  tracked state0 failed behind s -> tracked state0 failed' behind' s'.
Proof.
  intros Hj He Hf Hb (state & run & Hh & Ha & Hs & Hr & Ho & Hfo). exists state, run. rewrite Hj, He.
  do 5 (split; [done|]). by eapply follows_weaken.
Qed.

(** An event was written. *)
Lemma tracked_append state0 failed failed' behind behind' s s' event_type effect_id payload :
  tracked state0 failed behind s -> appended (lg_run_id l) event_type effect_id payload (cs_journal s) (cs_journal s') ->
  (forall run ev, rn_started run = Some started -> follows failed behind (cs_journal s) run (cs_effects s) ->
     event_of (lg_run_id l) event_type effect_id payload ev -> jn_events (cs_journal s') = jn_events (cs_journal s) ++ [ev] ->
     exists run', replay_event ev run = Ok run' /\ rn_receipt run' = rn_receipt run /\
       follows failed' behind' (cs_journal s') run' (cs_effects s')) ->
  tracked state0 failed' behind' s'.
Proof.
  intros (state & run & Hh & Ha & Hs & Hr & Ho & Hfo) [_ Hruns (event_id & created_at & Hev)] Hstep.
  match type of Hev with _ = _ ++ [?x] => set (ev := x) in Hev end.
  assert (Hof : event_of (lg_run_id l) event_type effect_id payload ev) by (repeat split).
  destruct (Hstep run ev Hs Hfo Hof Hev) as (run' & He & Hr' & Hfo').
  exists (dict_set (lg_run_id l) run' state), run'. split; [eapply healthy_append; [exact Hh|exact Ha| |exact He|exact Hruns|exact Hev]; done|].
  split; [by rewrite assoc_dict_set, eqb_refl|]. split; [eapply replay_event_started; [exact Hs|exact He]|]. split; [congruence|].
  split; [|done]. intros id Hid. rewrite assoc_dict_set, (proj2 (eqb_neq _ _) Hid). auto.
Qed.

(** More events, and the effect ids that are in them. *)
Lemma keys_more j j' ev (keys : list string) : jn_events j' = jn_events j ++ [ev] ->
  (forall id, In id keys -> In (Some id) (map je_effect_id (jn_events j))) ->
  forall id, In id keys -> In (Some id) (map je_effect_id (jn_events j')).
Proof. intros -> Hk id Hin. rewrite map_app, in_app_iff. auto. Qed.
(** ** Recording an effect *)

Lemma new_recovered failed behind i e : new_effect e ->
  recovered_as failed behind i e (with_metadata (sorted_items (se_metadata e)) e).
Proof.
  intros (Hs & Hi & Hd). constructor; [done|done|done|]. intros _. constructor; [done|done|]. cbn. by rewrite Hd.
Qed.

Lemma follows_orphan failed behind j j' ev run effects id r :
  follows failed behind j run effects -> ~ In id (map fst (rn_effects run)) -> je_effect_id ev = Some id ->
  jn_events j' = jn_events j ++ [ev] -> follows (None :: failed) (None :: behind) j' (add_effect id r run) effects.
Proof.
  intros [Hk Hn He _] Hfresh Hev Hj. constructor; [|done| |].
  - intros x. cbn [add_effect rn_effects]. rewrite map_app, Hj, map_app, !in_app_iff. intros [Hx|[<-|[]]]; [auto|]. right. left. done.
  - intros i e Hi. destruct (He i e Hi) as (r' & Hr & Hra). exists r'. cbn [add_effect rn_effects]. rewrite assoc_app, Hr. split; [done|].
    eapply recovered_weaken; [| |exact Hra]; intros x Hx; by right.
  - intros Hnone. destruct Hnone. by left.
Qed.

Lemma follows_recorded failed behind j j' ev run effects e :
  follows failed behind j run effects -> new_effect e -> ~ In (se_effect_id e) (map fst (rn_effects run)) ->
  je_effect_id ev = Some (se_effect_id e) -> jn_events j' = jn_events j ++ [ev] ->
  follows failed behind j' (add_effect (se_effect_id e) (with_metadata (sorted_items (se_metadata e)) e) run) (effects ++ [e]).
Proof.
  intros [Hk Hn He Ho] Hnew Hfresh Hev Hj. constructor.
  - intros x. cbn [add_effect rn_effects]. rewrite map_app, Hj, map_app, !in_app_iff. intros [Hx|[<-|[]]]; [auto|]. right. left. done.
  - rewrite map_app. apply NoDup_app. split; [done|]. split; [|apply NoDup_singleton]. intros x Hx. cbn [map].
    rewrite list_elem_of_singleton. intros ->. apply Hfresh. apply list_elem_of_In, in_map_iff in Hx as (e' & Heq & Hx).
    apply list_elem_of_In, list_elem_of_lookup in Hx as [i Hi]. destruct (He i e' Hi) as (r & Hr & _). rewrite <- Heq. by eapply assoc_key.
  - intros i e' Hi. cbn [add_effect rn_effects]. apply lookup_app_Some in Hi as [Hi|[Hlen Hi]].
    + destruct (He i e' Hi) as (r & Hr & Hra). exists r. by rewrite assoc_app, Hr.
    + apply list_lookup_singleton_Some in Hi as [Hi <-]. eexists. rewrite assoc_app, (proj2 (assoc_none _ _) Hfresh). cbn [assoc].
      rewrite eqb_refl. split; [done|]. by apply new_recovered.
  - intros Hnone. cbn [add_effect rn_effects]. by rewrite !map_app, Ho.
Qed.

Lemma durable_effect e : durable (effect_to_dict e) = durable (JObj (se_metadata e)).
Proof. unfold durable. cbn [effect_to_dict float_free keys_unique forallb map fst snd andb]. by rewrite !andb_true_r. Qed.

Lemma call_record state0 failed behind s step_id resource_type target cleanup_action owner metadata :
  let c := RecordEffect step_id resource_type target cleanup_action owner metadata in
  tracked state0 failed behind s -> valid_call failed s c ->
  post (run_call c) s (fun r s' => tracked state0 (failed_after c r failed) (behind_after c r behind) s').
Proof.
  intros c Ht (Htexts & Hdur & Hfresh). unfold c, run_call, record_effect. rewrite l_journal.
  apply post_bind, post_bind, post_machine. unfold post at 1, sys_uuid. apply post_bind, post_machine. unfold post at 1, utc_now.
  cbn [cs_actions cs_journal cs_effects]. set (hex := mc_uuid (cs_actions s)) in *. set (s1 := {| cs_journal := cs_journal s |}).
  set (now := mc_now _). match goal with |- context [journal_record_effect _ ?x] => set (e := x) end.
  assert (Hnew : new_effect e) by done.
  assert (Hrec : recordable e = true).
  { destruct l_texts as (Hp & He & Ho). unfold recordable. apply forallb_forall. intros x Hx. apply negb_true_iff, eqb_neq.
    cbn in Hx. repeat destruct Hx as [<-|Hx]; try done; try (intros ->; apply Htexts; simpl; tauto); [|apply now_text].
    by destruct owner as [[|a w]|]. }
  assert (Hde : durable (effect_to_dict e) = true) by (rewrite durable_effect; done).
  apply post_bind. unfold journal_record_effect. eapply post_mono; [apply append_post|].
  intros r s2 (He & t & _ & Hr). cbn [cs_journal cs_effects s1] in He, Hr.
  assert (Hlost : tracked state0 (None :: failed) (None :: behind) s2).
  { destruct Hr as [(_ & Hj & _)|(_ & Happ & _)]; [by eapply tracked_same; [..|exact Ht]; [..|intros ? ?; right|intros ? ?; right]|].
    eapply tracked_append; [exact Ht|exact Happ|]. intros run ev Hst Hfo Hev Hevs.
    assert (Hni : ~ In (se_effect_id e) (map fst (rn_effects run))) by (intros Hin%(fo_keys _ _ _ _ _ Hfo); done).
    eexists. split; [eapply replay_recorded; [exact Hst|exact Hev|exact Hde|apply (app_printable _ _ _ _ _ _ Happ)|done..]|].
    split; [done|]. rewrite He. destruct Hev as (_ & _ & Hid & _). by eapply follows_orphan. }
  destruct Hr as [(_ & _ & err & -> & _)|(_ & Happ & [->|(err & -> & _)])]; [done| |done].
  unfold post, eff_bind, eff_ret. eapply tracked_append; [exact Ht|exact Happ|]. intros run ev Hst Hfo Hev Hevs.
  assert (Hni : ~ In (se_effect_id e) (map fst (rn_effects run))) by (intros Hin%(fo_keys _ _ _ _ _ Hfo); done).
  eexists. split; [eapply replay_recorded; [exact Hst|exact Hev|exact Hde|apply (app_printable _ _ _ _ _ _ Happ)|done..]|].
  split; [done|]. cbn [set_effects cs_effects]. rewrite He. destruct Hev as (_ & _ & Hid & _). by eapply follows_recorded.
Qed.
(** ** Changing an effect *)

(** The lists of doubt of two moments agree on every other effect. *)
Definition grows_but (i : nat) (doubts doubts' : list (option nat)) : Prop :=
  forall x, x <> Some i -> In x doubts -> In x doubts'.

Lemma grows_cons i doubts : grows_but i doubts (Some i :: doubts).
Proof. intros x _ Hx. by right. Qed.

Lemma grows_filter i doubts : grows_but i doubts (List.filter (fun x => negb (x == Some i)) doubts).
Proof. intros x Hne Hx. apply filter_In. split; [done|]. by apply negb_true_iff, eqb_neq. Qed.

Lemma follows_change failed behind failed' behind' j j' ev run effects i e f g :
  follows failed behind j run effects -> effects !! i = Some e -> jn_events j' = jn_events j ++ [ev] ->
  grows_but i failed failed' -> grows_but i behind behind' -> (forall x, se_effect_id (g x) = se_effect_id x) ->
  (forall r, recovered_as failed behind i e r -> recovered_as failed' behind' i (g e) (f r)) ->
  follows failed' behind' j' (change_effect (Some (se_effect_id e)) f run) (alter g i effects).
Proof.
  intros [Hk Hn He Ho] Hi Hj Hf Hb Hg Hstep.
  assert (Hids : map se_effect_id (alter g i effects) = map se_effect_id effects).
  { apply list_eq. intros k. rewrite !list_lookup_fmap. destruct (decide (k = i)) as [->|Hne].
    - rewrite list_lookup_alter_eq, Hi. simpl. by rewrite Hg.
    - by rewrite list_lookup_alter_ne. }
  constructor.
  - rewrite change_keys. by eapply keys_more.
  - by rewrite Hids.
  - intros k x Hx. unfold change_effect. cbn [rn_effects]. rewrite assoc_change. destruct (decide (k = i)) as [->|Hne].
    + rewrite list_lookup_alter_eq, Hi in Hx. injection Hx as <-. destruct (He i e Hi) as (r & Hr & Hra).
      exists (f r). rewrite Hg, eqb_refl, Hr. split; [done|]. by apply Hstep.
    + rewrite list_lookup_alter_ne in Hx by done. destruct (He k x Hx) as (r & Hr & [Hres Hid Hst Hex]). exists r.
      rewrite (proj2 (eqb_neq (se_effect_id x) (se_effect_id e))).
      { split; [done|]. constructor; [done|done| |]; intros Hni; [apply Hst|apply Hex]; intros Hin; apply Hni; [apply Hb|apply Hf]; congruence. }
      intros Heq. apply Hne. eapply (NoDup_lookup (map se_effect_id effects)); [exact Hn| |].
      * rewrite list_lookup_fmap, Hx. done.
      * rewrite list_lookup_fmap, Hi. simpl. by rewrite Heq.
  - intros Hnone. rewrite change_keys, Hids. apply Ho. intros Hin. apply Hnone. by apply Hf.
Qed.

Lemma alter_same (i : nat) (effects : list SideEffect) : effects = alter (fun e => e) i effects.
Proof. symmetry. apply list_alter_id. done. Qed.

(** *** A transition *)

Definition move (status : string) (details : list (string * json)) (e : SideEffect) : SideEffect := with_details details (with_status status e).

Lemma move_resource status details e r : same_resource e r -> same_resource e (move status details r).
Proof. done. Qed.

Lemma moved_recovered failed behind i e r status details : NoDup (map fst details) ->
  recovered_as failed behind i e r ->
  recovered_as failed (List.filter (fun x => negb (x == Some i)) behind) i (move status details e) (move status (sorted_items details) r).
Proof.
  intros Hnd [Hres Hid Hst Hex]. constructor; [exact Hres|exact Hid|done|]. intros Hni. destruct (Hex Hni) as [Hs Hi Hd].
  constructor; [done|exact Hi|]. by apply same_details_update.
Qed.

Lemma ahead_recovered failed behind i e r status details :
  recovered_as failed behind i e r -> recovered_as (Some i :: failed) (Some i :: behind) i e (move status details r).
Proof. intros [Hres Hid Hst Hex]. constructor; [exact Hres|exact Hid|..]; intros Hni; destruct Hni; by left. Qed.

Lemma call_transition state0 failed behind s i status details :
  let c := Transition i status details in
  tracked state0 failed behind s -> valid_call failed s c ->
  post (run_call c) s (fun r s' => tracked state0 (failed_after c r failed) (behind_after c r behind) s').
Proof.
  intros c Ht (Hstatus & Hdur). unfold c, run_call, transition_effect. rewrite l_journal. apply post_bind. unfold post at 1, effect_at.
  assert (Hlost : forall s', cs_journal s' = cs_journal s -> cs_effects s' = cs_effects s -> tracked state0 (Some i :: failed) (Some i :: behind) s').
  { intros s' Hj He. eapply tracked_same; [exact Hj|exact He|..|exact Ht]; intros x Hx; by right. }
  destruct (cs_effects s !! i) as [e|] eqn:Hi; [|by apply Hlost].
  apply post_bind. unfold journal_transition. eapply post_mono; [apply append_post|]. intros r s2 (He & t & _ & Hr).
  pose proof (durable_keys _ Hdur) as Hnd.
  assert (Hevent : forall failed' behind' g s',
    grows_but i failed failed' -> grows_but i behind behind' -> (forall x, se_effect_id (g x) = se_effect_id x) ->
    (forall r, recovered_as failed behind i e r -> recovered_as failed' behind' i (g e) (move status (sorted_items details) r)) ->
    cs_journal s' = cs_journal s2 -> cs_effects s' = alter g i (cs_effects s) ->
    appended (lg_run_id l) "cleanup_transition" (Some (se_effect_id e)) (JObj [("status", JStr status); ("details", JObj details)])
      (cs_journal s) (cs_journal s2) -> tracked state0 failed' behind' s').
  { intros failed' behind' g s' Hf Hb Hg Hstep Hj Heff Happ. rewrite <- Hj in Happ. eapply tracked_append; [exact Ht|exact Happ|].
    intros run ev Hst Hfo Hev Hevs. destruct (fo_effects _ _ _ _ _ Hfo i e Hi) as (r0 & Hr0 & _).
    eexists. split; [eapply replay_moved; [exact Hst|exact Hev|exact Hr0|done|done|apply (app_printable _ _ _ _ _ _ Happ)]|].
    split; [done|]. rewrite Heff. by eapply follows_change. }
  destruct Hr as [(_ & Hj & err & -> & _)|(_ & Happ & [->|(err & -> & _)])].
  - by apply Hlost.
  - unfold post, update_effect. apply (Hevent _ _ (move status details)); [by intros ? ?|apply grows_filter|done| |done|by rewrite <- He|done].
    intros r0. by apply moved_recovered.
  - apply (Hevent _ _ (fun x => x)); [apply grows_cons|apply grows_cons|done| |done|by rewrite He, <- alter_same|done].
    intros r0. by apply ahead_recovered.
Qed.

(** *** An identity *)

Lemma identified_recovered failed behind i e r x :
  ~ In (Some i) failed -> recovered_as failed behind i e r -> recovered_as failed behind i (with_identity x e) (with_identity x r).
Proof.
  intros Hni [Hres Hid Hst Hex]. constructor; [exact Hres|done|exact Hst|]. intros _. destruct (Hex Hni) as [Hs Hi Hd]. by constructor.
Qed.

Lemma identity_ahead failed behind i e r x : se_creation_identity e = None ->
  recovered_as failed behind i e r -> recovered_as (Some i :: failed) (Some i :: behind) i e (with_identity x r).
Proof.
  intros Hnone [Hres Hid Hst Hex]. constructor; [exact Hres|by rewrite Hnone|..]; intros Hni; destruct Hni; by left.
Qed.
Lemma machine_same {A} (c : eff actions A) s (Q : res A -> CleanupState -> Prop) :
  (forall r t, Q r {| cs_journal := cs_journal s; cs_effects := cs_effects s; cs_actions := t |}) -> post (on_machine c) s Q.
Proof. intros HQ. unfold post, on_machine. by destruct (c (cs_actions s)). Qed.

Lemma created_post creation_fd path s :
  post (eff_catch is_os_error
    (do! created := on_machine (sys_fstat creation_fd) in
     do! parent_fd := on_machine (open_directory_no_symlinks (parent path) false) in
     do! current := on_machine (sys_stat parent_fd (name path)) in
     eff_ret (created, current))
    (fun _ => eff_raise CleanupPersistenceError "cannot verify created resource")) s
    (fun r s' => (cs_journal s' = cs_journal s /\ cs_effects s' = cs_effects s) /\
       match r with Ok (created, _) => 0 <= sr_dev created /\ 0 <= sr_ino created | Raise _ => True end).
Proof.
  apply post_catch. assert (Hcatch : forall e s', cs_journal s' = cs_journal s -> cs_effects s' = cs_effects s ->
    if is_os_error e then post (eff_raise (A := Stat * Stat) CleanupPersistenceError "cannot verify created resource") s'
      (fun r s' => (cs_journal s' = cs_journal s /\ cs_effects s' = cs_effects s) /\
        match r with Ok (created, _) => 0 <= sr_dev created /\ 0 <= sr_ino created | Raise _ => True end)
    else (cs_journal s' = cs_journal s /\ cs_effects s' = cs_effects s) /\ True).
  { intros e s' Hj He. by destruct (is_os_error e). }
  apply post_bind, post_machine. unfold post at 1, sys_fstat. destruct (mc_fstat _ creation_fd) as [created|e] eqn:E; [|by apply Hcatch].
  apply fstat_numbers in E. apply post_bind, machine_same. intros [parent_fd|e] t; [|by apply Hcatch].
  apply post_bind, machine_same. intros [current|e] t'; [done|by apply Hcatch].
Qed.

Lemma identity_post i creation_fd s : post (record_created_identity l i creation_fd) s (fun r s' =>
  (cs_journal s' = cs_journal s /\ cs_effects s' = cs_effects s /\ exists err, r = Raise err) \/
  exists e x, cs_effects s !! i = Some e /\ is_filesystem (se_resource_type e) = true /\ se_status e = "pending" /\
    se_creation_identity e = None /\ fi_resource_type x = se_resource_type e /\ 0 <= fi_device x /\ 0 <= fi_inode x /\
    appended (lg_run_id l) "creation_identity_recorded" (Some (se_effect_id e)) (identity_to_dict x) (cs_journal s) (cs_journal s') /\
    (((exists err, r = Raise err) /\ cs_effects s' = cs_effects s) \/
     ((exists y, r = Ok y) /\ cs_effects s' = alter (with_identity x) i (cs_effects s)))).
Proof.
  unfold record_created_identity. apply post_bind. unfold post at 1, effect_at.
  destruct (cs_effects s !! i) as [e|] eqn:Hi; [|left; split_and!; by try eexists].
  destruct (is_filesystem (se_resource_type e)) eqn:Hfs; cbn [negb]; [|left; split_and!; by try eexists].
  destruct (negb (se_status e == "pending") || _) eqn:Hst; [left; split_and!; by try eexists|].
  apply orb_false_iff in Hst as [Hst%negb_false_iff%eqb_true Hnone]. apply bool_decide_eq_false, eq_None_not_Some in Hnone.
  cbv zeta. destruct (_ || _ || _); [left; split_and!; by try eexists|].
  eapply (post_seq _ _ _ _ _ (created_post creation_fd (parse_path (se_target e)) s)); [|intros err s1 [[Hj He] _]; left; split_and!; by try eexists].
  intros [created current] s1 [[Hj He] [Hdev Hino]].
  destruct (expected_mode _ _); cbn [negb]; [|left; split_and!; by try eexists].
  destruct (matches _ _ _); cbn [negb]; [|left; split_and!; by try eexists].
  set (x := from_stat (se_resource_type e) created). rewrite l_journal. apply post_bind. unfold record_creation_identity.
  eapply post_mono; [apply append_post|]. intros r s2 (He2 & t & _ & Hr).
  destruct Hr as [(_ & Hj2 & err & -> & _)|(_ & Happ & [->|(err & -> & _)])].
  - left. split_and!; [congruence..|by eexists].
  - right. exists e, x. do 7 (split; [done|]). unfold post, eff_bind, update_effect, eff_ret. cbn [set_effects cs_journal cs_effects].
    split; [by rewrite Hj in Happ|]. right. rewrite He2, He. split; [by eexists|done].
  - right. exists e, x. do 7 (split; [done|]). split; [by rewrite Hj in Happ|]. left. split; [by eexists|congruence].
Qed.

Lemma call_identity state0 failed behind s i creation_fd :
  let c := RecordIdentity i creation_fd in
  tracked state0 failed behind s -> valid_call failed s c ->
  post (run_call c) s (fun r s' => tracked state0 (failed_after c r failed) (behind_after c r behind) s').
Proof.
  intros c Ht Hni. unfold c, run_call. apply post_bind. eapply post_mono; [apply identity_post|].
  intros r s' [(Hj & He & err & ->)|(e & x & Hi & Hfs & Hs & Hnone & Hty & Hdev & Hino & Happ & Hr)].
  { eapply tracked_same; [exact Hj|exact He|..|exact Ht]; intros y Hy; by right. }
  assert (Hevent : forall failed' behind' g, grows_but i failed failed' -> grows_but i behind behind' ->
    (forall y, se_effect_id (g y) = se_effect_id y) ->
    (forall r, recovered_as failed behind i e r -> recovered_as failed' behind' i (g e) (with_identity x r)) ->
    cs_effects s' = alter g i (cs_effects s) -> tracked state0 failed' behind' s').
  { intros failed' behind' g Hf Hb Hg Hstep Heff. eapply tracked_append; [exact Ht|exact Happ|].
    intros run ev Hst Hfo Hev Hevs. destruct (fo_effects _ _ _ _ _ Hfo i e Hi) as (r0 & Hr0 & Hra).
    destruct (ra_exactly _ _ _ _ _ Hra Hni) as [Hs0 Hi0 _]. destruct (ra_resource _ _ _ _ _ Hra) as [Hw _].
    assert (Hrt : se_resource_type r0 = se_resource_type e) by (by injection Hw).
    eexists. split; [eapply replay_created; [exact Hst|exact Hev|exact Hr0|congruence|congruence|congruence|congruence|done|done|apply (app_printable _ _ _ _ _ _ Happ)]|].
    split; [done|]. rewrite Heff. by eapply follows_change. }
  destruct Hr as [[[err ->] Heff]|[[y ->] Heff]].
  - apply (Hevent _ _ (fun y => y)); [apply grows_cons|apply grows_cons|done| |by rewrite Heff, <- alter_same].
    intros r0. by apply identity_ahead.
  - apply (Hevent _ _ (with_identity x)); [by intros ? ?|by intros ? ?|done| |done]. intros r0. by apply identified_recovered.
Qed.

(** *** An approval *)

Lemma call_event state0 failed behind s event_type payload :
  let c := RecordEvent event_type payload in
  tracked state0 failed behind s -> valid_call failed s c ->
  post (run_call c) s (fun r s' => tracked state0 (failed_after c r failed) (behind_after c r behind) s').
Proof.
  intros c Ht (Hty & Hdict & Hdur). unfold c, run_call, record_run_event. eapply post_mono; [apply append_post|].
  intros r s' (He & t & _ & Hr). assert (tracked state0 failed behind s') as Hs'; [|by destruct r].
  destruct Hr as [(_ & Hj & _)|(_ & Happ & _)]; [eapply tracked_same; [exact Hj|exact He|apply incl_refl|apply incl_refl|exact Ht]|]. eapply tracked_append; [exact Ht|exact Happ|].
  intros run ev Hst [Hk Hn Heff Ho] Hev Hevs. exists run. split; [eapply replay_noted; [exact Hst|exact Hev|done..|apply (app_printable _ _ _ _ _ _ Happ)]|].
  split; [done|]. rewrite He. constructor; [by eapply keys_more|done..].
Qed.

(** ** Histories *)

Lemma call_tracked state0 failed behind s c : tracked state0 failed behind s -> valid_call failed s c ->
  post (run_call c) s (fun r s' => tracked state0 (failed_after c r failed) (behind_after c r behind) s').
Proof. destruct c; [apply call_record|apply call_identity|apply call_transition|apply call_event]. Qed.

Lemma history_tracked state0 s0 failed behind s : tracked state0 [] [] s0 -> history s0 failed behind s -> tracked state0 failed behind s.
Proof.
  intros Hstart Hh. induction Hh as [|failed behind s c r s' _ IH Hv Hrun]; [done|].
  exact (post_run _ _ _ _ _ (call_tracked _ _ _ _ _ IH Hv) Hrun).
Qed.
End Recovery.

(** ** From the journal to the runs *)

Section Runs.
Context `{Host} `{Machine}.
Variable read_schema : string -> option json.
Variable report_semantics : string -> json -> res unit.
Variable journal_path : Path.

Notation recoverable_runs := (recoverable_runs read_schema report_semantics journal_path).
Notation healthy := (healthy read_schema report_semantics journal_path).
Notation replay := (replay read_schema report_semantics journal_path).

(** A run that a worker has still to clean up. *)
Definition unfinished (worker_identity : string) (state : list (string * RunState)) (x : RecoveredCleanupRun) : Prop :=
  exists id run started, In (id, run) state /\ rn_started run = Some started /\
    started_text "worker_identity" started = worker_identity /\ run_finished run = false /\ x = recovered_run id started run.

Lemma recover_runs_spec worker_identity state :
  (forall id run, In (id, run) state -> exists started, rn_started run = Some started) ->
  exists rs, recover_runs worker_identity state = Ok rs /\ forall x, In x rs <-> unfinished worker_identity state x.
Proof.
  induction state as [|[id run] state IH]; intros Hst.
  - exists []. split; [done|]. intros x. split; [done|]. by intros (? & ? & ? & [] & _).
  - destruct IH as (rs & Hrs & Hin); [intros id' run' Hr; apply (Hst id' run'); by right|].
    destruct (Hst id run (or_introl eq_refl)) as [started Hs]. cbn [recover_runs]. rewrite Hs, Hrs. cbn [res_bind].
    assert (Hcons : forall x, unfinished worker_identity ((id, run) :: state) x <->
      (started_text "worker_identity" started = worker_identity /\ run_finished run = false /\ x = recovered_run id started run) \/
      unfinished worker_identity state x).
    { intros x. unfold unfinished. split.
      - intros (id' & run' & st' & [[= <- <-]|Hi] & Hs' & Hrest); [left; by simplify_eq|right; by exists id', run', st'].
      - intros [Hx|(id' & run' & st' & Hi & Hrest)]; [exists id, run, started; split; [by left|done]|].
        exists id', run', st'. split; [by right|done]. }
    destruct (started_text "worker_identity" started == worker_identity) eqn:E1; cbn [negb orb].
    + apply eqb_true in E1. destruct (run_finished run) eqn:E2; eexists; (split; [done|]); intros x; rewrite Hcons, <- Hin; simpl; intuition congruence.
    + apply eqb_false in E1. eexists. split; [done|]. intros x. rewrite Hcons, <- Hin. intuition congruence.
Qed.

Lemma recover_runs_started worker_identity state rs : recover_runs worker_identity state = Ok rs ->
  forall id run, In (id, run) state -> exists started, rn_started run = Some started.
Proof.
  revert rs. induction state as [|[id run] state IH]; intros rs Hr; [done|]. cbn [recover_runs] in Hr.
  destruct (rn_started run) as [started|] eqn:E; [|done]. apply res_bind_ok in Hr as (others & Ho & _).
  intros id' run' [[= <- <-]|Hin]; [by exists started|by eapply IH].
Qed.

Lemma recoverable_healthy access worker_identity j rs :
  NoDup (map fst (jn_runs j)) -> recoverable_runs access true worker_identity j = Ok rs ->
  _connect access = Ok tt /\ exists state, healthy j state /\ recover_runs worker_identity state = Ok rs.
Proof.
  unfold Cleanup.recoverable_runs. intros Hnd ([] & Hc & Hr)%res_bind_ok. split; [done|]. cbn [negb] in Hr.
  apply res_bind_ok in Hr as (state & Hj & Hr). exists state. split; [|done]. unfold replay_journal in Hj.
  destruct (let? state := initial_state j in replay (jn_events j) state) as [state'|e] eqn:E; cbn in Hj; [injection Hj as ->|by destruct (_ || _)].
  apply res_bind_ok in E as (state0 & Hi & Hrep). destruct (initial_state_ok _ _ Hi) as [_ Hp].
  assert (Hk : map fst state ≡ₚ map fst (jn_runs j)) by (rewrite (replay_keys _ _ _ _ _ _ Hrep), Hp, map_map; done).
  constructor; [by exists state0|done| | |].
  - intros id. by rewrite <- !list_elem_of_In, Hk.
  - by rewrite Hk.
  - intros id run Ha%assoc_In. by eapply recover_runs_started.
Qed.

Lemma healthy_recoverable access worker_identity j state : _connect access = Ok tt -> healthy j state ->
  exists rs, recoverable_runs access true worker_identity j = Ok rs /\ forall x, In x rs <-> unfinished worker_identity state x.
Proof.
  intros Hc Hh. unfold Cleanup.recoverable_runs. rewrite Hc, (healthy_journal _ _ _ _ _ Hh). cbn [res_bind negb].
  apply recover_runs_spec. intros id run Hin. apply (hl_started _ _ _ _ _ Hh id). apply assoc_In_nodup; [exact (hl_nodup _ _ _ _ _ Hh)|done].
Qed.

(** ** The start of a run *)

Record run_added (run_id : string) (payload : json) (j j' : Journal) : Prop := {
  rd_new : ~ In run_id (map fst (jn_runs j));
  rd_tables : exists created_at ev, jn_runs j' = jn_runs j ++ [(run_id, created_at)] /\ jn_events j' = jn_events j ++ [ev] /\
    event_of run_id "run_started" None payload ev;
}.

Lemma start_run_post run_id plan_id engagement_id worker_identity workspace_dir s :
  post (start_run run_id plan_id engagement_id worker_identity workspace_dir) s (fun r s' => cs_effects s' = cs_effects s /\
    forall x, r = Ok x -> run_added run_id (run_payload plan_id engagement_id worker_identity workspace_dir) (cs_journal s) (cs_journal s')).
Proof.
  unfold start_run. set (payload := run_payload _ _ _ _). apply post_catch, post_bind. unfold serialized.
  destruct (printable payload); cbn [negb]; [|unfold post, eff_lift; done]. unfold post at 1, eff_lift.
  eapply post_mono.
  { apply (transaction_post _ _ _ (run_added run_id payload (cs_journal s))). apply post_bind. unfold post at 1, utc_now.
    apply post_bind. unfold post at 1, insert_run. destruct (mem run_id _) eqn:Em; [split; [by repeat constructor|by right]|].
    apply mem_not_In in Em. unfold eff_lift, post, eff_bind, sys_uuid. split; [by repeat constructor|]. unfold insert_event.
    destruct (mem _ _); [by right|]. constructor; [done|]. eexists _, _. split; [done|]. split; [done|]. by repeat split. }
  assert (Hfail : forall e s', cs_effects s' = cs_effects s ->
    if is_persist_error e then post (A := unit) (if exc_cls e == IntegrityError
      then eff_lift (persistence_error ("cleanup journal already contains execution run '" +:+ run_id +:+ "'"))
      else eff_lift (persistence_error ("cannot persist cleanup run start: " +:+ exc_msg e))) s'
      (fun r s' => cs_effects s' = cs_effects s /\ forall x, r = Ok x -> run_added run_id payload (cs_journal s) (cs_journal s'))
    else cs_effects s' = cs_effects s /\ forall x : unit, Raise e = Ok x -> run_added run_id payload (cs_journal s) (cs_journal s')).
  { intros e s' He. destruct (is_persist_error e); [|done]. by destruct (_ == _). }
  intros r s' (He & t & _ & [(_ & _ & e & -> & _)|(_ & Hadd & [->|(e & -> & _)])]); [by apply Hfail|done|by apply Hfail].
Qed.
Context `{!MachineOk}.

(** The ledger a worker begins with, and what that has written. *)
Lemma new_ledger_post plan_id engagement_id worker_identity run_id workspace_dir s :
  post (new_ledger journal_path plan_id engagement_id worker_identity true run_id workspace_dir [] true) s (fun r s' => forall l, r = Ok l ->
    cs_effects s' = [] /\ lg_plan_id l = plan_id /\ lg_engagement_id l = engagement_id /\ lg_default_owner l = worker_identity /\
    lg_journal l = true /\ lg_run_id l <> "" /\
    (forall p, lg_workspace_dir l = Some p -> normal p /\ assert_external_to journal_path p = Ok tt) /\
    run_added (lg_run_id l) (run_payload plan_id engagement_id worker_identity (lg_workspace_dir l)) (cs_journal s) (cs_journal s')).
Proof.
  unfold new_ledger. eapply (post_seq _ _ _ (fun r s' => cs_journal s' = cs_journal s /\ forall id, r = Ok id -> id <> "")).
  - destruct run_id as [[|c id]|]; cbn; (split; [done|]); by intros ? [= <-].
  - intros id s1 [Hj Hid]. specialize (Hid id eq_refl). cbv zeta. set (ws := option_map _ workspace_dir).
    apply post_bind. unfold post at 1, set_effects. apply post_bind. cbn [cs_journal cs_actions].
    assert (Hws : forall p, ws = Some p -> normal p).
    { intros p. unfold ws. destruct workspace_dir as [w|]; [|done]. intros [= <-]. apply abspath_normal, cwd_rooted. }
    apply post_bind. destruct ws as [p|] eqn:Ews.
    + unfold post at 1, eff_lift. destruct (assert_external_to journal_path p) as [[]|e] eqn:Ex; [|done].
      eapply post_mono; [apply start_run_post|]. intros [[]|e] s2 [He Hadd]; [|done]. cbn [cs_journal cs_effects] in *.
      intros l [= <-]. cbn. split_and!; try done; [by intros ? [= <-]; auto|]. rewrite <- Hj. exact (Hadd tt eq_refl).
    + unfold post at 1, eff_ret. eapply post_mono; [apply start_run_post|]. intros [[]|e] s2 [He Hadd]; [|done].
      cbn [cs_journal cs_effects] in *. intros l [= <-]. cbn. split_and!; try done. rewrite <- Hj. exact (Hadd tt eq_refl).
  - done.
Qed.

(** By position, when every effect entered the ledger. *)
Lemma follows_positions failed behind j run effects : follows failed behind j run effects -> ~ In None failed ->
  length (rn_effects run) = length effects /\
  forall i e, effects !! i = Some e -> exists r, map snd (rn_effects run) !! i = Some r /\ recovered_as failed behind i e r.
Proof.
  intros [Hk Hn He Ho] Hnone. specialize (Ho Hnone). split.
  { apply (f_equal length) in Ho. by rewrite !length_map in Ho. }
  intros i e Hi. destruct (He i e Hi) as (r & Hr & Hra). exists r. split; [|done].
  assert (Hid : map fst (rn_effects run) !! i = Some (se_effect_id e)) by (rewrite Ho, list_lookup_fmap, Hi; done).
  apply list_lookup_fmap_Some in Hid as ([k r'] & Hkey & Hlook). cbn in Hkey. rewrite list_lookup_fmap, Hlook. cbn. f_equal.
  assert (Ha : assoc k (rn_effects run) = Some r').
  { apply assoc_In_nodup; [by rewrite Ho|]. by apply list_elem_of_In, list_elem_of_lookup_2 with i. }
  congruence.
Qed.

Lemma started_tracked plan_id engagement_id worker_identity run_id workspace_dir s0 s1 l state0 :
  plan_id <> "" -> engagement_id <> "" -> worker_identity <> "" -> healthy (cs_journal s0) state0 ->
  new_ledger journal_path plan_id engagement_id worker_identity true run_id workspace_dir [] true s0 = (Ok l, s1) ->
  tracked read_schema report_semantics journal_path l state0 [] [] s1 /\ ~ In (lg_run_id l) (map fst state0).
Proof.
  intros Hp He Hw Hh Hnew. pose proof (post_run _ _ _ _ _ (new_ledger_post _ _ _ _ _ s0) Hnew l eq_refl) as
    (Heff & Hlp & Hle & Hlw & _ & Hid & Hws & [Hni (created_at & ev & Hruns & Hevents & Hev)]).
  assert (Hbegun := replay_begun read_schema report_semantics journal_path _ _ _ _ _ _ Hev Hp He Hw Hws).
  edestruct (healthy_start read_schema report_semantics journal_path) as (state1 & Hh1 & Hp1);
    [exact Hh|exact Hid|exact Hni|exact Hruns|exact Hevents|exact (proj1 Hev)|exact Hbegun|by eexists|].
  assert (Hni0 : ~ In (lg_run_id l) (map fst state0)) by (by rewrite (hl_keys _ _ _ _ _ Hh)).
  split; [|done]. pose proof (hl_nodup _ _ _ _ _ Hh1) as Hnd.
  eexists state1, _. split; [done|]. split; [rewrite (assoc_perm _ _ _ Hnd Hp1); cbn [assoc]; by rewrite eqb_refl|].
  split; [unfold started; by rewrite Hlp, Hle, Hlw|]. split; [done|]. split.
  - intros id Hne. rewrite (assoc_perm _ _ _ Hnd Hp1). cbn [assoc]. by rewrite (proj2 (eqb_neq _ _) Hne).
  - rewrite Heff. constructor; [done|constructor|done|done].
Qed.

(** C23. A worker that restarts finds in the journal what its ledger held.  Whatever valid
    calls it made, and however they failed (refused, not written, or written and reported
    as failed), the journal can be recovered: the runs that were there before are
    unchanged, and the run of this ledger has every effect of the ledger, as it was
    recorded, with its creation identity.  Its status is the same unless a transition of
    it failed last; and an effect of which no call failed is exactly the same.  When no
    recording failed the effects are the ledger's, in their order.  So no effect of which
    the worker could have known is forgotten by a crash. *)
Theorem recovery_refines_ledger plan_id engagement_id worker_identity run_id workspace_dir access s0 s1 l failed behind s before :
  plan_id <> "" -> engagement_id <> "" -> worker_identity <> "" -> NoDup (map fst (jn_runs (cs_journal s0))) ->
  recoverable_runs access true worker_identity (cs_journal s0) = Ok before ->
  new_ledger journal_path plan_id engagement_id worker_identity true run_id workspace_dir [] true s0 = (Ok l, s1) ->
  history l s1 failed behind s ->
  exists after run, recoverable_runs access true worker_identity (cs_journal s) = Ok after /\ incl before after /\ In run after /\
    rc_run_id run = lg_run_id l /\ rc_plan_id run = plan_id /\ rc_engagement_id run = engagement_id /\
    rc_worker_identity run = worker_identity /\ rc_workspace_dir run = lg_workspace_dir l /\
    (forall i e, cs_effects s !! i = Some e -> exists r, In r (rc_effects run) /\ recovered_as failed behind i e r) /\
    (~ In None failed -> length (rc_effects run) = length (cs_effects s) /\
      forall i e, cs_effects s !! i = Some e -> exists r, rc_effects run !! i = Some r /\ recovered_as failed behind i e r).
Proof.
  intros Hp He Hw Hnd Hbefore Hnew Hhist.
  destruct (recoverable_healthy _ _ _ _ Hnd Hbefore) as (Hc & state0 & Hh0 & Hr0).
  destruct (started_tracked _ _ _ _ _ _ _ _ _ Hp He Hw Hh0 Hnew) as [Ht1 Hni].
  pose proof (post_run _ _ _ _ _ (new_ledger_post _ _ _ _ _ s0) Hnew l eq_refl) as (_ & Hlp & Hle & Hlw & Hlj & _ & Hws & _).
  assert (Htexts : lg_plan_id l <> "" /\ lg_engagement_id l <> "" /\ lg_default_owner l <> "") by (by rewrite Hlp, Hle, Hlw).
  destruct (history_tracked _ _ _ _ Hlj Htexts _ _ _ _ _ Ht1 Hhist) as (state & run & Hh & Ha & Hst & Hrec & Hothers & Hfo).
  destruct (healthy_recoverable access worker_identity _ _ Hc Hh) as (after & Hafter & Hin).
  destruct (healthy_recoverable access worker_identity _ _ Hc Hh0) as (before' & Hbefore' & Hin0).
  assert (before' = before) as -> by congruence.
  exists after, (recovered_run (lg_run_id l) (started l) run). split; [done|]. split; [|split].
  - intros x (id & run0 & st0 & Hi & Hrest)%Hin0. apply Hin. exists id, run0, st0. split; [|done].
    assert (Hne : id <> lg_run_id l) by (intros ->; apply Hni, in_map_iff; by exists (lg_run_id l, run0)).
    apply assoc_In. rewrite (Hothers id Hne). apply assoc_In_nodup; [exact (hl_nodup _ _ _ _ _ Hh0)|done].
  - apply Hin. exists (lg_run_id l), run, (started l). split; [by apply assoc_In|]. split; [done|].
    split; [exact Hlw|]. split; [|done]. unfold run_finished. by rewrite Hrec.
  - split; [done|]. split; [exact Hlp|]. split; [exact Hle|]. split; [exact Hlw|]. split; [|split].
    + assert (Hf : field "workspace_dir" (started l) = match lg_workspace_dir l with Some p => JStr (path_text p) | None => JNull end) by done.
      cbn [recovered_run rc_workspace_dir]. rewrite Hf. destruct (lg_workspace_dir l) as [p|]; [|done].
      destruct (Hws p eq_refl) as [Hn _]. by rewrite (parse_normal p Hn).
    + intros i e Hi. destruct (fo_effects _ _ _ _ _ Hfo i e Hi) as (r & Hr & Hra). exists r. split; [|done].
      apply in_map_iff. exists (se_effect_id e, r). split; [done|]. by apply assoc_In.
    + intros Hnone. destruct (follows_positions _ _ _ _ _ Hfo Hnone) as [Hlen Hpos]. split; [|exact Hpos].
      cbn. by rewrite length_map.
Qed.
End Runs.

(** ** A crash after a commit that was reported as failed *)

(** The machine of the rollback, but the commit after [k] others is applied and reported
    as failed. *)
Definition count_appends (t : actions) : nat := length (List.filter (fun ev => match ev with AcAppend _ _ _ => true | _ => false end) t).
Definition shaky_access (k : nat) (t : actions) : JournalAccess :=
  {| ja_parent := Ok private_dir; ja_link := false; ja_file := Some (Ok private_file); ja_sqlite := true;
     ja_commit := if Nat.eqb (count_appends t) k then CommitUnreported else Committed |}.
Definition shaky_machine (k : nat) : Machine := {|
  mc_open := @mc_open demo_machine; mc_stat := @mc_stat demo_machine; mc_fstat := @mc_fstat demo_machine;
  mc_lexists := @mc_lexists demo_machine; mc_do := @mc_do demo_machine; mc_access := shaky_access k;
  mc_uuid := fun t => take_prefix 16 (pretty (Z.of_nat (length t)) +:+ "0000000000000000"); mc_now := @mc_now demo_machine;
  mc_scratch := @mc_scratch demo_machine; mc_cwd := "/srv"; mc_euid := 1000; uuid5_hex := fun s => s
|}.

Lemma shaky_machine_ok k : @MachineOk (shaky_machine k).
Proof. constructor; [done|done|]. cbn. by intros _ _ found [= <-]. Defined.

Definition empty_journal : CleanupState :=
  {| cs_journal := {| jn_version := Some "1"; jn_runs := []; jn_events := [] |}; cs_effects := []; cs_actions := [] |}.
Definition journal_file : Path := parse_path "/var/journal.db".

Definition demo_begin : res SideEffectLedger * CleanupState :=
  @new_ledger hex_host (shaky_machine 3) journal_file "plan-0123456789abcdef" "eng-demo1" "worker-1" true None (Some (parse_path "/w")) [] true
    empty_journal.
Definition demo_ledger : SideEffectLedger := {|
  lg_plan_id := "plan-0123456789abcdef"; lg_engagement_id := "eng-demo1"; lg_default_owner := "worker-1"; lg_journal := true;
  lg_run_id := "run-0000000000000000"; lg_workspace_dir := Some (parse_path "/w")
|}.
Definition demo_call (c : ledger_call) (s : CleanupState) : res unit * CleanupState := @run_call hex_host (shaky_machine 3) demo_ledger c s.

Definition demo_file : ledger_call := RecordEffect "step-1" "file" "/w/a" "delete" None [("note", JStr "x")].
Definition demo_cleaning : ledger_call := Transition 0 "cleaning" [("quarantine_target", JStr "/w/.q/resource")].
Definition demo_crashed : CleanupState :=
  snd (demo_call demo_cleaning (snd (demo_call (RecordIdentity 0 5) (snd (demo_call demo_file (snd demo_begin)))))).

(** The ledger says the effect is pending, the journal that its cleanup has begun. *)
Example demo_recovered :
  map se_status (cs_effects demo_crashed) = ["pending"] /\
  match @recoverable_runs hex_host (shaky_machine 3) any_schema no_reports journal_file good_access true "worker-1" (cs_journal demo_crashed) with
  | Ok runs => map (fun run => (rc_run_id run, map (fun e => (se_target e, se_status e, se_creation_identity e)) (rc_effects run))) runs
  | Raise _ => []
  end = [("run-0000000000000000", [("/w/a", "cleaning", Some (from_stat "file" demo_stat))])].
Proof. split; vm_compute; reflexivity. Qed.

Lemma recovery_refines_ledger_witness : exists after run,
  @recoverable_runs hex_host (shaky_machine 3) any_schema no_reports journal_file good_access true "worker-1" (cs_journal demo_crashed) = Ok after /\
  In run after /\ rc_run_id run = "run-0000000000000000" /\
  forall i e, cs_effects demo_crashed !! i = Some e -> exists r, In r (rc_effects run) /\ recovered_as [Some 0%nat] [Some 0%nat] i e r.
Proof.
  assert (Hnew : demo_begin = (Ok demo_ledger, snd demo_begin)) by (vm_compute; reflexivity).
  assert (Hhist : @history hex_host (shaky_machine 3) demo_ledger (snd demo_begin) [Some 0%nat] [Some 0%nat] demo_crashed).
  { eapply (@called hex_host (shaky_machine 3) demo_ledger (snd demo_begin) [] [] _ demo_cleaning (Raise _)).
    - eapply (@called hex_host (shaky_machine 3) demo_ledger (snd demo_begin) [] [] _ (RecordIdentity 0 5) (Ok tt)).
      + eapply (@called hex_host (shaky_machine 3) demo_ledger (snd demo_begin) [] [] _ demo_file (Ok tt)).
        * apply begun.
        * split; [vm_compute; intuition congruence|]. split; [reflexivity|]. vm_compute. intuition congruence.
        * unfold demo_crashed. vm_compute. reflexivity.
      + intros [].
      + vm_compute. reflexivity.
    - split; [vm_compute; auto|reflexivity].
    - vm_compute. reflexivity. }
  destruct (@recovery_refines_ledger hex_host (shaky_machine 3) any_schema no_reports journal_file (shaky_machine_ok 3) "plan-0123456789abcdef" "eng-demo1"
    "worker-1" None (Some (parse_path "/w")) good_access empty_journal (snd demo_begin) demo_ledger [Some 0%nat] [Some 0%nat] demo_crashed [])
    as (after & run & Hok & _ & Hin & Hid & _ & _ & _ & _ & Heff & _);
    [discriminate|discriminate|discriminate|constructor|vm_compute; reflexivity|exact Hnew|exact Hhist|].
  exists after, run. split; [exact Hok|]. split; [exact Hin|]. split; [exact Hid|exact Heff].
Defined.

(** An effect with an empty target is recorded, and nothing can be recovered any more. *)
Example empty_target_unrecoverable :
  let after := demo_call (RecordEffect "step-1" "file" "" "delete" None []) (snd demo_begin) in
  fst after = Ok tt /\
  @recoverable_runs hex_host (shaky_machine 3) any_schema no_reports journal_file good_access true "worker-1" (cs_journal (snd after)) =
    persistence_error "cleanup journal contains invalid event data: side-effect string fields must be non-empty".
Proof. split; vm_compute; reflexivity. Qed.

(** Recording an identity again after such a failure also leaves a journal that cannot be
    recovered: the ledger accepts the retry, the replay does not. *)
Example identity_retry_unrecoverable :
  let call c s := @run_call hex_host (shaky_machine 2) demo_ledger c s in
  let begin := @new_ledger hex_host (shaky_machine 2) journal_file "plan-0123456789abcdef" "eng-demo1" "worker-1" true None
    (Some (parse_path "/w")) [] true empty_journal in
  let first := call (RecordIdentity 0 5) (snd (call demo_file (snd begin))) in
  let retry := call (RecordIdentity 0 5) (snd first) in
  (match fst first with Raise e => exc_cls e == CleanupPersistenceError | Ok _ => false end) = true /\ fst retry = Ok tt /\
  @recoverable_runs hex_host (shaky_machine 2) any_schema no_reports journal_file good_access true "worker-1" (cs_journal (snd retry)) =
    persistence_error ("cleanup journal contains invalid event data: " +:+
      "creation identity must be recorded once while the effect is pending").
Proof. split_and!; vm_compute; reflexivity. Qed.
