(* ===== verification/ApprovalStoreProps.v ===== *)
(** * The approval store: properties

    Every operation refines an abstract store in which an authorization moves once
    from approved to consumed or expired; over any history of calls an
    authorization is consumed at most once, retries of a consumption request are
    idempotent, and only what was verified is consumed. *)

From S2P Require Import Prelude Lifecycle PyStr Json JsonParse JsonFacts Canonical Documents Timestamp.
From S2P Require Import Schema Contracts Models ContractProps Authorization AuthorizationProps.
From S2P Require Import ApprovalStore.

(** ** Rows *)

Definition ids (s : ApprovalStore) : list string := map ap_authorization_id (approvals s).
Definition request_ids (s : ApprovalStore) : list string := map cr_request_id (approval_consumptions s).

Lemma find_key {A} (key : A -> string) k (l : list A) x :
  List.find (fun r => key r == k) l = Some x -> key x = k /\ In x l.
Proof. intros [H1 H2%eqb_true]%find_some. done. Qed.

Lemma find_key_none {A} (key : A -> string) k (l : list A) :
  List.find (fun r => key r == k) l = None <-> ~ In k (map key l).
Proof.
  split.
  - intros Hn (x & <- & Hx)%in_map_iff. pose proof (find_none _ _ Hn x Hx) as H. simpl in H. by rewrite eqb_refl in H.
  - intros Hn. destruct (List.find _ l) eqn:E; [|done]. apply find_key in E as [<- Hx].
    exfalso. apply Hn. by apply in_map.
Qed.

Lemma find_key_unique {A} (key : A -> string) (l : list A) x :
  NoDup (map key l) -> In x l -> List.find (fun r => key r == key x) l = Some x.
Proof.
  induction l as [|y l IH]; [done|]. simpl. inversion 1 as [|? ? Hy Hnd]; subst. intros [->|Hin]; [by rewrite eqb_refl|].
  destruct (key y == key x) eqn:E; [|by apply IH]. apply eqb_true in E. exfalso. apply Hy.
  rewrite E. apply list_elem_of_In. by apply in_map.
Qed.

Lemma find_append {A} (p : A -> bool) l r :
  List.find p (l ++ r) = match List.find p l with Some x => Some x | None => List.find p r end.
Proof. induction l as [|x l IH]; [done|]. simpl. by destruct (p x). Qed.

(** An update that keeps the keys. *)
Lemma find_map_update {A} (key : A -> string) (p : A -> bool) f k (l : list A) :
  (forall r, key (f r) = key r) ->
  List.find (fun r => key r == k) (map (fun r => if p r then f r else r) l) =
  (fun r => if p r then f r else r) <$> List.find (fun r => key r == k) l.
Proof.
  intros Hf. induction l as [|r l IH]; [done|]. simpl.
  assert (key (if p r then f r else r) = key r) as -> by (destruct (p r); by rewrite ?Hf).
  by destruct (key r == k).
Qed.

Lemma map_update_keys {A B} (key : A -> B) (p : A -> bool) f (l : list A) :
  (forall r, key (f r) = key r) -> map key (map (fun r => if p r then f r else r) l) = map key l.
Proof. intros Hf. rewrite map_map. apply map_ext. intros r. by destruct (p r). Qed.

(** ** The abstract store

    What one call may do: add a fresh row, move an approved row to expired or
    consumed, the latter possibly with the one record of its consumption, and the
    migration at opening. *)
Inductive store_step : ApprovalStore -> ApprovalStore -> Prop :=
| step_insert s r :
    select_approval (ap_authorization_id r) s = None ->
    store_step s {| approvals := approvals s ++ [r]; approval_consumptions := approval_consumptions s |}
| step_expire s id row :
    select_approval id s = Some row -> ap_status row = "approved" -> store_step s (fst (expire_row id s))
| step_consume s id row now_str worker :
    select_approval id s = Some row -> ap_status row = "approved" ->
    store_step s (fst (consume_row id now_str worker s))
| step_consume_request s row record :
    select_approval (cr_authorization_id record) s = Some row -> ap_status row = "approved" ->
    select_consumption (cr_request_id record) s = None ->
    ~ In (cr_authorization_id record) (map cr_authorization_id (approval_consumptions s)) ->
    store_step s
      {| approvals := approvals (fst (consume_row (cr_authorization_id record) (cr_created_at record)
                                        (cr_worker_identity record) s));
         approval_consumptions := approval_consumptions s ++ [record] |}
| step_migrate s columns : store_step s (_init_db columns s).

Definition store_step_opt (s s' : ApprovalStore) : Prop := s' = s \/ store_step s s'.

(** The invariant of the tables. *)
Record store_ok (s : ApprovalStore) : Prop := {
  ok_ids : NoDup (ids s);
  ok_request_ids : NoDup (request_ids s);
  ok_consumed : NoDup (map cr_authorization_id (approval_consumptions s));
  ok_records : forall record, In record (approval_consumptions s) ->
    exists row, select_approval (cr_authorization_id record) s = Some row /\
      ap_status row <> "approved" /\ ap_consumed_at row = Some (cr_created_at record) /\
      ap_consumed_by_worker row = Some (cr_worker_identity record);
}.

(** A row once it is no longer approved. *)
Definition spent (id : string) (s : ApprovalStore) : Prop :=
  exists row, select_approval id s = Some row /\ ap_status row <> "approved".

Lemma select_expire id id' s :
  select_approval id' (fst (expire_row id s)) =
  (fun r => if ap_authorization_id r == id then set_status "expired" r else r) <$> select_approval id' s.
Proof. unfold select_approval, expire_row, update_where. simpl. by apply find_map_update. Qed.

Lemma select_consume id now_str worker id' s :
  select_approval id' (fst (consume_row id now_str worker s)) =
  (fun r => if (ap_authorization_id r == id) && (ap_status r == "approved") then set_consumed now_str worker r else r)
    <$> select_approval id' s.
Proof. unfold select_approval, consume_row, update_where. simpl. by apply find_map_update. Qed.

Lemma select_migrate columns id s :
  exists f, (forall r, ap_status (f r) = ap_status r \/ ap_status (f r) = "legacy-untrusted") /\
    (forall r, ap_consumed_at (f r) = ap_consumed_at r /\ ap_consumed_by_worker (f r) = ap_consumed_by_worker r) /\
    ids (_init_db columns s) = ids s /\
    select_approval id (_init_db columns s) = f <$> select_approval id s.
Proof.
  unfold _init_db, select_approval, ids. simpl.
  destruct (negb (has_signature_algorithm columns) || negb (has_signing_key_id columns)) eqn:E.
  - exists (fun r => mark_legacy (with_legacy_columns columns r)). rewrite !map_map.
    split; [by right|]. split; [done|]. split; [by apply map_ext|].
    rewrite <- (find_map_update ap_authorization_id (fun _ => true)) by done. done.
  - exists (with_legacy_columns columns). rewrite !map_map. split; [by left|]. split; [done|].
    split; [by apply map_ext|]. rewrite <- (find_map_update ap_authorization_id (fun _ => true)) by done. done.
Qed.

Lemma step_consumptions s s' :
  store_step s s' ->
  approval_consumptions s' = approval_consumptions s \/
  exists record, approval_consumptions s' = approval_consumptions s ++ [record] /\
    select_consumption (cr_request_id record) s = None.
Proof. destruct 1; auto. right. by eexists. Qed.

(** A row that is not approved keeps its consumption and never becomes approved. *)
Lemma spent_row_kept id s s' row :
  store_step s s' -> select_approval id s = Some row -> ap_status row <> "approved" ->
  exists row', select_approval id s' = Some row' /\ ap_status row' <> "approved" /\
    ap_consumed_at row' = ap_consumed_at row /\ ap_consumed_by_worker row' = ap_consumed_by_worker row.
Proof.
  intros Hstep Hrow Hst. pose proof (proj2 (eqb_neq (ap_status row) "approved") Hst) as Hneq.
  destruct Hstep as [s r Hr|s id' row' H1 H2|s id' row' now worker H1 H2|s row' record' H1 H2 H3 H4|s columns].
  - exists row. split; [|done]. unfold select_approval in *. simpl. by rewrite find_append, Hrow.
  - exists (if ap_authorization_id row == id' then set_status "expired" row else row). rewrite select_expire, Hrow.
    split; [done|]. by destruct (ap_authorization_id row == id').
  - exists row. rewrite select_consume, Hrow. simpl. by rewrite Hneq, andb_false_r.
  - exists row. change (select_approval id _) with (select_approval id
      (fst (consume_row (cr_authorization_id record') (cr_created_at record') (cr_worker_identity record') s))).
    rewrite select_consume, Hrow. simpl. by rewrite Hneq, andb_false_r.
  - destruct (select_migrate columns id s) as (f & Hf & Hc & _ & ->). rewrite Hrow. exists (f row). split; [done|].
    destruct (Hc row). split; [|done]. destruct (Hf row) as [-> | ->]; done.
Qed.

Lemma step_spent id s s' : store_step s s' -> spent id s -> spent id s'.
Proof.
  intros Hstep (row & Hrow & Hst). destruct (spent_row_kept id s s' row Hstep Hrow Hst) as (row' & ? & ? & _).
  by exists row'.
Qed.

Lemma step_consumed_row s id row now_str worker :
  select_approval id s = Some row -> ap_status row = "approved" ->
  select_approval id (fst (consume_row id now_str worker s)) = Some (set_consumed now_str worker row).
Proof.
  intros Hrow Hst. rewrite select_consume, Hrow. simpl. rewrite Hst, eqb_refl.
  apply find_key in Hrow as [-> _]. by rewrite eqb_refl.
Qed.

Lemma step_ids s s' : store_step s s' -> NoDup (ids s) -> NoDup (ids s').
Proof.
  intros Hstep Hnd. unfold ids in *.
  destruct Hstep as [s r Hr|s id' row' H1 H2|s id' row' now worker H1 H2|s row' record' H1 H2 H3 H4|s columns].
  - simpl. rewrite map_app, NoDup_app. split; [done|]. split; [|by apply NoDup_singleton].
    intros k Hk. simpl. rewrite list_elem_of_singleton. intros ->. unfold select_approval in Hr.
    rewrite find_key_none in Hr. by apply Hr, list_elem_of_In.
  - simpl. by rewrite map_update_keys.
  - simpl. by rewrite map_update_keys.
  - simpl. by rewrite map_update_keys.
  - destruct (select_migrate columns "" s) as (_ & _ & _ & Hids & _). unfold ids in Hids. by rewrite Hids.
Qed.

(** The invariant holds of every reachable store. *)
Lemma step_store_ok s s' : store_step s s' -> store_ok s -> store_ok s'.
Proof.
  intros Hstep [Hids Hreq Hcons Hrec]. assert (Hkept : forall record, In record (approval_consumptions s) ->
    exists row, select_approval (cr_authorization_id record) s' = Some row /\ ap_status row <> "approved" /\
      ap_consumed_at row = Some (cr_created_at record) /\ ap_consumed_by_worker row = Some (cr_worker_identity record)).
  { intros record (row & Hrow & Hst & Hat & Hby)%Hrec.
    destruct (spent_row_kept _ s s' row Hstep Hrow Hst) as (row' & ? & ? & E1 & E2). exists row'. by rewrite E1, E2. }
  pose proof (step_ids s s' Hstep Hids) as Hids'.
  destruct Hstep as [s r Hr|s id' row' H1 H2|s id' row' now worker H1 H2|s row' record' H1 H2 H3 H4|s columns];
    try (by constructor). constructor.
  - done.
  - unfold request_ids. simpl. rewrite map_app, NoDup_app. split; [done|]. split; [|by apply NoDup_singleton].
    intros k Hk. simpl. rewrite list_elem_of_singleton. intros ->. unfold select_consumption in H3.
    rewrite find_key_none in H3. by apply H3, list_elem_of_In.
  - simpl. rewrite map_app, NoDup_app. split; [done|]. split; [|by apply NoDup_singleton].
    intros k Hk. simpl. rewrite list_elem_of_singleton. intros ->. by apply H4, list_elem_of_In.
  - simpl. intros record [Hin|[<-|[]]]%in_app_iff; [by apply Hkept|].
    exists (set_consumed (cr_created_at record') (cr_worker_identity record') row'). split; [|done].
    exact (step_consumed_row s _ row' _ _ H1 H2).
Qed.

(** ** The operations refine the abstract store *)

Lemma conflict_on_integrity_ok {A} (r : res A) a : conflict_on_integrity r = Ok a <-> r = Ok a.
Proof. by apply catch_ok. Qed.

Lemma transaction_commit {A} s (body : res (ApprovalStore * res A)) s' r :
  transaction s body = (s', r) -> body = Ok (s', r) \/ s' = s /\ is_ok r = false.
Proof. unfold transaction. destruct body as [[? ?]|]; intros [= <- <-]; auto. Qed.

Lemma bind_text_ok v t : bind_text v = Ok t <-> v = JStr t.
Proof. destruct v; simpl; split; intros [= ->] || intros [=]; done. Qed.

Lemma insert_consumption_ok record s s' :
  insert_consumption record s = Ok s' ->
  s' = {| approvals := approvals s; approval_consumptions := approval_consumptions s ++ [record] |} /\
  select_consumption (cr_request_id record) s = None /\
  ~ In (cr_authorization_id record) (map cr_authorization_id (approval_consumptions s)).
Proof.
  unfold insert_consumption. intros Hi. guard_ok Hi. destruct (select_approval _ s); [|done]. injection Hi as <-.
  split; [done|].
  assert (Hno : forall r, In r (approval_consumptions s) ->
    cr_request_id r <> cr_request_id record /\ cr_authorization_id r <> cr_authorization_id record).
  { intros r Hr. pose proof (proj1 (existsb_false _ _) Heqb r Hr) as E. simpl in E. by simpl_bool. }
  split.
  - apply find_key_none. intros (r & Hr & Hin)%in_map_iff. by destruct (Hno r Hin).
  - intros (r & Hr & Hin)%in_map_iff. by destruct (Hno r Hin).
Qed.

Section Operations.
Context `{Host}.
Context (read_schema : string -> option json) (report_semantics : string -> json -> res unit) (platform : Platform).

Notation consume := (atomically_consume read_schema report_semantics).
Notation consume_request := (atomically_consume_request read_schema report_semantics platform).

(** What the checks before a consumption establish. *)
Definition verified_row (row : Approval) (extra : list (string * json)) (expected : ExecutionAuthorization)
    (worker : string) (now : Z) (items : list (string * json)) : Prop :=
  exists bound text issued,
    loads_bytes (ap_bound_parameters_json row) = Ok bound /\ items = row_items row bound ++ extra /\
    canonical (JObj items) = Ok text /\ canonical (to_dict expected) = Ok text /\
    get "worker_identity" bound = Some (JStr worker) /\
    timestamp (JStr (ap_issued_at row)) = Ok issued /\ issued <= now.

Lemma check_stored_row_ok row extra expected worker now items :
  check_stored_row row extra expected worker now = Ok items ->
  ap_status row = "approved" /\ verified_row row extra expected worker now items.
Proof.
  unfold check_stored_row. intros Hc. guard_ok Hc. simpl_bool. split; [done|].
  apply res_bind_ok in Hc as (bound & Hb & Hc). apply res_bind_ok in Hc as (stored & Hs & Hc).
  apply res_bind_ok in Hc as (wanted & Hw & Hc). guard_ok Hc. simpl_bool. subst wanted.
  apply res_bind_ok in Hc as (w & Hwk & Hc). guard_ok Hc. simpl_bool.
  apply res_bind_ok in Hc as (issued & Hi & Hc). guard_ok Hc. simpl_bool. injection Hc as <-.
  exists bound, stored, issued. do 4 (split; [done|]). split; [|split; [done|lia]].
  match goal with E : str_is w _ = true |- _ => apply str_is_eq in E as -> end.
  unfold dict_get, assoc_default in Hwk. destruct bound; try done. simpl in *.
  destruct (assoc "worker_identity" items); [by injection Hwk as ->|done].
Qed.

(** The object made of a consumed row names the plan and engagement of the row. *)
Lemma consumed_fields row bound now_str worker c :
  from_dict (A := ExecutionAuthorization) read_schema report_semantics
    (consumed_doc (row_items row bound ++ []) now_str worker) = Ok c ->
  auth_action_plan_id c = JStr (ap_action_plan_id row) /\ auth_plan_digest c = JStr (ap_plan_digest row) /\
  auth_engagement_id c = JStr (ap_engagement_id row).
Proof.
  unfold from_dict. intros Hv. apply res_bind_ok in Hv as (_ & _ & Hv).
  change (ExecutionAuthorization_of_dict (consumed_doc (row_items row bound ++ []) now_str worker) = Ok c) in Hv.
  unfold ExecutionAuthorization_of_dict in Hv.
  repeat (let v := fresh "v" in let Hv1 := fresh "Hv" in apply res_bind_ok in Hv as (v & Hv1 & Hv);
          vm_compute in Hv1; injection Hv1 as <-).
  by injection Hv as <-.
Qed.

(** The outcomes of a consumption. *)
Lemma consume_cases now_iso s id expected worker time minimum s' r :
  consume now_iso s id expected worker time minimum = (s', r) ->
  s' = s /\ is_ok r = false \/
  exists row now items until,
    select_approval id s = Some row /\ ap_status row = "approved" /\
    timestamp (JStr (time_or time now_iso)) = Ok now /\
    verified_row row (consumption_items row) expected worker now items /\
    timestamp (JStr (ap_authorized_until_utc row)) = Ok until /\
    (until <= now /\ s' = fst (expire_row id s) /\ is_ok r = false \/
     now < until /\ s' = fst (consume_row id (time_or time now_iso) worker s) /\
     r = from_dict read_schema report_semantics (consumed_doc items (time_or time now_iso) worker) /\
     exists m, check_minimum minimum = Ok m /\ num_ltb (true_div (until - now) us_per_second) m = false).
Proof.
  unfold atomically_consume. destruct (check_minimum minimum) as [m|] eqn:Hm; [|intros [= <- <-]; by left].
  intros [Hb|]%transaction_commit; [|by left]. right. cbv zeta in Hb.
  apply res_bind_ok in Hb as (now & Hnow & Hb). destruct (select_approval id s) as [row|] eqn:Hrow; [|done].
  apply res_bind_ok in Hb as (items & (Hst & Hver)%check_stored_row_ok & Hb).
  apply res_bind_ok in Hb as (until & Hu & Hb). exists row, now, items, until. do 5 (split; [done|]).
  destruct (until <=? now) eqn:E; simpl_bool.
  - left. simpl in Hb. injection Hb as <- <-. split; [lia|done].
  - right. split; [lia|]. guard_ok Hb. injection Hb as <- <-. split; [done|]. split; [done|]. by exists m.
Qed.

Lemma consume_request_cases files now_iso s rid rdigest target expected worker uid time s' r :
  consume_request files now_iso s rid rdigest target expected worker uid time = (s', r) ->
  s' = s /\ is_ok r = false \/
  (exists prior, select_consumption rid s = Some prior /\ s' = s /\ r = Ok prior /\
    _assert_matching_consumption prior
      {| rq_request_digest := rdigest; rq_authorization_id := auth_authorization_id expected;
         rq_action_plan_id := auth_action_plan_id expected; rq_plan_digest := auth_plan_digest expected;
         rq_engagement_id := auth_engagement_id expected; rq_worker_identity := worker; rq_target := target |} = Ok tt) \/
  exists id row now items until,
    select_consumption rid s = None /\ auth_authorization_id expected = JStr id /\
    select_approval id s = Some row /\ ap_status row = "approved" /\
    timestamp (JStr (time_or time now_iso)) = Ok now /\ verified_row row [] expected worker now items /\
    timestamp (JStr (ap_authorized_until_utc row)) = Ok until /\
    assert_protected_owner platform files uid = Ok tt /\
    (until <= now /\ s' = fst (expire_row id s) /\ is_ok r = false \/
     now < until /\ exists record,
       r = Ok record /\ cr_request_id record = rid /\ cr_request_digest record = rdigest /\
       cr_authorization_id record = id /\ cr_worker_identity record = worker /\ target = JStr (cr_target record) /\
       cr_created_at record = time_or time now_iso /\ cr_action_plan_id record = ap_action_plan_id row /\
       cr_plan_digest record = ap_plan_digest row /\ cr_engagement_id record = ap_engagement_id row /\
       ~ In id (map cr_authorization_id (approval_consumptions s)) /\
       s' = {| approvals := approvals (fst (consume_row id (time_or time now_iso) worker s));
               approval_consumptions := approval_consumptions s ++ [record] |}).
Proof.
  unfold atomically_consume_request. destruct (timestamp _) as [now|] eqn:Hnow; [|intros [= <- <-]; by left].
  intros [Hb|]%transaction_commit; [|by left]. rewrite conflict_on_integrity_ok in Hb. right.
  destruct (select_consumption rid s) as [prior|] eqn:Hprior.
  - left. apply res_bind_ok in Hb as ([] & Hm & [= <- <-]). by exists prior.
  - right. apply res_bind_ok in Hb as (id & Hid & Hb). destruct (select_approval id s) as [row|] eqn:Hrow; [|done].
    apply res_bind_ok in Hb as (items & (Hst & Hver)%check_stored_row_ok & Hb).
    apply res_bind_ok in Hb as (until & Hu & Hb). exists id, row, now, items, until.
    split; [done|]. split; [destruct (auth_authorization_id expected); try done; by injection Hid as ->|].
    do 5 (split; [done|]). destruct (until <=? now) eqn:E; simpl_bool.
    + cbn [expire_row update_where] in Hb. apply res_bind_ok in Hb as ([] & Hown & [= <- <-]).
      split; [done|]. left. split; [lia|done].
    + cbn [consume_row update_where] in Hb. guard_ok Hb. apply res_bind_ok in Hb as (consumed & Hcons & Hb).
      destruct Hver as (bound & text & issued & Hb1 & -> & Hver).
      apply consumed_fields in Hcons as (E1 & E2 & E3).
      apply res_bind_ok in Hb as (adigest & _ & Hb). rewrite E1, E2, E3 in Hb. cbn [bind_text res_bind] in Hb.
      apply res_bind_ok in Hb as (ttext & Htext & Hb). apply bind_text_ok in Htext as ->.
      apply res_bind_ok in Hb as (s2 & (-> & _ & Hfresh)%insert_consumption_ok & Hb).
      apply res_bind_ok in Hb as ([] & Hown & [= <- <-]). split; [done|]. right. split; [lia|].
      eexists. repeat (split; [reflexivity|]). split; [exact Hfresh|]. reflexivity.
Qed.

(** ** Histories

    A history is the calls on one store in the order their write transactions take
    effect; SQLite's write lock makes that order total. *)
Inductive call :=
| CallStore (now_iso : string) (auth : ExecutionAuthorization)
| CallConsume (now_iso id : string) (expected : ExecutionAuthorization) (worker : string) (time : option string)
    (minimum : json)
| CallConsumeRequest (files : StoreFiles) (now_iso rid rdigest : string) (target : json) (expected : ExecutionAuthorization)
    (worker : string) (uid : Z) (time : option string)
| CallOpen (files : StoreFiles) (columns : Columns).

(** The store after a call, and the authorization the call reports as newly consumed. *)
Definition exec (s : ApprovalStore) (c : call) : ApprovalStore * option string :=
  match c with
  | CallStore now_iso auth => (fst (store_authorization read_schema report_semantics now_iso s auth), None)
  | CallConsume now_iso id expected worker time minimum =>
      let (s', r) := consume now_iso s id expected worker time minimum in
      (s', if is_ok r then Some id else None)
  | CallConsumeRequest files now_iso rid rdigest target expected worker uid time =>
      let (s', r) := consume_request files now_iso s rid rdigest target expected worker uid time in
      (s', match r, select_consumption rid s with
           | Ok record, None => Some (cr_authorization_id record)
           | _, _ => None
           end)
  | CallOpen files columns => (fst (open_store platform files columns s), None)
  end.

Fixpoint run (s : ApprovalStore) (calls : list call) : ApprovalStore * list (option string) :=
  match calls with
  | [] => (s, [])
  | c :: calls' =>
      let (s', e) := exec s c in
      let (s'', es) := run s' calls' in (s'', e :: es)
  end.

Definition consumed_times (id : string) (events : list (option string)) : nat :=
  length (List.filter (fun e => e == Some id) events).

(** Every call is a step of the abstract store or leaves it as it was, and a call
    that reports a consumption found the row approved and leaves it spent. *)
Lemma exec_refines s c s' e :
  exec s c = (s', e) ->
  store_step_opt s s' /\
  forall id, e = Some id -> exists row now_str worker,
    select_approval id s = Some row /\ ap_status row = "approved" /\
    select_approval id s' = Some (set_consumed now_str worker row).
Proof.
  destruct c as [now_iso auth|now_iso id expected worker time minimum|files now_iso rid rdigest target expected worker uid
    time|files columns]; cbn [exec].
  - intros [<- <-]%pair_equal_spec. split; [|done]. unfold store_authorization.
    destruct (validate_contract _ _ _ _ _ _) as [d|]; [|by left].
    destruct (transaction s _) as [s' r] eqn:Ht. simpl.
    apply transaction_commit in Ht as [Hb|[-> _]]; [|by left]. rewrite conflict_on_integrity_ok in Hb.
    apply res_bind_ok in Hb as (row & _ & Hb). apply res_bind_ok in Hb as (s2 & Hi & [= <- <-]).
    unfold insert_approval in Hi. destruct (select_approval _ s) eqn:E; [done|]. injection Hi as <-. right. by constructor.
  - destruct (consume now_iso s id expected worker time minimum) as [s2 r] eqn:Hc. intros [= <- <-].
    apply consume_cases in Hc as [[-> Hr]|(row & now & items & until & Hrow & Hst & _ & _ & _ & [(_ & -> & Hr)|(_ & -> & -> & _)])].
    + rewrite Hr. split; [by left|done].
    + rewrite Hr. split; [|done]. right. by eapply step_expire.
    + split; [right; by eapply step_consume|]. destruct (is_ok _); [|done]. intros ? [= <-]. exists row. do 2 eexists.
      split; [done|]. split; [done|]. by apply step_consumed_row.
  - destruct (consume_request files now_iso s rid rdigest target expected worker uid time) as [s2 r] eqn:Hc.
    intros [= <- <-].
    apply consume_request_cases in Hc as [[-> Hr]|[(prior & Hp & -> & -> & _)|(id & row & now & items & until & Hnone & _ & Hrow & Hst & _ & _ & _ & _ &
      [(_ & -> & Hr)|(_ & record & -> & <- & _ & <- & <- & _ & <- & _ & _ & _ & Hfresh & ->)])]].
    + split; [by left|]. destruct r; [done|]. by destruct (select_consumption rid s).
    + rewrite Hp. split; [by left|done].
    + split; [right; by eapply step_expire|]. by destruct r.
    + rewrite Hnone. split; [right; by eapply step_consume_request|]. intros ? [= <-]. exists row. do 2 eexists.
      split; [done|]. split; [done|]. exact (step_consumed_row s _ row _ _ Hrow Hst).
  - intros [<- <-]%pair_equal_spec. split; [|done]. unfold open_store.
    destruct (_ensure_storage_security platform files) as [f|]; [right; constructor|by left].
Qed.

Lemma run_ok calls : forall s s' events,
  run s calls = (s', events) ->
  (store_ok s -> store_ok s') /\
  (forall id, spent id s -> spent id s' /\ consumed_times id events = 0%nat) /\
  (forall id, (consumed_times id events <= 1)%nat).
Proof.
  induction calls as [|c calls IH]; intros s s' events; simpl; [intros [= <- <-]; split_and!; [done|done|unfold consumed_times; simpl; lia]|].
  destruct (exec s c) as [s1 e] eqn:Hc. destruct (run s1 calls) as [s2 es] eqn:Hr. intros [= <- <-].
  apply exec_refines in Hc as [Hstep He]. apply IH in Hr as (Hok & Hsp & Hle).
  assert (Hs1 : forall id, spent id s -> spent id s1).
  { intros id Hs. destruct Hstep as [->|Hstep]; [done|]. by eapply step_spent. }
  assert (Hnot : forall id, spent id s -> e <> Some id).
  { intros id (row & Hrow & Hst) ->. destruct (He id eq_refl) as (row' & _ & _ & Hrow' & Hst' & _). congruence. }
  assert (Hnow : forall id, e = Some id -> spent id s1).
  { intros id (row & now_str & worker & _ & _ & Hrow)%He. by eexists. }
  split_and!.
  - intros Hs. apply Hok. destruct Hstep as [->|Hstep]; [done|]. by eapply step_store_ok.
  - intros id Hs. destruct (Hsp id (Hs1 id Hs)) as [? Hz]. split; [done|]. unfold consumed_times in *. simpl.
    by rewrite (proj2 (eqb_neq _ _) (Hnot id Hs)).
  - intros id. unfold consumed_times in *. simpl. destruct (e == Some id) eqn:E; simpl; [|apply Hle].
    apply eqb_true in E. destruct (Hsp id (Hnow id E)) as [_ Hz]. lia.
Qed.

(** C3. An authorization is consumed at most once: over every history of stores,
    direct consumptions, consumption requests and reopenings, from any store, at
    most one call reports having consumed a given authorization, and none does when
    its row is not approved to begin with; the tables stay consistent throughout. *)
Theorem consumed_at_most_once s calls s' events :
  run s calls = (s', events) ->
  (store_ok s -> store_ok s') /\
  (forall id, (consumed_times id events <= 1)%nat) /\
  (forall id row, select_approval id s = Some row -> ap_status row <> "approved" ->
     consumed_times id events = 0%nat /\
     exists row', select_approval id s' = Some row' /\ ap_status row' <> "approved").
Proof.
  intros (Hok & Hsp & Hle)%run_ok. split; [done|]. split; [done|]. intros id row Hrow Hst.
  destruct (Hsp id) as [(row' & ? & ?) ?]; [by exists row|]. split; [done|]. by exists row'.
Qed.

(** *** The one-use register

    What the store is for, without its tables: identifiers that are available once. *)
Inductive token := Available | Spent | Void.

Definition register : Type := string -> option token.

(** One call: nothing, a new entry, the use of an available entry (reported by the
    call, or by a call that fails after its commit), its expiry, or the retirement of
    the entries of an old table. *)
Inductive register_step (m m' : register) : option string -> Prop :=
| rg_keep : (forall id, m' id = m id) -> register_step m m' None
| rg_issue id t : m id = None -> m' id = Some t -> (forall id', id' <> id -> m' id' = m id') -> register_step m m' None
| rg_use id e : m id = Some Available -> m' id = Some Spent -> (forall id', id' <> id -> m' id' = m id') ->
    e = None \/ e = Some id -> register_step m m' e
| rg_expire id : m id = Some Available -> m' id = Some Void -> (forall id', id' <> id -> m' id' = m id') ->
    register_step m m' None
| rg_retire : (forall id, m' id = m id \/ is_Some (m id) /\ m' id = Some Void) -> register_step m m' None.

Inductive register_run : register -> list (option string) -> register -> Prop :=
| rr_nil m m' : (forall id, m' id = m id) -> register_run m [] m'
| rr_cons m m1 m' e es : register_step m m1 e -> register_run m1 es m' -> register_run m (e :: es) m'.

Definition token_of (row : Approval) : token :=
  if ap_status row == "approved" then Available else if ap_status row == "consumed" then Spent else Void.

Definition tokens (s : ApprovalStore) : register := fun id => token_of <$> select_approval id s.

Lemma tokens_consume s id row now_str worker id' :
  select_approval id s = Some row -> ap_status row = "approved" ->
  tokens (fst (consume_row id now_str worker s)) id' = if id' == id then Some Spent else tokens s id'.
Proof.
  intros Hrow Hst. destruct (id' == id) eqn:E; simpl_bool.
  - subst. unfold tokens. by rewrite (step_consumed_row s id row).
  - unfold tokens. rewrite select_consume. destruct (select_approval id' s) as [r|] eqn:Er; [|done]. simpl.
    apply find_key in Er as [-> _]. apply eqb_neq in E. by rewrite E.
Qed.

(** A step of the tables is a step of the register. *)
Lemma step_refines s s' e :
  store_step s s' ->
  (forall id, e = Some id -> exists row now_str worker, select_approval id s = Some row /\ ap_status row = "approved" /\
     select_approval id s' = Some (set_consumed now_str worker row)) ->
  register_step (tokens s) (tokens s') e.
Proof.
  intros Hstep He. assert (Hav : forall id row, select_approval id s = Some row -> ap_status row = "approved" ->
    tokens s id = Some Available) by (intros id row Hr Hst; unfold tokens; rewrite Hr; simpl; unfold token_of; by rewrite Hst).
  assert (Huse : forall id, e = Some id -> tokens s id = Some Available /\ tokens s' id = Some Spent).
  { intros id (row & now_str & worker & Hr & Hst & Hr')%He. split; [by eapply Hav|]. unfold tokens. by rewrite Hr'. }
  assert (Hnone : (forall id, tokens s id = Some Available -> tokens s' id <> Some Spent) -> e = None).
  { intros Hno. destruct e as [id|]; [|done]. destruct (Huse id eq_refl) as [H1 H2]. by destruct (Hno id). }
  assert (Hconsume : forall id row now_str worker, select_approval id s = Some row -> ap_status row = "approved" ->
    (forall id', tokens s' id' = tokens (fst (consume_row id now_str worker s)) id') -> register_step (tokens s) (tokens s') e).
  { intros id row now_str worker Hr Hst Heq. apply (rg_use _ _ id).
    - by eapply Hav.
    - by rewrite Heq, (tokens_consume s id row), eqb_refl.
    - intros id' Hne. rewrite Heq, (tokens_consume s id row) by done. apply eqb_neq in Hne. by rewrite Hne.
    - destruct e as [id'|]; [|by left]. right. destruct (Huse id' eq_refl) as [H1 H2].
      rewrite Heq, (tokens_consume s id row) in H2 by done. destruct (id' == id) eqn:E; simpl_bool; congruence. }
  destruct Hstep as [s r Hr|s id row H1 H2|s id row now worker H1 H2|s row record H1 H2 H3 H4|s columns].
  - assert (Hne : forall id', id' <> ap_authorization_id r ->
      tokens {| approvals := approvals s ++ [r]; approval_consumptions := approval_consumptions s |} id' = tokens s id').
    { intros id' Hne. unfold tokens, select_approval. simpl. rewrite find_append.
      destruct (List.find _ (approvals s)); [done|]. simpl. destruct (ap_authorization_id r == id') eqn:E; simpl_bool; [congruence|done]. }
    rewrite Hnone.
    + apply (rg_issue _ _ (ap_authorization_id r) (token_of r)); [unfold tokens; by rewrite Hr| |exact Hne].
      unfold tokens, select_approval in *. simpl. rewrite find_append, Hr. simpl. by rewrite eqb_refl.
    + intros id' Ha. destruct (decide (id' = ap_authorization_id r)) as [->|Hn]; [unfold tokens in Ha; rewrite Hr in Ha; discriminate Ha|].
      rewrite Hne by done. congruence.
  - assert (Hid : ap_authorization_id row = id) by (by apply find_key in H1 as [? _]).
    assert (Ex : forall id', tokens (fst (expire_row id s)) id' = if id' == id then Some Void else tokens s id').
    { intros id'. unfold tokens. rewrite select_expire. destruct (id' == id) eqn:E; simpl_bool.
      - subst. rewrite H1. simpl. by rewrite eqb_refl.
      - destruct (select_approval id' s) as [r|] eqn:Er; [|done]. simpl. apply find_key in Er as [-> _].
        apply eqb_neq in E. by rewrite E. }
    rewrite Hnone.
    + apply (rg_expire _ _ id); [by eapply Hav|by rewrite Ex, eqb_refl|]. intros id' Hne. rewrite Ex.
      apply eqb_neq in Hne. by rewrite Hne.
    + intros id' Ha. rewrite Ex. destruct (id' == id); congruence.
  - by apply (Hconsume id row now worker).
  - by apply (Hconsume (cr_authorization_id record) row (cr_created_at record) (cr_worker_identity record)).
  - assert (Hmig : forall id, tokens (_init_db columns s) id = tokens s id \/
      is_Some (tokens s id) /\ tokens (_init_db columns s) id = Some Void).
    { intros id. destruct (select_migrate columns id s) as (f & Hf & _ & _ & Hsel). unfold tokens. rewrite Hsel.
      destruct (select_approval id s) as [row|]; [|by left]. simpl. unfold token_of at 1 4.
      destruct (Hf row) as [-> | ->]; [by left|]. right. split; [by eexists|done]. }
    rewrite Hnone; [by apply rg_retire|]. intros id Ha. destruct (Hmig id) as [-> | [_ ->]]; congruence.
Qed.

(** C2. The store implements a one-use register: any history of stores,
    consumptions, consumption requests and reopenings, with their failures, is a
    history of the register, in which an identifier is issued at most once, is used
    only while available and is never available again. *)
Theorem store_refines_register calls : forall s s' events,
  run s calls = (s', events) -> register_run (tokens s) events (tokens s').
Proof.
  induction calls as [|c calls IH]; intros s s' events; simpl; [intros [= <- <-]; by constructor|].
  destruct (exec s c) as [s1 e] eqn:Hc. destruct (run s1 calls) as [s2 es] eqn:Hr. intros [= <- <-].
  apply exec_refines in Hc as [Hstep He]. apply IH in Hr. econstructor; [|exact Hr].
  destruct Hstep as [->|Hstep]; [|by apply step_refines]. destruct e as [id|]; [|by apply rg_keep].
  destruct (He id eq_refl) as (row & now_str & worker & H1 & H2 & H3). exfalso. rewrite H1 in H3. injection H3 as H3.
  rewrite H3 in H2. discriminate H2.
Qed.

Lemma step_record_kept s s' record :
  store_step s s' -> select_consumption (cr_request_id record) s = Some record ->
  select_consumption (cr_request_id record) s' = Some record.
Proof.
  intros Hstep Hsel. destruct (step_consumptions s s' Hstep) as [E|(r & E & _)]; unfold select_consumption in *; rewrite E; [done|].
  by rewrite find_append, Hsel.
Qed.

Lemma run_record_kept calls : forall s s' events record,
  run s calls = (s', events) -> select_consumption (cr_request_id record) s = Some record ->
  select_consumption (cr_request_id record) s' = Some record.
Proof.
  induction calls as [|c calls IH]; intros s s' events record; simpl; [by intros [= <- <-]|].
  destruct (exec s c) as [s1 e] eqn:Hc. destruct (run s1 calls) as [s2 es] eqn:Hr. intros [= <- <-] Hsel.
  apply exec_refines in Hc as [Hstep _]. eapply IH; [done|]. destruct Hstep as [->|Hstep]; [done|]. by eapply step_record_kept.
Qed.

(** Documents without floats and with distinct keys, as the store's rows and the
    verified authorizations are. *)
Definition plain (v : json) : Prop := float_free v = true /\ keys_unique v = true.

Definition rows_plain (s : ApprovalStore) : Prop :=
  forall row bound, In row (approvals s) -> loads_bytes (ap_bound_parameters_json row) = Ok bound -> plain bound.

Lemma plain_row_items row bound : plain bound -> plain (JObj (row_items row bound ++ [])).
Proof. intros [Hf Hk]. split; simpl; by rewrite ?Hf, ?Hk. Qed.

(** A row that was checked against an authorization has its fields. *)
Lemma verified_row_fields `{!HostOk} row bound text expected :
  plain bound -> plain (to_dict expected) ->
  canonical (JObj (row_items row bound ++ [])) = Ok text -> canonical (to_dict expected) = Ok text ->
  auth_action_plan_id expected = JStr (ap_action_plan_id row) /\
  auth_plan_digest expected = JStr (ap_plan_digest row) /\
  auth_engagement_id expected = JStr (ap_engagement_id row).
Proof.
  intros [Fr Ur]%(plain_row_items row) [Fe Ue] Hr He.
  pose proof (canonical_equiv _ _ _ _ _ _ _ Fr Ur Fe Ue Hr He) as Heq.
  change (to_dict expected) with (ExecutionAuthorization_to_dict expected) in *. unfold ExecutionAuthorization_to_dict in *.
  split_and!.
  - destruct (json_equiv_entry "action_plan_id" _ _ (JStr (ap_action_plan_id row)) Ur Ue Heq eq_refl) as (w & Hw & ->%json_equiv_str).
    by injection Hw.
  - destruct (json_equiv_entry "plan_digest" _ _ (JStr (ap_plan_digest row)) Ur Ue Heq eq_refl) as (w & Hw & ->%json_equiv_str).
    by injection Hw.
  - destruct (json_equiv_entry "engagement_id" _ _ (JStr (ap_engagement_id row)) Ur Ue Heq eq_refl) as (w & Hw & ->%json_equiv_str).
    by injection Hw.
Qed.

(** A consumption request that succeeded is on record, with its own content. *)
Lemma consume_request_recorded `{!HostOk} files now_iso s rid rdigest target expected worker uid time s1 record :
  rows_plain s -> plain (to_dict expected) ->
  consume_request files now_iso s rid rdigest target expected worker uid time = (s1, Ok record) ->
  select_consumption rid s1 = Some record /\ cr_request_id record = rid /\
  _assert_matching_consumption record
    {| rq_request_digest := rdigest; rq_authorization_id := auth_authorization_id expected;
       rq_action_plan_id := auth_action_plan_id expected; rq_plan_digest := auth_plan_digest expected;
       rq_engagement_id := auth_engagement_id expected; rq_worker_identity := worker; rq_target := target |} = Ok tt.
Proof.
  intros Hplain Hexp Hc.
  apply consume_request_cases in Hc as [[_ Hr]|[(prior & Hp & -> & [= ->] & Hm)|
    (id & row & now & items & until & Hnone & Hid & Hrow & Hst & _ & Hver & _ & _ &
     [(_ & _ & Hr)|(_ & rec & [= ->] & <- & <- & <- & <- & -> & _ & E1 & E2 & E3 & _ & ->)])]]; try done.
  - split; [done|]. split; [by apply find_key in Hp as [? _]|done].
  - destruct Hver as (bound & text & issued & Hb & -> & Ht & He & _).
    destruct (verified_row_fields row bound text expected) as (F1 & F2 & F3); try done.
    { apply (Hplain row bound); [by apply find_key in Hrow as [_ ?]|done]. }
    split.
    + unfold select_consumption in *. cbn [approval_consumptions]. rewrite find_append, Hnone. simpl. by rewrite eqb_refl.
    + split; [done|]. unfold _assert_matching_consumption. simpl. rewrite Hid, F1, F2, F3, E1, E2, E3.
      by rewrite !str_is_refl, !eqb_refl.
Qed.

(** Consumption requests are idempotent and durable: once a request has
    returned a receipt, whatever happens to the store afterwards, repeating it
    returns that receipt and changes nothing, at any (readable) time and whatever
    the state of the files, and a request with the same id but another content is
    refused without effect. *)
Theorem consumption_request_idempotent `{!HostOk} files now_iso s rid rdigest target expected worker uid time s1 record
    calls s2 events files' now_iso' uid' time' now' rdigest' target' expected' worker' :
  rows_plain s -> plain (to_dict expected) ->
  consume_request files now_iso s rid rdigest target expected worker uid time = (s1, Ok record) ->
  run s1 calls = (s2, events) ->
  timestamp (JStr (time_or time' now_iso')) = Ok now' ->
  consume_request files' now_iso' s2 rid rdigest target expected worker uid' time' = (s2, Ok record) /\
  ((rdigest', target', worker', auth_authorization_id expected', auth_action_plan_id expected',
    auth_plan_digest expected', auth_engagement_id expected') <>
     (rdigest, target, worker, auth_authorization_id expected, auth_action_plan_id expected,
      auth_plan_digest expected, auth_engagement_id expected) ->
   consume_request files' now_iso' s2 rid rdigest' target' expected' worker' uid' time' =
     (s2, raise ApprovalStoreConflictError "request_id was already used for a different request")).
Proof.
  intros Hplain Hexp Hc Hrun Ht.
  destruct (consume_request_recorded _ _ _ _ _ _ _ _ _ _ _ _ Hplain Hexp Hc) as (Hsel & <- & Hm).
  apply (run_record_kept _ _ _ _ _ Hrun) in Hsel. unfold atomically_consume_request. rewrite Ht, Hsel.
  split; [by rewrite Hm|]. intros Hne. unfold _assert_matching_consumption in *.
  guard_ok Hm. cbn [rq_request_digest rq_authorization_id rq_action_plan_id rq_plan_digest rq_engagement_id
    rq_worker_identity rq_target] in *. simpl_bool.
  destruct (negb _) eqn:E; [done|]. exfalso. apply Hne. simpl_bool.
  repeat match goal with E : str_is _ _ = true |- _ => apply str_is_eq in E end. congruence.
Qed.

(** C35. Only what was verified is consumed.  A direct consumption that returns an
    authorization found the row approved, with a stored document whose canonical text
    is that of the verified authorization, bound to this worker, inside its validity
    and with at least the required time left; it consumes that row and no other.  A
    call that raises leaves the store as it was, with two exceptions: a row whose
    validity is over is marked expired; and a row that passed every check is consumed
    all the same when its document, with the time and worker of the consumption, is not
    a valid contract any more, since the code commits before it reads the document back. *)
Theorem consumption_is_verified now_iso s id expected worker time minimum s' r :
  store_ok s ->
  consume now_iso s id expected worker time minimum = (s', r) ->
  (forall id', id' <> id -> select_approval id' s' = select_approval id' s) /\
  approval_consumptions s' = approval_consumptions s /\
  match r with
  | Ok auth =>
      exists row now until items m,
        select_approval id s = Some row /\ ap_status row = "approved" /\
        timestamp (JStr (time_or time now_iso)) = Ok now /\
        verified_row row (consumption_items row) expected worker now items /\
        timestamp (JStr (ap_authorized_until_utc row)) = Ok until /\ now < until /\
        check_minimum minimum = Ok m /\ num_ltb (true_div (until - now) us_per_second) m = false /\
        select_approval id s' = Some (set_consumed (time_or time now_iso) worker row) /\
        from_dict read_schema report_semantics (consumed_doc items (time_or time now_iso) worker) = Ok auth
  | Raise _ =>
      s' = s \/
      exists row now until,
        select_approval id s = Some row /\ ap_status row = "approved" /\
        timestamp (JStr (time_or time now_iso)) = Ok now /\ timestamp (JStr (ap_authorized_until_utc row)) = Ok until /\
        (until <= now /\ select_approval id s' = Some (set_status "expired" row) \/
         now < until /\ select_approval id s' = Some (set_consumed (time_or time now_iso) worker row) /\
         exists items, verified_row row (consumption_items row) expected worker now items /\
           is_ok (from_dict (A := ExecutionAuthorization) read_schema report_semantics
                    (consumed_doc items (time_or time now_iso) worker)) = false)
  end.
Proof.
  intros Hs Hc.
  assert (Hother : forall f g, (forall r, ap_authorization_id r <> id -> f r = false) ->
    (forall r, ap_authorization_id (g r) = ap_authorization_id r) ->
    forall id', id' <> id -> select_approval id' (fst (update_where f g s)) = select_approval id' s).
  { intros f g Hf Hg id' Hne. unfold select_approval, update_where. simpl. rewrite find_map_update by done.
    destruct (List.find _ (approvals s)) eqn:E; [|done]. simpl. apply find_key in E as [<- _]. by rewrite Hf. }
  apply consume_cases in Hc as [[-> Hr]|(row & now & items & until & Hrow & Hst & Hnow & Hver & Hu & [(Hle & -> & Hr)|(Hlt & -> & -> & m & Hm & Hmin)])].
  - split; [done|]. split; [done|]. destruct r; [done|]. by left.
  - split; [|split; [done|]].
    { apply Hother; [|done]. intros r0 Hne. by apply eqb_neq. }
    destruct r; [done|]. right. exists row, now, until. do 4 (split; [done|]). left. split; [done|].
    rewrite select_expire, Hrow. simpl. apply find_key in Hrow as [-> _]. by rewrite eqb_refl.
  - split; [|split; [done|]].
    { apply Hother; [|done]. intros r0 Hne. by rewrite (proj2 (eqb_neq _ _) Hne). }
    destruct (from_dict _ _ _) as [auth|e] eqn:Hf.
    + exists row, now, until, items, m. do 8 (split; [done|]). split; [by apply step_consumed_row|done].
    + right. exists row, now, until. do 4 (split; [done|]). right. split; [done|]. split; [by apply step_consumed_row|].
      exists items. split; [done|]. by rewrite Hf.
Qed.

(** C39. Opening protects and migrates: a store that opens on POSIX has an
    owner-only directory and database, and when its table predates keyed
    signatures every row becomes historical, so that no call on it ever consumes an
    authorization the old table held, and reading one gives no authorization. *)
Theorem legacy_rows_never_authorize files columns s files' s' calls s2 events id row :
  open_store platform files columns s = (s', Ok files') ->
  has_signature_algorithm columns = false \/ has_signing_key_id columns = false ->
  select_approval id s = Some row -> run s' calls = (s2, events) ->
  (posix platform = true -> require_secure_perms platform = true ->
   exists dir db, sf_parent files' = Some dir /\ sf_db files' = Some db /\
     st_uid dir = euid platform /\ st_mode dir = mode_private_dir /\
     st_uid db = euid platform /\ st_mode db = mode_private_file /\ st_kind db = RegularFile) /\
  consumed_times id events = 0%nat /\
  (exists row', select_approval id s' = Some row' /\ ap_status row' = "legacy-untrusted" /\
     ap_legacy_status row' = Some (ap_status row)) /\
  (forall auth, get_authorization read_schema report_semantics s' id <> Ok (inl auth)).
Proof.
  unfold open_store. intros Ho Hold Hrow Hrun. destruct (_ensure_storage_security platform files) as [f|]; [|done].
  apply pair_equal_spec in Ho as [<- Ho]. apply res_bind_ok in Ho as ([] & Hown & Ho). injection Ho as <-.
  assert (Hrow' : exists row', select_approval id (_init_db columns s) = Some row' /\ ap_status row' = "legacy-untrusted" /\
    ap_legacy_status row' = Some (ap_status row)).
  { exists (mark_legacy (with_legacy_columns columns row)). split; [|done]. unfold select_approval, _init_db in *. cbn [approvals].
    assert (negb (has_signature_algorithm columns) || negb (has_signing_key_id columns) = true) as ->
      by (destruct Hold as [-> | ->]; [done|apply orb_true_r]).
    rewrite map_map. rewrite (find_map_update ap_authorization_id (fun _ => true)
      (fun r => mark_legacy (with_legacy_columns columns r))), Hrow by done. done. }
  split; [|split; [|split; [done|]]].
  - intros Hposix Hsec. rewrite Hposix, Hsec in Hown. cbn [andb] in Hown. unfold assert_protected_owner in Hown.
    guard_ok Hown. apply res_bind_ok in Hown as ([] & H1 & Hown). apply res_bind_ok in Hown as ([] & H2 & _).
    unfold check_protected in H1, H2.
    destruct (sf_parent _) as [dir|] eqn:E1; [|done]. destruct (sf_db _) as [db|] eqn:E2; [|done].
    guard_ok H1. guard_ok H1. guard_ok H1. guard_ok H2. guard_ok H2. guard_ok H2. simpl_bool.
    exists dir, db. repeat match goal with E : (_ =? _) = true |- _ => apply Z.eqb_eq in E end. done.
  - destruct Hrow' as (row' & Hr & Hst & _). apply run_ok in Hrun as (_ & Hsp & _).
    apply (Hsp id). exists row'. split; [done|]. by rewrite Hst.
  - destruct Hrow' as (row' & Hr & Hst & _). intros auth. unfold get_authorization. rewrite Hr. unfold read_row.
    destruct (loads_bytes _); cbn [res_bind]; [|discriminate]. rewrite Hst, eqb_refl. discriminate.
Qed.
End Operations.

(** ** Witnesses *)

#[local] Existing Instance mac_host.
#[local] Existing Instance mac_host_ok.

Definition demo_platform : Platform := {| posix := true; require_secure_perms := true; euid := 1000 |}.
Definition demo_files : StoreFiles :=
  {| sf_parent := Some {| st_kind := Directory; st_uid := 1000; st_mode := mode_private_dir |};
     sf_db := Some {| st_kind := RegularFile; st_uid := 1000; st_mode := mode_private_file |};
     sf_wal := None; sf_shm := None |}.
Definition empty_store : ApprovalStore := {| approvals := []; approval_consumptions := [] |}.
Definition all_columns : Columns :=
  {| has_signature_algorithm := true; has_signing_key_id := true; has_legacy_status := true |}.

Definition demo_auth : ExecutionAuthorization :=
  match demo_create with
  | Ok a => a
  | Raise _ => ExecutionAuthorization_init JNull JNull JNull JNull JNull JNull JNull JNull JNull JNull JNull JNull JNull JNull JNull JNull
  end.

Definition demo_time : string := "2025-06-15T13:00:00Z".
Definition demo_store0 : ApprovalStore :=
  fst (store_authorization any_schema no_reports "2025-06-15T12:00:00Z" empty_store demo_auth).

Definition demo_request_call (request_digest : string) : call :=
  CallConsumeRequest demo_files demo_time "req-1" request_digest (JStr "10.0.0.5") demo_auth "worker-1" 1000 None.

Definition demo_calls : list call :=
  [demo_request_call "d1"; demo_request_call "d1"; demo_request_call "d2";
   CallConsume demo_time "auth-0123456789abcdef" demo_auth "worker-1" None (JInt 60); CallOpen demo_files all_columns].

Lemma demo_store0_ok : store_ok demo_store0.
Proof.
  constructor; [..|intros record Hin; vm_compute in Hin; done];
    apply (bool_decide_unpack _); vm_compute; exact I.
Qed.

Lemma consumed_at_most_once_witness :
  consumed_times "auth-0123456789abcdef" (snd (run any_schema no_reports demo_platform demo_store0 demo_calls)) = 1%nat /\
  store_ok (fst (run any_schema no_reports demo_platform demo_store0 demo_calls)).
Proof.
  split; [vm_compute; reflexivity|].
  destruct (run any_schema no_reports demo_platform demo_store0 demo_calls) as [s' events] eqn:E.
  exact (proj1 (consumed_at_most_once any_schema no_reports demo_platform _ _ _ _ E) demo_store0_ok).
Defined.

Lemma demo_rows_plain : rows_plain demo_store0.
Proof.
  intros row bound Hin Hb.
  assert (Hp : forallb (fun r => match loads_bytes (ap_bound_parameters_json r) with
                                 | Ok b => float_free b && keys_unique b | Raise _ => false end) (approvals demo_store0) = true)
    by (vm_compute; reflexivity).
  rewrite forallb_forall in Hp. specialize (Hp row Hin). rewrite Hb in Hp. unfold plain. by apply andb_true_iff.
Qed.

Lemma consumption_request_idempotent_witness : exists s1 record s2 events,
  atomically_consume_request any_schema no_reports demo_platform demo_files demo_time demo_store0 "req-1" "d1" (JStr "10.0.0.5")
    demo_auth "worker-1" 1000 None = (s1, Ok record) /\
  run any_schema no_reports demo_platform s1 demo_calls = (s2, events) /\
  atomically_consume_request any_schema no_reports demo_platform demo_files "2031-01-01T00:00:00Z" s2 "req-1" "d1"
    (JStr "10.0.0.5") demo_auth "worker-1" 0 None = (s2, Ok record).
Proof.
  destruct (atomically_consume_request any_schema no_reports demo_platform demo_files demo_time demo_store0 "req-1" "d1"
    (JStr "10.0.0.5") demo_auth "worker-1" 1000 None) as [s1 r] eqn:E.
  assert (Hr : is_ok r = true).
  { change r with (snd (s1, r)). rewrite <- E. vm_compute. reflexivity. }
  destruct r as [record|]; [|discriminate Hr].
  destruct (run any_schema no_reports demo_platform s1 demo_calls) as [s2 events] eqn:Er.
  exists s1, record, s2, events. split; [reflexivity|]. split; [exact Er|].
  assert (Hp : plain (to_dict demo_auth)) by (split; vm_compute; reflexivity).
  assert (Ht : exists t, timestamp (JStr (time_or None "2031-01-01T00:00:00Z")) = Ok t) by (eexists; vm_compute; reflexivity).
  destruct Ht as (t & Ht).
  exact (proj1 (consumption_request_idempotent any_schema no_reports demo_platform demo_files demo_time demo_store0 "req-1"
    "d1" (JStr "10.0.0.5") demo_auth "worker-1" 1000 None s1 record demo_calls s2 events demo_files "2031-01-01T00:00:00Z" 0 None
    t "d1" (JStr "10.0.0.5") demo_auth "worker-1" demo_rows_plain Hp E Er Ht)).
Defined.

Lemma consumption_is_verified_witness : exists s' auth row,
  atomically_consume any_schema no_reports demo_time demo_store0 "auth-0123456789abcdef" demo_auth "worker-1" None (JInt 60) =
    (s', Ok auth) /\
  select_approval "auth-0123456789abcdef" s' = Some (set_consumed demo_time "worker-1" row).
Proof.
  destruct (atomically_consume any_schema no_reports demo_time demo_store0 "auth-0123456789abcdef" demo_auth "worker-1"
    None (JInt 60)) as [s' r] eqn:E.
  assert (Hr : is_ok r = true).
  { change r with (snd (s', r)). rewrite <- E. vm_compute. reflexivity. }
  destruct r as [auth|]; [|discriminate Hr].
  destruct (consumption_is_verified any_schema no_reports demo_time demo_store0 "auth-0123456789abcdef" demo_auth "worker-1"
    None (JInt 60) s' (Ok auth) demo_store0_ok E) as (_ & _ & row & now & until & items & m & _ & _ & _ & _ & _ & _ & _ & _ & Hsel & _).
  exists s', auth, row. split; [reflexivity|exact Hsel].
Defined.

Lemma legacy_rows_never_authorize_witness : exists files' s',
  open_store demo_platform demo_files {| has_signature_algorithm := false; has_signing_key_id := true; has_legacy_status := false |}
    demo_store0 = (s', Ok files') /\
  consumed_times "auth-0123456789abcdef" (snd (run any_schema no_reports demo_platform s' demo_calls)) = 0%nat.
Proof.
  destruct (open_store demo_platform demo_files
    {| has_signature_algorithm := false; has_signing_key_id := true; has_legacy_status := false |} demo_store0)
    as [s' [files'|e]] eqn:E; [|vm_compute in E; discriminate E].
  exists files', s'. split; [reflexivity|].
  assert (Hrow : exists row, select_approval "auth-0123456789abcdef" demo_store0 = Some row) by (eexists; vm_compute; reflexivity).
  destruct Hrow as (row & Hrow).
  destruct (run any_schema no_reports demo_platform s' demo_calls) as [s2 events] eqn:Er.
  exact (proj1 (proj2 (legacy_rows_never_authorize any_schema no_reports demo_platform _ _ _ _ _ _ _ _ _ _ E
    (or_introl eq_refl) Hrow Er))).
Defined.

Lemma store_refines_register_witness :
  register_run (tokens demo_store0) (snd (run any_schema no_reports demo_platform demo_store0 demo_calls))
    (tokens (fst (run any_schema no_reports demo_platform demo_store0 demo_calls))).
Proof.
  destruct (run any_schema no_reports demo_platform demo_store0 demo_calls) as [s' events] eqn:E.
  exact (store_refines_register any_schema no_reports demo_platform demo_calls demo_store0 s' events E).
Defined.
