(* ===== verification/Gateway.v ===== *)
(** * Operator-gateway dispatches

    [src/cops/execution/gateway_dispatch.py]: signed grants for one request to the
    operator's gateway, the trust store and the authorizer that check them, the replay
    store that consumes them, the envelope that carries them, and the gateway boundary
    that releases a request to its handler.  Ed25519 is code of another package: the
    class [Ed25519] is its interface.  What the file system and SQLite do is an argument
    of each call. *)

From S2P Require Import Prelude PyStr Json JsonParse PyRegex Timestamp Schema Contracts PyIp PyUrl.
From S2P Require Import Identity Base64.
From S2P Require Import ApprovalStore.

Definition GATEWAY_DISPATCH_SCHEMA : string := "cops.operator-gateway-dispatch/v2".
Definition GATEWAY_DISPATCH_TRUST_SCHEMA : string := "cops.operator-gateway-dispatch-trust-store/v1".
Definition GATEWAY_DISPATCH_ENVELOPE_SCHEMA : string := "cops.operator-gateway-envelope/v2".
Definition GATEWAY_DISPATCH_ALGORITHM : string := "ed25519".
Definition MAX_GATEWAY_DISPATCH_TTL_SECONDS : Z := 300.
Definition _MAX_GRANT_BYTES : Z := 16 * 1024.
Definition _MAX_TRUST_BYTES : Z := 64 * 1024.

(** [key.verify(signature, message)] for a key of 32 bytes, and the signature of a caller's
    private key; both fail on what they do not accept. *)
Class Ed25519 := {
  ed25519_valid : string -> string -> string -> bool;
  ed25519_sign : string -> string -> res string;
}.

Definition deny {A} : res A := raise GatewayDispatchValidationError "gateway dispatch authorization denied".

(** ** Checked values *)

Definition require_text (p : string -> bool) (value : json) : res string :=
  match value with
  | JStr s => if p s then Ok s else deny
  | _ => deny
  end.

Definition _require_token : json -> res string := require_text (fullmatch "[A-Za-z0-9][A-Za-z0-9._:/-]{0,127}\Z").
Definition _require_hash : json -> res string := require_text (fullmatch "[0-9a-f]{64}\Z").
Definition is_signature : string -> bool := fullmatch "[0-9a-f]{128}\Z".

(** [parsed = urlsplit(value)], its host and its port, when none of them raises. *)
Definition split_checked (value : string) : option (SplitResult * option string * option Z) :=
  match urlsplit value "" with
  | Ok parsed => match u_port parsed with Ok port => Some (parsed, u_hostname parsed, port) | Raise _ => None end
  | Raise _ => None
  end.

Definition spiffe_ok (value : string) : bool :=
  (slen value <=? 255) && startswith "spiffe://" value &&
  match split_checked value with
  | Some (parsed, Some host, None) =>
      is_ascii host && (u_netloc parsed == host) && startswith "/" (u_path parsed) && negb (u_path parsed == "/") &&
      (u_query parsed == "") && (u_fragment parsed == "") && visible_text value
  | _ => false
  end.

Definition _require_spiffe : json -> res string := require_text spiffe_ok.

(** The text before the last [@] of a network location. *)
Definition userinfo (netloc : string) : string :=
  match rev (split_char "@" netloc) with
  | _ :: (_ :: _) as rest => join "@" (rev (tl rest))
  | _ => ""
  end.

(** [parsed.username or parsed.password]. *)
Definition names_user (parsed : SplitResult) : bool := negb (mem (userinfo (u_netloc parsed)) [""; ":"]).

Definition request_target_ok (value : string) : bool :=
  (slen value <=? 2048) && (strip value == value) &&
  match split_checked value with
  | Some (parsed, Some host, None) =>
      (u_scheme parsed == "https") && negb (u_netloc parsed == "") && negb (names_user parsed) && (u_query parsed == "") &&
      (u_fragment parsed == "") && (u_netloc parsed == host) && is_ascii host &&
      ("https://" +:+ u_netloc parsed +:+ (if u_path parsed == "" then "/" else u_path parsed) == value)
  | _ => false
  end.

Definition _require_request_target : json -> res string := require_text request_target_ok.

Definition endpoint_origin_ok (value : string) : bool :=
  (slen value <=? 2048) && (strip value == value) &&
  match split_checked value with
  | Some (parsed, Some host, port) =>
      (u_scheme parsed == "https") && negb (has_userinfo parsed) && (u_path parsed == "") && (u_query parsed == "") &&
      (u_fragment parsed == "") && negb (contains ":" host) && is_ascii host &&
      let authority := match port with None => host | Some p => host +:+ ":" +:+ pretty p end in
      (u_netloc parsed == authority) && (value == "https://" +:+ authority)
  | _ => false
  end.

Definition _require_endpoint_origin : json -> res string := require_text endpoint_origin_ok.

Definition gateway_path_ok (value : string) : bool :=
  startswith "/" value && negb (startswith "//" value) && (slen value <=? 2048) && visible_text value &&
  negb (contains "?" value) && negb (contains "#" value) && negb (contains "\" value) && negb (contains "%" value) &&
  negb (existsb (fun segment => mem segment ["."; ".."]) (split_char "/" value)).

Definition _require_gateway_path : json -> res string := require_text gateway_path_ok.

Definition _require_time (value : json) : res json :=
  catch (fun e => exc_cls e == EvidenceError) (timestamp value ;;? Ok value) (fun _ => deny).

(** ** Grants *)

(** The fields are whatever the document holds until [validate]. *)
Record GatewayDispatchGrant := {
  gr_schema_version : json; gr_dispatch_id : json; gr_authorization_id : json; gr_action_plan_id : json;
  gr_plan_digest : json; gr_worker_spiffe_id : json; gr_provider : json; gr_account_or_project_kind : json;
  gr_account_or_project : json; gr_region : json; gr_model : json; gr_gateway_endpoint_id : json;
  gr_request_target : json; gr_body_sha256 : json; gr_body_bytes : json; gr_issued_at : json; gr_expires_at : json;
  gr_key_id : json; gr_algorithm : json; gr_signature : json
}.

Definition _FIELDS : list string :=
  ["schema_version"; "dispatch_id"; "authorization_id"; "action_plan_id"; "plan_digest"; "worker_spiffe_id"; "provider";
   "account_or_project_kind"; "account_or_project"; "region"; "model"; "gateway_endpoint_id"; "request_target";
   "body_sha256"; "body_bytes"; "issued_at"; "expires_at"; "key_id"; "algorithm"; "signature"].

Definition unsigned_items (g : GatewayDispatchGrant) : list (string * json) :=
  [("schema_version", gr_schema_version g); ("dispatch_id", gr_dispatch_id g);
   ("authorization_id", gr_authorization_id g); ("action_plan_id", gr_action_plan_id g);
   ("plan_digest", gr_plan_digest g); ("worker_spiffe_id", gr_worker_spiffe_id g); ("provider", gr_provider g);
   ("account_or_project_kind", gr_account_or_project_kind g); ("account_or_project", gr_account_or_project g);
   ("region", gr_region g); ("model", gr_model g); ("gateway_endpoint_id", gr_gateway_endpoint_id g);
   ("request_target", gr_request_target g); ("body_sha256", gr_body_sha256 g); ("body_bytes", gr_body_bytes g);
   ("issued_at", gr_issued_at g); ("expires_at", gr_expires_at g); ("key_id", gr_key_id g);
   ("algorithm", gr_algorithm g)].

Definition unsigned_dict (g : GatewayDispatchGrant) : json := JObj (unsigned_items g).
Definition grant_to_dict (g : GatewayDispatchGrant) : json := JObj (unsigned_items g ++ [("signature", gr_signature g)]).

Definition validate (g : GatewayDispatchGrant) (require_signature : bool) : res unit :=
  raise_if negb (str_is (gr_schema_version g) GATEWAY_DISPATCH_SCHEMA) ||
           negb (str_is (gr_algorithm g) GATEWAY_DISPATCH_ALGORITHM)
    as GatewayDispatchValidationError msg "denied" ;;
  for_each [gr_dispatch_id g; gr_authorization_id g; gr_action_plan_id g; gr_provider g; gr_account_or_project g;
            gr_region g; gr_model g; gr_gateway_endpoint_id g; gr_key_id g] (fun v => _require_token v ;;? Ok tt) ;;?
  let? known_kind := in_set (gr_account_or_project_kind g) ["account"; "project"] in
  raise_if negb known_kind as GatewayDispatchValidationError msg "denied" ;;
  _require_hash (gr_plan_digest g) ;;?
  _require_spiffe (gr_worker_spiffe_id g) ;;?
  _require_request_target (gr_request_target g) ;;?
  _require_hash (gr_body_sha256 g) ;;?
  match gr_body_bytes g with
  | JInt n => raise_if (n <? 0) || (16 * 1024 * 1024 <? n) as GatewayDispatchValidationError msg "denied" ;; Ok tt
  | _ => deny
  end ;;?
  let? issued_at := let? t := _require_time (gr_issued_at g) in timestamp t in
  let? expires_at := let? t := _require_time (gr_expires_at g) in timestamp t in
  raise_if (expires_at <=? issued_at) || (MAX_GATEWAY_DISPATCH_TTL_SECONDS * 1000000 <? expires_at - issued_at)
    as GatewayDispatchValidationError msg "denied" ;;
  if require_signature then require_text is_signature (gr_signature g) ;;? Ok tt
  else match gr_signature g with JStr "" | JNull => Ok tt | _ => deny end.

Definition grant_of_items (items : list (string * json)) : GatewayDispatchGrant :=
  let f k := field k items in
  {| gr_schema_version := f "schema_version"; gr_dispatch_id := f "dispatch_id"; gr_authorization_id := f "authorization_id";
     gr_action_plan_id := f "action_plan_id"; gr_plan_digest := f "plan_digest"; gr_worker_spiffe_id := f "worker_spiffe_id";
     gr_provider := f "provider"; gr_account_or_project_kind := f "account_or_project_kind";
     gr_account_or_project := f "account_or_project"; gr_region := f "region"; gr_model := f "model";
     gr_gateway_endpoint_id := f "gateway_endpoint_id"; gr_request_target := f "request_target";
     gr_body_sha256 := f "body_sha256"; gr_body_bytes := f "body_bytes"; gr_issued_at := f "issued_at";
     gr_expires_at := f "expires_at"; gr_key_id := f "key_id"; gr_algorithm := f "algorithm"; gr_signature := f "signature" |}.

Definition grant_from_dict (value : json) : res GatewayDispatchGrant :=
  match exact_mapping value _FIELDS with
  | None => deny
  | Some items => let grant := grant_of_items items in validate grant true ;;? Ok grant
  end.

(** [replace(grant, signature=signature)]. *)
Definition with_signature (g : GatewayDispatchGrant) (signature : json) : GatewayDispatchGrant :=
  {| gr_schema_version := gr_schema_version g; gr_dispatch_id := gr_dispatch_id g;
     gr_authorization_id := gr_authorization_id g; gr_action_plan_id := gr_action_plan_id g;
     gr_plan_digest := gr_plan_digest g; gr_worker_spiffe_id := gr_worker_spiffe_id g; gr_provider := gr_provider g;
     gr_account_or_project_kind := gr_account_or_project_kind g; gr_account_or_project := gr_account_or_project g;
     gr_region := gr_region g; gr_model := gr_model g; gr_gateway_endpoint_id := gr_gateway_endpoint_id g;
     gr_request_target := gr_request_target g; gr_body_sha256 := gr_body_sha256 g; gr_body_bytes := gr_body_bytes g;
     gr_issued_at := gr_issued_at g; gr_expires_at := gr_expires_at g; gr_key_id := gr_key_id g;
     gr_algorithm := gr_algorithm g; gr_signature := signature |}.

(** [bytes.hex()] and [bytes.fromhex] of hexadecimal digits, two by two. *)
Fixpoint bytes_hex (s : string) : string :=
  match s with
  | EmptyString => EmptyString
  | String c s' => String (hex_digit (code c / 16)) (String (hex_digit (code c mod 16)) (bytes_hex s'))
  end.

Fixpoint bytes_fromhex (s : string) : option string :=
  match s with
  | EmptyString => Some EmptyString
  | String a (String b s') =>
      if is_hex_digit a && is_hex_digit b
      then String (chr (16 * hex_digit_value a + hex_digit_value b)) <$> bytes_fromhex s' else None
  | String _ EmptyString => None
  end.

(** ** Trust stores *)

Definition GatewayDispatchTrustStore := gmap string string.

Definition add_dispatch_key (store : GatewayDispatchTrustStore) (entry : string * string) : res GatewayDispatchTrustStore :=
  _require_token (JStr (fst entry)) ;;?
  raise_if negb (slen (snd entry) =? 32) as GatewayDispatchValidationError msg "denied" ;;
  Ok (<[fst entry := snd entry]> store).

Fixpoint add_dispatch_keys (store : GatewayDispatchTrustStore) (entries : list (string * string))
    : res GatewayDispatchTrustStore :=
  match entries with
  | [] => Ok store
  | entry :: entries' => let? store := add_dispatch_key store entry in add_dispatch_keys store entries'
  end.

(** [GatewayDispatchTrustStore(keys)]. *)
Definition new_trust_store (keys : list (string * string)) : res GatewayDispatchTrustStore :=
  let? store := add_dispatch_keys ∅ keys in
  raise_if keys == [] as GatewayDispatchValidationError msg "denied" ;; Ok store.

(** What opening and reading the file gives; an [OSError] anywhere is [None]. *)
Record DispatchTrustFile := { df_stat : option FileStat; df_raw : option string }.

Definition dispatch_key_entry (seen : list (string * string)) (entry : json) : res (string * string) :=
  match exact_mapping entry ["key_id"; "algorithm"; "public_key_hex"] with
  | None => deny
  | Some items =>
      raise_if negb (str_is (field "algorithm" items) GATEWAY_DISPATCH_ALGORITHM)
        as GatewayDispatchValidationError msg "denied" ;;
      let? key_id := _require_token (field "key_id" items) in
      let? key_hex := _require_hash (field "public_key_hex" items) in
      raise_if mem key_id (map fst seen) as GatewayDispatchValidationError msg "denied" ;;
      Ok (key_id, default "" (bytes_fromhex key_hex))
  end.

Fixpoint dispatch_key_entries (seen : list (string * string)) (entries : list json) : res (list (string * string)) :=
  match entries with
  | [] => Ok seen
  | entry :: entries' => let? key := dispatch_key_entry seen entry in dispatch_key_entries (seen ++ [key]) entries'
  end.

Section Host.
Context `{Host} `{Ed25519}.

Definition trust_store_of_text (raw : string) : res GatewayDispatchTrustStore :=
  match decode_utf8 raw with
  | None => deny
  | Some text =>
      let? parsed := catch is_value_error (loads text) (fun _ => deny) in
      match exact_mapping parsed ["schema_version"; "keys"] with
      | None => deny
      | Some items =>
          raise_if negb (str_is (field "schema_version" items) GATEWAY_DISPATCH_TRUST_SCHEMA)
            as GatewayDispatchValidationError msg "denied" ;;
          match field "keys" items with
          | JList (_ :: _ as entries) => let? keys := dispatch_key_entries [] entries in new_trust_store keys
          | _ => deny
          end
      end
  end.

Definition trust_store_from_file (file : DispatchTrustFile) (euid : Z) : res GatewayDispatchTrustStore :=
  match df_stat file with
  | None => raise GatewayDispatchValidationError "gateway dispatch trust store unavailable"
  | Some st =>
      raise_if negb (st_kind st == RegularFile) || negb (st_uid st =? euid) || negb (Z.land (st_mode st) 63 =? 0)
        as GatewayDispatchValidationError msg "denied" ;;
      match df_raw file with
      | None => raise GatewayDispatchValidationError "gateway dispatch trust store unavailable"
      | Some raw =>
          raise_if _MAX_TRUST_BYTES <? slen raw as GatewayDispatchValidationError msg "denied" ;;
          trust_store_of_text raw
      end
  end.

(** The text that is signed. *)
Definition signed_text (g : GatewayDispatchGrant) : res string := canonical_bounded (unsigned_dict g) _MAX_GRANT_BYTES 32.

Definition sign_gateway_dispatch (g : GatewayDispatchGrant) (private_key : string) : res GatewayDispatchGrant :=
  validate g false ;;?
  let? signature :=
    catch (fun e => type_or_value_error e || (exc_cls e == AttributeError))
      (let? text := signed_text g in ed25519_sign private_key text)
      (fun _ => raise GatewayDispatchValidationError "gateway dispatch signing failed") in
  let signed := with_signature g (JStr (bytes_hex signature)) in
  validate signed true ;;?
  Ok signed.

(** [trust_store.verify]: any failure of it is a denial. *)
Definition trust_verify (store : GatewayDispatchTrustStore) (g : GatewayDispatchGrant) : res unit :=
  match gr_key_id g, gr_signature g, signed_text g with
  | JStr key_id, JStr signature_hex, Ok text =>
      match store !! key_id, bytes_fromhex signature_hex with
      | Some key, Some signature => if ed25519_valid key signature text then Ok tt else deny
      | _, _ => deny
      end
  | _, _, _ => deny
  end.

(** [utc_now] is the reading [now_iso]. *)
Definition given_time (now_iso : string) (current_time_iso : option string) : json := JStr (default now_iso current_time_iso).

Definition verify_gateway_dispatch (now_iso : string) (g : GatewayDispatchGrant) (store : GatewayDispatchTrustStore)
    (current_time_iso : option string) : res unit :=
  validate g true ;;?
  let? current := catch (fun e => exc_cls e == EvidenceError) (timestamp (given_time now_iso current_time_iso)) (fun _ => deny) in
  let? issued_at := timestamp (gr_issued_at g) in
  let? expires_at := timestamp (gr_expires_at g) in
  raise_if (current <? issued_at) || (expires_at <? current) as GatewayDispatchValidationError msg "denied" ;;
  trust_verify store g.

Definition gateway_dispatch_descriptor_digest (g : GatewayDispatchGrant) : res string :=
  validate g true ;;? let? text := signed_text g in Ok (sha256_hex text).
End Host.
