(* ===== verification/Dispatch.v ===== *)
(** * Consuming and dispatching grants

    The rest of [src/cops/execution/gateway_dispatch.py]: the replay store, the
    transport authorizer, envelopes and the gateway boundary [GatewayDispatchEmulator]. *)

From S2P Require Import Prelude PyStr Json JsonParse Timestamp Schema Contracts PyUrl Identity Base64.
From S2P Require Import ApprovalStore Gateway.

(** ** The replay store *)

Record Consumed := { cd_dispatch_id : string; cd_authorization_id : string; cd_descriptor_digest : string; cd_consumed_at : string }.

(** [consumed_dispatches], and whether it has the unique index on the authorization: a
    database made by an older release may not. *)
Record ReplayStore := { rp_rows : list Consumed; rp_indexed : bool }.

(** How the outside of one call goes: the checks of the file, SQLite up to the commit, and
    the commit, which may fail after it took effect. *)
Record Storage := { sg_file : option FileStat; sg_sqlite : bool; sg_commit_error : option bool }.

Definition store_error {A} : res A := raise GatewayDispatchStoreError "gateway dispatch replay store unavailable".

(** [_prepare]; [None] is any [OSError]. *)
Definition _prepare (storage : Storage) (euid : Z) : res unit :=
  match sg_file storage with
  | None => store_error
  | Some st =>
      raise_if negb (st_kind st == RegularFile) || negb (st_uid st =? euid) || negb (Z.land (st_mode st) 63 =? 0)
        as GatewayDispatchStoreError msg "gateway dispatch replay store unavailable" ;;
      Ok tt
  end.

(** The index cannot be made over rows that repeat an authorization. *)
Definition create_index (s : ReplayStore) : option ReplayStore :=
  if rp_indexed s || bool_decide (NoDup (map cd_authorization_id (rp_rows s)))
  then Some {| rp_rows := rp_rows s; rp_indexed := true |} else None.

(** [INSERT]: the dispatch is the primary key, the authorization is unique. *)
Definition insert_consumed (row : Consumed) (s : ReplayStore) : option ReplayStore :=
  if existsb (fun r => (cd_dispatch_id r == cd_dispatch_id row) || (cd_authorization_id r == cd_authorization_id row)) (rp_rows s)
  then None else Some {| rp_rows := rp_rows s ++ [row]; rp_indexed := rp_indexed s |}.

Definition text_of (v : json) : string := match v with JStr s => s | _ => "" end.

Section Host.
Context `{Host} `{Ed25519}.

(** [with contextlib.suppress(sqlite3.Error)] around the rollback; [sqlite3.IntegrityError] is a replay. *)
Definition replay_error {A} : res A := raise GatewayDispatchReplayError "gateway dispatch authorization denied".

Definition consume_rows (g : GatewayDispatchGrant) (consumed_at : string) (storage : Storage) : eff ReplayStore unit := fun s =>
  if negb (sg_sqlite storage) then (store_error, s)
  else
    match create_index s with
    | None => (replay_error, s)
    | Some s =>
        match gateway_dispatch_descriptor_digest g with
        | Raise e => (if exc_cls e == EvidenceError then store_error else Raise e, s)
        | Ok digest =>
            match insert_consumed {| cd_dispatch_id := text_of (gr_dispatch_id g);
                                     cd_authorization_id := text_of (gr_authorization_id g);
                                     cd_descriptor_digest := digest; cd_consumed_at := consumed_at |} s with
            | None => (replay_error, s)
            | Some s' =>
                match sg_commit_error storage with
                | None => (Ok tt, s')
                | Some committed => (store_error, if committed then s' else s)
                end
            end
        end
    end.

Definition consume (now_iso : string) (euid : Z) (storage : Storage) (g : GatewayDispatchGrant)
    (current_time_iso : option string) : eff ReplayStore (string * string) :=
  do! _ := eff_lift (validate g true) in
  do! _ := eff_lift (_prepare storage euid) in
  let consumed_at := default now_iso current_time_iso in
  do! _ := eff_lift (catch (fun e => exc_cls e == EvidenceError) (timestamp (JStr consumed_at) ;;? Ok tt) (fun _ => store_error)) in
  do! _ := consume_rows g consumed_at storage in
  do! digest := eff_lift (gateway_dispatch_descriptor_digest g) in
  eff_ret (digest, consumed_at).

(** ** The authorizer *)

Record GatewayDispatchEndpoint := {
  de_gateway_endpoint_id : string; de_gateway_identity : string; de_endpoint_origin : string; de_gateway_path : string;
  de_provider : string; de_account_or_project_kind : string; de_account_or_project : string; de_region : string;
  de_model : string; de_request_target : string
}.

(** [__post_init__]. *)
Definition check_endpoint (e : GatewayDispatchEndpoint) : res unit :=
  for_each [de_gateway_endpoint_id e; de_provider e; de_account_or_project e; de_region e; de_model e]
    (fun v => _require_token (JStr v) ;;? Ok tt) ;;?
  _require_spiffe (JStr (de_gateway_identity e)) ;;?
  _require_endpoint_origin (JStr (de_endpoint_origin e)) ;;?
  _require_gateway_path (JStr (de_gateway_path e)) ;;?
  raise_if negb (mem (de_account_or_project_kind e) ["account"; "project"]) as GatewayDispatchValidationError msg "denied" ;;
  _require_request_target (JStr (de_request_target e)) ;;?
  Ok tt.

Record Authorizer := { az_trust_store : GatewayDispatchTrustStore; az_endpoints : list (string * GatewayDispatchEndpoint) }.

(** [GatewayDispatchTransportAuthorizer(...)] over the items of a mapping. *)
Definition new_authorizer (trust_store : GatewayDispatchTrustStore) (endpoints : list (string * GatewayDispatchEndpoint))
    : res Authorizer :=
  raise_if Nat.eqb (length endpoints) 0 as GatewayDispatchValidationError msg "denied" ;;
  raise_if negb (forallb (fun ie => fst ie == de_gateway_endpoint_id (snd ie)) endpoints)
    as GatewayDispatchValidationError msg "denied" ;;
  Ok {| az_trust_store := trust_store; az_endpoints := endpoints |}.

(** The scope of the endpoint is the scope of the grant. *)
Definition endpoint_matches (e : GatewayDispatchEndpoint) (g : GatewayDispatchGrant) (endpoint_origin gateway_path : string) : bool :=
  str_is (gr_provider g) (de_provider e) && str_is (gr_account_or_project_kind g) (de_account_or_project_kind e) &&
  str_is (gr_account_or_project g) (de_account_or_project e) && str_is (gr_region g) (de_region e) &&
  str_is (gr_model g) (de_model e) && str_is (gr_request_target g) (de_request_target e) &&
  (de_endpoint_origin e == endpoint_origin) && (de_gateway_path e == gateway_path).

Definition verify_for_transport (now_iso : string) (a : Authorizer) (g : GatewayDispatchGrant)
    (action_plan_id plan_digest presented_worker_spiffe_id request_target body endpoint_origin gateway_path : string)
    (current_time_iso : option string) : res GatewayDispatchEndpoint :=
  verify_gateway_dispatch now_iso g (az_trust_store a) current_time_iso ;;?
  raise_if negb (str_is (gr_action_plan_id g) action_plan_id) || negb (str_is (gr_plan_digest g) plan_digest) ||
           negb (str_is (gr_worker_spiffe_id g) presented_worker_spiffe_id) ||
           negb (str_is (gr_request_target g) request_target) || negb (py_eq (gr_body_bytes g) (JInt (slen body))) ||
           negb (str_is (gr_body_sha256 g) (sha256_hex body))
    as GatewayDispatchValidationError msg "denied" ;;
  match assoc (text_of (gr_gateway_endpoint_id g)) (az_endpoints a) with
  | None => deny
  | Some e => if endpoint_matches e g endpoint_origin gateway_path then Ok e else deny
  end.

(** ** Envelopes *)

Definition MAX_ENVELOPE_BYTES : Z := 16 * 1024 * 1024 + _MAX_GRANT_BYTES.

Definition encode_gateway_dispatch_envelope (g : GatewayDispatchGrant) (body : string) : res string :=
  validate g true ;;?
  raise_if negb (py_eq (gr_body_bytes g) (JInt (slen body))) || negb (str_is (gr_body_sha256 g) (sha256_hex body))
    as GatewayDispatchValidationError msg "denied" ;;
  canonical_bounded
    (JObj [("schema_version", JStr GATEWAY_DISPATCH_ENVELOPE_SCHEMA); ("grant", grant_to_dict g);
           ("body_base64", JStr (b64encode body)); ("body_sha256", gr_body_sha256 g); ("body_bytes", JInt (slen body))])
    MAX_ENVELOPE_BYTES 32.

Definition envelope_keys : list string := ["schema_version"; "grant"; "body_base64"; "body_sha256"; "body_bytes"].

Definition envelope_of_items (items : list (string * json)) : res (GatewayDispatchGrant * string) :=
  raise_if negb (str_is (field "schema_version" items) GATEWAY_DISPATCH_ENVELOPE_SCHEMA)
    as GatewayDispatchValidationError msg "denied" ;;
  let? grant := grant_from_dict (field "grant" items) in
  match field "body_base64" items, field "body_bytes" items with
  | JStr body_base64, JInt body_bytes =>
      raise_if body_bytes <? 0 as GatewayDispatchValidationError msg "denied" ;;
      let? body := b64decode body_base64 in
      raise_if negb (slen body =? body_bytes) || negb (str_is (field "body_sha256" items) (sha256_hex body))
        as GatewayDispatchValidationError msg "denied" ;;
      raise_if negb (py_eq (gr_body_bytes grant) (JInt (slen body))) ||
               negb (py_eq (field "body_sha256" items) (gr_body_sha256 grant))
        as GatewayDispatchValidationError msg "denied" ;;
      Ok (grant, body)
  | _, _ => deny
  end.

Definition decode_gateway_dispatch_envelope (value : string) : res (GatewayDispatchGrant * string) :=
  raise_if MAX_ENVELOPE_BYTES <? slen value as GatewayDispatchValidationError msg "denied" ;;
  catch (fun e => type_or_value_error e || (exc_cls e == GatewayDispatchValidationError))
    (match decode_utf8 value with
     | None => raise ValueError "UnicodeDecodeError"
     | Some text =>
         let? parsed := loads text in
         match exact_mapping parsed envelope_keys with
         | None => deny
         | Some items => envelope_of_items items
         end
     end)
    (fun _ => deny).

(** ** The gateway boundary *)

Record GatewayDispatchResponse := { gx_status_code : Z; gx_media_type : string; gx_body : string }.

Definition check_response (r : GatewayDispatchResponse) : res unit :=
  raise_if negb ((200 <=? gx_status_code r) && (gx_status_code r <=? 599)) || negb (gx_media_type r == "application/json") ||
           (1048576 <? slen (gx_body r))
    as GatewayDispatchError msg "gateway dispatch response is invalid" ;;
  Ok tt.

Record GatewayDispatchInvocation := {
  iv_grant : GatewayDispatchGrant; iv_gateway_endpoint_id : string; iv_gateway_identity : string;
  iv_descriptor_digest : string; iv_body : string; iv_endpoint : GatewayDispatchEndpoint
}.

Record GatewayDispatchReceipt := {
  rc_gateway_receipt_id : string; rc_grant : GatewayDispatchGrant; rc_gateway_endpoint_id : string;
  rc_gateway_identity : string; rc_descriptor_digest : string; rc_decision : string; rc_consumed_at : string;
  rc_response : option GatewayDispatchResponse
}.

(** A handler returns nothing, a response, or an object of another type. *)
Inductive handled := NoResponse | Response (r : GatewayDispatchResponse) | OtherObject.

Record GatewayDispatchEmulator := {
  em_authorizer : Authorizer; em_action_plan_id : string; em_plan_digest : string; em_worker_spiffe_id : string;
  em_endpoint_origin : string; em_gateway_path : string; em_handler : option (GatewayDispatchInvocation -> res handled)
}.

(** The checks of [__init__]. *)
Definition check_emulator (em : GatewayDispatchEmulator) : res unit :=
  _require_token (JStr (em_action_plan_id em)) ;;?
  _require_hash (JStr (em_plan_digest em)) ;;?
  _require_spiffe (JStr (em_worker_spiffe_id em)) ;;?
  _require_endpoint_origin (JStr (em_endpoint_origin em)) ;;?
  _require_gateway_path (JStr (em_gateway_path em)) ;;?
  Ok tt.

Definition preflight (now_iso : string) (em : GatewayDispatchEmulator) (g : GatewayDispatchGrant)
    (presented_worker_spiffe_id request_target body : string) (current_time_iso : option string) : res GatewayDispatchEndpoint :=
  let? endpoint := verify_for_transport now_iso (em_authorizer em) g (em_action_plan_id em) (em_plan_digest em)
                     presented_worker_spiffe_id request_target body (em_endpoint_origin em) (em_gateway_path em)
                     current_time_iso in
  raise_if negb (presented_worker_spiffe_id == em_worker_spiffe_id em) ||
           negb (de_endpoint_origin endpoint == em_endpoint_origin em) ||
           negb (de_gateway_path endpoint == em_gateway_path em)
    as GatewayDispatchValidationError msg "denied" ;;
  Ok endpoint.

(** The replay store, and the invocations that reached a handler, the last one first. *)
Record Gateway := { gw_store : ReplayStore; gw_invocations : list GatewayDispatchInvocation }.

Definition on_store {A} (m : eff ReplayStore A) : eff Gateway A := fun w =>
  let (r, s) := m (gw_store w) in (r, {| gw_store := s; gw_invocations := gw_invocations w |}).

(** [self._handler(invocation)]: whatever goes wrong is one error. *)
Definition call_handler (handler : option (GatewayDispatchInvocation -> res handled)) (invocation : GatewayDispatchInvocation)
    : eff Gateway (option GatewayDispatchResponse) := fun w =>
  match handler with
  | None => (Ok None, w)
  | Some h =>
      let w := {| gw_store := gw_store w; gw_invocations := invocation :: gw_invocations w |} in
      (match h invocation with
       | Ok NoResponse => Ok None
       | Ok (Response r) => Ok (Some r)
       | Ok OtherObject | Raise _ => raise GatewayDispatchError "gateway dispatch failed after authorization consumption"
       end, w)
  end.

(** The grant is checked and then consumed. *)
Definition release (now_iso consume_now_iso : string) (euid : Z) (storage : Storage) (em : GatewayDispatchEmulator)
    (g : GatewayDispatchGrant) (presented_worker_spiffe_id request_target body : string) (current_time_iso : option string)
    : eff Gateway (GatewayDispatchEndpoint * string * string) :=
  do! endpoint := eff_lift (preflight now_iso em g presented_worker_spiffe_id request_target body current_time_iso) in
  do! (descriptor_digest, consumed_at) := on_store (consume consume_now_iso euid storage g current_time_iso) in
  eff_ret (endpoint, descriptor_digest, consumed_at).

Definition dispatch (now_iso consume_now_iso : string) (euid : Z) (storage : Storage) (em : GatewayDispatchEmulator)
    (g : GatewayDispatchGrant) (presented_worker_spiffe_id request_target body : string) (current_time_iso : option string)
    : eff Gateway GatewayDispatchReceipt :=
  do! (endpoint, descriptor_digest, consumed_at) :=
    release now_iso consume_now_iso euid storage em g presented_worker_spiffe_id request_target body current_time_iso in
  let invocation :=
    {| iv_grant := g; iv_gateway_endpoint_id := de_gateway_endpoint_id endpoint;
       iv_gateway_identity := de_gateway_identity endpoint; iv_descriptor_digest := descriptor_digest; iv_body := body;
       iv_endpoint := endpoint |} in
  do! response := call_handler (em_handler em) invocation in
  eff_ret {| rc_gateway_receipt_id := sha256_hex (descriptor_digest +:+ ":" +:+ consumed_at); rc_grant := g;
             rc_gateway_endpoint_id := de_gateway_endpoint_id endpoint;
             rc_gateway_identity := de_gateway_identity endpoint; rc_descriptor_digest := descriptor_digest;
             rc_decision := "accepted"; rc_consumed_at := consumed_at; rc_response := response |}.

Definition dispatch_envelope (now_iso consume_now_iso : string) (euid : Z) (storage : Storage) (em : GatewayDispatchEmulator)
    (envelope presented_worker_spiffe_id : string) (current_time_iso : option string) : eff Gateway GatewayDispatchReceipt :=
  do! (g, body) := eff_lift (decode_gateway_dispatch_envelope envelope) in
  dispatch now_iso consume_now_iso euid storage em g presented_worker_spiffe_id (text_of (gr_request_target g)) body
    current_time_iso.
End Host.
