(* ===== verification/DispatchProps.v ===== *)
(** * Operator-gateway dispatches: properties

    What an accepted grant is, that envelopes carry grants and bodies unchanged, and
    that a grant is released to a handler at most once. *)

From S2P Require Import Prelude PyStr Json JsonParse JsonFacts Canonical Documents Timestamp Schema.
From S2P Require Import Contracts ContractProps.
From S2P Require Import PyIp PyUrl Identity Base64 ApprovalStore Gateway Dispatch.

(** ** Accepted grants *)

Definition scalar (v : json) : Prop := match v with JStr _ => True | JInt z => Z.abs z < int_print_limit | _ => False end.

(** What [validate] has checked. *)
Record grant_ok (g : GatewayDispatchGrant) : Prop := {
  grant_scalars : Forall (fun kv => scalar (snd kv)) (unsigned_items g ++ [("signature", gr_signature g)]);
  grant_ids : (exists s, gr_dispatch_id g = JStr s) /\ (exists s, gr_authorization_id g = JStr s) /\
              (exists s, gr_key_id g = JStr s) /\ (exists s, gr_request_target g = JStr s) /\
              (exists s, gr_gateway_endpoint_id g = JStr s);
  grant_signature : exists s, gr_signature g = JStr s /\ is_signature s = true;
  grant_body : exists n, gr_body_bytes g = JInt n /\ 0 <= n <= 16777216;
  grant_window : exists issued expires, timestamp (gr_issued_at g) = Ok issued /\ timestamp (gr_expires_at g) = Ok expires /\
                   issued < expires <= issued + 300000000;
}.

Lemma require_text_ok p v s : require_text p v = Ok s -> v = JStr s /\ p s = true.
Proof. unfold require_text, deny. destruct v as [| | | |t| |]; try done. destruct (p t) eqn:E; [|done]. by intros [= ->]. Qed.

Lemma require_time_ok v t : _require_time v = Ok t -> t = v /\ exists s, v = JStr s.
Proof.
  unfold _require_time. intros H. apply catch_ok in H; [|done]. apply res_bind_ok in H as (z & Hz & [= <-]).
  split; [done|]. unfold timestamp in Hz. destruct v as [| | | |s| |]; try done. by exists s.
Qed.

Lemma small_scalar n : 0 <= n <= 16777216 -> scalar (JInt n).
Proof.
  intros Hn. simpl. pose proof (digits_below_limit "16777216" eq_refl ltac:(done)) as H. 
  change (JsonParse.digits_value 0 "16777216") with 16777216 in H. lia.
Qed.

Lemma validate_ok g : validate g true = Ok tt -> grant_ok g.
Proof.
  unfold validate, deny. intros H. guard_ok H. apply orb_false_iff in Heqb as [Hs%negb_false_iff%str_is_eq Ha%negb_false_iff%str_is_eq].
  apply res_bind_ok in H as ([] & Htok & H). apply for_each_ok in Htok.
  assert (Htext : forall v, (_require_token v ;;? Ok tt) = Ok tt -> exists s, v = JStr s).
  { intros v Hv. apply res_bind_ok in Hv as (s & Hv & _). apply require_text_ok in Hv as [-> _]. by exists s. }
  repeat (apply Forall_cons in Htok as [[? ?]%Htext Htok]). clear Htok Htext.
  apply res_bind_ok in H as (known & Hk & H). guard_ok H. apply negb_false_iff in Heqb. subst known.
  apply in_set_ok in Hk as (kind & Hk & _).
  apply res_bind_ok in H as (? & [Hd _]%require_text_ok & H). apply res_bind_ok in H as (? & [Hw _]%require_text_ok & H).
  apply res_bind_ok in H as (target & [Ht _]%require_text_ok & H). apply res_bind_ok in H as (? & [Hb _]%require_text_ok & H).
  apply res_bind_ok in H as ([] & Hn & H). destruct (gr_body_bytes g) as [| |n| | | |] eqn:En; try done. guard_ok Hn.
  apply res_bind_ok in H as (issued & Hi & H). apply res_bind_ok in Hi as (ti & [-> [si Hsi]]%require_time_ok & Hi).
  apply res_bind_ok in H as (expires & He & H). apply res_bind_ok in He as (te & [-> [se Hse]]%require_time_ok & He).
  guard_ok H. apply res_bind_ok in H as (sig & [Hg Hsig]%require_text_ok & _). simpl_bool.
  constructor.
  - unfold unsigned_items. repeat (apply Forall_cons; split; [cbn [snd]|]); try apply Forall_nil_2;
      try (match goal with E : ?f g = _ |- scalar (?f g) => rewrite E end); try done.
    apply small_scalar. lia.
  - split_and!; eauto.
  - by exists sig.
  - exists n. split; [done|lia].
  - exists issued, expires. unfold MAX_GATEWAY_DISPATCH_TTL_SECONDS in *. split; [done|]. split; [done|lia].
Qed.

(** ** Documents of scalars *)

Lemma json_sort_scalars items : Forall (fun kv => scalar (snd kv)) items -> json_sort (JObj items) = JObj (sort_items items).
Proof.
  intros H. simpl. f_equal. f_equal. induction H as [|[k v] items Hv _ IH]; [done|]. simpl. f_equal; [|done].
  by destruct v.
Qed.

Lemma scalars_plain items : Forall (fun kv => scalar (snd kv)) items ->
  float_free (JObj items) = true /\ printable (JObj items) = true /\ all_finite (JObj items) = true.
Proof.
  induction 1 as [|[k v] items Hv _ (IH1 & IH2 & IH3)]; [done|]. simpl in *. rewrite IH1, IH2, IH3, !andb_true_r.
  destruct v; try done. simpl in *. by rewrite (proj2 (Z.ltb_lt _ _)).
Qed.

Lemma scalars_unique items : NoDup (map fst items) -> Forall (fun kv => scalar (snd kv)) items -> keys_unique (JObj items) = true.
Proof.
  intros Hn H. simpl. apply andb_true_iff. split; [by apply bool_decide_eq_true|]. apply forallb_forall.
  intros [k v] Hin. rewrite List.Forall_forall in H. specialize (H _ Hin). by destruct v.
Qed.

Lemma field_perm k items items' : NoDup (map fst items) -> items ≡ₚ items' -> field k items' = field k items.
Proof. intros Hn Hp. unfold field. by rewrite (assoc_perm k items items'). Qed.

Lemma exact_mapping_perm items items' keys : items ≡ₚ items' ->
  exact_mapping (JObj items) keys = Some items -> exact_mapping (JObj items') keys = Some items'.
Proof.
  unfold exact_mapping. intros Hp. destruct (_ && _) eqn:E; [|done]. intros _. apply andb_true_iff in E as [E1 E2].
  rewrite forallb_forall in E1, E2.
  assert (Hk : forall k, mem k (map fst items) = true -> mem k (map fst items') = true).
  { intros k Hk%mem_In. apply mem_In. apply list_elem_of_In. rewrite <- Hp. by apply list_elem_of_In. }
  rewrite (proj2 (forallb_forall _ keys)), (proj2 (forallb_forall _ items')); [done|..].
  - intros kv Hin. apply E2. apply list_elem_of_In. rewrite Hp. by apply list_elem_of_In.
  - intros k Hin. by apply Hk, E1.
Qed.

Definition grant_items (g : GatewayDispatchGrant) : list (string * json) := unsigned_items g ++ [("signature", gr_signature g)].

Lemma grant_items_keys g : map fst (grant_items g) = _FIELDS.
Proof. done. Qed.

Lemma fields_nodup : NoDup _FIELDS.
Proof. apply (bool_decide_eq_true_1 _). vm_compute. reflexivity. Qed.

(** A grant is read back from the items of its document in any order. *)
Lemma grant_of_perm g items : grant_items g ≡ₚ items -> grant_of_items items = g.
Proof.
  intros Hp. assert (Hf : forall k, field k items = field k (grant_items g)).
  { intros k. apply field_perm; [|done]. rewrite grant_items_keys. apply fields_nodup. }
  unfold grant_of_items. rewrite !Hf. by destruct g.
Qed.

Section Props.
Context `{Host} `{Ed25519}.

Lemma grant_from_sorted g : validate g true = Ok tt -> grant_from_dict (json_sort (grant_to_dict g)) = Ok g.
Proof.
  intros Hv. pose proof (grant_scalars _ (validate_ok _ Hv)) as Hs. unfold grant_to_dict. fold (grant_items g).
  rewrite json_sort_scalars by done. unfold grant_from_dict.
  rewrite (exact_mapping_perm (grant_items g) (sort_items (grant_items g)) _FIELDS);
    [|symmetry; apply sort_items_perm|done].
  rewrite (grant_of_perm g) by (symmetry; apply sort_items_perm). by rewrite Hv.
Qed.

(** ** Envelopes *)

Definition envelope_items (g : GatewayDispatchGrant) (body : string) : list (string * json) :=
  [("schema_version", JStr GATEWAY_DISPATCH_ENVELOPE_SCHEMA); ("grant", grant_to_dict g);
   ("body_base64", JStr (b64encode body)); ("body_sha256", gr_body_sha256 g); ("body_bytes", JInt (slen body))].

Lemma envelope_keys_nodup : NoDup envelope_keys.
Proof. apply (bool_decide_eq_true_1 _). vm_compute. reflexivity. Qed.

Lemma py_eq_ints a b : py_eq (JInt a) (JInt b) = (a =? b).
Proof.
  simpl. unfold num_eqb, num_compare. cbn [Z.min Z.compare Z.sub Z.add Z.opp]. rewrite !Z.shiftl_0_r.
  destruct (Z.eqb_spec a b) as [->|Hn]; [by rewrite Z.compare_refl|].
  apply eqb_neq. intros [= Hc]. by apply Z.compare_eq in Hc.
Qed.

Lemma envelope_read g body :
  validate g true = Ok tt -> gr_body_bytes g = JInt (slen body) -> gr_body_sha256 g = JStr (sha256_hex body) ->
  forall items, envelope_items g body ≡ₚ items ->
  envelope_of_items (map (fun kv => (fst kv, json_sort (snd kv))) items) = Ok (g, body).
Proof.
  intros Hv Hb Hh items Hp. unfold envelope_of_items.
  assert (Hf : forall k v, assoc k (envelope_items g body) = Some v ->
    field k (map (fun kv => (fst kv, json_sort (snd kv))) items) = json_sort v).
  { intros k v Hk. unfold field. rewrite assoc_map_sort.
    rewrite <- (assoc_perm k (envelope_items g body)); [by rewrite Hk|apply envelope_keys_nodup|done]. }
  rewrite (Hf "schema_version" _ eq_refl), (Hf "grant" _ eq_refl), (Hf "body_base64" _ eq_refl), (Hf "body_sha256" _ eq_refl),
    (Hf "body_bytes" _ eq_refl). rewrite Hh. cbn [json_sort]. rewrite str_is_refl. cbn [negb].
  rewrite grant_from_sorted by done. cbn [res_bind]. rewrite b64decode_encode. cbn [res_bind].
  rewrite Z.eqb_refl, str_is_refl, Hb, Hh. pose proof (Zle_0_nat (String.length body)) as Hpos. fold (slen body) in Hpos.
  rewrite (proj2 (Z.ltb_ge _ _)) by done. cbn [negb orb].
  rewrite py_eq_ints, Z.eqb_refl. cbn [py_eq]. by rewrite eqb_refl.
Qed.

(** C20. An envelope carries its grant and body unchanged: what was encoded decodes to
    exactly the grant and the bytes that went in, whatever the body is. *)
Theorem envelope_round_trip `{!HostOk} g body text :
  encode_gateway_dispatch_envelope g body = Ok text -> decode_gateway_dispatch_envelope text = Ok (g, body).
Proof.
  unfold encode_gateway_dispatch_envelope. intros He. apply res_bind_ok in He as ([] & Hv & He). guard_ok He.
  apply orb_false_iff in Heqb as [Hb%negb_false_iff Hh%negb_false_iff%str_is_eq].
  pose proof (validate_ok _ Hv) as Hok. pose proof (grant_scalars _ Hok) as Hs.
  destruct (grant_body _ Hok) as (n & En & Hn). rewrite En, py_eq_ints in Hb. apply Z.eqb_eq in Hb. subst n.
  fold (envelope_items g body) in He. apply canonical_bounded_ok in He as (_ & _ & _ & Hp & -> & Hlen).
  assert (Hplain : float_free (JObj (envelope_items g body)) = true /\ keys_unique (JObj (envelope_items g body)) = true).
  { destruct (scalars_plain _ Hs) as (Hff & _ & _).
    assert (Hku : keys_unique (grant_to_dict g) = true).
    { apply scalars_unique; [|done]. fold (grant_items g). rewrite grant_items_keys. apply fields_nodup. }
    unfold grant_to_dict in Hku. unfold envelope_items, grant_to_dict. rewrite Hh. split.
    - simpl in Hff |- *. by rewrite Hff.
    - cbn [keys_unique forallb snd]. cbn [keys_unique] in Hku. rewrite Hku. rewrite andb_true_r.
      apply bool_decide_eq_true, envelope_keys_nodup. }
  destruct Hplain as [Hff Hku]. unfold decode_gateway_dispatch_envelope. rewrite (proj2 (Z.ltb_ge _ _)) by lia.
  rewrite decode_encode_utf8, loads_printed by done. cbn [res_bind json_sort].
  set (items := map (fun kv => (fst kv, json_sort (snd kv))) (envelope_items g body)).
  rewrite (exact_mapping_perm items (sort_items items) envelope_keys); [|symmetry; apply sort_items_perm|done].
  assert (Hsort : sort_items items = map (fun kv => (fst kv, json_sort (snd kv))) (sort_items (envelope_items g body))).
  { unfold items. by rewrite sort_items_map. }
  rewrite Hsort, (envelope_read g body); [done|done|done|done|]. symmetry. apply sort_items_perm.
Qed.

(** ** Signatures *)

Lemma fromhex_hex s : bytes_fromhex (bytes_hex s) = Some s.
Proof.
  induction s as [|c s IH]; [done|]. cbn [bytes_hex bytes_fromhex]. rewrite IH. pose proof (code_range c) as Hc.
  assert (Hd : forall d, 0 <= d < 16 -> is_hex_digit (hex_digit d) = true /\ hex_digit_value (hex_digit d) = d).
  { assert (Hall : forallb (fun d => is_hex_digit (hex_digit d) && (hex_digit_value (hex_digit d) =? d)) (map Z.of_nat (seq 0 16)) = true)
      by (vm_compute; reflexivity).
    intros d Hd. rewrite forallb_forall in Hall. specialize (Hall d). rewrite andb_true_iff, Z.eqb_eq in Hall.
    apply Hall, in_map_iff. exists (Z.to_nat d). split; [lia|]. apply in_seq. lia. }
  pose proof (Z.div_mod (code c) 16 ltac:(lia)). pose proof (Z.mod_pos_bound (code c) 16 ltac:(lia)).
  destruct (Hd (code c / 16)) as [-> ->]; [lia|]. destruct (Hd (code c mod 16)) as [-> ->]; [lia|]. cbn [andb fmap option_fmap option_map].
  f_equal. f_equal. rewrite <- (chr_code c) at 3. f_equal. lia.
Qed.

(** The public key that belongs to a private key. *)
Definition key_pair (private_key public_key : string) : Prop :=
  forall text signature, ed25519_sign private_key text = Ok signature -> ed25519_valid public_key signature text = true.

Lemma signed_grant_ok g private_key signed :
  sign_gateway_dispatch g private_key = Ok signed ->
  validate signed true = Ok tt /\ exists text signature,
    signed_text signed = Ok text /\ ed25519_sign private_key text = Ok signature /\
    signed = with_signature g (JStr (bytes_hex signature)).
Proof.
  unfold sign_gateway_dispatch. intros H1. apply res_bind_ok in H1 as ([] & _ & H1).
  apply res_bind_ok in H1 as (signature & Hs & H1). apply catch_ok in Hs; [|done].
  apply res_bind_ok in Hs as (text & Ht & Hs). apply res_bind_ok in H1 as ([] & Hv & [= <-]).
  split; [done|]. by exists text, signature.
Qed.

(** The signature is one of a trusted key over the rest of the grant. *)
Definition trusted_signature (store : GatewayDispatchTrustStore) (g : GatewayDispatchGrant) : Prop :=
  exists key_id key hex signature text,
    gr_key_id g = JStr key_id /\ store !! key_id = Some key /\ signed_text g = Ok text /\
    gr_signature g = JStr hex /\ bytes_fromhex hex = Some signature /\ ed25519_valid key signature text = true.

Lemma trust_verify_iff store g : trust_verify store g = Ok tt <-> trusted_signature store g.
Proof.
  unfold trust_verify, trusted_signature, deny. split.
  - intros H1. repeat guard_ok H1. by repeat eexists.
  - intros (key_id & key & hex & signature & text & -> & Hk & -> & -> & Hx & Hv). by rewrite Hk, Hx, Hv.
Qed.

(** The window of a grant contains a time. *)
Definition in_window (g : GatewayDispatchGrant) (current : Z) : Prop :=
  exists issued expires, timestamp (gr_issued_at g) = Ok issued /\ timestamp (gr_expires_at g) = Ok expires /\
    issued <= current <= expires.

Lemma verify_iff now_iso g store time :
  verify_gateway_dispatch now_iso g store time = Ok tt <->
  validate g true = Ok tt /\ (exists current, timestamp (given_time now_iso time) = Ok current /\ in_window g current) /\
  trusted_signature store g.
Proof.
  rewrite <- trust_verify_iff. unfold verify_gateway_dispatch, in_window. split.
  - intros H1. apply res_bind_ok in H1 as ([] & Hv & H1). apply res_bind_ok in H1 as (current & Hc & H1).
    apply catch_ok in Hc; [|done]. apply res_bind_ok in H1 as (issued & Hi & H1). apply res_bind_ok in H1 as (expires & He & H1).
    guard_ok H1. simpl_bool. split; [done|]. split; [|done]. exists current. split; [done|]. exists issued, expires. auto.
  - intros (-> & (current & Hc & issued & expires & Hi & He & Hw) & Hs). rewrite Hc, Hi, He. cbn [res_bind catch].
    by rewrite !(proj2 (Z.ltb_ge _ _)) by lia.
Qed.

(** C19. A trust store accepts a grant at a time exactly when the grant is valid, the time
    is inside its window and its signature is one of a trusted key over the rest of it;
    and a freshly signed grant has such a signature under the matching public key. *)
Theorem verified_grant_exact now_iso g store time :
  (verify_gateway_dispatch now_iso g store time = Ok tt <->
   validate g true = Ok tt /\ (exists current, timestamp (given_time now_iso time) = Ok current /\ in_window g current) /\
   trusted_signature store g) /\
  (forall unsigned private_key public_key key_id, sign_gateway_dispatch unsigned private_key = Ok g ->
     gr_key_id g = JStr key_id -> store !! key_id = Some public_key -> key_pair private_key public_key ->
     trusted_signature store g).
Proof.
  split; [apply verify_iff|].
  intros unsigned private_key public_key key_id (_ & text & signature & Ht & Hs & Hg)%signed_grant_ok Hid Hk Hp.
  exists key_id, public_key, (bytes_hex signature), signature, text. rewrite fromhex_hex. split_and!; try done; [by rewrite Hg|].
  by apply Hp.
Qed.

(** ** At most once *)

Lemma eff_lift_state {S A} (r : res A) (s : S) : eff_lift r s = (r, s).
Proof. done. Qed.

Definition dispatch_id (g : GatewayDispatchGrant) : string := text_of (gr_dispatch_id g).
Definition authorization_id (g : GatewayDispatchGrant) : string := text_of (gr_authorization_id g).

(** The grant of a row. *)
Definition row_of (g : GatewayDispatchGrant) (row : Consumed) : Prop :=
  cd_dispatch_id row = dispatch_id g /\ cd_authorization_id row = authorization_id g.

(** Neither the dispatch nor the authorization is in the table. *)
Definition unused (g : GatewayDispatchGrant) (s : ReplayStore) : Prop :=
  forall row, In row (rp_rows s) -> cd_dispatch_id row <> dispatch_id g /\ cd_authorization_id row <> authorization_id g.

(** The store after a call: rows are only added; a grant that was consumed was unused and has
    its row. *)
Definition consumed_step (g : GatewayDispatchGrant) (s : ReplayStore) {A} (r : res A) (s' : ReplayStore) : Prop :=
  (exists more, rp_rows s' = rp_rows s ++ more) /\
  (is_ok r = true -> unused g s /\ exists row, In row (rp_rows s') /\ row_of g row).

Lemma consume_rows_step g consumed_at storage s r s' :
  consume_rows g consumed_at storage s = (r, s') -> consumed_step g s r s'.
Proof.
  assert (Hsame : forall (s' : ReplayStore) (r : res unit), rp_rows s' = rp_rows s -> is_ok r = false -> consumed_step g s r s').
  { intros s1 r1 Heq Hr. split; [exists []; by rewrite Heq, app_nil_r|]. by rewrite Hr. }
  unfold consume_rows. destruct (sg_sqlite storage); [|intros [= <- <-]; by apply Hsame]. cbn [negb].
  unfold create_index. destruct (_ || _); [|intros [= <- <-]; by apply Hsame].
  destruct (gateway_dispatch_descriptor_digest g) as [digest|e];
    [|intros [= <- <-]; apply Hsame; [done|]; by destruct (_ == _)].
  unfold insert_consumed. cbn [rp_rows]. destruct (existsb _ (rp_rows s)) eqn:E; [intros [= <- <-]; by apply Hsame|].
  assert (Hun : unused g s).
  { intros row Hin. pose proof (proj1 (existsb_false _ _) E row Hin) as Hf. cbn in Hf. simpl_bool. done. }
  destruct (sg_commit_error storage) as [[]|]; intros [= <- <-]; cbn [rp_rows]; (split; [first [by eexists|by exists []; rewrite app_nil_r]|]);
    try done.
  intros _. split; [done|]. eexists. split; [apply in_app_iff; right; by left|]. done.
Qed.

Lemma consume_step now_iso euid storage g time s r s' :
  consume now_iso euid storage g time s = (r, s') -> consumed_step g s r s'.
Proof.
  assert (Hraise : forall e : exc, consumed_step g s (@Raise (string * string) e) s).
  { intros e. split; [exists []; by rewrite app_nil_r|done]. }
  unfold consume, eff_bind, eff_lift, eff_ret. destruct (validate g true) as [[]|e]; [|by intros [= <- <-]].
  destruct (_prepare storage euid) as [[]|e]; [|by intros [= <- <-]].
  destruct (catch _ _ _) as [[]|e]; [|by intros [= <- <-]].
  destruct (consume_rows g _ storage s) as [[[]|e] s1] eqn:E; apply consume_rows_step in E as [Hm Hok].
  - destruct (gateway_dispatch_descriptor_digest g); intros [= <- <-]; (split; [done|]); [intros _; by apply Hok|done].
  - intros [= <- <-]. by split.
Qed.

(** *** Histories of calls *)

(** A consumption on behalf of a broker, or a dispatch at the gateway; each with its own
    clock readings, file system and database faults, gateway and arguments. *)
Inductive call :=
| CallConsume (now_iso : string) (euid : Z) (storage : Storage) (g : GatewayDispatchGrant) (time : option string)
| CallDispatch (now_iso consume_now_iso : string) (euid : Z) (storage : Storage) (em : GatewayDispatchEmulator)
    (g : GatewayDispatchGrant) (worker target body : string) (time : option string).

(** The state after a call, and the grant it released if it did. *)
Definition run_call (c : call) (w : Gateway) : Gateway * option GatewayDispatchGrant :=
  match c with
  | CallConsume now_iso euid storage g time =>
      let (r, w') := on_store (consume now_iso euid storage g time) w in (w', if is_ok r then Some g else None)
  | CallDispatch now_iso consume_now_iso euid storage em g worker target body time =>
      (snd (dispatch now_iso consume_now_iso euid storage em g worker target body time w),
       if is_ok (fst (release now_iso consume_now_iso euid storage em g worker target body time w)) then Some g else None)
  end.

(** The grants released, the last one first. *)
Fixpoint run_calls (calls : list call) (w : Gateway) (released : list GatewayDispatchGrant)
    : Gateway * list GatewayDispatchGrant :=
  match calls with
  | [] => (w, released)
  | c :: calls' =>
      let (w', g) := run_call c w in
      run_calls calls' w' (match g with Some g => g :: released | None => released end)
  end.

(** What was checked of an invocation before the grant was consumed. *)
Definition checked_invocation (iv : GatewayDispatchInvocation) : Prop :=
  exists now_iso em worker target time,
    preflight now_iso em (iv_grant iv) worker target (iv_body iv) time = Ok (iv_endpoint iv).

(** One call: at most one invocation, and only with the grant it releases. *)
Definition call_step (w w' : Gateway) (released : option GatewayDispatchGrant) : Prop :=
  (exists more, rp_rows (gw_store w') = rp_rows (gw_store w) ++ more) /\
  match released with
  | Some g =>
      unused g (gw_store w) /\ (exists row, In row (rp_rows (gw_store w')) /\ row_of g row) /\
      (gw_invocations w' = gw_invocations w \/
       exists iv, gw_invocations w' = iv :: gw_invocations w /\ iv_grant iv = g /\ checked_invocation iv)
  | None => gw_invocations w' = gw_invocations w
  end.

Lemma run_call_step c w w' released : run_call c w = (w', released) -> call_step w w' released.
Proof.
  assert (Hnone : forall w1 : Gateway, gw_store w1 = gw_store w -> gw_invocations w1 = gw_invocations w -> call_step w w1 None).
  { intros w1 Hs Hi. split; [exists []; by rewrite Hs, app_nil_r|done]. }
  destruct c as [now_iso euid storage g time|now_iso now2 euid storage em g worker target body time]; unfold run_call.
  - unfold on_store. destruct (consume now_iso euid storage g time (gw_store w)) as [r s'] eqn:E.
    apply consume_step in E as [Hm Hok]. intros [= <- <-]. destruct r as [a|e]; split; try done; cbn.
    destruct (Hok eq_refl). auto.
  - unfold dispatch, release, eff_bind, eff_lift, eff_ret.
    destruct (preflight now_iso em g worker target body time) as [endpoint|e] eqn:Ep; [|intros [= <- <-]; by apply Hnone].
    unfold on_store. destruct (consume now2 euid storage g time (gw_store w)) as [[[digest consumed_at]|e] s'] eqn:E;
      apply consume_step in E as [Hm Hok]; [|intros [= <- <-]; by split].
    destruct (Hok eq_refl) as [Hun Hrow]. unfold call_handler.
    destruct (em_handler em) as [h|]; cbn [fst snd is_ok];
      [|intros [= <- <-]; split; [done|]; split; [done|]; split; [done|by left]].
    set (iv := {| iv_grant := g |}).
    destruct (h iv) as [[| |]|]; cbn [fst snd is_ok]; intros [= <- <-]; (split; [done|]); (split; [done|]); (split; [done|]); right;
      exists iv; (split; [done|]); (split; [done|]); by exists now_iso, em, worker, target, time.
Qed.

(** What holds of a history: the grants released have their rows, once each, and the
    invocations made are of released grants, in their order. *)
Record history_ok (w0 w : Gateway) (released : list GatewayDispatchGrant) : Prop := {
  rows_kept : exists more, rp_rows (gw_store w) = rp_rows (gw_store w0) ++ more;
  rows_released : Forall (fun g => unused g (gw_store w0) /\ exists row, In row (rp_rows (gw_store w)) /\ row_of g row) released;
  dispatches_once : NoDup (map dispatch_id released);
  authorizations_once : NoDup (map authorization_id released);
  invocations_released : exists made, gw_invocations w = made ++ gw_invocations w0 /\
    map iv_grant made `sublist_of` released /\ Forall checked_invocation made;
}.

Lemma history_step w0 w released w' g :
  history_ok w0 w released -> call_step w w' g ->
  history_ok w0 w' (match g with Some g => g :: released | None => released end).
Proof.
  intros [[more Hm] Hr Hd Ha (made & Hi & Hsub & Hc)] [[more' Hm'] Hstep].
  assert (Hkept : exists m, rp_rows (gw_store w') = rp_rows (gw_store w0) ++ m).
  { exists (more ++ more'). by rewrite Hm', Hm, app_assoc. }
  assert (Hr' : Forall (fun g => unused g (gw_store w0) /\ exists row, In row (rp_rows (gw_store w')) /\ row_of g row) released).
  { eapply Forall_impl; [exact Hr|]. intros g' (Hu & row & Hin & Hrow). split; [done|]. exists row. split; [|done].
    rewrite Hm'. apply in_app_iff. by left. }
  destruct g as [g|].
  - destruct Hstep as (Hun & Hrow & Hinv).
    assert (Hfresh : forall g', In g' released -> dispatch_id g' <> dispatch_id g /\ authorization_id g' <> authorization_id g).
    { intros g' Hin. rewrite List.Forall_forall in Hr. destruct (Hr g' Hin) as (_ & row & Hrin & <- & <-). by apply Hun. }
    constructor; [done| | | |].
    + constructor; [|done]. split; [|done]. intros row Hin. apply Hun. rewrite Hm. apply in_app_iff. by left.
    + simpl. constructor; [|done]. rewrite list_elem_of_In, in_map_iff. intros (g' & Heq & Hin). by destruct (Hfresh g' Hin).
    + simpl. constructor; [|done]. rewrite list_elem_of_In, in_map_iff. intros (g' & Heq & Hin). by destruct (Hfresh g' Hin).
    + destruct Hinv as [->|(iv & -> & <- & Hiv)].
      * exists made. split; [done|]. split; [by apply sublist_cons|done].
      * exists (iv :: made). rewrite Hi. split; [done|]. split; [by apply sublist_skip|by constructor].
  - constructor; try done. exists made. by rewrite Hstep.
Qed.

Lemma calls_history calls : forall w0 w released w' released',
  history_ok w0 w released -> run_calls calls w released = (w', released') -> history_ok w0 w' released'.
Proof.
  induction calls as [|c calls IH]; intros w0 w released w' released' Hok Hrun; cbn [run_calls] in Hrun; [by injection Hrun as <- <-|].
  destruct (run_call c w) as [w1 g] eqn:E. apply run_call_step in E. eapply IH; [|exact Hrun]. by eapply history_step.
Qed.

(** C18. Over any history of consumptions and dispatches on one replay store, with any
    faults of its file, of SQLite or of a commit, by any number of gateways and
    brokers: no dispatch and no authorization is released twice, nor one that was in
    the table before; and a handler is invoked at most once for each release, only
    after the preflight of its grant, body and endpoint succeeded. *)
Theorem dispatched_at_most_once calls w0 w released :
  run_calls calls w0 [] = (w, released) ->
  NoDup (map dispatch_id released) /\ NoDup (map authorization_id released) /\
  (forall g, In g released -> unused g (gw_store w0)) /\
  exists made, gw_invocations w = made ++ gw_invocations w0 /\ map iv_grant made `sublist_of` released /\
    Forall checked_invocation made.
Proof.
  intros Hrun. destruct (calls_history calls w0 w0 [] w released) as [_ Hr Hd Ha Hi]; [|done|].
  - split; [exists []; by rewrite app_nil_r|by apply List.Forall_nil|by apply NoDup_nil|by apply NoDup_nil|].
    exists []. split; [done|]. split; [apply sublist_nil|apply List.Forall_nil].
  - split; [done|]. split; [done|]. split; [|done]. intros g Hin. rewrite List.Forall_forall in Hr. by destruct (Hr g Hin).
Qed.
End Props.

(** ** Witnesses *)

(** A toy signature scheme: the signature is the key, twice. *)
#[local] Instance demo_ed25519 : Ed25519 := {|
  ed25519_valid := fun key signature text => signature == key +:+ key;
  ed25519_sign := fun key text => Ok (key +:+ key);
|}.

Definition demo_key : string := "0123456789abcdef0123456789abcdef".
Definition demo_body : string := "a body of just thirty-two bytes.".

Definition demo_grant (id : string) : GatewayDispatchGrant := {|
  gr_schema_version := JStr GATEWAY_DISPATCH_SCHEMA; gr_dispatch_id := JStr ("dispatch-" +:+ id);
  gr_authorization_id := JStr ("authorization-" +:+ id); gr_action_plan_id := JStr "plan-1";
  gr_plan_digest := JStr (hex_text demo_body); gr_worker_spiffe_id := JStr "spiffe://lab.example/worker";
  gr_provider := JStr "provider"; gr_account_or_project_kind := JStr "project"; gr_account_or_project := JStr "account-1";
  gr_region := JStr "eu"; gr_model := JStr "model-1"; gr_gateway_endpoint_id := JStr "endpoint-1";
  gr_request_target := JStr "https://models.example/v1"; gr_body_sha256 := JStr (hex_text demo_body);
  gr_body_bytes := JInt 32; gr_issued_at := JStr "2026-01-01T00:00:00Z"; gr_expires_at := JStr "2026-01-01T00:05:00Z";
  gr_key_id := JStr "key-1"; gr_algorithm := JStr GATEWAY_DISPATCH_ALGORITHM; gr_signature := JNull |}.

Definition demo_now : string := "2026-01-01T00:02:00Z".
Definition demo_signed (id : string) : GatewayDispatchGrant :=
  with_signature (demo_grant id) (JStr (bytes_hex (demo_key +:+ demo_key))).

Definition demo_store : GatewayDispatchTrustStore := {["key-1" := demo_key]}.

Example demo_signed_grant : @sign_gateway_dispatch hex_host demo_ed25519 (demo_grant "1") demo_key = Ok (demo_signed "1").
Proof. vm_compute. reflexivity. Qed.

Definition demo_envelope : string :=
  match @encode_gateway_dispatch_envelope hex_host (demo_signed "1") demo_body with Ok text => text | Raise _ => "" end.

Lemma envelope_round_trip_witness :
  @decode_gateway_dispatch_envelope hex_host demo_envelope = Ok (demo_signed "1", demo_body).
Proof. apply (@envelope_round_trip hex_host hex_host_ok). vm_compute. reflexivity. Defined.

Definition demo_endpoint : GatewayDispatchEndpoint := {|
  de_gateway_endpoint_id := "endpoint-1"; de_gateway_identity := "spiffe://lab.example/gateway";
  de_endpoint_origin := "https://gateway.example"; de_gateway_path := "/dispatch"; de_provider := "provider";
  de_account_or_project_kind := "project"; de_account_or_project := "account-1"; de_region := "eu"; de_model := "model-1";
  de_request_target := "https://models.example/v1" |}.

Definition demo_emulator : GatewayDispatchEmulator := {|
  em_authorizer := {| az_trust_store := demo_store; az_endpoints := [("endpoint-1", demo_endpoint)] |};
  em_action_plan_id := "plan-1"; em_plan_digest := hex_text demo_body; em_worker_spiffe_id := "spiffe://lab.example/worker";
  em_endpoint_origin := "https://gateway.example"; em_gateway_path := "/dispatch"; em_handler := Some (fun _ => Ok NoResponse) |}.

Definition demo_storage (commit_error : option bool) : Storage :=
  {| sg_file := Some {| st_kind := RegularFile; st_uid := 1000; st_mode := 384 |}; sg_sqlite := true;
     sg_commit_error := commit_error |}.

(** The first grant is consumed but its commit is reported to fail; then it and another
    are dispatched, twice. *)
Definition demo_call (id : string) (commit_error : option bool) : call :=
  CallDispatch demo_now demo_now 1000 (demo_storage commit_error) demo_emulator (demo_signed id)
    "spiffe://lab.example/worker" "https://models.example/v1" demo_body None.
Definition demo_calls : list call :=
  [demo_call "1" (Some true); demo_call "1" None; demo_call "2" None; demo_call "2" None].
Definition demo_gateway : Gateway := {| gw_store := {| rp_rows := []; rp_indexed := false |}; gw_invocations := [] |}.
Definition demo_run : Gateway * list GatewayDispatchGrant := @run_calls hex_host demo_ed25519 demo_calls demo_gateway [].

Lemma verified_grant_exact_witness : @trusted_signature hex_host demo_ed25519 demo_store (demo_signed "1").
Proof.
  apply (proj2 (@verified_grant_exact hex_host demo_ed25519 demo_now (demo_signed "1") demo_store None)
    (demo_grant "1") demo_key demo_key "key-1"); [vm_compute; reflexivity|reflexivity|reflexivity|].
  intros text signature [= <-]. reflexivity.
Defined.

Lemma dispatched_at_most_once_witness :
  map dispatch_id (snd demo_run) = ["dispatch-2"] /\ length (gw_invocations (fst demo_run)) = 1%nat /\ NoDup (map authorization_id (snd demo_run)).
Proof.
  split; [vm_compute; reflexivity|]. split; [vm_compute; reflexivity|].
  apply (proj1 (proj2 (@dispatched_at_most_once hex_host demo_ed25519 demo_calls demo_gateway (fst demo_run) (snd demo_run)
    (surjective_pairing _)))).
Defined.
