(* ===== verification/Transport.v ===== *)
(** * Control sockets and framing

    The connections of [src/cops/execution/control.py]: a stream socket with a
    timeout, the view [_DeadlineSocket] of it, and the newline-delimited JSON
    frames [_read_json_line] and [_write_json_line] exchange.  What a peer does is
    data: the bytes that arrive and when, the end of its stream or a reset, and how
    the writes of this side go.  The class [Connection] is what the framing needs of
    a socket.  Times are microseconds of the monotonic clock. *)

From S2P Require Import Prelude PyStr Json JsonParse.

(** ** Stream sockets *)

Inductive arrival := Data (c : ascii) (s : string) | Eof | Reset.

(** What arrives next, [ar_delay] after the call that waits for it. *)
Record Arrival := { ar_delay : Z; ar_event : arrival }.

(** How a write goes: when it ends, and how many bytes got out if the peer resets. *)
Record Sending := { sn_delay : Z; sn_reset : option nat }.

Record Socket := {
  sk_now : Z; sk_timeout : Z; sk_inbound : list Arrival; sk_sendings : list Sending; sk_sent : string
}.

Definition advance (delay : Z) (k : Socket) : Socket :=
  {| sk_now := sk_now k + delay; sk_timeout := sk_timeout k; sk_inbound := sk_inbound k;
     sk_sendings := sk_sendings k; sk_sent := sk_sent k |}.

Definition set_timeout (timeout : Z) (k : Socket) : Socket :=
  {| sk_now := sk_now k; sk_timeout := timeout; sk_inbound := sk_inbound k; sk_sendings := sk_sendings k;
     sk_sent := sk_sent k |}.

Definition set_inbound (inbound : list Arrival) (k : Socket) : Socket :=
  {| sk_now := sk_now k; sk_timeout := sk_timeout k; sk_inbound := inbound; sk_sendings := sk_sendings k;
     sk_sent := sk_sent k |}.

Definition set_sent (sendings : list Sending) (sent : string) (k : Socket) : Socket :=
  {| sk_now := sk_now k; sk_timeout := sk_timeout k; sk_inbound := sk_inbound k; sk_sendings := sendings;
     sk_sent := sent |}.

(** [connection.recv(size)]: some of the bytes at hand, the empty string at the end
    of the stream.  A peer with nothing more to say keeps the call waiting. *)
Definition socket_recv (size : Z) : eff Socket string := fun k =>
  match sk_inbound k with
  | [] => (raise TimeoutError "timed out", advance (sk_timeout k) k)
  | a :: rest =>
      if sk_timeout k <? ar_delay a then
        (raise TimeoutError "timed out",
         set_inbound ({| ar_delay := ar_delay a - sk_timeout k; ar_event := ar_event a |} :: rest)
           (advance (sk_timeout k) k))
      else
        let k := advance (ar_delay a) k in
        match ar_event a with
        | Data c s =>
            let text := String c s in
            let left :=
              match drop_str (Z.to_nat size) text with
              | EmptyString => rest
              | String d s' => {| ar_delay := 0; ar_event := Data d s' |} :: rest
              end in
            (Ok (take_str (Z.to_nat size) text), set_inbound left k)
        | Eof => (Ok EmptyString, set_inbound ({| ar_delay := 0; ar_event := Eof |} :: rest) k)
        | Reset => (raise OSError "connection reset", set_inbound rest k)
        end
  end.

(** [connection.sendall(data)]; a write with no recorded outcome succeeds at once. *)
Definition socket_sendall (data : string) : eff Socket unit := fun k =>
  match sk_sendings k with
  | [] => (Ok tt, set_sent [] (sk_sent k +:+ data) k)
  | n :: rest =>
      if sk_timeout k <? sn_delay n then
        (raise TimeoutError "timed out",
         set_sent rest (sk_sent k +:+ take_str (default O (sn_reset n)) data) (advance (sk_timeout k) k))
      else
        let k := advance (sn_delay n) k in
        match sn_reset n with
        | None => (Ok tt, set_sent rest (sk_sent k +:+ data) k)
        | Some bytes => (raise OSError "broken pipe", set_sent rest (sk_sent k +:+ take_str bytes data) k)
        end
  end.

(** What the framing needs of a socket. *)
Class Connection (C : Type) := {
  conn_recv : Z -> eff C string;
  conn_sendall : string -> eff C unit;
}.

#[export] Instance Socket_Connection : Connection Socket := {
  conn_recv := socket_recv;
  conn_sendall := socket_sendall;
}.

(** ** [_DeadlineSocket] *)

Record _DeadlineSocket := { _connection : Socket; _deadline : Z }.

Definition on_connection {A} (m : eff Socket A) : eff _DeadlineSocket A := fun d =>
  let (r, k) := m (_connection d) in (r, {| _connection := k; _deadline := _deadline d |}).

Definition _set_remaining_timeout : eff _DeadlineSocket unit := fun d =>
  let remaining := _deadline d - sk_now (_connection d) in
  if remaining <=? 0 then (raise TimeoutError "approval control total connection deadline exceeded", d)
  else (Ok tt, {| _connection := set_timeout remaining (_connection d); _deadline := _deadline d |}).

Definition _DeadlineSocket_recv (size : Z) : eff _DeadlineSocket string :=
  do! _ := _set_remaining_timeout in on_connection (socket_recv size).

Definition _DeadlineSocket_sendall (data : string) : eff _DeadlineSocket unit :=
  do! _ := _set_remaining_timeout in on_connection (socket_sendall data).

#[export] Instance DeadlineSocket_Connection : Connection _DeadlineSocket := {
  conn_recv := _DeadlineSocket_recv;
  conn_sendall := _DeadlineSocket_sendall;
}.

(** ** Frames *)

Definition MAX_CONTROL_MESSAGE_BYTES : Z := 1048576.

(** [except (UnicodeDecodeError, json.JSONDecodeError)]; an integer of too many
    digits is a plain [ValueError]. *)
Definition is_json_error (e : exc) : bool :=
  (exc_cls e == ValueError) && mem (exc_msg e) ["UnicodeDecodeError"; "JSONDecodeError"].

Section Framing.
Context `{Host} {C : Type} `{Connection C}.

(** The [while True] loop; every pass but the last adds a byte, so the byte limit
    bounds the passes. *)
Fixpoint read_loop (fuel : nat) (data : string) : eff C string :=
  match fuel with
  | O => eff_raise OutOfFuel "read_loop"
  | S fuel =>
      do! chunk := conn_recv (Z.min 65536 (MAX_CONTROL_MESSAGE_BYTES + 1 - slen data)) in
      if chunk == "" then eff_ret data
      else
        let data := data +:+ chunk in
        do_if MAX_CONTROL_MESSAGE_BYTES <? slen data
          as ApprovalControlError msg "approval control message exceeds the byte limit" ;;
        read_loop fuel data
  end.

Definition read_fuel : nat := Z.to_nat (MAX_CONTROL_MESSAGE_BYTES + 2).

(** The checks on the bytes of a connection that has ended. *)
Definition parse_frame (data : string) : res json :=
  raise_if negb (endswith (String "010" "") data)
    as ApprovalControlTransportError msg "approval control connection ended before a complete response" ;;
  raise_if negb (count_char "010" data =? 1)
    as ApprovalControlError msg "approval control requires one newline-delimited JSON document" ;;
  let? document :=
    catch is_json_error (loads_bytes (take_str (String.length data - 1) data))
      (fun _ => raise ApprovalControlError "approval control message is not valid UTF-8 JSON") in
  raise_if negb (is_dict document) as ApprovalControlError msg "approval control message must be a JSON object" ;;
  Ok document.

Definition _read_json_line : eff C json :=
  do! data := read_loop read_fuel "" in eff_lift (parse_frame data).

(** [json.dumps] refuses only integers too long to print; its text is ASCII. *)
Definition encode_frame (document : json) : res string :=
  raise_if negb (printable document) as ValueError msg "int_max_str_digits" ;;
  let encoded := encode_utf8 (dumps true document) +:+ String "010" "" in
  raise_if MAX_CONTROL_MESSAGE_BYTES <? slen encoded
    as ApprovalControlError msg "approval control response exceeds the byte limit" ;;
  Ok encoded.

Definition _write_json_line (document : json) : eff C unit :=
  do! encoded := eff_lift (encode_frame document) in conn_sendall encoded.
End Framing.
