(* ===== verification/TransportProps.v ===== *)
(** * Frames on control sockets

    What [src/cops/execution/control.py] relies on when two processes exchange
    frames: reading depends on the bytes of the stream only, not on how they are
    cut or delayed; a frame that was written is read back; a frame cut short is
    recognised; and a connection with a deadline is left by its deadline. *)

From S2P Require Import Prelude PyStr Json JsonParse JsonFacts Canonical Transport.

(** ** Texts *)

Lemma take_drop_str n s : take_str n s +:+ drop_str n s = s.
Proof. revert s. induction n as [|n IH]; intros [|c s]; simpl; [done..|]. by rewrite IH. Qed.

Lemma take_str_app a b : take_str (String.length a) (a +:+ b) = a.
Proof. induction a as [|c a IH]; simpl; [by destruct b|]. by rewrite IH. Qed.

Lemma take_str_nonempty n c s : (0 < n)%nat -> take_str n (String c s) <> "".
Proof. destruct n; [lia|done]. Qed.

Lemma count_char_app c a b : count_char c (a +:+ b) = count_char c a + count_char c b.
Proof. induction a as [|d a IH]; simpl; [done|]. rewrite IH. lia. Qed.

Lemma string_snoc_cases s : s = "" \/ exists r c, s = r +:+ String c "".
Proof.
  induction s as [|c s IH]; [by left|]. right. destruct IH as [->|(r & d & ->)]; [by exists "", c|].
  by exists (String c r), d.
Qed.

Definition newline : string := String "010" "".

Lemma endswith_newline s : endswith newline s = true <-> exists r, s = r +:+ newline.
Proof. apply endswith_spec. Qed.

(** ** The text of a frame *)

Definition visible (c : ascii) : bool := (32 <=? code c) && (code c <? 127).

Lemma visible_escape s : string_all visible (escape true s) = true.
Proof.
  induction s as [|c s IH]; [done|]. cbn [escape]. rewrite string_all_app, IH, andb_true_r.
  destruct c as [[] [] [] [] [] [] [] []]; reflexivity.
Qed.

Lemma visible_quote s : string_all visible (quote true s) = true.
Proof. unfold quote. simpl. by rewrite string_all_app, visible_escape. Qed.

Lemma visible_join xs : Forall (fun x => string_all visible x = true) xs -> string_all visible (join "," xs) = true.
Proof.
  induction 1 as [|x xs Hx Hxs IH]; [done|]. destruct xs as [|y ys]; [done|].
  rewrite join_cons, string_all_app, Hx. exact IH.
Qed.

Lemma visible_dumps `{Host} v : float_free v = true -> string_all visible (dumps true v) = true.
Proof.
  induction v as [|b|z|f|s|xs IH|items IH] using json_ind'; intros Hf; try done.
  - by destruct b.
  - cbn [dumps]. rewrite pretty_Z_cases. destruct (pretty_N_spec (Z.abs_N z)) as (t & -> & Hall & _).
    assert (Hd : string_all visible t = true).
    { induction t as [|c t IH]; [done|]. simpl in Hall |- *. apply andb_true_iff in Hall as [Hc Ht].
      rewrite (IH Ht), andb_true_r. unfold is_ascii_digit in Hc. unfold visible. simpl_bool. lia. }
    by destruct (z <? 0).
  - apply visible_quote.
  - cbn [dumps]. rewrite !string_all_app. simpl. rewrite andb_true_r. apply visible_join.
    simpl in Hf. rewrite forallb_forall in Hf. pose proof (proj1 (list.Forall_forall _ _) IH) as IHx. apply list.Forall_forall.
    intros t (x & -> & Hx)%list_elem_of_fmap. apply IHx; [done|]. by apply Hf, list_elem_of_In.
  - rewrite dumps_obj. rewrite !string_all_app. simpl. rewrite andb_true_r. apply visible_join.
    simpl in Hf. rewrite forallb_forall in Hf. pose proof (proj1 (list.Forall_forall _ _) IH) as IHx. apply list.Forall_forall.
    intros t (x & -> & Hx)%list_elem_of_fmap. unfold member_text. rewrite !string_all_app, visible_quote. simpl.
    rewrite sort_items_perm in Hx. apply IHx; [done|]. by apply Hf, list_elem_of_In.
Qed.

Lemma visible_no_newline s : string_all visible s = true -> count_char "010" s = 0.
Proof.
  induction s as [|c s IH]; [done|]. simpl. intros [Hc Hs]%andb_true_iff. rewrite (IH Hs).
  destruct (("010" : ascii) == c) eqn:E; [|done]. apply eqb_true in E. by subst.
Qed.

Lemma visible_utf8 s : string_all visible s = true -> encode_utf8 s = s.
Proof.
  induction s as [|c s IH]; [done|]. simpl. intros [Hc Hs]%andb_true_iff. rewrite (IH Hs).
  unfold visible in Hc. simpl_bool. replace (code c <? 128) with true by (symmetry; lia). done.
Qed.

Lemma visible_code c : visible c = true -> 32 <= code c < 127.
Proof. unfold visible. intros. simpl_bool. lia. Qed.

Lemma visible_no_mark z zs s :
  string_all visible s = true -> 0 <= z < 32 \/ 127 <= z < 256 -> startswith (bytes (z :: zs)) s = false.
Proof.
  intros Hs Hz. destruct s as [|a s]; [done|]. cbn [string_all] in Hs. apply andb_true_iff in Hs as [Ha%visible_code _].
  unfold bytes. cbn [map String.string_of_list_ascii startswith]. apply andb_false_iff. left.
  apply eqb_neq. intros <-. rewrite code_chr in Ha; lia.
Qed.

(** Visible ASCII text is read as UTF-8. *)
Lemma visible_detect s : string_all visible s = true -> detect_encoding s = Utf8.
Proof.
  intros Hs. unfold detect_encoding. rewrite !(visible_no_mark _ _ s Hs) by lia. cbn [orb].
  assert (H0 : forall a, visible a = true -> (code a =? 0) = false).
  { intros a Ha%visible_code. lia. }
  destruct s as [|a [|b [|c [|d s]]]]; try done; cbn [string_all] in Hs; simpl_bool; by rewrite !H0.
Qed.

Lemma visible_loads `{Host} s : string_all visible s = true -> loads_bytes s = loads s.
Proof.
  intros Hs. unfold loads_bytes. rewrite (visible_detect s Hs). simpl.
  by rewrite <- (visible_utf8 s Hs) at 1; rewrite decode_encode_utf8.
Qed.

Section Frames.
Context `{Host}.

Lemma dumps_obj_text items : exists t, dumps true (JObj items) = "{" +:+ t.
Proof. rewrite dumps_obj. eauto. Qed.

Lemma encode_frame_ok v text :
  encode_frame v = Ok text -> float_free v = true ->
  text = dumps true v +:+ newline /\ slen text <= MAX_CONTROL_MESSAGE_BYTES /\ printable v = true.
Proof.
  unfold encode_frame. intros Hf Hv. guard_ok Hf. guard_ok Hf. injection Hf as <-. simpl_bool.
  rewrite visible_utf8 in * by (by apply visible_dumps). done.
Qed.

Lemma json_sort_is_dict v : is_dict (json_sort v) = is_dict v.
Proof. by destruct v. Qed.

(** A written frame parses to the same document up to key order. *)
Lemma parse_encoded v text :
  encode_frame v = Ok text -> float_free v = true -> keys_unique v = true -> is_dict v = true ->
  parse_frame text = Ok (json_sort v).
Proof.
  intros He Hf Hk Hd. destruct (encode_frame_ok v text He Hf) as (-> & _ & Hp).
  pose proof (visible_dumps v Hf) as Hvis. unfold parse_frame.
  assert (He' : endswith (String "010" "") (dumps true v +:+ newline) = true).
  { apply endswith_newline. by exists (dumps true v). }
  rewrite He', count_char_app, (visible_no_newline _ Hvis). cbn [negb count_char newline].
  change (negb (0 + count_char "010" newline =? 1)) with false. cbn [negb].
  rewrite string_length_app. replace (String.length (dumps true v) + String.length newline - 1)%nat
    with (String.length (dumps true v)) by (simpl; lia).
  rewrite take_str_app, visible_loads, loads_printed by done. cbn [catch res_bind].
  by rewrite json_sort_is_dict, Hd.
Qed.

(** A frame cut short is recognised as such. *)
Lemma parse_truncated v text a b :
  encode_frame v = Ok text -> float_free v = true -> text = a +:+ b -> b <> "" ->
  parse_frame a = raise ApprovalControlTransportError "approval control connection ended before a complete response".
Proof.
  intros He Hf Hab Hb. destruct (encode_frame_ok v text He Hf) as (-> & _ & _).
  pose proof (visible_no_newline _ (visible_dumps v Hf)) as Hn. unfold parse_frame.
  destruct (endswith _ a) eqn:E; [|done]. exfalso. apply endswith_newline in E as (r & ->).
  destruct (string_snoc_cases b) as [->|(b' & c & ->)]; [done|].
  assert (Hd : dumps true v = (r +:+ newline) +:+ b').
  { assert (Hrev : string_rev (dumps true v +:+ newline) = string_rev (((r +:+ newline) +:+ b') +:+ String c "")).
    { by rewrite Hab, (string_app_assoc (r +:+ newline)). }
    rewrite !(string_rev_app_distr _ newline), (string_rev_app_distr _ (String c "")) in Hrev.
    injection Hrev as _ Hrev. by rewrite <- (string_rev_involutive (dumps true v)), Hrev, string_rev_involutive. }
  rewrite Hd, !count_char_app in Hn. change (count_char "010" newline) with 1 in Hn.
  assert (Hc : forall s, 0 <= count_char "010" s) by (induction s as [|d s IH]; simpl; [lia|]; destruct (_ == d); lia).
  pose proof (Hc r). pose proof (Hc b'). lia.
Qed.
End Frames.

(** ** Streams *)

(** What a connection promises to the reader of a frame: [delivers c data] says that
    the peer's remaining bytes are [data], in time, and that its stream then ends;
    [pending c] is those bytes, if the stream ends at all, late or not. *)
Class Stream (C : Type) `{Connection C} := {
  delivers : C -> string -> Prop;
  recv_end : forall c n, 0 < n -> delivers c "" -> exists c', conn_recv n c = (Ok "", c');
  recv_more : forall c n data, 0 < n -> data <> "" -> delivers c data ->
    exists chunk rest c', conn_recv n c = (Ok chunk, c') /\ chunk <> "" /\ data = chunk +:+ rest /\ delivers c' rest;
  pending : C -> option string;
  recv_pending : forall c n chunk c', 0 < n -> conn_recv n c = (Ok chunk, c') ->
    pending c = if chunk == "" then Some "" else (fun t => chunk +:+ t) <$> pending c';
}.

Section Reading.
Context `{Host} {C : Type} `{Stream C}.

Lemma read_loop_delivers fuel : forall (c : C) acc data,
  slen acc <= MAX_CONTROL_MESSAGE_BYTES -> MAX_CONTROL_MESSAGE_BYTES + 1 - slen acc < Z.of_nat fuel -> delivers c data ->
  fst (read_loop fuel acc c) =
    if MAX_CONTROL_MESSAGE_BYTES <? slen acc + slen data
    then raise ApprovalControlError "approval control message exceeds the byte limit"
    else Ok (acc +:+ data).
Proof.
  induction fuel as [|fuel IH]; intros c acc data Hacc Hfuel Hd; [lia|].
  set (n := Z.min 65536 (MAX_CONTROL_MESSAGE_BYTES + 1 - slen acc)).
  assert (Hn : 0 < n) by lia. cbn [read_loop]. unfold eff_bind. fold n.
  destruct (String.string_dec data "") as [->|Hne].
  - destruct (recv_end c n Hn Hd) as (c' & ->). rewrite eqb_refl. cbn [fst eff_ret].
    replace (MAX_CONTROL_MESSAGE_BYTES <? _) with false by (symmetry; change (slen "") with 0; lia). by rewrite string_app_nil_r.
  - destruct (recv_more c n data Hn Hne Hd) as (chunk & rest & c' & -> & Hchunk & -> & Hrest).
    apply eqb_neq in Hchunk as Hc0. rewrite Hc0. rewrite !slen_app.
    assert (0 < slen chunk) by (destruct chunk; [done|]; rewrite slen_cons; pose proof (slen_nonneg chunk); lia).
    pose proof (slen_nonneg rest).
    destruct (MAX_CONTROL_MESSAGE_BYTES <? slen acc + slen chunk) eqn:E; simpl_bool.
    + cbn [fst eff_raise eff_lift]. by replace (MAX_CONTROL_MESSAGE_BYTES <? _) with true by (symmetry; lia).
    + rewrite (IH c' (acc +:+ chunk) rest) by (rewrite ?slen_app; lia || done).
      by rewrite slen_app, string_app_assoc, Z.add_assoc.
Qed.

(** Reading a frame is reading its bytes. *)
Lemma read_delivered (c : C) data :
  delivers c data ->
  fst (_read_json_line c) =
    if MAX_CONTROL_MESSAGE_BYTES <? slen data
    then raise ApprovalControlError "approval control message exceeds the byte limit"
    else parse_frame data.
Proof.
  intros Hd. unfold _read_json_line, eff_bind, read_fuel.
  pose proof (read_loop_delivers (Z.to_nat (MAX_CONTROL_MESSAGE_BYTES + 2)) c "" data) as Hl.
  change (slen "") with 0 in Hl.
  rewrite Z2Nat.id in Hl by (unfold MAX_CONTROL_MESSAGE_BYTES; lia).
  specialize (Hl ltac:(unfold MAX_CONTROL_MESSAGE_BYTES; lia) ltac:(lia) Hd).
  destruct (read_loop _ "" c) as [[a|e] c']; cbn [fst] in Hl; rewrite Z.add_0_l in Hl;
    destruct (MAX_CONTROL_MESSAGE_BYTES <? slen data); unfold raise in Hl |- *; try discriminate Hl;
    injection Hl as ->; done.
Qed.

Lemma read_loop_pending fuel : forall (c : C) acc data c',
  slen acc <= MAX_CONTROL_MESSAGE_BYTES -> read_loop fuel acc c = (Ok data, c') ->
  (fun t => acc +:+ t) <$> pending c = Some data.
Proof.
  induction fuel as [|fuel IH]; intros c acc data c' Hacc Hr; [done|]. cbn [read_loop] in Hr.
  apply eff_bind_ok in Hr as (chunk & c1 & Hc & Hr).
  apply recv_pending in Hc; [|lia]. destruct (chunk == "").
  - injection Hr as <- _. rewrite Hc. simpl. by rewrite string_app_nil_r.
  - destruct (MAX_CONTROL_MESSAGE_BYTES <? slen (acc +:+ chunk)) eqn:E; [done|]. simpl_bool.
    apply IH in Hr; [|done]. rewrite Hc, <- Hr. destruct (pending c1); simpl; [|done]. by rewrite string_app_assoc.
Qed.

(** A document that was read is the frame of all that the peer sent. *)
Lemma read_ok (c : C) v c' :
  _read_json_line c = (Ok v, c') -> exists data, pending c = Some data /\ parse_frame data = Ok v.
Proof.
  intros (data & c1 & Hl & [Hp _]%eff_lift_ok)%eff_bind_ok. apply read_loop_pending in Hl; [|done].
  exists data. split; [|done]. rewrite <- Hl. by destruct (pending c).
Qed.
End Reading.

(** ** Sockets are streams *)

(** The bytes that arrive before the peer ends its stream, if it does. *)
Fixpoint inbound_bytes (inbound : list Arrival) : option string :=
  match inbound with
  | [] => None
  | a :: rest =>
      match ar_event a with
      | Data c s => (fun t => String c s +:+ t) <$> inbound_bytes rest
      | Eof => Some ""
      | Reset => None
      end
  end.

(** Every arrival comes within the timeout of its own call. *)
Definition socket_delivers (k : Socket) (data : string) : Prop :=
  0 <= sk_timeout k /\ Forall (fun a => ar_delay a <= sk_timeout k) (sk_inbound k) /\
  inbound_bytes (sk_inbound k) = Some data.

(** All arrivals come before the deadline. *)
Definition deadline_delivers (d : _DeadlineSocket) (data : string) : Prop :=
  let k := _connection d in
  Forall (fun a => 0 <= ar_delay a) (sk_inbound k) /\ sk_now k + sumZ ar_delay (sk_inbound k) < _deadline d /\
  inbound_bytes (sk_inbound k) = Some data.

(** One [recv] of a stream whose next arrival is in time. *)
Lemma socket_recv_next k a rest n data :
  0 < n -> sk_inbound k = a :: rest -> ar_delay a <= sk_timeout k -> inbound_bytes (a :: rest) = Some data ->
  exists chunk data' inbound, socket_recv n k = (Ok chunk, set_inbound inbound (advance (ar_delay a) k)) /\
    inbound_bytes inbound = Some data' /\ data = chunk +:+ data' /\ (data <> "" -> chunk <> "") /\
    (inbound = rest \/ exists e, inbound = {| ar_delay := 0; ar_event := e |} :: rest).
Proof.
  intros Hn Hk Ha Hb. unfold socket_recv. rewrite Hk. replace (_ <? _) with false by (symmetry; lia).
  cbn [inbound_bytes] in Hb. destruct (ar_event a) as [c s| |] eqn:Ee; [| |done].
  - destruct (inbound_bytes rest) as [t|] eqn:Et; [|done]. injection Hb as <-.
    pose proof (take_drop_str (Z.to_nat n) (String c s)) as Htd.
    pose proof (take_str_nonempty (Z.to_nat n) c s ltac:(lia)) as Hne.
    destruct (drop_str (Z.to_nat n) (String c s)) as [|d s'].
    + rewrite string_app_nil_r in Htd. rewrite Htd. eexists _, t, rest. split; [done|]. split; [done|].
      split; [done|]. split; [done|]. by left.
    + eexists _, (String d s' +:+ t), _. split; [done|]. split; [by simpl; rewrite Et|].
      split; [by rewrite <- string_app_assoc, Htd|]. split; [done|]. right. by eexists.
  - injection Hb as <-. eexists "", "", _. split; [done|]. split; [done|]. split; [done|]. split; [done|]. right. by eexists.
Qed.

Lemma delivers_head k data :
  inbound_bytes (sk_inbound k) = Some data -> exists a rest, sk_inbound k = a :: rest.
Proof. destruct (sk_inbound k) as [|a rest]; [done|]. eauto. Qed.

Lemma socket_recv_pending k n chunk k' :
  0 < n -> socket_recv n k = (Ok chunk, k') ->
  inbound_bytes (sk_inbound k) = if chunk == "" then Some "" else (fun t => chunk +:+ t) <$> inbound_bytes (sk_inbound k').
Proof.
  unfold socket_recv. intros Hn. destruct (sk_inbound k) as [|a rest] eqn:Hk; [done|]. destruct (_ <? _); [done|].
  cbn [inbound_bytes]. destruct (ar_event a) as [c s| |]; [| |done].
  - intros [= <- <-].
    assert (Hne : (take_str (Z.to_nat n) (String c s) == "") = false) by (apply eqb_neq, take_str_nonempty; lia).
    rewrite Hne.
    pose proof (take_drop_str (Z.to_nat n) (String c s)) as Htd. cbn [set_inbound sk_inbound].
    destruct (drop_str (Z.to_nat n) (String c s)) as [|d s'].
    + rewrite string_app_nil_r in Htd. by rewrite Htd.
    + cbn [inbound_bytes ar_event]. destruct (inbound_bytes rest) as [t|]; [|done]. cbn [fmap option_fmap option_map].
      rewrite <- Htd at 1. by rewrite string_app_assoc.
  - by intros [= <- <-].
Qed.

#[export] Program Instance Socket_Stream : Stream Socket :=
  {| delivers := socket_delivers; pending k := inbound_bytes (sk_inbound k) |}.
Next Obligation.
  intros k n Hn (H0 & Hall & Hb). destruct (delivers_head _ _ Hb) as (a & rest & Hk). rewrite Hk in Hb, Hall.
  apply Forall_cons in Hall as [Ha _].
  change (conn_recv n k) with (socket_recv n k).
  destruct (socket_recv_next k a rest n "" Hn Hk Ha Hb) as (chunk & data' & inbound & -> & _ & Hd & _).
  destruct chunk; [by eexists|done].
Qed.
Next Obligation.
  intros k n data Hn Hne (H0 & Hall & Hb). destruct (delivers_head _ _ Hb) as (a & rest & Hk). rewrite Hk in Hb, Hall.
  apply Forall_cons in Hall as [Ha Hrest].
  destruct (socket_recv_next k a rest n data Hn Hk Ha Hb) as (chunk & data' & inbound & Hr & Hb' & -> & Hc & Hin).
  eexists chunk, data', _. split; [exact Hr|]. split; [by apply Hc|]. split; [done|].
  split; [done|]. split; [|done]. cbn [set_inbound sk_inbound sk_timeout advance].
  destruct Hin as [->|(e & ->)]; [done|]. by constructor.
Qed.
Next Obligation. intros k n chunk k'. apply socket_recv_pending. Qed.

Lemma sumZ_delays l : Forall (fun a => 0 <= ar_delay a) l -> 0 <= sumZ ar_delay l.
Proof. induction 1; simpl; lia. Qed.

#[export] Program Instance DeadlineSocket_Stream : Stream _DeadlineSocket :=
  {| delivers := deadline_delivers; pending d := inbound_bytes (sk_inbound (_connection d)) |}.
Next Obligation.
  intros d n Hn (Hall & Hsum & Hb). destruct (delivers_head _ _ Hb) as (a & rest & Hk). rewrite Hk in Hb, Hall, Hsum.
  pose proof (sumZ_delays _ Hall) as Hpos. apply Forall_cons in Hall as [Ha Hrest]. simpl in Hsum, Hpos.
  pose proof (sumZ_delays _ Hrest).
  cbn [conn_recv DeadlineSocket_Connection]. unfold _DeadlineSocket_recv, _set_remaining_timeout, eff_bind, on_connection.
  replace (_ <=? 0) with false by (symmetry; lia). cbn [_connection _deadline].
  destruct (socket_recv_next (set_timeout (_deadline d - sk_now (_connection d)) (_connection d)) a rest n "" Hn Hk
    ltac:(simpl; lia) Hb) as (chunk & data' & inbound & -> & _ & Hd & _).
  destruct chunk; [by eexists|done].
Qed.
Next Obligation.
  intros d n data Hn Hne (Hall & Hsum & Hb). destruct (delivers_head _ _ Hb) as (a & rest & Hk).
  rewrite Hk in Hb, Hall, Hsum.
  pose proof (sumZ_delays _ Hall) as Hpos. apply Forall_cons in Hall as [Ha Hrest]. simpl in Hsum, Hpos.
  pose proof (sumZ_delays _ Hrest).
  cbn [conn_recv DeadlineSocket_Connection]. unfold _DeadlineSocket_recv, _set_remaining_timeout, eff_bind, on_connection.
  replace (_ <=? 0) with false by (symmetry; lia). cbn [_connection _deadline].
  destruct (socket_recv_next (set_timeout (_deadline d - sk_now (_connection d)) (_connection d)) a rest n data Hn Hk
    ltac:(simpl; lia) Hb) as (chunk & data' & inbound & -> & Hb' & -> & Hc & Hin).
  eexists chunk, data', _. split; [done|]. split; [by apply Hc|]. split; [done|]. unfold deadline_delivers.
  cbn [_connection _deadline set_inbound sk_inbound sk_now advance set_timeout].
  destruct Hin as [->|(e & ->)]; (split; [done || by constructor|]); (split; [simpl; lia|done]).
Qed.
Next Obligation.
  intros d n chunk d' Hn (u & d1 & Hset & Hr)%eff_bind_ok. unfold _set_remaining_timeout in Hset.
  destruct (_ <=? 0); [done|]. injection Hset as _ <-. unfold on_connection in Hr. cbn [_connection _deadline] in Hr.
  destruct (socket_recv n _) as [r k] eqn:Ek. injection Hr as -> <-. by apply (socket_recv_pending _ _ _ _ Hn) in Ek.
Qed.

(** ** Deadlines *)

Definition in_time (d : _DeadlineSocket) : Prop := sk_now (_connection d) <= _deadline d.

(** Whatever a call does, it ends by the deadline if it begins by it, and keeps it. *)
Definition keeps_deadline {A} (m : eff _DeadlineSocket A) : Prop :=
  forall d, in_time d -> in_time (snd (m d)) /\ _deadline (snd (m d)) = _deadline d.

Lemma keeps_bind {A B} (m : eff _DeadlineSocket A) (f : A -> eff _DeadlineSocket B) :
  keeps_deadline m -> (forall a, keeps_deadline (f a)) -> keeps_deadline (eff_bind m f).
Proof.
  intros Hm Hf d Hd. unfold eff_bind. destruct (Hm d Hd) as [H1 H2]. destruct (m d) as [[a|e] d']; [|done].
  destruct (Hf a d' H1) as [H3 H4]. split; [done|]. by rewrite H4.
Qed.

Lemma keeps_lift {A} (r : res A) : keeps_deadline (eff_lift r).
Proof. by intros d Hd. Qed.

Lemma socket_recv_time n k : sk_now (snd (socket_recv n k)) <= sk_now k + Z.max 0 (sk_timeout k).
Proof.
  unfold socket_recv. destruct (sk_inbound k) as [|a rest]; [simpl; lia|].
  destruct (_ <? _) eqn:E; simpl_bool; [simpl; lia|]. destruct (ar_event a); simpl; lia.
Qed.

Lemma socket_sendall_time data k : sk_now (snd (socket_sendall data k)) <= sk_now k + Z.max 0 (sk_timeout k).
Proof.
  unfold socket_sendall. destruct (sk_sendings k) as [|n rest]; [simpl; lia|].
  destruct (_ <? _) eqn:E; simpl_bool; [simpl; lia|]. destruct (sn_reset n); simpl; lia.
Qed.

Lemma keeps_operation {A} (m : eff Socket A) :
  (forall k, sk_now (snd (m k)) <= sk_now k + Z.max 0 (sk_timeout k)) ->
  keeps_deadline (do! _ := _set_remaining_timeout in on_connection m).
Proof.
  intros Hm d Hd. unfold eff_bind, _set_remaining_timeout. destruct (_ <=? 0) eqn:E; simpl_bool; [done|].
  unfold on_connection, in_time in *. cbn [_connection _deadline].
  specialize (Hm (set_timeout (_deadline d - sk_now (_connection d)) (_connection d))).
  destruct (m _) as [r k]. cbn [snd _connection _deadline sk_now set_timeout sk_timeout] in *. lia.
Qed.

Lemma keeps_recv n : keeps_deadline (conn_recv n).
Proof. apply keeps_operation. intros. apply socket_recv_time. Qed.

Lemma keeps_sendall data : keeps_deadline (conn_sendall data).
Proof. apply keeps_operation. intros. apply socket_sendall_time. Qed.

Lemma keeps_read_loop fuel : forall acc, keeps_deadline (read_loop fuel acc).
Proof.
  induction fuel as [|fuel IH]; intros acc; cbn [read_loop]; [apply keeps_lift|].
  apply keeps_bind; [apply keeps_recv|]. intros chunk. destruct (_ == _); [apply keeps_lift|].
  destruct (_ <? _); [apply keeps_lift|apply IH].
Qed.

Lemma keeps_read `{Host} : keeps_deadline _read_json_line.
Proof. apply keeps_bind; [apply keeps_read_loop|]. intros data. apply keeps_lift. Qed.

Lemma keeps_write `{Host} v : keeps_deadline (_write_json_line v).
Proof. apply keeps_bind; [apply keeps_lift|]. intros text. apply keeps_sendall. Qed.

(** ** The claim on frames *)

(** C30. Frames survive any cutting, and only whole frames are read.  The frame of a
    document, written by one side and delivered to a connection of the other in
    whatever pieces, before the reader's timeouts or deadline, is read as that document
    (with sorted keys); when the stream ends early the reader sees a broken transport,
    not another document; and a document that is read, whatever happened on the way, is
    the frame of exactly the bytes the peer had sent. *)
Theorem frames_survive_fragmentation `{Host} {C} `{Stream C} (c : C) v text :
  encode_frame v = Ok text -> float_free v = true -> keys_unique v = true -> is_dict v = true ->
  (delivers c text -> fst (_read_json_line c) = Ok (json_sort v)) /\
  (forall a b, text = a +:+ b -> b <> "" -> delivers c a ->
     fst (_read_json_line c) =
       raise ApprovalControlTransportError "approval control connection ended before a complete response") /\
  (forall w c', _read_json_line c = (Ok w, c') -> exists data, pending c = Some data /\ parse_frame data = Ok w).
Proof.
  intros He Hf Hk Hd. destruct (encode_frame_ok v text He Hf) as (Ht & Hlen & _). split; [|split].
  - intros Hdel. rewrite (read_delivered c text Hdel). replace (_ <? _) with false by (symmetry; lia).
    by apply (parse_encoded v text).
  - intros a b -> Hb Hdel. rewrite (read_delivered c a Hdel). rewrite slen_app in Hlen. pose proof (slen_nonneg b).
    replace (_ <? _) with false by (symmetry; lia). by apply (parse_truncated v (a +:+ b) a b).
  - intros w c' Hr. by apply (read_ok c w c').
Qed.

(** ** Concrete connections *)

Definition demo_document : json := JObj [("b", JStr "x"); ("a", JInt 1)].

Definition data (text : string) : arrival :=
  match text with
  | String c s => Data c s
  | EmptyString => Eof
  end.

(** The text of the document above, cut in three, and the end of the stream. *)
Definition demo_pieces : list Arrival :=
  let q := String "034" "" in
  [{| ar_delay := 5; ar_event := data ("{" +:+ q +:+ "a") |};
   {| ar_delay := 7; ar_event := data (q +:+ ":1," +:+ q +:+ "b" +:+ q +:+ ":") |};
   {| ar_delay := 0; ar_event := data (q +:+ "x" +:+ q +:+ "}" +:+ newline) |};
   {| ar_delay := 9; ar_event := Eof |}].

Definition demo_socket (inbound : list Arrival) : Socket :=
  {| sk_now := 0; sk_timeout := 10; sk_inbound := inbound; sk_sendings := []; sk_sent := "" |}.

Lemma frames_survive_fragmentation_witness : exists text,
  encode_frame (H := hex_host) demo_document = Ok text /\ delivers (demo_socket demo_pieces) text /\
  fst (_read_json_line (H := hex_host) (demo_socket demo_pieces)) = Ok (json_sort demo_document).
Proof.
  destruct (encode_frame (H := hex_host) demo_document) as [text|e] eqn:E; [|vm_compute in E; discriminate E].
  exists text. split; [reflexivity|].
  assert (Hd : delivers (demo_socket demo_pieces) text).
  { vm_compute in E. injection E as <-. split; [simpl; lia|]. split; [repeat constructor; simpl; lia|]. vm_compute. reflexivity. }
  split; [exact Hd|].
  destruct (frames_survive_fragmentation (H := hex_host) (demo_socket demo_pieces) demo_document text E eq_refl eq_refl eq_refl)
    as (Hread & _). exact (Hread Hd).
Defined.

(** [json.loads] reads other encodings than UTF-8, so a frame in UTF-16 is accepted. *)
Example utf16_frame_accepted : parse_frame (H := hex_host) (bytes [0; 123; 0; 125; 10]) = Ok (JObj []).
Proof. vm_compute. reflexivity. Qed.

(** An integer of too many digits is not a JSON error, and leaves as a plain [ValueError]. *)
Example long_integer_escapes : is_json_error (Exc ValueError "int_max_str_digits") = false.
Proof. reflexivity. Qed.
