(* ===== verification/Broker.v ===== *)
(** * The egress broker

    [GatewayBrokerConfig] and [ExecutionEgressBroker] of [src/cops/execution/egress.py]:
    the process that reads the requests of one adapter from its socket, line by line,
    has the mediator carry them out, and answers; and what its parent makes of the
    messages it gets from it ([_BrokerSupervisor]).  A gateway dispatch composes the
    mediator ([Egress.v]), the authorizer and the replay store ([Dispatch.v]).  The peer's
    side of the socket, the pipe to the parent, the clock and the lines nested beyond the
    interpreter's recursion limit are functions of everything that has happened so far. *)

From S2P Require Import Prelude PyStr Json JsonParse PyRegex Timestamp Schema Contracts PyIp PyUrl.
From S2P Require Import Identity Base64.
From S2P Require Import Egress ApprovalStore Gateway Dispatch Transport.

Definition BROKER_PROTOCOL : string := "cops.execution-egress/v1".

(** ** Configurations *)

Record GatewayBrokerConfig := {
  gc_gateway_url : string; gc_gateway_spiffe_id : string; gc_expected_identity : AuthenticatedServiceIdentity;
  gc_action_plan_id : string; gc_plan_digest : string; gc_worker_spiffe_id : string; gc_max_body_bytes : Z;
  gc_authorizer : Authorizer
}.

(** [GatewayBrokerConfig.__post_init__] on arguments of the declared types. *)
Definition check_config (c : GatewayBrokerConfig) : res unit :=
  raise_if negb (startswith "spiffe://" (gc_gateway_spiffe_id c)) ||
           negb (fullmatch "[A-Za-z0-9][A-Za-z0-9._:/-]{0,127}" (gc_action_plan_id c)) ||
           negb (fullmatch "[0-9a-f]{64}" (gc_plan_digest c)) ||
           negb (startswith "spiffe://" (gc_worker_spiffe_id c)) ||
           negb ((0 <? gc_max_body_bytes c) && (gc_max_body_bytes c <=? 16 * 1024 * 1024))
    as ValueError msg "gateway broker configuration is invalid" ;;
  Ok tt.

Record ExecutionEgressBroker := {
  eb_mediator : Mediator; eb_max_request_bytes : Z; eb_max_requests : Z; eb_max_total_request_bytes : Z;
  eb_max_total_response_bytes : Z; eb_protocol_timeout : Z; eb_gateway_config : option GatewayBrokerConfig
}.

(** The checks of [ExecutionEgressBroker.__init__]. *)
Definition check_broker (b : ExecutionEgressBroker) : res unit :=
  raise_if (eb_max_request_bytes b <=? 0) || (eb_max_requests b <=? 0) ||
           (eb_max_total_request_bytes b <? eb_max_request_bytes b) || (eb_max_total_response_bytes b <=? 0) ||
           (eb_protocol_timeout b <=? 0)
    as ValueError msg "broker operation limits must be positive and internally consistent" ;;
  Ok tt.

(** The deadline of [open_channel]; the argument is a finite number when there is one. *)
Definition protocol_deadline (b : ExecutionEgressBroker) (now later : Z) (deadline : option Z) : res Z :=
  let protocol_deadline := now + eb_protocol_timeout b in
  let protocol_deadline := match deadline with Some d => Z.min protocol_deadline d | None => protocol_deadline end in
  raise_if protocol_deadline <=? later as EgressMediationError msg "egress broker operation deadline has expired" ;;
  Ok protocol_deadline.

(** ** What the broker sees *)

(** The messages to the parent. *)
Inductive message := MOrigin (origin : string) | MObservations (observations : list EgressObservation).

Inductive io_event :=
| IoRecv (timeout size : Z) (answer : res string)
| IoSendall (timeout : Z) (data : string) (answer : res unit)
| IoTell (m : message) (answer : res unit).

(** The events of the mediator, those of the socket and the pipe (the last one first), the
    replay store, and the variable [current_origin] of [_serve]. *)
Record BrokerState := { bk_trace : trace; bk_io : list io_event; bk_store : ReplayStore; bk_origin : string }.

Class World := {
  w_environment : Environment;
  w_recv : BrokerState -> Z -> Z -> res string;
  w_sendall : BrokerState -> Z -> string -> res unit;
  w_tell : BrokerState -> message -> res unit;
  w_utc_now : trace -> string;
  w_consume_now : trace -> string;
  w_euid : Z;
  w_storage : trace -> Storage;
  w_recurses : BrokerState -> string -> bool;
}.

Definition set_trace (t : trace) (s : BrokerState) : BrokerState :=
  {| bk_trace := t; bk_io := bk_io s; bk_store := bk_store s; bk_origin := bk_origin s |}.
Definition add_io (e : io_event) (s : BrokerState) : BrokerState :=
  {| bk_trace := bk_trace s; bk_io := e :: bk_io s; bk_store := bk_store s; bk_origin := bk_origin s |}.
Definition set_store (store : ReplayStore) (s : BrokerState) : BrokerState :=
  {| bk_trace := bk_trace s; bk_io := bk_io s; bk_store := store; bk_origin := bk_origin s |}.
Definition set_origin (origin : string) (s : BrokerState) : BrokerState :=
  {| bk_trace := bk_trace s; bk_io := bk_io s; bk_store := bk_store s; bk_origin := origin |}.

Definition on_trace {A} (m : eff trace A) : eff BrokerState A := fun s =>
  let (r, t) := m (bk_trace s) in (r, set_trace t s).

(** The number of times the callback of a gateway dispatch was called. *)
Definition callback_calls (t : trace) : nat :=
  length (List.filter (fun e => match e with EvBeforeSend _ => true | _ => false end) t).

(** The store after the last callback of a trace, which ran on [store]. *)
Fixpoint store_after (callback : trace -> eff ReplayStore unit) (store : ReplayStore) (t : trace) : ReplayStore :=
  match t with
  | EvBeforeSend _ :: before => snd (callback before store)
  | _ :: before => store_after callback store before
  | [] => store
  end.

(** The world in which the callback answers [before_send]. *)
Definition with_callback (e : Environment) (before_send : trace -> res unit) : Environment := {|
  env_clock := @env_clock e; env_resolver := @env_resolver e; env_open := @env_open e; env_verify := @env_verify e;
  env_before_send := before_send; env_request := @env_request e; env_close := @env_close e
|}.

(** [_json_line]. *)
Definition _json_line `{Host} (document : json) : res string :=
  raise_if negb (printable document) as ValueError msg "int_max_str_digits" ;;
  Ok (encode_utf8 (dumps true document) +:+ String "010" "").

(** ** Lines and origins *)

Section Broker.
Context `{Host} `{Ed25519} `{World}.

Definition recv (timeout size : Z) : eff BrokerState string := fun s =>
  let answer := w_recv s timeout size in (answer, add_io (IoRecv timeout size answer) s).

Definition sendall (timeout : Z) (data : string) : eff BrokerState unit := fun s =>
  let answer := w_sendall s timeout data in (answer, add_io (IoSendall timeout data answer) s).

(** [observation_writer.send]. *)
Definition tell (m : message) : eff BrokerState unit := fun s =>
  let answer := w_tell s m in (answer, add_io (IoTell m answer) s).

Definition _remaining (deadline : Z) : eff BrokerState Z :=
  do! now := on_trace (@monotonic w_environment) in
  do_if deadline - now <=? 0 as TimeoutError msg "egress broker protocol deadline exceeded" ;;
  eff_ret (deadline - now).

Definition _send (payload : string) (deadline : Z) : eff BrokerState unit :=
  do! timeout := _remaining deadline in sendall timeout payload.

Definition error_line (code : string) : json := JObj [("ok", JBool false); ("error", JStr code)].

Definition _write_error (code : string) (deadline : Z) : eff BrokerState unit :=
  do! line := eff_lift (_json_line (error_line code)) in _send line deadline.

Definition _record_broker_block (origin reason : string) : eff BrokerState unit :=
  on_trace (observe {| ob_origin := origin; ob_decision := "blocked"; ob_reason := reason; ob_identity := None |}).

(** [json.loads(line)]: the nesting of the line may exceed the recursion limit. *)
Definition load_line (line : string) (s : BrokerState) : res json :=
  if w_recurses s line then raise RecursionError "maximum recursion depth exceeded" else loads_bytes line.

(** [_redacted_origin_from_request]: only decoding errors are handled. *)
Definition _redacted_origin_from_request (request : string) : eff BrokerState string := fun s =>
  (match load_line request s with
   | Raise e => if is_json_error e then Ok "unparseable" else Raise e
   | Ok document =>
       match get "url" document with
       | Some (JStr url) => Ok (redacted_text url)
       | _ => Ok "unparseable"
       end
   end, s).

(** A line over the limit: recorded, answered, refused. *)
Definition too_large (b : ExecutionEgressBroker) (request : string) (deadline : Z) : eff BrokerState (option string * string) :=
  do! origin := _redacted_origin_from_request request in
  do! _ := _record_broker_block origin "broker_request_bytes_limit" in
  do! _ := _write_error "request_too_large" deadline in
  eff_raise EgressProtocolError "broker request exceeded the configured byte limit".

(** The [while] loop; every pass but the last adds a byte to the buffer. *)
Fixpoint read_line_loop (fuel : nat) (b : ExecutionEgressBroker) (buffer : string) (deadline : Z)
    : eff BrokerState (option string * string) :=
  match fuel with
  | O => eff_raise OutOfFuel "read_line_loop"
  | S fuel =>
      match partition "010" buffer with
      | (before, true, remainder) =>
          let line := before +:+ String "010" "" in
          if eb_max_request_bytes b <? slen line then too_large b line deadline
          else eff_ret (Some line, remainder)
      | (_, false, _) =>
          if eb_max_request_bytes b <? slen buffer then too_large b buffer deadline
          else
            do! timeout := _remaining deadline in
            do! chunk := recv timeout (Z.min 65536 (eb_max_request_bytes b + 1 - slen buffer)) in
            if chunk == "" then eff_ret (None, "")
            else read_line_loop fuel b (buffer +:+ chunk) deadline
      end
  end.

Definition line_fuel (b : ExecutionEgressBroker) : nat := S (S (Z.to_nat (eb_max_request_bytes b))).

Definition _read_line (b : ExecutionEgressBroker) (buffer : string) (deadline : Z) : eff BrokerState (option string * string) :=
  read_line_loop (line_fuel b) b buffer deadline.

(** ** Gateway dispatches *)

(** The endpoint that the authorizer finds for the grant is the configured gateway. *)
Definition verify_configured (c : GatewayBrokerConfig) (g : GatewayDispatchGrant) (body gateway_origin gateway_path now_iso : string)
    : res unit :=
  let? endpoint := verify_for_transport now_iso (gc_authorizer c) g (gc_action_plan_id c) (gc_plan_digest c)
                     (gc_worker_spiffe_id c) (text_of (gr_request_target g)) body gateway_origin gateway_path None in
  raise_if negb (de_gateway_identity endpoint == gc_gateway_spiffe_id c) ||
           negb (de_endpoint_origin endpoint == gateway_origin) || negb (de_gateway_path endpoint == gateway_path)
    as EgressProtocolError msg "gateway dispatch does not match the configured endpoint" ;;
  Ok tt.

(** The nested function [before_send]. *)
Definition before_send (c : GatewayBrokerConfig) (g : GatewayDispatchGrant) (body gateway_origin gateway_path : string) (t : trace)
    : eff ReplayStore unit :=
  do! _ := eff_lift (verify_configured c g body gateway_origin gateway_path (w_utc_now t)) in
  do! _ := consume (w_consume_now t) w_euid (w_storage t) g None in
  eff_ret tt.

(** [self._mediator.post_gateway]: the callback runs on the store as it is; it is called
    at most once, so that the store afterwards is the one it leaves when it was called. *)
Definition post_with_callback (m : Mediator) (policy : GatewayPostEgressPolicy) (envelope : string) (headers : json) (deadline : Z)
    (callback : trace -> eff ReplayStore unit) : eff BrokerState MediatedResponse := fun s =>
  let answer t := fst (callback t (bk_store s)) in
  let (r, t) := @post_gateway _ (with_callback w_environment answer) m policy envelope (Some headers) (Some deadline) (bk_trace s) in
  let called := negb (Nat.eqb (callback_calls t) (callback_calls (bk_trace s))) in
  (r, set_store (if called then store_after callback (bk_store s) t else bk_store s) (set_trace t s)).

Definition gateway_document (document : json) : option (json * json) :=
  match exact_mapping document ["version"; "grant"; "body_base64"] with
  | Some items => Some (field "grant" items, field "body_base64" items)
  | None => None
  end.

Definition protocol_failure {A} (m : string) : res A := raise EgressProtocolError m.

(** The grant and the body of a request, within the limit. *)
Definition gateway_request (c : GatewayBrokerConfig) (document : json) : res (GatewayDispatchGrant * string) :=
  match gateway_document document with
  | None => protocol_failure "gateway dispatch is unavailable or malformed"
  | Some (grant, JStr encoded_body) =>
      raise_if (gc_max_body_bytes c + 2) * 4 / 3 + 4 <? slen encoded_body
        as EgressProtocolError msg "gateway dispatch body exceeds the configured limit" ;;
      let? (grant, body) :=
        catch type_or_value_error
          (let? grant := grant_from_dict grant in let? body := b64decode encoded_body in Ok (grant, body))
          (fun _ => protocol_failure "gateway dispatch envelope is malformed") in
      raise_if gc_max_body_bytes c <? slen body
        as EgressProtocolError msg "gateway dispatch body exceeds the configured limit" ;;
      Ok (grant, body)
  | Some _ => protocol_failure "gateway dispatch body exceeds the configured limit"
  end.

(** The origin and the path of the configured gateway. *)
Definition gateway_of (c : GatewayBrokerConfig) : res (string * string) :=
  let? parsed := urlsplit (gc_gateway_url c) "" in
  let? path := _request_target parsed in
  Ok (u_scheme parsed +:+ "://" +:+ u_netloc parsed, path).

Definition gateway_policy (b : ExecutionEgressBroker) (c : GatewayBrokerConfig) (gateway_path envelope : string)
    : GatewayPostEgressPolicy :=
  {| gp_protocol := JStr GATEWAY_POST_BROKER_PROTOCOL; gp_gateway_url := JStr (gc_gateway_url c);
     gp_request_target := JStr gateway_path; gp_expected_identity := Some (gc_expected_identity c);
     gp_expected_spiffe_id := JStr (gc_gateway_spiffe_id c); gp_body_sha256 := JStr (sha256_hex envelope);
     gp_body_bytes := JInt (slen envelope); gp_max_body_bytes := JInt (eb_max_request_bytes b) |}.

Definition _dispatch_gateway (b : ExecutionEgressBroker) (document : json) (deadline : Z) : eff BrokerState MediatedResponse :=
  match eb_gateway_config b with
  | None => eff_raise EgressProtocolError "gateway dispatch is unavailable or malformed"
  | Some c =>
      do! (grant, body) := eff_lift (gateway_request c document) in
      do! (gateway_origin, gateway_path) := eff_lift (gateway_of c) in
      do! now_iso := (fun s => (Ok (w_utc_now (bk_trace s)), s)) in
      do! _ := eff_lift (verify_configured c grant body gateway_origin gateway_path now_iso) in
      do! envelope := eff_lift (encode_gateway_dispatch_envelope grant body) in
      post_with_callback (eb_mediator b) (gateway_policy b c gateway_path envelope) envelope
        (JObj [("Content-Type", JStr "application/json")]) deadline
        (before_send c grant body gateway_origin gateway_path)
  end.

(** ** Requests *)

Definition request_document (document : json) : res (json * json * json) :=
  match exact_mapping document ["version"; "method"; "url"; "headers"] with
  | None => protocol_failure "broker request fields do not match the protocol"
  | Some items =>
      raise_if negb (str_is (field "version" items) BROKER_PROTOCOL)
        as EgressProtocolError msg "unsupported broker protocol version" ;;
      match field "method" items, field "url" items, field "headers" items with
      | JStr _, JStr _, JObj headers =>
          raise_if negb (forallb (fun nv => is_str (snd nv)) headers)
            as EgressProtocolError msg "broker request header types do not match the protocol" ;;
          Ok (field "method" items, field "url" items, field "headers" items)
      | _, _, _ => protocol_failure "broker request types do not match the protocol"
      end
  end.

Definition is_gateway_document (document : json) : bool :=
  match get "version" document with Some v => str_is v GATEWAY_POST_BROKER_PROTOCOL | None => false end.

Definition _dispatch (b : ExecutionEgressBroker) (line : string) (deadline : Z) : eff BrokerState MediatedResponse :=
  do! document := (fun s => (load_line line s, s)) in
  if is_gateway_document document then _dispatch_gateway b document deadline
  else
    do! (method, url, headers) := eff_lift (request_document document) in
    on_trace (@Egress.request w_environment (eb_mediator b) method url (Some headers) (Some deadline)).

Definition response_payload (response : MediatedResponse) : json :=
  JObj [("ok", JBool true); ("status", JInt (rs_status response));
        ("headers", JList (map (fun nv => JList [JStr (fst nv); JStr (snd nv)]) (rs_headers response)));
        ("body_base64", JStr (b64encode (rs_body response))); ("final_url", JStr (rs_final_url response));
        ("identity", JObj (map (fun nv => (fst nv, JStr (snd nv))) (as_dict (rs_identity response))))].

(** ** The loop *)

Record Totals := { request_count : Z; total_request_bytes : Z; total_response_bytes : Z }.

(** A limit of the whole operation is passed: recorded, answered. *)
Definition limit_exceeded (reason : string) (deadline : Z) : eff BrokerState unit :=
  do! origin := (fun s => (Ok (bk_origin s), s)) in
  do! _ := _record_broker_block origin reason in
  _write_error "operation_limit_exceeded" deadline.

(** The inner [try]: the total of the response bytes, or [None] for a [return]. *)
Definition answer_line (b : ExecutionEgressBroker) (line : string) (total : Z) (deadline : Z) : eff BrokerState (option Z) :=
  eff_catch always
    (do! response := _dispatch b line deadline in
     do! response_line := eff_lift (_json_line (response_payload response)) in
     if eb_max_total_response_bytes b <? total + slen response_line then
       do! _ := limit_exceeded "broker_total_response_bytes_limit" deadline in eff_ret None
     else
       do! _ := _send response_line deadline in
       eff_ret (Some (total + slen response_line)))
    (fun _ => do! _ := _write_error "egress_denied" deadline in eff_ret None).

(** One pass of [while True]: what the next one starts with, or [None] for a [return]. *)
Definition serve_pass (b : ExecutionEgressBroker) (t : Totals) (buffer : string) (deadline : Z)
    : eff BrokerState (option (Totals * string)) :=
  do! (line, buffer) := _read_line b buffer deadline in
  match line with
  | None => eff_ret None
  | Some line =>
      do! origin := _redacted_origin_from_request line in
      do! _ := (fun s => (Ok tt, set_origin origin s)) in
      do! _ := tell (MOrigin origin) in
      let count := request_count t + 1 in
      let bytes := total_request_bytes t + slen line in
      if eb_max_requests b <? count then
        do! _ := limit_exceeded "broker_request_count_limit" deadline in eff_ret None
      else if eb_max_total_request_bytes b <? bytes then
        do! _ := limit_exceeded "broker_total_request_bytes_limit" deadline in eff_ret None
      else
        do! total := answer_line b line (total_response_bytes t) deadline in
        eff_ret match total with
                | None => None
                | Some total => Some ({| request_count := count; total_request_bytes := bytes; total_response_bytes := total |}, buffer)
                end
  end.

(** Every pass that does not return counts a request, so the limit bounds the passes. *)
Fixpoint serve_loop (fuel : nat) (b : ExecutionEgressBroker) (t : Totals) (buffer : string) (deadline : Z) : eff BrokerState unit :=
  match fuel with
  | O => eff_raise OutOfFuel "serve_loop"
  | S fuel =>
      do! next := serve_pass b t buffer deadline in
      match next with
      | None => eff_ret tt
      | Some (t, buffer) => serve_loop fuel b t buffer deadline
      end
  end.

Definition serve_fuel (b : ExecutionEgressBroker) : nat := S (Z.to_nat (eb_max_requests b)).

Definition no_totals : Totals := {| request_count := 0; total_request_bytes := 0; total_response_bytes := 0 |}.

Definition returns_quietly (e : exc) : bool := mem (exc_cls e) [TimeoutError; EgressProtocolError; OSError].

Definition _serve (b : ExecutionEgressBroker) (deadline : Z) : eff BrokerState unit :=
  do! _ := (fun s => (Ok tt, set_origin "unparseable" s)) in
  eff_catch returns_quietly (serve_loop (serve_fuel b) b no_totals "" deadline)
    (fun e =>
      if exc_cls e == TimeoutError then
        do! origin := (fun s => (Ok (bk_origin s), s)) in _record_broker_block origin "broker_deadline_exceeded"
      else eff_ret tt).

(** The observations of a trace, in their order. *)
Definition observed (t : trace) : list EgressObservation :=
  rev (omap (fun e => match e with EvObserve o => Some o | _ => None end) t).

(** The child process: whatever happens, it tells what it has observed. *)
Definition _serve_child (b : ExecutionEgressBroker) (deadline : Z) : eff BrokerState unit := fun s =>
  let initial := length (observed (bk_trace s)) in
  let (r, s) := _serve b deadline s in
  let (_, s) := tell (MObservations (skipn initial (observed (bk_trace s)))) s in
  (r, s).
End Broker.

(** ** The parent *)

(** [_merge_observations] of the messages that arrived: the last origin, and the
    observations of the parent's mediator with those of the child. *)
Definition _merge_observations (messages : list message) (seen : list EgressObservation) : string * list EgressObservation :=
  fold_left (fun acc m => match m with
                          | MOrigin origin => (origin, snd acc)
                          | MObservations observations => (fst acc, snd acc ++ observations)
                          end) messages ("unparseable", seen).

Definition is_deadline_block (o : EgressObservation) : bool := ob_reason o == "broker_deadline_exceeded".

(** The observations after [_finish]; [timed_out] is its [send_timeout_error]. *)
Definition finish_observations (timed_out : bool) (messages : list message) (seen : list EgressObservation) : list EgressObservation :=
  let (latest_origin, merged) := _merge_observations messages seen in
  if timed_out && negb (existsb is_deadline_block (skipn (length seen) merged)) then
    merged ++ [{| ob_origin := latest_origin; ob_decision := "blocked"; ob_reason := "broker_deadline_exceeded"; ob_identity := None |}]
  else merged.
