(* ===== verification/BrokerFacts.v ===== *)
(** * The egress broker: effects of a run

    What an adapter can make its broker do: how much, and which requests leave. *)

From S2P Require Import Prelude PyStr Json JsonParse JsonScan Canonical Timestamp Schema Contracts PyIp.
From S2P Require Import PyUrl PyUrlFacts.
From S2P Require Import ScopeGuard Identity IdentityProps Base64 Egress EgressSteps EgressProps.
From S2P Require Import ApprovalStore Gateway.
From S2P Require Import Dispatch DispatchProps Transport Broker.

(** ** Counting *)

Definition is_post (ev : event) : bool := match ev with EvRequest _ request _ => ob_method request == "POST" | _ => false end.
Definition posts (t : trace) : nat := length (List.filter is_post t).

(** The bytes the broker tried to send to its adapter. *)
Definition sent_bytes (io : list io_event) : Z :=
  sumZ (fun e => match e with IoSendall _ data _ => slen data | _ => 0 end) io.

Lemma count_app {A} (p : A -> bool) xs ys :
  length (List.filter p (xs ++ ys)) = (length (List.filter p xs) + length (List.filter p ys))%nat.
Proof. by rewrite List.filter_app, length_app. Qed.

Lemma posts_requests more : (posts more <= requests more)%nat.
Proof. unfold posts, requests. induction more as [|[] more IH]; simpl; try done. destruct (_ == _); simpl; lia. Qed.

Section Broker.
Context `{Host} `{Ed25519} `{World}.
Variable b : ExecutionEgressBroker.

(** ** What a step may do *)

(** A request that left carries the envelope of a grant that the gateway's configuration
    accepts, that was not in the replay store at first and is in it afterwards. *)
Record released (store0 store1 : ReplayStore) (request : Outbound) : Prop := {
  rel_grant : exists c g body origin path now,
    eb_gateway_config b = Some c /\ gateway_of c = Ok (origin, path) /\ verify_configured c g body origin path now = Ok tt /\
    encode_gateway_dispatch_envelope g body = Ok (ob_body request) /\
    unused g store0 /\ exists row, In row (rp_rows store1) /\ row_of g row;
}.

Definition allowed_event (store0 store1 : ReplayStore) (ev : event) : Prop :=
  match ev with
  | EvRequest _ request _ => In (ob_method request) ["GET"; "HEAD"] \/ (ob_method request = "POST" /\ released store0 store1 request)
  | _ => True
  end.

(** A step with at most [n] requests of the adapter and [k] bytes of answers. *)
Record effects (n k : Z) (s s' : BrokerState) : Prop := {
  ef_rows : exists more, rp_rows (bk_store s') = rp_rows (bk_store s) ++ more /\
    (posts (bk_trace s') <= posts (bk_trace s) + length more)%nat;
  ef_requests : Z.of_nat (requests (bk_trace s')) <= Z.of_nat (requests (bk_trace s)) + n * (md_max_redirects (eb_mediator b) + 1);
  ef_events : added (fun _ ev => allowed_event (bk_store s) (bk_store s') ev) (bk_trace s) (bk_trace s');
  ef_sent : sent_bytes (bk_io s') <= sent_bytes (bk_io s) + k;
}.

Lemma released_mono store0 store0' store1 store1' more0 more1 request :
  rp_rows store0 = rp_rows store0' ++ more0 -> rp_rows store1' = rp_rows store1 ++ more1 ->
  released store0 store1 request -> released store0' store1' request.
Proof.
  intros E0 E1 [(c & g & body & origin & path & now & Hc & Ho & Hv & He & Hu & row & Hin & Hrow)]. constructor.
  exists c, g, body, origin, path, now. split_and!; try done.
  - intros r Hr. apply Hu. rewrite E0. apply in_app_iff. by left.
  - exists row. split; [|done]. rewrite E1. apply in_app_iff. by left.
Qed.

Lemma allowed_mono store0 store0' store1 store1' more0 more1 ev :
  rp_rows store0 = rp_rows store0' ++ more0 -> rp_rows store1' = rp_rows store1 ++ more1 ->
  allowed_event store0 store1 ev -> allowed_event store0' store1' ev.
Proof. intros E0 E1. destruct ev; try done. intros [?|[? ?]]; [by left|right]. split; [done|]. by eapply released_mono. Qed.

Lemma effects_refl s : effects 0 0 s s.
Proof. constructor; [exists []; rewrite app_nil_r; split; [done|lia]|lia|constructor|lia]. Qed.

Lemma effects_trans n k n' k' s s1 s' : effects n k s s1 -> effects n' k' s1 s' -> effects (n + n') (k + k') s s'.
Proof.
  intros [(m1 & Hm1 & Hp1) Hr1 He1 Hs1] [(m2 & Hm2 & Hp2) Hr2 He2 Hs2]. constructor.
  - exists (m1 ++ m2). rewrite Hm2, Hm1, app_assoc, length_app. split; [done|lia].
  - lia.
  - eapply added_trans; (eapply added_mono; [|eassumption]); cbn beta; intros _ ev.
    + by apply (allowed_mono _ _ _ _ [] m2); [by rewrite app_nil_r|].
    + by apply (allowed_mono _ _ _ _ m1 []); [|by rewrite app_nil_r].
  - lia.
Qed.

Hypothesis redirects_nonneg : 0 <= md_max_redirects (eb_mediator b).

Lemma effects_mono n k n' k' s s' : n <= n' -> k <= k' -> effects n k s s' -> effects n' k' s s'.
Proof. intros Hn Hk [Hr Hq He Hs]. constructor; [done| |done|lia]. nia. Qed.

Definition does (n k : Z) {A} (m : eff BrokerState A) : Prop := forall s, post m s (fun _ s' => effects n k s s').

Lemma does_mono n k n' k' {A} (m : eff BrokerState A) : n <= n' -> k <= k' -> does n k m -> does n' k' m.
Proof. intros Hn Hk Hm s. eapply post_mono; [apply Hm|]. intros ? s'. by apply effects_mono. Qed.

Lemma does_lift {A} (r : res A) : does 0 0 (eff_lift r).
Proof. intros s. apply effects_refl. Qed.

Lemma does_ret {A} (a : A) : does 0 0 (eff_ret a).
Proof. intros s. apply effects_refl. Qed.

Lemma does_read {A} (f : BrokerState -> A) : does 0 0 (fun s => (Ok (f s), s)).
Proof. intros s. apply effects_refl. Qed.

(** A step that only looks at the state. *)
Lemma does_look {A} (f : BrokerState -> res A) : does 0 0 (fun s => (f s, s)).
Proof. intros s. apply effects_refl. Qed.

Lemma does_redacted request : does 0 0 (_redacted_origin_from_request request).
Proof. apply does_look. Qed.

Lemma does_bind n k n' k' {A B} (m : eff BrokerState A) (f : A -> eff BrokerState B) :
  0 <= n' -> 0 <= k' -> does n k m -> (forall a, does n' k' (f a)) -> does (n + n') (k + k') (eff_bind m f).
Proof.
  intros Hn Hk Hm Hf s. eapply post_seq; [apply Hm|..]; cbn beta.
  - intros a s1 Hs1. eapply post_mono; [apply Hf|]. intros ? s'. by apply effects_trans.
  - intros e s1. apply effects_mono; lia.
Qed.

(** A step that does nothing to be counted, then another. *)
Lemma does_quiet n k {A B} (m : eff BrokerState A) (f : A -> eff BrokerState B) :
  0 <= n -> 0 <= k -> does 0 0 m -> (forall a, does n k (f a)) -> does n k (eff_bind m f).
Proof. intros Hn Hk Hm Hf. apply (does_bind 0 0); auto. Qed.

Lemma does_catch n k n' k' caught {A} (m : eff BrokerState A) h :
  0 <= n' -> 0 <= k' -> does n k m -> (forall e, does n' k' (h e)) -> does (n + n') (k + k') (eff_catch caught m h).
Proof.
  intros Hn Hk Hm Hf s. apply post_catch. eapply post_mono; [apply Hm|]. intros [a|e] s1 Hs1; [by eapply effects_mono; [| |exact Hs1]; lia|].
  destruct (caught e); [|by eapply effects_mono; [| |exact Hs1]; lia].
  eapply post_mono; [apply Hf|]. intros ? s'. by apply effects_trans.
Qed.

(** *** The socket, the pipe, the clock *)

Lemma does_recv timeout size : does 0 0 (recv timeout size).
Proof. intros s. constructor; simpl; [exists []; rewrite app_nil_r; split; [done|lia]|lia|constructor|lia]. Qed.

Lemma does_tell m : does 0 0 (tell m).
Proof. intros s. constructor; simpl; [exists []; rewrite app_nil_r; split; [done|lia]|lia|constructor|lia]. Qed.

Lemma does_sendall timeout data : does 0 (slen data) (sendall timeout data).
Proof. intros s. constructor; simpl; [exists []; rewrite app_nil_r; split; [done|lia]|lia|constructor|lia]. Qed.

Lemma does_origin origin : does 0 0 (fun s => (Ok tt, set_origin origin s)).
Proof. intros s. constructor; simpl; [exists []; rewrite app_nil_r; split; [done|lia]|lia|constructor|lia]. Qed.

Lemma does_remaining deadline : does 0 0 (_remaining deadline).
Proof.
  intros s. unfold post, _remaining, eff_bind, on_trace, monotonic. destruct (_ <=? 0);
    (constructor; simpl; [exists []; rewrite app_nil_r; split; [done|unfold posts; simpl; lia]|unfold requests; simpl; lia|by repeat constructor|lia]).
Qed.

Lemma does_block origin reason : does 0 0 (_record_broker_block origin reason).
Proof.
  intros s. constructor; simpl; [exists []; rewrite app_nil_r; split; [done|unfold posts; simpl; lia]|unfold requests; simpl; lia|by repeat constructor|lia].
Qed.

Lemma does_send payload deadline : does 0 (slen payload) (_send payload deadline).
Proof. apply does_quiet; [done|apply Zle_0_nat|apply does_remaining|]. intros timeout. apply does_sendall. Qed.

Lemma does_error code deadline : In code ["request_too_large"; "operation_limit_exceeded"; "egress_denied"] ->
  does 0 64 (_write_error code deadline).
Proof.
  intros Hc s. unfold post, _write_error, eff_bind, eff_lift.
  destruct (_json_line (error_line code)) as [line|e] eqn:E; [|eapply effects_mono; [| |apply effects_refl]; lia].
  assert (Hl : slen line <= 64).
  { destruct Hc as [<-|[<-|[<-|[]]]]; vm_compute in E; injection E as <-; by vm_compute. }
  apply (does_mono 0 (slen line) 0 64 _ ltac:(done) Hl (does_send line deadline)).
Qed.

Lemma does_limit reason deadline : does 0 64 (limit_exceeded reason deadline).
Proof.
  apply does_quiet; [done|done|apply does_read|]. intros origin. apply does_quiet; [done|done|apply does_block|]. intros _.
  apply does_error. simpl. auto.
Qed.

(** *** Lines *)

Lemma does_too_large request deadline : does 0 64 (too_large b request deadline).
Proof.
  apply does_quiet; [done|done|apply does_redacted|]. intros origin. apply does_quiet; [done|done|apply does_block|]. intros _.
  apply (does_bind 0 64 0 0); [done|done|apply does_error; simpl; auto|]. intros _. apply does_lift.
Qed.

Lemma too_large_raises request deadline s :
  post (too_large b request deadline) s (fun r _ => match r with Ok _ => False | Raise _ => True end).
Proof.
  unfold too_large, eff_bind, eff_lift, post. destruct (_redacted_origin_from_request request s) as [[origin|] s0]; [|done].
  destruct (_record_broker_block _ _ s0) as [[[]|] s1]; [|done]. by destruct (_write_error _ _ s1) as [[[]|] s2].
Qed.

Lemma read_line_post fuel buffer deadline s :
  post (read_line_loop fuel b buffer deadline) s (fun r s' => exists k, effects 0 k s s' /\
    match r with Ok _ => k = 0 | Raise _ => k <= 64 end).
Proof.
  assert (Hlarge : forall request s, post (too_large b request deadline) s (fun r s' => exists k, effects 0 k s s' /\
    match r with Ok _ => k = 0 | Raise _ => k <= 64 end)).
  { intros request s1. eapply post_mono; [apply post_and; [apply does_too_large|apply too_large_raises]|].
    intros [a|e] s2 [Hs2 Hr]; [done|]. by exists 64. }
  revert buffer s. induction fuel as [|fuel IH]; intros buffer s; cbn [read_line_loop].
  { exists 0. split; [apply effects_refl|done]. }
  destruct (partition "010" buffer) as [[before []] remainder]; destruct (_ <? _); try apply Hlarge.
  - exists 0. split; [apply effects_refl|done].
  - eapply post_seq; [apply does_remaining|..]; cbn beta; [|intros e s1 Hs1; by exists 0].
    intros timeout s1 Hs1. eapply post_seq; [apply does_recv|..]; cbn beta;
      [|intros e s2 Hs2; exists 0; split; [exact (effects_trans _ _ _ _ _ _ _ Hs1 Hs2)|done]].
    intros chunk s2 Hs2. pose proof (effects_trans _ _ _ _ _ _ _ Hs1 Hs2) as H02.
    destruct (chunk == ""); [by exists 0|]. eapply post_mono; [apply IH|]. intros r s3 (k & Hs3 & Hk).
    exists k. split; [exact (effects_trans _ _ _ _ _ _ _ H02 Hs3)|done].
Qed.

(** *** Mediated requests *)

Lemma posts_same P t t' : added P t t' -> (forall before ev, P before ev -> is_post ev = false) -> posts t' = posts t.
Proof. intros Ha HP. induction Ha as [|ev t' Ha IH Hp]; [done|]. unfold posts in *. simpl. by rewrite (HP _ _ Hp). Qed.

Lemma does_request method url headers deadline :
  does 1 0 (on_trace (@Egress.request w_environment (eb_mediator b) method url (Some headers) (Some deadline))).
Proof.
  intros s. unfold post, on_trace.
  destruct (Egress.request (eb_mediator b) method url (Some headers) (Some deadline) (bk_trace s)) as [r t] eqn:E.
  destruct (post_run _ _ _ _ _ (@request_post w_environment (eb_mediator b) method url (Some headers) (Some deadline) (bk_trace s)
    redirects_nonneg) E) as ((name & checked & Hname & _ & Ha) & Hn & _).
  assert (Hget : forall before ev, call_sends (eb_mediator b) name checked (call_limit (eb_mediator b) (@env_clock w_environment (bk_trace s)) (Some deadline))
      (default ("", "", 0) (url_origin url)) before ev ->
    match ev with EvRequest _ request _ => In (ob_method request) ["GET"; "HEAD"] | _ => True end).
  { intros before [| | | | |connection request answer| |]; try done.
    intros (? & ? & ? & ? & ? & ? & _ & _ & _ & [(? & ? & ? & ? & ? & _ & _ & _ & _ & _ & ->)]). exact Hname. }
  constructor; simpl.
  - exists []. rewrite app_nil_r. split; [done|]. rewrite (posts_same _ _ _ Ha); [lia|].
    intros before ev Hev%Hget. destruct ev; try done. simpl. apply eqb_neq. intros Hp. rewrite Hp in Hev.
    by destruct Hev as [|[|[]]].
  - lia.
  - eapply added_mono; [|exact Ha]. intros before ev Hev%Hget. destruct ev; try done. by left.
  - lia.
Qed.

(** *** Gateway dispatches *)

Lemma before_send_step c g body origin path t store r store' :
  before_send c g body origin path t store = (r, store') ->
  consumed_step g store r store' /\ (is_ok r = true -> verify_configured c g body origin path (w_utc_now t) = Ok tt).
Proof.
  unfold before_send, eff_bind, eff_lift, eff_ret. destruct (verify_configured _ _ _ _ _ _) as [[]|e].
  - destruct (consume _ _ _ _ _ store) as [[a|e] store1] eqn:E; apply consume_step in E as [Hm Hok]; intros [= <- <-]; (split; [split|]);
      try done; by intros _; apply Hok.
  - intros [= <- <-]. split; [|done]. split; [exists []; by rewrite app_nil_r|done].
Qed.

(** The callback of a dispatch that called it once. *)
Lemma store_after_last callback store later answer before :
  callbacks later = 0%nat -> store_after callback store (later ++ EvBeforeSend answer :: before) = snd (callback before store).
Proof.
  induction later as [|ev later IH]; intros Hc; [done|]. unfold callbacks in Hc. destruct ev; simpl in *; try (by apply IH); done.
Qed.

Lemma callbacks_app a c : callbacks (a ++ c) = (callbacks a + callbacks c)%nat.
Proof. apply count_app. Qed.

(** A trace that grew by callbacks has a last one. *)
Lemma last_callback t : callbacks t = 0%nat \/ exists later answer before,
  t = later ++ EvBeforeSend answer :: before /\ callbacks later = 0%nat.
Proof.
  induction t as [|ev t [IH|(later & answer & before & -> & IH)]]; [by left|..].
  - destruct ev as [| | | |answer| | |]; try (by left). right. by exists [], answer, t.
  - right. destruct ev as [| | | |answer'| | |]; try (by exists (EvBeforeSend answer' :: []) ); 
      first [by exists [], answer', (later ++ EvBeforeSend answer :: before) | by eexists (_ :: later), answer, before].
Qed.

Lemma unique_callback l1 a1 r1 l2 a2 r2 :
  l1 ++ EvBeforeSend a1 :: r1 = l2 ++ EvBeforeSend a2 :: r2 -> callbacks l1 = 0%nat -> callbacks l2 = 0%nat -> a1 = a2 /\ r1 = r2.
Proof.
  revert l2. induction l1 as [|ev l1 IH]; intros [|ev2 l2] Heq C1 C2; simpl in Heq.
  - by injection Heq as -> ->.
  - injection Heq as <- _. unfold callbacks in C2. simpl in C2. done.
  - injection Heq as -> _. unfold callbacks in C1. simpl in C1. done.
  - injection Heq as <- Heq. unfold callbacks in C1, C2. apply (IH l2); [done|..]; destruct ev; simpl in *; done.
Qed.

Lemma requests_split more : requests more = 0%nat \/ exists later connection request answer before,
  more = later ++ EvRequest connection request answer :: before.
Proof.
  induction more as [|ev more [IH|(later & connection & request & answer & before & ->)]]; [by left|..].
  - destruct ev as [| | | | |connection request answer| |]; try (by left). right. by exists [], connection, request, answer, more.
  - right. by exists (ev :: later), connection, request, answer, before.
Qed.

(** A request of a gateway dispatch comes right after its callback. *)
Lemma dispatch_request_callback (e : Environment) policy body deadline t0 t later connection request answer before :
  added (@dispatch_sends _ e (eb_mediator b) policy body deadline t0) t0 t ->
  t = later ++ EvRequest connection request answer :: before -> (length t0 <= length before)%nat ->
  exists now earlier, before = EvClock now :: EvBeforeSend (Ok tt) :: earlier /\ (length t0 <= length earlier)%nat /\
    env_before_send earlier = Ok tt /\ ob_method request = "POST" /\ ob_body request = body.
Proof.
  intros Ha -> Hlen. destruct (added_event _ _ _ _ _ _ Ha eq_refl Hlen)
    as (parsed & hostname & port & target & identity & spiffe_id & checked & start & _ & _ & _ & Hstart & [Hauth]).
  destruct Hauth as (port' & now & earlier & -> & _ & Hready & ->). exists now, earlier. split; [done|].
  destruct (@dispatch_callback _ e (eb_mediator b) policy body deadline t0 later
    [EvRequest connection (outbound (eb_mediator b) "POST" target (("Host", host_header (connect_host parsed) port') ::
       ("Content-Length", pretty (slen body)) :: checked) body (deadline - now)) answer; EvClock now] earlier
    parsed target spiffe_id identity start connection port' Ha Hstart Hready) as [Hl He]. done.
Qed.

Lemma does_post policy envelope headers deadline c g body origin path :
  eb_gateway_config b = Some c -> gateway_of c = Ok (origin, path) -> encode_gateway_dispatch_envelope g body = Ok envelope ->
  does 1 0 (post_with_callback (eb_mediator b) policy envelope headers deadline (before_send c g body origin path)).
Proof.
  intros Hc Hg Hb s. unfold post, post_with_callback. set (cb := before_send c g body origin path).
  set (e := with_callback _ _). set (t0 := bk_trace s). set (store := bk_store s).
  destruct (@post_gateway _ e _ _ _ _ _ t0) as [r t] eqn:Ep.
  destruct (post_run _ _ _ _ _ (@post_gateway_post _ e _ _ _ _ _ _) Ep) as (Ha & Hr & Hcb & _). clear Ep.
  destruct (added_suffix _ _ _ Ha) as [more Hmore]. subst t. change callback_calls with callbacks.
  unfold requests in Hr. rewrite count_app in Hr. fold (requests more) (requests t0) in Hr. rewrite callbacks_app in Hcb |- *.
  assert (Hsplit : forall later ev before, more ++ t0 = later ++ ev :: before -> (length t0 <= length before)%nat ->
    exists before', before = before' ++ t0 /\ more = later ++ ev :: before').
  { intros later ev before Heq Hlen. apply app_eq_inv in Heq as [(mid & -> & Hm)|(mid & -> & ->)].
    - destruct mid as [|x mid]; simpl in Hm; [|injection Hm as -> ->; by exists mid].
      apply (f_equal length) in Hm. simpl in Hm. lia.
    - rewrite length_app in Hlen. simpl in Hlen. lia. }
  assert (Hreq : forall later connection request answer before, more = later ++ EvRequest connection request answer :: before ->
    exists later' earlier, more = later' ++ EvBeforeSend (Ok tt) :: earlier /\ ob_method request = "POST" /\ ob_body request = envelope).
  { intros later connection request answer before ->.
    destruct (dispatch_request_callback e _ _ _ _ _ later connection request answer (before ++ t0) Ha)
      as (now & earlier & Heq & Hlen & _ & Hm & Hbody); [by rewrite <- app_assoc|rewrite length_app; lia|].
    destruct (Hsplit (later ++ [EvRequest connection request answer; EvClock now]) (EvBeforeSend (Ok tt)) earlier)
      as (earlier' & -> & Hm'); [by rewrite <- !app_assoc; simpl; rewrite Heq|done|].
    by exists (later ++ [EvRequest connection request answer; EvClock now]), earlier'. }
  destruct (last_callback more) as [Hz|(later & answer & before & Hm & Hl)].
  - rewrite Hz, Nat.eqb_refl. cbn [negb].
    assert (Hnone : requests more = 0%nat).
    { destruct (requests_split more) as [?|(? & ? & ? & ? & ? & Heq)]; [done|]. destruct (Hreq _ _ _ _ _ Heq) as (l & ear & Heq' & _).
      rewrite Heq', callbacks_app in Hz. unfold callbacks in Hz. simpl in Hz. lia. }
    pose proof (posts_requests more) as Hp. constructor; simpl; fold t0 store.
    + exists []. rewrite app_nil_r. split; [done|]. unfold posts in *. rewrite count_app. lia.
    + unfold requests. rewrite count_app. fold (requests more) (requests t0). lia.
    + apply added_positions. intros later ev before Heq Hlen. destruct ev as [| | | | |connection request answer| |]; try done.
      destruct (Hsplit _ _ _ Heq Hlen) as (before' & _ & ->). unfold requests in Hnone. rewrite count_app in Hnone. simpl in Hnone. lia.
    + lia.
  - assert (Hcalls : callbacks more = S (callbacks before)).
    { rewrite Hm, callbacks_app, Hl. done. }
    rewrite (proj2 (Nat.eqb_neq _ _)) by lia. cbn [negb].
    assert (Hstore : store_after cb store (more ++ t0) = snd (cb (before ++ t0) store)).
    { rewrite Hm, <- app_assoc. by apply store_after_last. }
    assert (Hans : answer = fst (cb (before ++ t0) store)).
    { assert (Heq : more ++ t0 = later ++ EvBeforeSend answer :: (before ++ t0)) by (by rewrite Hm, <- app_assoc).
      rewrite Heq in Ha. destruct (added_event _ _ _ _ _ _ Ha eq_refl) as [Hx _]; [rewrite length_app; lia|exact Hx]. }
    destruct (cb (before ++ t0) store) as [a store1] eqn:Ecb. simpl in Hans, Hstore. subst a.
    destruct (before_send_step _ _ _ _ _ _ _ _ _ Ecb) as [[[rows Hrows] Hok] Hver].
    assert (Hsent : forall l connection request a bf, more = l ++ EvRequest connection request a :: bf ->
      answer = Ok tt /\ ob_method request = "POST" /\ ob_body request = envelope).
    { intros l connection request a bf Heq. destruct (Hreq _ _ _ _ _ Heq) as (l' & earlier & Heq' & ? & ?). split; [|done].
      eapply (unique_callback later answer before l' (Ok tt) earlier); [by rewrite <- Hm|done|].
      rewrite Heq', callbacks_app in Hcb. unfold callbacks at 2 in Hcb. simpl in Hcb. fold (callbacks earlier) in Hcb. lia. }
    pose proof (posts_requests more) as Hp. constructor; simpl; fold t0 store.
    + exists rows. rewrite Hstore. split; [done|].
      assert (posts more <= length rows)%nat; [|unfold posts in *; rewrite count_app; lia].
      destruct (requests_split more) as [?|(l & connection & request & a & bf & Heq)]; [lia|].
      destruct (Hsent _ _ _ _ _ Heq) as [-> _]. destruct (Hok eq_refl) as (Hu & row & Hin & Hrow).
      rewrite Hrows in Hin. apply in_app_iff in Hin as [Hin|Hin]; [|destruct rows; [done|simpl; lia]].
      destruct Hrow as [Hd _]. by destruct (Hu row Hin).
    + unfold requests. rewrite count_app. fold (requests more) (requests t0). lia.
    + rewrite Hstore. apply added_positions. intros l ev bf Heq Hlen. destruct ev as [| | | | |connection request a| |]; try done.
      destruct (Hsplit _ _ _ Heq Hlen) as (bf' & _ & Hm'). destruct (Hsent _ _ _ _ _ Hm') as (-> & Hpost & Hbody). right. split; [done|].
      destruct (Hok eq_refl) as (Hu & Hrow). constructor.
      exists c, g, body, origin, path, (w_utc_now (before ++ t0)). rewrite Hbody. split_and!; try done. by apply Hver.
    + lia.
Qed.

Lemma does_dispatch_gateway document deadline : does 1 0 (_dispatch_gateway b document deadline).
Proof.
  unfold _dispatch_gateway. destruct (eb_gateway_config b) as [c|] eqn:Ec; [|eapply does_mono; [| |apply does_lift]; lia].
  apply does_quiet; [done|done|apply does_lift|]. intros [g body]. intros s. unfold post at 1, eff_bind at 1, eff_lift at 1.
  destruct (gateway_of c) as [[origin path]|e] eqn:Eg; [|eapply effects_mono; [| |apply effects_refl]; lia].
  revert s. change (does 1 0 (do! now_iso := fun s => (Ok (w_utc_now (bk_trace s)), s) in
    do! _ := eff_lift (verify_configured c g body origin path now_iso) in
    do! envelope := eff_lift (encode_gateway_dispatch_envelope g body) in
    post_with_callback (eb_mediator b) (gateway_policy b c path envelope) envelope
      (JObj [("Content-Type", JStr "application/json")]) deadline (before_send c g body origin path))).
  apply does_quiet; [done|done|apply (does_read (fun s => w_utc_now (bk_trace s)))|]. intros now.
  apply does_quiet; [done|done|apply does_lift|]. intros _. intros s. unfold post at 1, eff_bind at 1, eff_lift at 1.
  destruct (encode_gateway_dispatch_envelope g body) as [envelope|e] eqn:Ee; [|eapply effects_mono; [| |apply effects_refl]; lia].
  by apply (does_post _ _ _ _ _ _ _ _ _ Ec Eg Ee).
Qed.

Lemma does_dispatch line deadline : does 1 0 (_dispatch b line deadline).
Proof.
  apply does_quiet; [done|done|apply does_look|]. intros document. destruct (is_gateway_document document).
  - apply does_dispatch_gateway.
  - apply does_quiet; [done|done|apply does_lift|]. intros [[method url] headers]. apply does_request.
Qed.

(** ** The loop *)

Notation max_total := (eb_max_total_response_bytes b).
Notation max_requests := (eb_max_requests b).

Lemma answer_line_post line total deadline s : total <= max_total ->
  post (answer_line b line total deadline) s (fun r s' => exists k, effects 1 k s s' /\
    match r with Ok (Some total') => k = total' - total /\ total' <= max_total | _ => k <= max_total - total + 128 end).
Proof.
  intros Ht. unfold answer_line. apply post_catch.
  eapply post_mono with (P := fun r s' => exists k, effects 1 k s s' /\ match r with
    | Ok (Some total') => k = total' - total /\ total' <= max_total | Ok None => k <= 64 | Raise _ => k <= max_total - total + 64 end).
  - eapply post_seq; [apply does_dispatch|..]; cbn beta.
    2: { intros e s1 Hs1. exists 0. split; [done|lia]. }
    intros response s1 Hs1. unfold post at 1, eff_bind at 1, eff_lift at 1.
    destruct (_json_line (response_payload response)) as [response_line|e]; [|exists 0; split; [done|lia]].
    destruct (max_total <? total + slen response_line) eqn:El; simpl_bool.
    + eapply post_seq; [apply does_limit|..]; cbn beta.
      * intros _ s2 Hs2. exists 64. split; [exact (effects_trans _ _ _ _ _ _ _ Hs1 Hs2)|done].
      * intros e s2 Hs2. exists 64. split; [exact (effects_trans _ _ _ _ _ _ _ Hs1 Hs2)|lia].
    + eapply post_seq; [apply does_send|..]; cbn beta.
      * intros _ s2 Hs2. exists (slen response_line). split; [exact (effects_trans _ _ _ _ _ _ _ Hs1 Hs2)|lia].
      * intros e s2 Hs2. exists (slen response_line). split; [exact (effects_trans _ _ _ _ _ _ _ Hs1 Hs2)|lia].
  - intros [[total'|]|e] s1 (k & Hs1 & Hk); cbn [always].
    + by exists k.
    + exists k. split; [done|lia].
    + assert (Herr : does 0 64 (do! _ := _write_error "egress_denied" deadline in eff_ret (@None Z))).
      { apply (does_bind 0 64 0 0); [done|done|apply does_error; simpl; auto|]. intros _. apply does_ret. }
      assert (Hnone : post (do! _ := _write_error "egress_denied" deadline in eff_ret (@None Z)) s1
        (fun r _ => match r with Ok (Some _) => False | _ => True end)).
      { apply post_bind. unfold post. by destruct (_write_error _ _ s1) as [[[]|e'] s2]. }
      eapply post_mono; [apply post_and; [apply Herr|exact Hnone]|]. intros r s2 [Hs2 Hr]. exists (k + 64).
      split; [exact (effects_trans _ _ _ _ _ _ _ Hs1 Hs2)|]. destruct r as [[?|]|?]; [done|lia|lia].
Qed.

Lemma serve_pass_post t buffer deadline s :
  total_response_bytes t <= max_total -> request_count t <= max_requests ->
  post (serve_pass b t buffer deadline) s (fun r s' => exists n k, effects n k s s' /\ n <= max_requests - request_count t /\
    match r with
    | Ok (Some (t', _)) => n = 1 /\ request_count t' = request_count t + 1 /\
        k = total_response_bytes t' - total_response_bytes t /\ total_response_bytes t' <= max_total
    | _ => k <= max_total - total_response_bytes t + 128
    end).
Proof.
  intros Ht Hc. unfold serve_pass. eapply post_seq; [apply read_line_post|..]; cbn beta.
  2: { intros e s1 (k & Hs1 & Hk). exists 0, k. split; [done|lia]. }
  intros [[line|] rest] s1 (k & Hs1 & ->); [|exists 0, 0; split; [exact Hs1|lia]].
  assert (Hquiet : does 0 0 (do! origin := _redacted_origin_from_request line in
     do! _ := (fun s => (Ok tt, set_origin origin s)) in tell (MOrigin origin))).
  { apply does_quiet; [done|done|apply does_redacted|]. intros origin. apply does_quiet; [done|done|apply does_origin|].
    intros _. apply does_tell. }
  set (rest_of := if max_requests <? request_count t + 1 then _ else _) at 1.
  assert (Hrest : forall s2, effects 0 0 s1 s2 -> post rest_of s2 (fun r s' => exists n k, effects n k s s' /\
    n <= max_requests - request_count t /\ match r with
    | Ok (Some (t', _)) => n = 1 /\ request_count t' = request_count t + 1 /\
        k = total_response_bytes t' - total_response_bytes t /\ total_response_bytes t' <= max_total
    | _ => k <= max_total - total_response_bytes t + 128 end)).
  { intros s2 Hs2. pose proof (effects_trans _ _ _ _ _ _ _ Hs1 Hs2) as H02. cbn [Z.add] in H02.
    assert (Hlimit : forall reason, post (do! _ := limit_exceeded reason deadline in eff_ret (@None (Totals * string))) s2
      (fun r s' => exists n k, effects n k s s' /\ n <= max_requests - request_count t /\ match r with
        | Ok (Some (t', _)) => n = 1 /\ request_count t' = request_count t + 1 /\
            k = total_response_bytes t' - total_response_bytes t /\ total_response_bytes t' <= max_total
        | _ => k <= max_total - total_response_bytes t + 128 end)).
    { intros reason. eapply post_seq; [apply does_limit|..]; cbn beta.
      - intros _ s3 Hs3. exists 0, 64. split; [exact (effects_trans _ _ _ _ _ _ _ H02 Hs3)|]. split; [lia|lia].
      - intros e s3 Hs3. exists 0, 64. split; [exact (effects_trans _ _ _ _ _ _ _ H02 Hs3)|]. split; lia. }
    unfold rest_of. destruct (max_requests <? request_count t + 1) eqn:E1; [apply Hlimit|].
    destruct (eb_max_total_request_bytes b <? _); [apply Hlimit|]. simpl_bool.
    eapply post_seq; [by apply answer_line_post|..]; cbn beta.
    - intros total s3 (k & Hs3 & Hk). exists 1, k. split; [exact (effects_trans _ _ _ _ _ _ _ H02 Hs3)|].
      destruct total as [total|]; simpl; split; lia.
    - intros e s3 (k & Hs3 & Hk). exists 1, k. split; [exact (effects_trans _ _ _ _ _ _ _ H02 Hs3)|]. split; lia. }
  specialize (Hquiet s1). unfold post, eff_bind, _redacted_origin_from_request in Hquiet |- *.
  destruct (match load_line line s1 with Ok _ => _ | Raise _ => _ end) as [origin|e];
    [|exists 0, 0; split; [exact Hs1|lia]].
  destruct (tell (MOrigin origin) (set_origin origin s1)) as [[[]|e] s2].
  - exact (Hrest s2 Hquiet).
  - exists 0, 0. split; [exact (effects_trans _ _ _ _ _ _ _ Hs1 Hquiet)|lia].
Qed.

Lemma serve_loop_post fuel t buffer deadline s :
  total_response_bytes t <= max_total -> request_count t <= max_requests ->
  post (serve_loop fuel b t buffer deadline) s (fun _ s' =>
    effects (max_requests - request_count t) (max_total - total_response_bytes t + 128) s s').
Proof.
  revert t buffer s. induction fuel as [|fuel IH]; intros t buffer s Ht Hc; cbn [serve_loop].
  - eapply effects_mono; [| |apply effects_refl]; lia.
  - eapply post_seq; [by apply serve_pass_post|..]; cbn beta.
    + intros [[t' buffer']|] s1 (n & k & Hs1 & Hn & Hk).
      * destruct Hk as (-> & Hc' & -> & Ht'). eapply post_mono; [apply IH; lia|]. intros ? s' Hs'.
        eapply effects_mono; [| |exact (effects_trans _ _ _ _ _ _ _ Hs1 Hs')]; lia.
      * eapply effects_mono; [| |exact Hs1]; lia.
    + intros e s1 (n & k & Hs1 & Hn & Hk). eapply effects_mono; [| |exact Hs1]; lia.
Qed.

Lemma serve_post deadline s : 0 <= max_total -> 0 <= max_requests ->
  post (_serve b deadline) s (fun _ s' => effects max_requests (max_total + 128) s s').
Proof.
  intros Ht Hc. unfold _serve. eapply post_seq; [apply does_origin|..]; cbn beta; [|intros e s1 Hs1; by eapply effects_mono; [| |exact Hs1]; lia].
  intros _ s1 Hs1. apply post_catch. eapply post_mono; [by apply serve_loop_post|].
  intros r s2 Hs2. cbn [request_count total_response_bytes no_totals] in Hs2.
  assert (H12 : effects max_requests (max_total + 128) s s2).
  { eapply effects_mono; [| |exact (effects_trans _ _ _ _ _ _ _ Hs1 Hs2)]; lia. }
  destruct r as [a|e]; [done|]. destruct (returns_quietly e); [|done].
  destruct (exc_cls e == TimeoutError); [|exact H12].
  eapply (post_mono _ _ (fun _ s' => effects 0 0 s2 s')).
  - apply (does_quiet 0 0); [done|done|apply does_read|]. intros origin. apply does_block.
  - intros ? s3 Hs3. eapply effects_mono; [| |exact (effects_trans _ _ _ _ _ _ _ H12 Hs3)]; lia.
Qed.
End Broker.
