(* ===== verification/BrokerProps.v ===== *)
(** * The egress broker: properties

    A run of the broker ends, within its limits, and lets no dispatch through that was
    not authorized and consumed. *)

From S2P Require Import Prelude PyStr Json JsonParse JsonScan Canonical Timestamp PyIp PyUrl PyUrlFacts.
From S2P Require Import ScopeGuard Identity IdentityProps Base64 Egress EgressSteps EgressProps.
From S2P Require Import ApprovalStore Gateway.
From S2P Require Import Dispatch DispatchProps Transport Broker BrokerFacts.

(** ** Termination *)

(** The socket and the pipe fail as sockets do. *)
Class WorldOk `{World} := {
  recv_raises : forall s timeout size e, w_recv s timeout size = Raise e -> In (exc_cls e) [TimeoutError; OSError];
  sendall_raises : forall s timeout data e, w_sendall s timeout data = Raise e -> In (exc_cls e) [TimeoutError; OSError];
  tell_raises : forall s m e, w_tell s m = Raise e -> In (exc_cls e) [TimeoutError; OSError];
}.

Section Broker.
Context `{Host} `{Ed25519} `{WorldOk}.
Variable b : ExecutionEgressBroker.

(** How the steps of the broker fail: its fuel is not one of the ways. *)
Definition failure (e : exc) : Prop := In (exc_cls e) [TimeoutError; OSError; EgressProtocolError; ValueError; RecursionError].

Definition fails {A} (m : eff BrokerState A) : Prop := forall s, post m s (fun r _ => forall e, r = Raise e -> failure e).

Lemma fails_bind {A B} (m : eff BrokerState A) (f : A -> eff BrokerState B) : fails m -> (forall a, fails (f a)) -> fails (eff_bind m f).
Proof.
  intros Hm Hf s. eapply post_seq; [apply Hm|..]; cbn beta.
  - intros a s1 _. apply Hf.
  - intros e s1 He e' [= <-]. by apply He.
Qed.

Lemma fails_ret {A} (a : A) : fails (eff_ret a).
Proof. by intros s e. Qed.

Lemma fails_lift {A} (r : res A) : (forall e, r = Raise e -> failure e) -> fails (eff_lift r).
Proof. by intros Hr s. Qed.

Lemma fails_state {A} (f : BrokerState -> A * BrokerState) : fails (fun s => let (a, s') := f s in (Ok a, s')).
Proof. intros s. unfold post. by destruct (f s). Qed.

Lemma socket_failure {A} (r : res A) : (forall e, r = Raise e -> In (exc_cls e) [TimeoutError; OSError]) -> forall e, r = Raise e -> failure e.
Proof. intros Hr e He. unfold failure. apply Hr in He. simpl in *. tauto. Qed.

Lemma fails_recv timeout size : fails (recv timeout size).
Proof. intros s. exact (socket_failure (w_recv s timeout size) (recv_raises s timeout size)). Qed.

Lemma fails_sendall timeout data : fails (sendall timeout data).
Proof. intros s. exact (socket_failure (w_sendall s timeout data) (sendall_raises s timeout data)). Qed.

Lemma fails_tell m : fails (tell m).
Proof. intros s. exact (socket_failure (w_tell s m) (tell_raises s m)). Qed.

Lemma fails_remaining deadline : fails (_remaining deadline).
Proof.
  intros s. unfold post, _remaining, eff_bind, on_trace, monotonic. destruct (_ <=? 0); [|done].
  intros e [= <-]. unfold failure. simpl. auto.
Qed.

Lemma fails_block origin reason : fails (_record_broker_block origin reason).
Proof. by intros s e. Qed.

Lemma json_line_raises document e : _json_line document = Raise e -> failure e.
Proof. unfold _json_line. destruct (negb _); [|done]. intros [= <-]. unfold failure. simpl. tauto. Qed.

Lemma fails_send payload deadline : fails (_send payload deadline).
Proof. apply fails_bind; [apply fails_remaining|]. intros timeout. apply fails_sendall. Qed.

Lemma fails_error code deadline : fails (_write_error code deadline).
Proof. apply fails_bind; [apply fails_lift, json_line_raises|]. intros line. apply fails_send. Qed.

Lemma fails_redacted request : fails (_redacted_origin_from_request request).
Proof.
  intros s. unfold post, _redacted_origin_from_request, load_line. destruct (w_recurses s request).
  { intros e [= <-]. unfold failure. simpl. tauto. }
  destruct (loads_bytes request) as [document|e1] eqn:E; [by intros e; repeat case_match|].
  apply loads_bytes_raises in E. destruct (is_json_error e1); [done|]. intros e [= <-]. unfold failure. rewrite E. simpl. tauto.
Qed.

Lemma fails_limit reason deadline : fails (limit_exceeded reason deadline).
Proof.
  apply fails_bind; [apply (fails_state (fun s => (bk_origin s, s)))|]. intros origin.
  apply fails_bind; [apply fails_block|]. intros _. apply fails_error.
Qed.

Lemma fails_too_large request deadline : fails (too_large b request deadline).
Proof.
  apply fails_bind; [apply fails_redacted|]. intros origin. apply fails_bind; [apply fails_block|]. intros _.
  apply fails_bind; [apply fails_error|]. intros _. apply fails_lift. intros e [= <-]. unfold failure. simpl. tauto.
Qed.

(** Every read adds to the buffer, and a buffer over the limit is refused. *)
Lemma fails_read_line_loop fuel buffer deadline :
  (1 <= fuel)%nat -> (Z.to_nat (eb_max_request_bytes b) + 2 <= fuel + String.length buffer)%nat ->
  fails (read_line_loop fuel b buffer deadline).
Proof.
  revert buffer. induction fuel as [|fuel IH]; intros buffer Hfuel Hlen; [lia|]. cbn [read_line_loop].
  destruct (partition "010" buffer) as [[before []] remainder]; destruct (_ <? _) eqn:El; try apply fails_too_large; [apply fails_ret|].
  apply fails_bind; [apply fails_remaining|]. intros timeout. apply fails_bind; [apply fails_recv|]. intros chunk.
  destruct (chunk == "") eqn:Ec; [apply fails_ret|]. simpl_bool. unfold slen in El. apply IH.
  - lia.
  - destruct chunk as [|c chunk]; [done|]. rewrite string_length_app. simpl. lia.
Qed.

Lemma fails_answer line total deadline : fails (answer_line b line total deadline).
Proof.
  intros s. unfold answer_line. apply post_catch. eapply (post_mono _ _ (fun _ _ => True)); [by unfold post; destruct (eff_bind _ _ s)|].
  intros [a|e] s1 _; [done|]. cbn [always]. revert s1. change (fails (do! _ := _write_error "egress_denied" deadline in eff_ret (@None Z))).
  apply fails_bind; [apply fails_error|]. intros _. apply fails_ret.
Qed.

Lemma fails_pass t buffer deadline : fails (serve_pass b t buffer deadline).
Proof.
  apply fails_bind; [apply fails_read_line_loop; unfold line_fuel; lia|]. intros [[line|] rest]; [|apply fails_ret].
  apply fails_bind; [apply fails_redacted|]. intros origin.
  apply fails_bind; [apply (fails_state (fun s => (tt, set_origin origin s)))|]. intros _.
  apply fails_bind; [apply fails_tell|]. intros _.
  assert (Hlimit : forall reason, fails (do! _ := limit_exceeded reason deadline in eff_ret (@None (Totals * string)))).
  { intros reason. apply fails_bind; [apply fails_limit|]. intros _. apply fails_ret. }
  cbv zeta. destruct (eb_max_requests b <? request_count t + 1); [apply Hlimit|].
  destruct (eb_max_total_request_bytes b <? total_request_bytes t + slen line); [apply Hlimit|].
  apply fails_bind; [apply fails_answer|]. intros total. apply fails_ret.
Qed.

Lemma pass_counts t buffer deadline s :
  post (serve_pass b t buffer deadline) s (fun r _ => match r with
    | Ok (Some (t', _)) => request_count t' = request_count t + 1 /\ request_count t' <= eb_max_requests b
    | _ => True end).
Proof.
  unfold serve_pass. apply post_bind. eapply (post_mono _ _ (fun _ _ => True)); [by unfold post; destruct (_read_line _ _ _ s)|].
  intros [[[line|] rest]|e] s1 _; [|done|done]. unfold post, eff_bind, eff_lift.
  destruct (_redacted_origin_from_request line s1) as [[origin|e] s0]; [|done].
  destruct (tell (MOrigin origin) (set_origin origin s0)) as [[[]|e] s2]; [|done].
  destruct (eb_max_requests b <? request_count t + 1) eqn:E1; [by destruct (limit_exceeded _ _ s2) as [[[]|e] s3]|].
  destruct (eb_max_total_request_bytes b <? _); [by destruct (limit_exceeded _ _ s2) as [[[]|e] s3]|].
  destruct (answer_line b line (total_response_bytes t) deadline s2) as [[[total|]|e] s3]; cbn; [|done|done]. simpl_bool. lia.
Qed.

Lemma fails_loop fuel t buffer deadline : eb_max_requests b - request_count t < Z.of_nat fuel -> 0 <= eb_max_requests b - request_count t ->
  fails (serve_loop fuel b t buffer deadline).
Proof.
  revert t buffer. induction fuel as [|fuel IH]; intros t buffer Hf Hc; [lia|]. cbn [serve_loop]. intros s.
  eapply post_seq; [apply post_and; [apply fails_pass|apply pass_counts]|..]; cbn beta.
  - intros [[t' buffer']|] s1 [_ Ht]; [|by intros e]. apply IH; lia.
  - intros e s1 [He _] e' [= <-]. by apply He.
Qed.

Lemma serve_ends deadline s : 0 <= eb_max_requests b ->
  post (_serve b deadline) s (fun r _ => r = Ok tt \/ exists e, r = Raise e /\ In (exc_cls e) [ValueError; RecursionError]).
Proof.
  intros Hm. unfold _serve. apply post_bind. unfold post at 1. cbn beta iota. apply post_catch.
  eapply post_mono; [apply fails_loop; cbn [request_count no_totals]; unfold serve_fuel; lia|]. cbn beta.
  intros [[]|e] s1 Hf; [by left|]. specialize (Hf e eq_refl). unfold returns_quietly.
  destruct (mem (exc_cls e) [TimeoutError; EgressProtocolError; OSError]) eqn:Em.
  - destruct (exc_cls e == TimeoutError); by left.
  - right. exists e. split; [done|]. apply mem_not_In in Em. unfold failure in Hf. simpl in Em, Hf |- *. intuition congruence.
Qed.

(** ** Claims *)

(** C22. Whatever an adapter sends and however its socket behaves, the broker's run ends:
    quietly, or with one of the two errors that the redaction of a line's origin lets
    through: the [ValueError] of an integer too long to convert and the [RecursionError]
    of a nesting beyond the interpreter's limit.  Until then the adapter has caused at
    most, for each of the requests allowed, one request and one more for each redirect
    allowed, and was sent at most the response bytes allowed and 128 more, for two error
    lines. *)
Theorem broker_run_bounded deadline s r s' :
  check_broker b = Ok tt -> 0 <= md_max_redirects (eb_mediator b) ->
  _serve b deadline s = (r, s') ->
  (r = Ok tt \/ exists e, r = Raise e /\ In (exc_cls e) [ValueError; RecursionError]) /\
  Z.of_nat (requests (bk_trace s')) <=
    Z.of_nat (requests (bk_trace s)) + eb_max_requests b * (md_max_redirects (eb_mediator b) + 1) /\
  sent_bytes (bk_io s') <= sent_bytes (bk_io s) + eb_max_total_response_bytes b + 128.
Proof.
  intros Hb Hm Hrun. unfold check_broker in Hb. guard_ok Hb. simpl_bool.
  assert (0 <= eb_max_requests b) as Hq by lia. assert (0 <= eb_max_total_response_bytes b) as Ht by lia.
  split; [exact (post_run _ _ _ _ _ (serve_ends deadline s Hq) Hrun)|].
  destruct (post_run _ _ _ _ _ (serve_post b Hm deadline s Ht Hq) Hrun) as [_ Hr _ Hs]. split; [exact Hr|lia].
Qed.

(** C21. Every request that leaves in a run of the broker is a GET or a HEAD, or it is a
    POST whose body is the envelope of a grant: one that the configured trust store,
    endpoint, plan and worker accept for that body, that no row of the replay store
    mentioned when the run began and that has its row when the run ends; and there are
    at most as many such requests as the run added rows. *)
Theorem broker_dispatches_consumed deadline s r s' later connection sent answer before :
  check_broker b = Ok tt -> 0 <= md_max_redirects (eb_mediator b) ->
  _serve b deadline s = (r, s') ->
  (exists more, rp_rows (bk_store s') = rp_rows (bk_store s) ++ more /\
     (posts (bk_trace s') <= posts (bk_trace s) + length more)%nat) /\
  (bk_trace s' = later ++ EvRequest connection sent answer :: before -> (length (bk_trace s) <= length before)%nat ->
   In (ob_method sent) ["GET"; "HEAD"] \/ (ob_method sent = "POST" /\ released b (bk_store s) (bk_store s') sent)).
Proof.
  intros Hb Hm Hrun. unfold check_broker in Hb. guard_ok Hb. simpl_bool.
  destruct (post_run _ _ _ _ _ (serve_post b Hm deadline s ltac:(lia) ltac:(lia)) Hrun) as [Hrows _ He _]. split; [exact Hrows|].
  intros Htr Hlen. exact (added_event _ _ _ _ _ _ He Htr Hlen).
Qed.
End Broker.

(** ** Witnesses *)

(** A host whose digests are 64 hexadecimal digits. *)
Definition block_host : Host := {|
  float_repr := fun _ => "0.5";
  float_parse := fun _ => PyFin 1 (-1);
  sha256_hex := fun text => String.substring 0 64 (hex_text text +:+ hex_text (String.concat "" (repeat "0" 64)));
  hmac_sha256_hex := fun key text => hex_text text;
  dumps_recurses := fun _ => false;
  loads_recurses := fun _ => false;
|}.

Definition demo_spiffe : string := "spiffe://lab.example/cops/v1/" +:+ identity_path demo_identity.

Definition broker_config : GatewayBrokerConfig := {|
  gc_gateway_url := "https://db.lab.example/dispatch"; gc_gateway_spiffe_id := demo_spiffe;
  gc_expected_identity := demo_identity; gc_action_plan_id := "plan-1"; gc_plan_digest := hex_text DispatchProps.demo_body;
  gc_worker_spiffe_id := "spiffe://lab.example/worker"; gc_max_body_bytes := 1024;
  gc_authorizer := {| az_trust_store := demo_store; az_endpoints := [("endpoint-1", {|
    de_gateway_endpoint_id := "endpoint-1"; de_gateway_identity := demo_spiffe; de_endpoint_origin := "https://db.lab.example";
    de_gateway_path := "/dispatch"; de_provider := "provider"; de_account_or_project_kind := "project";
    de_account_or_project := "account-1"; de_region := "eu"; de_model := "model-1"; de_request_target := "https://models.example/v1" |})] |}
|}.

Definition demo_broker : ExecutionEgressBroker := {|
  eb_mediator := demo_mediator; eb_max_request_bytes := 65536; eb_max_requests := 3; eb_max_total_request_bytes := 262144;
  eb_max_total_response_bytes := 1000; eb_protocol_timeout := 1000000; eb_gateway_config := Some broker_config
|}.

Definition line_of (document : json) : string := @dumps block_host true document +:+ String "010" "".

(** A GET that is redirected, a dispatch, the same dispatch again, and a line too many. *)
Definition get_line : string := line_of (JObj [
  ("version", JStr BROKER_PROTOCOL); ("method", JStr "get"); ("url", JStr "https://db.lab.example/old"); ("headers", JObj [])]).
Definition dispatch_line : string := line_of (JObj [
  ("version", JStr GATEWAY_POST_BROKER_PROTOCOL); ("grant", grant_to_dict (demo_signed "1"));
  ("body_base64", JStr (b64encode DispatchProps.demo_body))]).

(** What the adapter sent and the broker has not read yet arrives a thousand bytes at a time. *)
Definition arrives (all : string) (s : BrokerState) (size : Z) : string :=
  let read := sumZ (fun e => match e with IoRecv _ _ (Ok data) => slen data | _ => 0 end) (bk_io s) in
  String.substring (Z.to_nat read) (Z.to_nat (Z.min 1000 size)) all.

Definition demo_world : World := {|
  w_environment := demo_environment;
  w_recv := fun s _ size => Ok (arrives (get_line +:+ dispatch_line +:+ dispatch_line +:+ get_line) s size);
  w_sendall := fun _ _ _ => Ok tt; w_tell := fun _ _ => Ok tt;
  w_utc_now := fun _ => demo_now; w_consume_now := fun _ => demo_now; w_euid := 1000; w_storage := fun _ => demo_storage None;
  w_recurses := fun _ _ => false
|}.

Definition demo_world_ok : @WorldOk demo_world.
Proof. constructor; intros; discriminate. Defined.

Definition demo_start : BrokerState := {| bk_trace := []; bk_io := []; bk_store := {| rp_rows := []; rp_indexed := false |}; bk_origin := "" |}.

Definition demo_serve : res unit * BrokerState := @_serve block_host demo_ed25519 demo_world demo_broker 1000000 demo_start.

(** The adapter was answered twice and refused once; one dispatch left. *)
Example demo_serve_run :
  (fst demo_serve, requests (bk_trace (snd demo_serve)), posts (bk_trace (snd demo_serve)),
   map ob_reason (observed (bk_trace (snd demo_serve))), map cd_dispatch_id (rp_rows (bk_store (snd demo_serve)))) =
  (Ok tt, 3%nat, 1%nat, ["authenticated_exact_scope"; "authenticated_exact_gateway_scope"; "EgressMediationError"], ["dispatch-1"]).
Proof. vm_compute. reflexivity. Qed.

(** An interpreter that cannot parse lines that open more than a thousand lists: one
    such line ends the run, with an error that no handler expects. *)
Definition nested_world : World := {|
  w_environment := demo_environment;
  w_recv := fun s _ size => Ok (arrives (String.concat "" (repeat "[" 1001) +:+ String "010" "") s size);
  w_sendall := fun _ _ _ => Ok tt; w_tell := fun _ _ => Ok tt;
  w_utc_now := fun _ => demo_now; w_consume_now := fun _ => demo_now; w_euid := 1000; w_storage := fun _ => demo_storage None;
  w_recurses := fun _ line => startswith (String.concat "" (repeat "[" 1001)) line
|}.

Example nested_line_escapes :
  fst (@_serve block_host demo_ed25519 nested_world demo_broker 1000000 demo_start) =
  raise RecursionError "maximum recursion depth exceeded".
Proof. vm_compute. reflexivity. Qed.

Lemma broker_run_bounded_witness :
  check_config broker_config = Ok tt /\ Z.of_nat (requests (bk_trace (snd demo_serve))) <= 12.
Proof.
  split; [vm_compute; reflexivity|].
  refine (proj1 (proj2 (@broker_run_bounded block_host demo_ed25519 demo_world demo_world_ok demo_broker 1000000 demo_start
    (fst demo_serve) (snd demo_serve) _ _ _))); [reflexivity|done|exact (surjective_pairing demo_serve)].
Defined.

Lemma broker_dispatches_consumed_witness :
  posts (bk_trace (snd demo_serve)) = 1%nat /\ exists more, rp_rows (bk_store (snd demo_serve)) = more /\ (1 <= length more)%nat.
Proof.
  assert (Hp : posts (bk_trace (snd demo_serve)) = 1%nat) by (vm_compute; reflexivity). split; [exact Hp|].
  destruct (@broker_dispatches_consumed block_host demo_ed25519 demo_world demo_broker 1000000 demo_start
    (fst demo_serve) (snd demo_serve) [] demo_connection (outbound demo_mediator "GET" "" [] "" 0)
    (raise RuntimeError "unused") []) as ((more & Hrows & Hn) & _);
    [reflexivity|done|exact (surjective_pairing demo_serve)|].
  exists more. rewrite Hp in Hn. exact (conj Hrows Hn).
Defined.
