(* ===== verification/Control.v ===== *)
(** * The approval control channel

    [src/cops/execution/control.py]: the authority process, which alone verifies and
    consumes approvals, its server, and the worker's client.  The authority's store
    is shared with other processes: each access first lets the calls the others make
    in the meantime take effect.  The client is written against the interface
    [Network] of what it can do with the authority's socket. *)

From S2P Require Import Prelude PyStr Json JsonParse Schema Contracts Models Authorization.
From S2P Require Import ApprovalStore ApprovalStoreProps Transport.

Definition REQUEST_SCHEMA : string := "cops.approval-control-request/v1".
Definition RESPONSE_SCHEMA : string := "cops.approval-control-response/v1".

Record ApprovalConsumptionReceipt := {
  rc_authorization_id : string; rc_authorization_digest : string; rc_action_plan_id : string;
  rc_plan_digest : string; rc_engagement_id : string; rc_worker_identity : string; rc_target : string
}.

#[export] Instance receipt_eq_dec : EqDecision ApprovalConsumptionReceipt.
Proof. solve_decision. Defined.

(** [_peer_credentials]: what [getsockopt(SO_PEERCRED)] says, as (PID, UID, GID). *)
Definition _peer_credentials (has_peercred : bool) (sockopt : res (Z * Z * Z)) : res (Z * Z * Z) :=
  raise_if negb has_peercred as ApprovalControlError msg "Linux SO_PEERCRED support is required" ;;
  sockopt.

Definition _consumption_response (request_id : string) (record : ApprovalConsumptionRecord) : json :=
  JObj [("schema_version", JStr RESPONSE_SCHEMA); ("request_id", JStr request_id); ("ok", JBool true);
        ("authorization_id", JStr (cr_authorization_id record));
        ("authorization_digest", JStr (cr_authorization_digest record));
        ("action_plan_id", JStr (cr_action_plan_id record)); ("plan_digest", JStr (cr_plan_digest record));
        ("engagement_id", JStr (cr_engagement_id record)); ("worker_identity", JStr (cr_worker_identity record));
        ("target", JStr (cr_target record))].

(** [set(document) == expected], the keys of a dict being distinct. *)
Definition keys_are (expected : list string) (items : list (string * json)) : bool :=
  forallb (fun k => mem k expected) (map fst items) && forallb (fun k => has_key k items) expected.

(** ** Request identifiers: [uuid.UUID(s)] *)

(** The digits of [int(s, 16)]: single underscores may separate them. *)
Fixpoint hex_digits_ok (after_digit : bool) (s : string) : bool :=
  match s with
  | EmptyString => after_digit
  | String c s' =>
      match hex_value c with
      | Some _ => hex_digits_ok true s'
      | None => (code c =? 95) && after_digit && hex_digits_ok false s'
      end
  end.

(** Whether [int(s, 16)] accepts a text without minus signs. *)
Definition int16_ok (s : string) : bool :=
  let s := strip s in
  let s := match s with String c s' => if code c =? 43 then s' else s | EmptyString => s end in
  match s with
  | String c (String x s') =>
      if (code c =? 48) && ((code x =? 120) || (code x =? 88)) then
        hex_digits_ok false (match s' with String u s'' => if code u =? 95 then s'' else s' | EmptyString => s' end)
      else hex_digits_ok false s
  | _ => hex_digits_ok false s
  end.

Definition is_brace (c : ascii) : bool := (code c =? 123) || (code c =? 125).

(** The request id of a document, as its text. *)
Definition parse_uuid (v : json) : res string :=
  match v with
  | JStr s =>
      let hex := remove_sub "uuid:" 0 (remove_sub "urn:" 0 s) in
      let hex := remove_sub "-" 0 (rstrip_by is_brace (lstrip_by is_brace hex)) in
      raise_if negb (slen hex =? 32) as ValueError msg "badly formed hexadecimal UUID string" ;;
      raise_if negb (int16_ok hex) as ValueError msg "invalid literal for int() with base 16" ;;
      Ok s
  | JNull => raise TypeError "one of the arguments must be given"
  | _ => raise AttributeError "replace"
  end.

(** ** The authority *)

(** The authority's store, and the calls other processes make before each of its
    next accesses. *)
Record World := { w_store : ApprovalStore; w_others : list (list call) }.

(** [os.name], [sys.platform] and the rest of the machine as the authority sees it:
    the store's files, and the clock at verification and at consumption. *)
Record Machine := {
  m_platform : Platform; m_sys_platform : string; m_has_geteuid : bool; m_files : StoreFiles;
  m_verify_time : Z; m_consume_time : string
}.

Definition sys_platform_linux (m : Machine) : bool := posix (m_platform m) && startswith "linux" (m_sys_platform m).

Record ApprovalAuthority := {
  aa_trust_store : AuthorizationTrustStore; aa_engagement : EngagementArg; aa_worker_identity : string;
  aa_worker_uid : Z; aa_worker_gid : Z; aa_worker_pid : Z; aa_authority_uid : Z
}.

Definition assert_ready (m : Machine) (self : ApprovalAuthority) : res unit :=
  raise_if negb (sys_platform_linux m)
    as ApprovalControlError msg "approval authority is supported only on Linux" ;;
  raise_if negb (m_has_geteuid m) || negb (euid (m_platform m) =? aa_authority_uid self)
    as ApprovalControlError msg "approval authority must run as its configured OS UID" ;;
  raise_if aa_worker_uid self =? aa_authority_uid self
    as ApprovalControlError msg "approval authority and worker require distinct OS UIDs" ;;
  raise_if (aa_worker_uid self <? 1) || (aa_worker_gid self <? 1) || (aa_worker_pid self <? 1)
    as ApprovalControlError msg "approval authority requires a pinned non-root worker UID, GID, and PID" ;;
  assert_protected_owner (m_platform m) (m_files m) (aa_authority_uid self).

Section Authority.
Context `{Host}.
Variable read_schema : string -> option json.
Variable report_semantics : string -> json -> res unit.
Variable machine : Machine.
Variable self : ApprovalAuthority.

(** One access to the database: what the others did meanwhile comes first. *)
Definition access {A} (f : ApprovalStore -> ApprovalStore * res A) : eff World A := fun w =>
  let (others, rest) := match w_others w with [] => ([], []) | o :: os => (o, os) end in
  let s := fst (run read_schema report_semantics (m_platform machine) (w_store w) others) in
  let (s', r) := f s in
  (r, {| w_store := s'; w_others := rest |}).

Definition find_prior (request_id : string) (request : ConsumptionRequest)
    : eff World (option ApprovalConsumptionRecord) :=
  access (fun s => (s, get_matching_consumption s request_id request)).

(** [AuthArg] of what the store returns. *)
Definition stored_arg (stored : ExecutionAuthorization + LegacyApprovalRecord) : AuthArg :=
  match stored with inl a => AuthObject a | inr _ => AuthOther end.

Definition verify_stored (authorization_id : string) (plan : ActionPlan) : eff World ExecutionAuthorization :=
  do! stored := access (fun s => (s, get_authorization read_schema report_semantics s authorization_id)) in
  eff_lift (verify_execution_authorization read_schema report_semantics (m_verify_time machine) (stored_arg stored)
    (PlanObject plan) (Some (aa_trust_store self)) (aa_engagement self) (aa_worker_identity self) JNull).

Definition request_keys : list string :=
  ["schema_version"; "request_id"; "operation"; "authorization_id"; "worker_identity"; "action_plan"].

(** The checks of a request before any access to the store. *)
Definition check_request (items : list (string * json)) (peer_pid peer_uid peer_gid : Z)
    : res (string * string * ActionPlan) :=
  assert_ready machine self ;;?
  raise_if negb (keys_are request_keys items)
    as ApprovalControlError msg "approval control request has unexpected or missing fields" ;;
  let? schema_version := getitem "schema_version" (JObj items) in
  let? operation := getitem "operation" (JObj items) in
  raise_if negb (str_is schema_version REQUEST_SCHEMA) || negb (str_is operation "consume")
    as ApprovalControlError msg "unsupported approval control request" ;;
  let? id := getitem "request_id" (JObj items) in
  let? request_id :=
    catch (fun e => is_value_error e || (exc_cls e == TypeError) || (exc_cls e == AttributeError)) (parse_uuid id)
      (fun _ => raise ApprovalControlError "approval control request_id must be a UUID") in
  raise_if negb (peer_uid =? aa_worker_uid self)
    as ApprovalControlError msg "approval control peer UID does not match the configured worker UID" ;;
  raise_if negb (peer_gid =? aa_worker_gid self)
    as ApprovalControlError msg "approval control peer GID does not match the configured worker GID" ;;
  raise_if negb (peer_pid =? aa_worker_pid self)
    as ApprovalControlError msg "approval control peer PID does not match the pinned worker supervisor" ;;
  let? worker := getitem "worker_identity" (JObj items) in
  raise_if negb (str_is worker (aa_worker_identity self))
    as ApprovalControlError msg "approval control worker identity mismatch" ;;
  let? authorization := getitem "authorization_id" (JObj items) in
  match authorization with
  | JStr authorization_id =>
      raise_if authorization_id == ""
        as ApprovalControlError msg "approval control authorization_id must be non-empty" ;;
      let? document := getitem "action_plan" (JObj items) in
      let? plan :=
        catch (fun e => is_value_error e || (exc_cls e == TypeError) || (exc_cls e == KeyError))
          (from_dict (A := ActionPlan) read_schema report_semantics document)
          (fun _ => raise ApprovalControlError "approval control action plan is invalid") in
      Ok (request_id, authorization_id, plan)
  | _ => raise ApprovalControlError "approval control authorization_id must be non-empty"
  end.

(** [receipt_bindings]. *)
Definition receipt_bindings (request_digest authorization_id : string) (plan : ActionPlan) : ConsumptionRequest :=
  {| rq_request_digest := request_digest; rq_authorization_id := JStr authorization_id;
     rq_action_plan_id := plan_plan_id plan; rq_plan_digest := plan_plan_digest plan;
     rq_engagement_id := plan_engagement_id plan; rq_worker_identity := aa_worker_identity self;
     rq_target := plan_target plan |}.

Definition consume_document (items : list (string * json)) (peer_pid peer_uid peer_gid : Z) : eff World json :=
  do! (request_id, authorization_id, plan) := eff_lift (check_request items peer_pid peer_uid peer_gid) in
  do! request_digest := eff_lift (digest (JObj items)) in
  let bindings := receipt_bindings request_digest authorization_id plan in
  do! prior := find_prior request_id bindings in
  match prior with
  | Some record => eff_ret (_consumption_response request_id record)
  | None =>
      do! outcome := eff_catch (fun _ => true)
        (do! verified := verify_stored authorization_id plan in eff_ret (inl verified))
        (fun _ =>
           do! prior := find_prior request_id bindings in
           match prior with
           | Some record => eff_ret (inr record)
           | None => eff_raise ApprovalControlError
                       "approval authorization did not verify for the requested plan and worker"
           end) in
      match outcome with
      | inr record => eff_ret (_consumption_response request_id record)
      | inl verified =>
          do! record := access (fun s =>
            atomically_consume_request read_schema report_semantics (m_platform machine) (m_files machine)
              (m_consume_time machine) s request_id request_digest (plan_target plan) verified
              (aa_worker_identity self) (aa_authority_uid self) None) in
          eff_ret (_consumption_response request_id record)
      end
  end.

(** ** The server *)

Definition error_response (request_id : json) : json :=
  JObj [("schema_version", JStr RESPONSE_SCHEMA); ("request_id", request_id); ("ok", JBool false);
        ("error", JStr "approval authority rejected the request")].

Section Serving.
Context {C : Type} `{Connection C}.

(** The [try] block: a request that fails in any way gets the same refusal. *)
Definition respond (received : res json) (peer_pid peer_uid peer_gid : Z) (w : World) : json * World :=
  match received with
  | Ok (JObj items) =>
      match consume_document items peer_pid peer_uid peer_gid w with
      | (Ok response, w') => (response, w')
      | (Raise _, w') => (error_response (assoc_default "request_id" items JNull), w')
      end
  | _ => (error_response JNull, w)
  end.

(** [busy] is how the connection sees the time the authority takes to answer. *)
Definition serve_connection (peercred : res (Z * Z * Z)) (busy : C -> C) : eff (World * C) unit := fun '(w, c) =>
  match peercred with
  | Raise e => (Raise e, (w, c))
  | Ok (peer_pid, peer_uid, peer_gid) =>
      let (received, c) := _read_json_line c in
      let (response, w) := respond received peer_pid peer_uid peer_gid w in
      let (r, c) := _write_json_line response (busy c) in
      (r, (w, c))
  end.
End Serving.

(** A connection the listener accepted: its credentials, its socket, and how long
    the authority is busy with its request. *)
Record Accepted := { ac_peercred : res (Z * Z * Z); ac_socket : Socket; ac_busy : Z }.

(** The socket afterwards is what the peer can observe. *)
Definition _serve_accepted_connection (connection_timeout : Z) (a : Accepted) (w : World) : res unit * World * Socket :=
  let bounded := {| _connection := ac_socket a; _deadline := sk_now (ac_socket a) + connection_timeout |} in
  let busy d := {| _connection := advance (ac_busy a) (_connection d); _deadline := _deadline d |} in
  let '(r, (w', bounded')) := serve_connection (ac_peercred a) busy (w, bounded) in
  (r, w', _connection bounded').

(** The [while True] loop over the connections that come in. *)
Fixpoint serve_forever (connection_timeout : Z) (connections : list Accepted) : eff World unit :=
  match connections with
  | [] => eff_ret tt
  | a :: connections' =>
      do! _ := eff_catch (fun e => is_control_error e || is_os_error e)
                 (fun w => fst (_serve_accepted_connection connection_timeout a w)) (fun _ => eff_ret tt) in
      serve_forever connection_timeout connections'
  end.
End Authority.

(** ** The listening socket *)

(** What [lstat] says of a path: its type, owner, group and permission bits. *)
Inductive node_kind := NodeDir | NodeSocket | NodeOther.

#[export] Instance node_kind_eq_dec : EqDecision node_kind.
Proof. solve_decision. Defined.

Record NodeStat := { nd_kind : node_kind; nd_uid : Z; nd_gid : Z; nd_mode : Z }.

(** [0o2710] and [0o660]. *)
Definition mode_socket_dir : Z := 1480.
Definition mode_socket : Z := 432.

(** [None]: [lstat] raised an [OSError]. *)
Definition _assert_socket_directory (self : ApprovalAuthority) (parent : option NodeStat) : res unit :=
  match parent with
  | None => raise ApprovalControlError "approval control directory is unavailable"
  | Some st =>
      raise_if negb (nd_kind st == NodeDir) as ApprovalControlError msg "approval control parent is not a directory" ;;
      raise_if negb (nd_uid st =? aa_authority_uid self)
        as ApprovalControlError msg "approval control directory is not authority-owned" ;;
      raise_if negb (nd_gid st =? aa_worker_gid self)
        as ApprovalControlError msg "approval control directory group is not the configured worker group" ;;
      raise_if negb (nd_mode st =? mode_socket_dir)
        as ApprovalControlError msg "approval control directory must have mode 2710" ;;
      Ok tt
  end.

(** The checks of the socket after [bind] and [chmod]. *)
Definition check_bound (self : ApprovalAuthority) (st : NodeStat) : res unit :=
  raise_if negb (nd_kind st == NodeSocket)
    as ApprovalControlError msg "approval control path is not a Unix socket after bind" ;;
  raise_if negb (nd_uid st =? aa_authority_uid self)
    as ApprovalControlError msg "approval control socket is not authority-owned" ;;
  raise_if negb (nd_gid st =? aa_worker_gid self)
    as ApprovalControlError msg "approval control socket group is not the configured worker group" ;;
  raise_if negb (nd_mode st =? mode_socket) as ApprovalControlError msg "approval control socket must have mode 0660" ;;
  Ok tt.

(** The [finally] block: the path is removed when it is a socket of the authority. *)
Definition remove_socket (self : ApprovalAuthority) (path : option NodeStat) : option NodeStat :=
  match path with
  | Some st => if (nd_kind st == NodeSocket) && (nd_uid st =? aa_authority_uid self) then None else path
  | None => None
  end.

(** [listener()] around [body], on what is at the socket path.  [appears] is what
    another process puts there between the check and [bind]; [bound] is the node
    [bind] makes, and [bind] refuses an existing path. *)
Definition listener (m : Machine) (self : ApprovalAuthority) (parent : option NodeStat) (appears : option NodeStat)
    (bound : NodeStat) {A} (body : eff (option NodeStat) A) : eff (option NodeStat) A := fun path =>
  match (assert_ready m self ;;? _assert_socket_directory self parent) with
  | Raise e => (Raise e, path)
  | Ok _ =>
      match path with
      | Some _ => (raise ApprovalControlError "approval control socket path already exists", path)
      | None =>
          let (r, path) :=
            match appears with
            | Some _ => (raise OSError "Address already in use", appears)
            | None =>
                let st := {| nd_kind := nd_kind bound; nd_uid := nd_uid bound; nd_gid := nd_gid bound;
                             nd_mode := mode_socket |} in
                (do! _ := eff_lift (check_bound self st) in body) (Some st)
            end in
          (r, remove_socket self path)
      end
  end.

(** ** The client *)

(** What a worker can do with the authority's socket: connect, which gives the peer's
    credentials and the connected socket; and, having shut down its writing side, wait for what
    the peer answers to the bytes it sent. *)
Class Network (W : Type) := {
  dial : eff W (res (Z * Z * Z) * Socket);
  answer : string -> W -> list Arrival * W;
}.

Record ApprovalControlClient := {
  cl_expected_authority_uid : Z; cl_worker_uid : option Z; cl_worker_gid : option Z; cl_timeout : Z
}.

(** A receipt as an object: receipts of equal content are not the same object. *)
Record ReceiptObject := { ro_id : Z; ro_receipt : ApprovalConsumptionReceipt }.

(** [_issued_receipts]. *)
Definition Issued : Type := gmap Z ReceiptObject.

Definition validate_receipt_provenance (issued : Issued) (receipt : ReceiptObject) : res ReceiptObject :=
  let same := match issued !! ro_id receipt with Some r => ro_id r =? ro_id receipt | None => false end in
  raise_if negb same as ApprovalControlError msg "approval receipt was not issued by this control client" ;;
  Ok receipt.

Definition release_receipt_provenance (receipt : ReceiptObject) : eff Issued unit := fun issued =>
  match validate_receipt_provenance issued receipt with
  | Raise e => (Raise e, issued)
  | Ok _ => (Ok tt, delete (ro_id receipt) issued)
  end.

(** The worker process as the client sees it: its ids, and what [lstat] says of the
    socket and of its directory. *)
Record WorkerMachine := {
  wm_linux : bool; wm_euid : Z; wm_egid : Z; wm_socket : option NodeStat; wm_parent : option NodeStat;
  wm_has_peercred : bool
}.

Definition client_assert_ready (m : WorkerMachine) (self : ApprovalControlClient) : res unit :=
  raise_if negb (wm_linux m) as ApprovalControlError msg "production approval control is supported only on Linux" ;;
  let current_uid := default (wm_euid m) (cl_worker_uid self) in
  let current_gid := default (wm_egid m) (cl_worker_gid self) in
  raise_if negb (current_uid =? wm_euid m) || negb (current_gid =? wm_egid m)
    as ApprovalControlError msg "configured worker UID/GID do not match the running process" ;;
  raise_if current_uid =? 0 as ApprovalControlError msg "approval worker must not run as root" ;;
  raise_if current_uid =? cl_expected_authority_uid self
    as ApprovalControlError msg "approval authority and worker require distinct OS UIDs" ;;
  match wm_socket m, wm_parent m with
  | Some sock, Some parent =>
      raise_if negb (nd_kind sock == NodeSocket)
        as ApprovalControlError msg "approval authority path is not a Unix socket" ;;
      raise_if negb (nd_uid sock =? cl_expected_authority_uid self)
        as ApprovalControlError msg "approval authority socket owner does not match configured UID" ;;
      raise_if negb (nd_gid sock =? current_gid)
        as ApprovalControlError msg "approval authority socket group does not match the worker GID" ;;
      raise_if negb (nd_mode sock =? mode_socket)
        as ApprovalControlError msg "approval authority socket must have mode 0660" ;;
      raise_if negb (nd_kind parent == NodeDir) || negb (nd_uid parent =? cl_expected_authority_uid self)
        as ApprovalControlError msg "approval authority socket directory is not authority-owned" ;;
      raise_if negb (nd_gid parent =? current_gid)
        as ApprovalControlError msg "approval authority socket directory group does not match the worker GID" ;;
      raise_if negb (nd_mode parent =? mode_socket_dir)
        as ApprovalControlError msg "approval authority socket directory must have mode 2710" ;;
      Ok tt
  | _, _ => raise ApprovalControlError "approval authority socket is unavailable"
  end.

Section Client.
Context `{Host} {W : Type} `{Network W}.
Variable machine : WorkerMachine.
Variable self : ApprovalControlClient.

(** The request goes out, the writing side is shut down, the answer is read.  When the
    write fails, what got out still reaches the peer. *)
Definition _exchange (request : json) : eff W json :=
  eff_catch is_os_error
    (do! (sockopt, connection) := dial in
     do! (_, peer_uid, _) := eff_lift (_peer_credentials (wm_has_peercred machine) sockopt) in
     do_if negb (peer_uid =? cl_expected_authority_uid self)
       as ApprovalControlError msg "connected approval authority UID does not match configured UID" ;;
     fun w =>
       let (written, connection) := _write_json_line request (set_timeout (cl_timeout self) connection) in
       let (inbound, w) := answer (sk_sent connection) w in
       match written with
       | Raise e => (Raise e, w)
       | Ok _ => (fst (_read_json_line (set_inbound inbound connection)), w)
       end)
    (fun _ => eff_raise ApprovalControlTransportError "approval control transport failed before a complete response").

Definition is_transport_error (e : exc) : bool := exc_cls e == ApprovalControlTransportError.

(** The loop over the attempts; [n] are left. *)
Fixpoint attempts (n : nat) (request : json) : eff W json :=
  match n with
  | O => eff_raise ApprovalControlError "approval control did not return a response"
  | S n' =>
      eff_catch is_transport_error (_exchange request)
        (fun _ =>
           match n' with
           | O => eff_raise ApprovalControlError "approval control transport failed after an idempotent retry"
           | S _ => attempts n' request
           end)
  end.

Definition response_keys : list string :=
  ["schema_version"; "request_id"; "ok"; "authorization_id"; "authorization_digest"; "action_plan_id"; "plan_digest";
   "engagement_id"; "worker_identity"; "target"].

(** One of the [exact_bindings] of a response. *)
Definition check_binding (items : list (string * json)) (name : string) (expected : json) : res string :=
  match assoc_default name items JNull with
  | JStr value =>
      raise_if value == "" as ApprovalControlError msg "approval authority returned an invalid binding" ;;
      raise_if negb (str_is expected value)
        as ApprovalControlError msg "approval authority returned a mismatched binding" ;;
      Ok value
  | _ => raise ApprovalControlError "approval authority returned an invalid binding"
  end.

Definition check_response (items : list (string * json)) (request_id authorization_id : string)
    (action_plan : ActionPlan) (worker_identity : string) : res ApprovalConsumptionReceipt :=
  raise_if negb (str_is (assoc_default "schema_version" items JNull) RESPONSE_SCHEMA) ||
           negb (str_is (assoc_default "request_id" items JNull) request_id)
    as ApprovalControlError msg "approval authority response identity mismatch" ;;
  raise_if negb (match assoc_default "ok" items JNull with JBool b => b | _ => false end)
    as ApprovalControlError msg "approval authority rejected the request" ;;
  raise_if negb (keys_are response_keys items)
    as ApprovalControlError msg "approval authority response has unexpected or missing fields" ;;
  raise_if negb (str_is (assoc_default "authorization_id" items JNull) authorization_id)
    as ApprovalControlError msg "approval authority returned a different authorization" ;;
  match assoc_default "authorization_digest" items JNull with
  | JStr authorization_digest =>
      raise_if negb (slen authorization_digest =? 64)
        as ApprovalControlError msg "approval authority returned an invalid authorization digest" ;;
      let? action_plan_id := check_binding items "action_plan_id" (plan_plan_id action_plan) in
      let? plan_digest := check_binding items "plan_digest" (plan_plan_digest action_plan) in
      let? engagement_id := check_binding items "engagement_id" (plan_engagement_id action_plan) in
      let? worker := check_binding items "worker_identity" (JStr worker_identity) in
      let? target := check_binding items "target" (plan_target action_plan) in
      Ok {| rc_authorization_id := authorization_id; rc_authorization_digest := authorization_digest;
            rc_action_plan_id := action_plan_id; rc_plan_digest := plan_digest; rc_engagement_id := engagement_id;
            rc_worker_identity := worker; rc_target := target |}
  | _ => raise ApprovalControlError "approval authority returned an invalid authorization digest"
  end.

Definition consume_request_document (request_id authorization_id : string) (action_plan : ActionPlan)
    (worker_identity : string) : json :=
  JObj [("schema_version", JStr REQUEST_SCHEMA); ("request_id", JStr request_id); ("operation", JStr "consume");
        ("authorization_id", JStr authorization_id); ("worker_identity", JStr worker_identity);
        ("action_plan", to_dict action_plan)].

(** [request_id] is the [str(uuid.uuid4())] of the call and [object_id] the [id] of the
    receipt it makes, which is not the [id] of a live object. *)
Definition consume_authorization (request_id : string) (object_id : Z) (authorization_id : string)
    (action_plan : ActionPlan) (worker_identity : string) : eff (Issued * W) ReceiptObject := fun '(issued, w) =>
  let (r, w) :=
    (do! _ := eff_lift (client_assert_ready machine self) in
     do! response := attempts 2 (consume_request_document request_id authorization_id action_plan worker_identity) in
     eff_lift (match response with
               | JObj items => check_response items request_id authorization_id action_plan worker_identity
               | _ => raise AttributeError "get"
               end)) w in
  match r with
  | Raise e => (Raise e, (issued, w))
  | Ok receipt =>
      let object := {| ro_id := object_id; ro_receipt := receipt |} in
      (Ok object, (<[object_id := object]> issued, w))
  end.
End Client.
