(* ===== verification/ControlProps.v ===== *)
(** * What the control channel guarantees

    [src/cops/execution/control.py]: the authority answers a worker only from its
    record of consumptions, which a verified authorization alone extends; repeating a
    request repeats the answer; no peer can stop the server or hold it; and a receipt
    in a worker's hands is a consumption in the authority's store, whatever the
    connection did. *)

From S2P Require Import Prelude PyStr Json JsonParse JsonFacts Canonical Documents Schema Contracts.
From S2P Require Import Models ModelsFacts.
From S2P Require Import ContractProps Authorization AuthorizationProps ApprovalStore ApprovalStoreProps.
From S2P Require Import Transport TransportProps Control.

Lemma eff_lift_raise {S A} (r : res A) (s s' : S) e : eff_lift r s = (Raise e, s') <-> r = Raise e /\ s' = s.
Proof. unfold eff_lift. split; [intros [= -> ->] | intros [-> ->]]; done. Qed.

Lemma eff_bind_raise {S A B} (m : eff S A) (f : A -> eff S B) s e s' :
  eff_bind m f s = (Raise e, s') <->
  m s = (Raise e, s') \/ exists a s1, m s = (Ok a, s1) /\ f a s1 = (Raise e, s').
Proof.
  unfold eff_bind. destruct (m s) as [[a|e1] s1]; split.
  - intros ?. right. by exists a, s1.
  - by intros [?|(? & ? & [= <- <-] & ?)].
  - intros [= -> ->]. by left.
  - by intros [[= -> ->]|(? & ? & ? & ?)].
Qed.

(** ** What histories keep *)

(** The columns that say what an authorization is for. *)
Definition row_binding (row : Approval) : string * string * string :=
  (ap_action_plan_id row, ap_plan_digest row, ap_engagement_id row).

Lemma step_binding_kept id s s' row :
  store_step s s' -> select_approval id s = Some row ->
  exists row', select_approval id s' = Some row' /\ row_binding row' = row_binding row.
Proof.
  intros Hstep Hrow. destruct Hstep as [s r Hr|s id' row' H1 H2|s id' row' now worker H1 H2|s row' record' H1 H2 H3 H4|s columns].
  - exists row. split; [|done]. unfold select_approval in *. simpl. by rewrite find_append, Hrow.
  - rewrite select_expire, Hrow. eexists. split; [done|]. by destruct (_ == _).
  - rewrite select_consume, Hrow. eexists. split; [done|]. by destruct (_ && _).
  - change (select_approval id _) with (select_approval id
      (fst (consume_row (cr_authorization_id record') (cr_created_at record') (cr_worker_identity record') s))).
    rewrite select_consume, Hrow. eexists. split; [done|]. by destruct (_ && _).
  - unfold _init_db, select_approval in *. simpl. set (legacy := negb _ || negb _).
    assert (Hmap : forall f l, (forall r, ap_authorization_id (f r) = ap_authorization_id r) ->
      List.find (fun r => ap_authorization_id r == id) (map f l) =
      f <$> List.find (fun r => ap_authorization_id r == id) l).
    { intros f l Hf. exact (find_map_update ap_authorization_id (fun _ => true) f id l Hf). }
    destruct legacy; rewrite !Hmap, Hrow by done; by eexists.
Qed.

Section Control.
Context `{Host} (read_schema : string -> option json) (report_semantics : string -> json -> res unit).
Variable machine : Machine.

Notation run_calls := (run read_schema report_semantics (m_platform machine)).

(** What the calls of the other processes may be. *)
Variable others : call -> Prop.

(** [s'] is what [s] becomes through calls of the other processes. *)
Definition later (s s' : ApprovalStore) : Prop := exists calls, Forall others calls /\ fst (run_calls s calls) = s'.

(** The other processes keep to [others] in all that is still to come. *)
Definition shared (w : World) : Prop := Forall (Forall others) (w_others w).

#[export] Instance later_preorder : PreOrder later.
Proof.
  split.
  - intros s. exists []. split; [constructor|done].
  - intros s1 s2 s3 (c1 & H1 & <-) (c2 & H2 & <-). exists (c1 ++ c2). split; [by apply Forall_app|].
    clear H1 H2. revert s1. induction c1 as [|c c1 IH]; intros s1; [done|]. simpl.
    destruct (exec _ _ _ s1 c) as [s e]. specialize (IH s). destruct (run _ _ _ s (c1 ++ c2)), (run _ _ _ s c1). done.
Qed.

Lemma later_ind (P : ApprovalStore -> Prop) s s' :
  (forall s1 s2, store_step s1 s2 -> P s1 -> P s2) -> later s s' -> P s -> P s'.
Proof.
  intros Hstep (calls & _ & <-). revert s. induction calls as [|c calls IH]; intros s Hs; [done|]. simpl.
  destruct (exec _ _ _ s c) as [s1 e] eqn:Hc. specialize (IH s1). destruct (run _ _ _ s1 calls) as [s2 es].
  apply IH. apply exec_refines in Hc as [[->|Hc] _]; [done|]. by eapply Hstep.
Qed.

Lemma later_record s s' record :
  later s s' -> select_consumption (cr_request_id record) s = Some record ->
  select_consumption (cr_request_id record) s' = Some record.
Proof. apply (later_ind (fun s => select_consumption (cr_request_id record) s = Some record)). intros. by eapply step_record_kept. Qed.

Lemma later_binding s s' id row :
  later s s' -> select_approval id s = Some row ->
  exists row', select_approval id s' = Some row' /\ row_binding row' = row_binding row.
Proof.
  intros Hl Hrow. apply (later_ind (fun s => exists row', select_approval id s = Some row' /\ row_binding row' = row_binding row) s);
    [|done|by exists row].
  intros s1 s2 Hstep (r1 & H1 & Hb). destruct (step_binding_kept _ _ _ _ Hstep H1) as (r2 & H2 & ?).
  exists r2. split; [done|]. congruence.
Qed.

Lemma later_ok s s' : later s s' -> store_ok s -> store_ok s'.
Proof. intros Hl. apply later_ind; [|done]. intros. by eapply step_store_ok. Qed.

(** ** Stored rows as objects *)

Lemma read_row_fields row a :
  read_row read_schema report_semantics row = Ok (inl a) ->
  auth_authorization_id a = JStr (ap_authorization_id row) /\ auth_action_plan_id a = JStr (ap_action_plan_id row) /\
  auth_plan_digest a = JStr (ap_plan_digest row) /\ auth_engagement_id a = JStr (ap_engagement_id row).
Proof.
  unfold read_row. intros Hv. apply res_bind_ok in Hv as (bound & _ & Hv). destruct (_ == _); [done|].
  apply res_bind_ok in Hv as (b & Hv & [= ->]). unfold from_dict in Hv. apply res_bind_ok in Hv as (_ & _ & Hv).
  change (ExecutionAuthorization_of_dict (JObj (row_items row bound ++ consumption_items row)) = Ok a) in Hv.
  unfold ExecutionAuthorization_of_dict in Hv. unfold row_items in Hv.
  generalize dependent (consumption_items row). intros extra Hv.
  repeat (let v := fresh "v" in let Hv1 := fresh "Hv" in
          apply res_bind_ok in Hv as (v & Hv1 & Hv); first [vm_compute in Hv1; injection Hv1 as <- | clear Hv1]).
  by injection Hv as <-.
Qed.

(** ** The authority *)

Variable self : ApprovalAuthority.

Notation verify_for plan auth :=
  (verify_execution_authorization read_schema report_semantics (m_verify_time machine) (AuthObject auth)
    (PlanObject plan) (Some (aa_trust_store self)) (aa_engagement self) (aa_worker_identity self) JNull).
Notation check := (check_request read_schema report_semantics machine self).
Notation consume := (consume_document read_schema report_semantics machine self).

Lemma access_ok {A} (f : ApprovalStore -> ApprovalStore * res A) w r w' :
  access read_schema report_semantics machine f w = (r, w') -> shared w ->
  exists s, later (w_store w) s /\ f s = (w_store w', r) /\ shared w'.
Proof.
  unfold access, shared. intros Hf Hw. set (os := match w_others w with [] => _ | _ => _ end) in Hf.
  assert (Hos : Forall others (fst os) /\ Forall (Forall others) (snd os)).
  { subst os. destruct (w_others w); [by split; constructor|]. by apply Forall_cons in Hw. }
  destruct os as [calls rest]. destruct (f (fst (run_calls (w_store w) calls))) as [s' r'] eqn:Ef. injection Hf as <- <-.
  destruct Hos as [Hcs Hrest]. eexists. split; [exists calls; by split|]. by split.
Qed.

(** The record under [rid] in [s] is one of the request [b]. *)
Definition answered (s : ApprovalStore) (rid : string) (b : ConsumptionRequest) (record : ApprovalConsumptionRecord) : Prop :=
  cr_request_id record = rid /\ select_consumption rid s = Some record /\ _assert_matching_consumption record b = Ok tt.

Lemma find_prior_ok rid b w r w' :
  find_prior read_schema report_semantics machine rid b w = (Ok r, w') -> shared w ->
  shared w' /\ later (w_store w) (w_store w') /\
  match r with Some record => answered (w_store w') rid b record | None => select_consumption rid (w_store w') = None end.
Proof.
  intros Hf Hw. apply access_ok in Hf as (s & Hl & [= <- Hm] & Hw'); [|done]. split; [done|]. split; [done|].
  unfold get_matching_consumption in Hm.
  destruct (select_consumption rid s) as [record|] eqn:E; [|by injection Hm as <-].
  apply res_bind_ok in Hm as ([] & Hm & [= <-]). split; [by apply find_key in E as [-> _]|done].
Qed.

Lemma verify_object plan auth v : verify_for plan auth = Ok v -> v = auth.
Proof.
  unfold verify_execution_authorization. intros Hv. apply res_bind_ok in Hv as (a & Ha & Hv).
  apply res_bind_ok in Ha as (? & _ & [= <-]).
  repeat (apply res_bind_ok in Hv as (? & _ & Hv) || guard_ok Hv). by injection Hv.
Qed.

Lemma verify_stored_ok aid plan w v w' :
  verify_stored read_schema report_semantics machine self aid plan w = (Ok v, w') -> shared w ->
  shared w' /\ later (w_store w) (w_store w') /\ get_authorization read_schema report_semantics (w_store w') aid = Ok (inl v) /\
  verify_for plan v = Ok v.
Proof.
  unfold verify_stored. intros (stored & w1 & Hf & [Hv ->]%eff_lift_ok)%eff_bind_ok Hw.
  apply access_ok in Hf as (s & Hl & [= Es Hg] & Hw'); [|done]. subst s.
  destruct stored as [auth|record]; cbn [stored_arg] in Hv.
  - pose proof (verify_object _ _ _ Hv) as ->. done.
  - unfold verify_execution_authorization in Hv. discriminate Hv.
Qed.

Lemma py_eq_text a v : py_eq (JStr a) v = true -> v = JStr a.
Proof. destruct v; try done. simpl. by intros ->%eqb_true. Qed.

(** What a request that passes every check names. *)
Lemma verified_bindings aid plan auth row s :
  get_authorization read_schema report_semantics s aid = Ok (inl auth) -> verify_for plan auth = Ok auth ->
  select_approval aid s = Some row ->
  auth_authorization_id auth = JStr aid /\ plan_plan_id plan = JStr (ap_action_plan_id row) /\
  plan_plan_digest plan = JStr (ap_plan_digest row) /\ plan_engagement_id plan = JStr (ap_engagement_id row).
Proof.
  intros Hg Hv Hrow. unfold get_authorization in Hg. rewrite Hrow in Hg. apply read_row_fields in Hg as (F0 & F1 & F2 & F3).
  apply verify_ok in Hv as (p & _ & _ & _ & [= <-] & _ & _ & _ & _ & _ & _ & _ & E1 & E2 & E3 & _).
  rewrite F1 in E1. rewrite F2 in E2. rewrite F3 in E3. apply py_eq_text in E1, E2, E3.
  apply find_key in Hrow as [<- _]. done.
Qed.

Lemma matching_iff record b :
  _assert_matching_consumption record b = Ok tt <->
  cr_request_digest record = rq_request_digest b /\ rq_authorization_id b = JStr (cr_authorization_id record) /\
  rq_action_plan_id b = JStr (cr_action_plan_id record) /\ rq_plan_digest b = JStr (cr_plan_digest record) /\
  rq_engagement_id b = JStr (cr_engagement_id record) /\ cr_worker_identity record = rq_worker_identity b /\
  rq_target b = JStr (cr_target record).
Proof.
  unfold _assert_matching_consumption. split.
  - intros Hm. guard_ok Hm. simpl_bool.
    repeat match goal with E : str_is _ _ = true |- _ => apply str_is_eq in E end. done.
  - intros (E1 & E2 & E3 & E4 & E5 & E6 & E7). by rewrite E1, E2, E3, E4, E5, E6, E7, !eqb_refl, !str_is_refl.
Qed.

Lemma get_authorization_row s aid r :
  get_authorization read_schema report_semantics s aid = Ok r -> exists row, select_approval aid s = Some row.
Proof. unfold get_authorization. destruct (select_approval aid s) as [row|]; [by exists row|done]. Qed.

(** What the store looks like after this call consumed the authorization. *)
Definition consumed_for (s s' : ApprovalStore) (aid : string) (record : ApprovalConsumptionRecord) : Prop :=
  exists row, select_approval aid s = Some row /\ ap_status row = "approved" /\
    s' = {| approvals := approvals (fst (consume_row aid (m_consume_time machine) (aa_worker_identity self) s));
            approval_consumptions := approval_consumptions s ++ [record] |}.

Lemma consume_verified s0 s1 s' rid aid dg plan auth record :
  get_authorization read_schema report_semantics s0 aid = Ok (inl auth) -> verify_for plan auth = Ok auth ->
  later s0 s1 ->
  atomically_consume_request read_schema report_semantics (m_platform machine) (m_files machine) (m_consume_time machine)
    s1 rid dg (plan_target plan) auth (aa_worker_identity self) (aa_authority_uid self) None = (s', Ok record) ->
  answered s' rid (receipt_bindings self dg aid plan) record /\
  (s' = s1 \/ select_consumption rid s1 = None /\ consumed_for s1 s' aid record).
Proof.
  intros Hg Hv Hl Hc. destruct (get_authorization_row _ _ _ Hg) as (row0 & Hrow0).
  destruct (verified_bindings _ _ _ _ _ Hg Hv Hrow0) as (Haid & P1 & P2 & P3).
  destruct (later_binding _ _ _ _ Hl Hrow0) as (row1 & Hrow1 & [= B1 B2 B3]).
  apply consume_request_cases in Hc as [[_ Hr]|[(prior & Hp & -> & [= ->] & Hm)|
    (id & row & now & items & until & Hnone & Hid & Hrow & Hst & _ & _ & _ & _ &
     [(_ & _ & Hr)|(_ & rec & [= ->] & E1 & E2 & E3 & E4 & E5 & _ & E6 & E7 & E8 & _ & ->)])]]; try done.
  - split; [|by left]. split; [by apply find_key in Hp as [-> _]|]. split; [done|].
    apply matching_iff in Hm as (M1 & M2 & M3 & M4 & M5 & M6 & M7). apply matching_iff.
    cbn [receipt_bindings rq_request_digest rq_authorization_id rq_action_plan_id rq_plan_digest rq_engagement_id
      rq_worker_identity rq_target] in M1, M2, M3, M4, M5, M6, M7 |- *.
    pose proof (verify_ok _ _ _ _ _ _ _ _ _ _ Hv) as (p & _ & _ & _ & [= <-] & _ & _ & _ & _ & _ & _ & _ & Q1 & Q2 & Q3 & _).
    rewrite M3 in Q1. rewrite M4 in Q2. rewrite M5 in Q3. apply py_eq_text in Q1, Q2, Q3.
    rewrite Haid in M2. done.
  - rewrite Haid in Hid. injection Hid as <-. rewrite Hrow in Hrow1. injection Hrow1 as ->.
    split; [|right; split; [done|by exists row1]]. split; [done|]. split.
    + unfold select_consumption in *. cbn [approval_consumptions]. rewrite find_append, Hnone. cbn [List.find].
      by rewrite E1, eqb_refl.
    + apply matching_iff.
      cbn [receipt_bindings rq_request_digest rq_authorization_id rq_action_plan_id rq_plan_digest rq_engagement_id
      rq_worker_identity rq_target].
      rewrite E2, E3, E4, E6, E7, E8, B1, B2, B3, P1, P2, P3. done.
Qed.

Lemma verify_raise {A} aid plan w e w' (f : ExecutionAuthorization -> A) :
  (do! v := verify_stored read_schema report_semantics machine self aid plan in eff_ret (f v)) w = (Raise e, w') ->
  shared w -> shared w' /\ later (w_store w) (w_store w').
Proof.
  unfold verify_stored, eff_bind, eff_lift. intros Hver Hw.
  destruct (access _ _ _ _ w) as [r1 w1'] eqn:Ea. apply access_ok in Ea as (s & Hl & [= Es Hr] & Hw1); [|done]. subst s.
  destruct r1 as [stored|]; [|by injection Hver as _ <-].
  destruct (verify_execution_authorization _ _ _ _ _ _ _ _ _); [done|]. by injection Hver as _ <-.
Qed.

(** The request as the authority understood it. *)
Lemma consume_document_ok items pid uid gid w response w' :
  consume items pid uid gid w = (Ok response, w') -> shared w ->
  shared w' /\ exists rid aid plan dg record,
    check items pid uid gid = Ok (rid, aid, plan) /\ digest (JObj items) = Ok dg /\
    response = _consumption_response rid record /\
    answered (w_store w') rid (receipt_bindings self dg aid plan) record /\
    (later (w_store w) (w_store w') \/
     exists s0 s1 auth, later (w_store w) s0 /\ get_authorization read_schema report_semantics s0 aid = Ok (inl auth) /\
       verify_for plan auth = Ok auth /\ later s0 s1 /\ select_consumption rid s1 = None /\
       consumed_for s1 (w_store w') aid record).
Proof.
  unfold consume_document. intros ([[rid aid] plan] & w0 & [Hck ->]%eff_lift_ok & Hv)%eff_bind_ok Hw.
  apply eff_bind_ok in Hv as (dg & w0 & [Hdg ->]%eff_lift_ok & Hv).
  apply eff_bind_ok in Hv as (prior & w1 & Hf1 & Hv). apply find_prior_ok in Hf1 as (Hw1 & Hl1 & Hp1); [|done].
  destruct prior as [record|].
  { injection Hv as <- <-. split; [done|]. exists rid, aid, plan, dg, record. split_and!; try done. by left. }
  apply eff_bind_ok in Hv as (outcome & w2 & Ho & Hv). unfold eff_catch in Ho.
  destruct (eff_bind _ _ w1) as [[o|e] w3] eqn:Hver.
  - injection Ho as <- <-. apply eff_bind_ok in Hver as (auth & w2' & Hf2 & [= <- <-]).
    apply verify_stored_ok in Hf2 as (Hw2 & Hl2 & Hg & Hvf); [|done].
    apply eff_bind_ok in Hv as (record & w4 & Hf3 & [= <- <-]). apply access_ok in Hf3 as (s1 & Hl3 & Hc & Hw4); [|done].
    destruct (consume_verified _ _ _ _ _ _ _ _ _ Hg Hvf Hl3 Hc) as [Ha Hs].
    split; [done|]. exists rid, aid, plan, dg, record. split_and!; try done. destruct Hs as [Hs|[Hnone Hs]].
    + left. rewrite Hs. by etransitivity; [exact Hl1|etransitivity].
    + right. exists (w_store w2'), s1, auth. split; [by etransitivity|]. done.
  - apply eff_bind_ok in Ho as (prior & w4 & Hf4 & Ho). apply verify_raise in Hver as [Hw3 Hl3]; [|done].
    apply find_prior_ok in Hf4 as (Hw4 & Hl4 & Hp4); [|done].
    destruct prior as [record|]; [|done]. injection Ho as <- <-. injection Hv as <- <-.
    split; [done|]. exists rid, aid, plan, dg, record. split_and!; try done. left.
    etransitivity; [exact Hl1|]. by etransitivity; [exact Hl3|].
Qed.

(** A request that fails leaves at most an expired row behind, and no record. *)
Lemma consume_document_raise items pid uid gid w e w' :
  consume items pid uid gid w = (Raise e, w') -> shared w ->
  shared w' /\
  (later (w_store w) (w_store w') \/
   exists rid aid plan s1 id, check items pid uid gid = Ok (rid, aid, plan) /\ later (w_store w) s1 /\
     select_consumption rid s1 = None /\ w_store w' = fst (expire_row id s1)).
Proof.
  unfold consume_document.
  intros [[_ ->]%eff_lift_raise|([[rid aid] plan] & w0 & [Hck ->]%eff_lift_ok & Hv)]%eff_bind_raise Hw; [by split; [|left]|].
  apply eff_bind_raise in Hv as [[_ ->]%eff_lift_raise|(dg & w0 & [Hdg ->]%eff_lift_ok & Hv)]; [by split; [|left]|].
  apply eff_bind_raise in Hv as [Hf1|(prior & w1 & Hf1 & Hv)].
  { unfold find_prior in Hf1. apply access_ok in Hf1 as (s & Hl & [= Es _] & Hw'); [|done]. subst s. by split; [|left]. }
  apply find_prior_ok in Hf1 as (Hw1 & Hl1 & Hp1); [|done]. destruct prior as [record|]; [done|].
  apply eff_bind_raise in Hv as [Ho|(outcome & w2 & Ho & Hv)]; unfold eff_catch in Ho;
    destruct (eff_bind _ _ w1) as [[o|e1] w3] eqn:Hver; try done.
  - apply verify_raise in Hver as [Hw3 Hl3]; [|done].
    apply eff_bind_raise in Ho as [Hf4|(prior & w4 & Hf4 & Ho)].
    + unfold find_prior in Hf4. apply access_ok in Hf4 as (s & Hl & [= Es _] & Hw'); [|done]. subst s.
      split; [done|left]. etransitivity; [exact Hl1|]. by etransitivity; [exact Hl3|].
    + apply find_prior_ok in Hf4 as (Hw4 & Hl4 & _); [|done]. destruct prior; [done|]. injection Ho as _ <-.
      split; [done|left]. etransitivity; [exact Hl1|]. by etransitivity; [exact Hl3|].
  - injection Ho as <- <-. apply eff_bind_ok in Hver as (auth & w2' & Hf2 & [= <- <-]).
    apply verify_stored_ok in Hf2 as (Hw2 & Hl2 & _ & _); [|done].
    apply eff_bind_raise in Hv as [Hf3|(record & w4 & _ & Hv)]; [|done].
    apply access_ok in Hf3 as (s1 & Hl3 & Hc & Hw4); [|done]. split; [done|].
    assert (Hl : later (w_store w) s1) by (etransitivity; [exact Hl1|by etransitivity]).
    apply consume_request_cases in Hc as [[-> _]|[(prior & _ & _ & Hr & _)|
      (id & row & now & items' & until & Hnone & _ & _ & _ & _ & _ & _ & _ & [(_ & -> & _)|(_ & rec & Hr & _)])]];
      try done; [by left|]. right. by exists rid, aid, plan, s1, id.
  - apply eff_bind_ok in Ho as (prior & w4 & Hf4 & Ho). destruct prior; [|done]. by injection Ho as <- <-.
Qed.

Lemma check_request_ok items pid uid gid rid aid plan :
  check items pid uid gid = Ok (rid, aid, plan) ->
  (pid = aa_worker_pid self /\ uid = aa_worker_uid self /\ gid = aa_worker_gid self) /\
  (aa_worker_uid self <> aa_authority_uid self /\ euid (m_platform machine) = aa_authority_uid self) /\
  assoc "request_id" items = Some (JStr rid) /\ assoc "authorization_id" items = Some (JStr aid) /\
  assoc "worker_identity" items = Some (JStr (aa_worker_identity self)) /\
  exists d, assoc "action_plan" items = Some d /\ from_dict read_schema report_semantics d = Ok plan.
Proof.
  unfold check_request. intros Hv. apply res_bind_ok in Hv as ([] & Hready & Hv). guard_ok Hv.
  apply res_bind_ok in Hv as (sv & _ & Hv). apply res_bind_ok in Hv as (op & _ & Hv). guard_ok Hv.
  apply res_bind_ok in Hv as (id & Hid%getitem_ok & Hv). apply res_bind_ok in Hv as (rid' & Hrid & Hv).
  rewrite catch_ok in Hrid by done. guard_ok Hv. guard_ok Hv. guard_ok Hv.
  apply res_bind_ok in Hv as (worker & Hw%getitem_ok & Hv). guard_ok Hv.
  apply res_bind_ok in Hv as (auth & Ha%getitem_ok & Hv). destruct auth as [| | | |aid'| |]; try done. guard_ok Hv.
  apply res_bind_ok in Hv as (d & Hd%getitem_ok & Hv). apply res_bind_ok in Hv as (plan' & Hp & Hv).
  rewrite catch_ok in Hp by done. injection Hv as <- <- <-. simpl_bool.
  assert (id = JStr rid') as ->.
  { unfold parse_uuid in Hrid. destruct id; try done. guard_ok Hrid. guard_ok Hrid. by injection Hrid as <-. }
  match goal with E : str_is worker _ = true |- _ => apply str_is_eq in E as -> end.
  unfold assert_ready in Hready. guard_ok Hready. guard_ok Hready. guard_ok Hready. simpl_bool.
  repeat match goal with E : (_ =? _) = true |- _ => apply Z.eqb_eq in E | E : (_ =? _) = false |- _ => apply Z.eqb_neq in E end.
  split_and!; try done. by exists d.
Qed.

(** C9. Only what was verified is consumed.  When the authority answers a request, the
    request came from the pinned worker process, which is not the authority's account;
    it names the authority's worker; the answer is the record of a consumption of the
    named authorization for the exact plan, digest, engagement, target and request, which
    is in the store; and either other calls alone put that record there, or this call
    found the authorization approved in the store, verified it for the plan and worker
    against its keys and engagement, and turned exactly that row to consumed.  [others] is
    what is known of the calls of the other processes. *)
Theorem authority_consumes_verified items pid uid gid w response w' :
  consume items pid uid gid w = (Ok response, w') -> shared w ->
  (pid = aa_worker_pid self /\ uid = aa_worker_uid self /\ gid = aa_worker_gid self) /\
  (uid <> aa_authority_uid self /\ euid (m_platform machine) = aa_authority_uid self) /\
  assoc "worker_identity" items = Some (JStr (aa_worker_identity self)) /\
  exists d plan record,
    (assoc "action_plan" items = Some d /\ from_dict read_schema report_semantics d = Ok plan) /\
    response = _consumption_response (cr_request_id record) record /\
    select_consumption (cr_request_id record) (w_store w') = Some record /\
    (assoc "request_id" items = Some (JStr (cr_request_id record)) /\
     assoc "authorization_id" items = Some (JStr (cr_authorization_id record)) /\
     digest (JObj items) = Ok (cr_request_digest record) /\ cr_worker_identity record = aa_worker_identity self /\
     plan_plan_id plan = JStr (cr_action_plan_id record) /\ plan_plan_digest plan = JStr (cr_plan_digest record) /\
     plan_engagement_id plan = JStr (cr_engagement_id record) /\ plan_target plan = JStr (cr_target record)) /\
    (later (w_store w) (w_store w') \/
     exists s0 s1 auth,
       later (w_store w) s0 /\
       get_authorization read_schema report_semantics s0 (cr_authorization_id record) = Ok (inl auth) /\
       verify_for plan auth = Ok auth /\ later s0 s1 /\ select_consumption (cr_request_id record) s1 = None /\
       consumed_for s1 (w_store w') (cr_authorization_id record) record).
Proof.
  intros Hc Hshared. apply consume_document_ok in Hc as (_ & rid & aid & plan & dg & record & Hck & Hdg & -> & (<- & Hsel & Hm) & Hcase);
    [|done].
  apply check_request_ok in Hck as ((-> & -> & ->) & (Hne & He) & Hrid & Haid & Hw & d & Hd & Hp).
  apply matching_iff in Hm as (M1 & M2 & M3 & M4 & M5 & M6 & M7).
  cbn [receipt_bindings rq_request_digest rq_authorization_id rq_action_plan_id rq_plan_digest rq_engagement_id
    rq_worker_identity rq_target] in M1, M2, M3, M4, M5, M6, M7. injection M2 as ->. subst dg.
  repeat (split; [done|]). exists d, plan, record. done.
Qed.

(** Repeating an answered request finds its record. *)
Lemma repeat_request items pid uid gid w rid aid plan dg record :
  check items pid uid gid = Ok (rid, aid, plan) -> digest (JObj items) = Ok dg ->
  answered (w_store w) rid (receipt_bindings self dg aid plan) record -> shared w ->
  exists w', consume items pid uid gid w = (Ok (_consumption_response rid record), w') /\ shared w' /\
    later (w_store w) (w_store w') /\ (w_others w = [] -> w_store w' = w_store w).
Proof.
  intros Hck Hdg (<- & Hsel & Hm) Hshared. unfold consume_document, eff_bind at 1, eff_lift. rewrite Hck.
  unfold eff_bind at 1. rewrite Hdg. unfold eff_bind at 1.
  destruct (find_prior _ _ _ _ _ w) as [r w1] eqn:Ef. unfold find_prior in Ef.
  assert (Hquiet : w_others w = [] -> w_store w1 = w_store w).
  { intros Hw. unfold access in Ef. rewrite Hw in Ef. by injection Ef as _ <-. }
  apply access_ok in Ef as (s & Hl & [= Es Hr] & Hw1); [|done]. subst s.
  apply (later_record _ _ _ Hl) in Hsel. unfold get_matching_consumption in Hr. rewrite Hsel, Hm in Hr.
  cbn [res_bind] in Hr. subst r. by exists w1.
Qed.
End Control.

(** C10. Retries are safe: once the authority has answered a request, then whatever
    happens to the store afterwards, the same request from the worker gets the same
    answer, at any later time at which the authority is ready, and the call itself
    changes nothing. *)
Theorem authority_retry_idempotent `{Host} read_schema report_semantics machine machine2 others self items pid uid gid w
    response w' w2 :
  m_platform machine2 = m_platform machine -> shared others w -> shared others w2 ->
  consume_document read_schema report_semantics machine self items pid uid gid w = (Ok response, w') ->
  later read_schema report_semantics machine others (w_store w') (w_store w2) ->
  is_ok (check_request read_schema report_semantics machine2 self items pid uid gid) = true ->
  exists w2', consume_document read_schema report_semantics machine2 self items pid uid gid w2 = (Ok response, w2') /\
    later read_schema report_semantics machine others (w_store w2) (w_store w2') /\
    (w_others w2 = [] -> w_store w2' = w_store w2).
Proof.
  intros Hpf Hw Hw2 Hc Hl Hck2.
  apply (consume_document_ok _ _ _ others) in Hc as (_ & rid & aid & plan & dg & record & Hck & Hdg & -> & (<- & Hsel & Hm) & _);
    [|done].
  apply is_ok_iff in Hck2 as ([[rid2 aid2] plan2] & Hck2).
  pose proof (check_request_ok _ _ _ _ _ _ _ _ _ _ _ Hck) as (_ & _ & Hrid & Haid & _ & d & Hd & Hp).
  pose proof (check_request_ok _ _ _ _ _ _ _ _ _ _ _ Hck2) as (_ & _ & Hrid2 & Haid2 & _ & d2 & Hd2 & Hp2).
  rewrite Hrid in Hrid2. rewrite Haid in Haid2. rewrite Hd in Hd2. simplify_eq. rewrite Hp in Hp2. simplify_eq.
  apply (later_record _ _ _ _ _ _ _ Hl) in Hsel.
  destruct (repeat_request read_schema report_semantics machine2 others self items pid uid gid w2 _ _ _ _ _ Hck2 Hdg
    (conj eq_refl (conj Hsel Hm)) Hw2) as (w2' & Hc & _ & Hl2 & Hq).
  exists w2'. split; [done|]. split; [|done]. unfold later in *. by rewrite <- Hpf.
Qed.

(** ** The server *)

Section Server.
Context `{Host} (read_schema : string -> option json) (report_semantics : string -> json -> res unit).
Variable machine : Machine.
Variable self : ApprovalAuthority.

Definition handled (e : exc) : bool := is_control_error e || is_os_error e.

(** A call on a connection whose failures the accept loop handles. *)
Definition fails_handled {A} (m : eff _DeadlineSocket A) : Prop :=
  forall d e d', m d = (Raise e, d') -> handled e = true.

Lemma handled_bind {A B} (m : eff _DeadlineSocket A) (f : A -> eff _DeadlineSocket B) :
  fails_handled m -> (forall a, fails_handled (f a)) -> fails_handled (eff_bind m f).
Proof.
  intros Hm Hf d e d'. unfold eff_bind. destruct (m d) as [[a|e1] d1] eqn:E; [apply Hf|].
  intros [= -> _]. by eapply Hm.
Qed.

Lemma handled_sendall data : fails_handled (conn_sendall data).
Proof.
  cbn [conn_sendall DeadlineSocket_Connection]. apply handled_bind.
  - intros d e d'. unfold _set_remaining_timeout. destruct (_ <=? 0); [by intros [= <- _]|done].
  - intros _ d e d'. unfold on_connection, socket_sendall.
    destruct (sk_sendings (_connection d)) as [|n rest]; [done|]. destruct (_ <? _); [by intros [= <- _]|].
    destruct (sn_reset n); [by intros [= <- _]|done].
Qed.

Lemma fails_write v : printable v = true -> fails_handled (_write_json_line v).
Proof.
  intros Hv. apply handled_bind; [|intros; apply handled_sendall]. intros d e d'. unfold eff_lift, encode_frame. rewrite Hv.
  cbn [negb]. destruct (_ <? _); [by intros [= <- _]|done].
Qed.

Lemma parse_frame_printable data v : parse_frame data = Ok v -> printable v = true.
Proof.
  unfold parse_frame. intros Hv. guard_ok Hv. guard_ok Hv. apply res_bind_ok in Hv as (w & Hw & Hv). guard_ok Hv.
  injection Hv as <-. rewrite catch_ok in Hw by done. unfold loads_bytes in Hw.
  destruct (decode_bytes _ _); [|done]. by eapply loads_printable.
Qed.

Lemma read_printable d v d' : _read_json_line d = (Ok v, d') -> printable v = true.
Proof. intros (data & d1 & _ & [Hp _]%eff_lift_ok)%eff_bind_ok. by eapply parse_frame_printable. Qed.

Lemma respond_printable received pid uid gid w :
  (forall v, received = Ok v -> printable v = true) ->
  printable (fst (respond read_schema report_semantics machine self received pid uid gid w)) = true.
Proof.
  intros Hr. unfold respond. destruct received as [v|e]; [|done]. specialize (Hr v eq_refl). destruct v as [| | | | | |items]; try done.
  destruct (consume_document _ _ _ _ _ _ _ _ _) as [[response|e] w'] eqn:Hc; cbn [fst].
  - apply (consume_document_ok _ _ _ (fun _ => True)) in Hc as (_ & rid & aid & plan & dg & record & _ & _ & -> & _);
      [done|]. unfold shared. apply list.Forall_true. intros. by apply list.Forall_true.
  - cbn [printable] in Hr. cbn [error_response printable forallb snd].
    assert (Ha : printable (assoc_default "request_id" items JNull) = true); [|by rewrite Ha].
    unfold assoc_default. destruct (assoc "request_id" items) as [v|] eqn:E; [|done].
    apply assoc_In in E. rewrite forallb_forall in Hr. exact (Hr _ E).
Qed.

Lemma serve_fails peercred busy w d r w' d' :
  (forall e, peercred = Raise e -> handled e = true) ->
  serve_connection read_schema report_semantics machine self peercred busy (w, d) = (r, (w', d')) ->
  forall e, r = Raise e -> handled e = true.
Proof.
  intros Hp. unfold serve_connection. destruct peercred as [[[pid uid] gid]|e0]; [|intros [= <- _ _] e [= <-]; by apply Hp].
  destruct (_read_json_line d) as [received d1] eqn:Hr.
  assert (Hv : forall v, received = Ok v -> printable v = true) by (intros v ->; by eapply read_printable).
  pose proof (respond_printable received pid uid gid w Hv) as Hresp. destruct (respond _ _ _ _ _ _ _ _ w) as [response w1].
  destruct (_write_json_line response (busy d1)) as [r2 d2] eqn:Hw. intros [= <- _ _] e ->.
  by eapply (fails_write response).
Qed.

(** C11. No peer stops the authority, or holds it beyond its deadline.  Whatever the
    peers send, withhold, cut short or reset, the accept loop serves every connection
    and does not raise; and each connection is left within the timeout of its
    acceptance, the time the authority itself was busy not counted. *)
Theorem peers_cannot_stop_authority timeout connections w :
  0 < timeout ->
  (forall a e, In a connections -> ac_peercred a = Raise e -> is_control_error e || is_os_error e = true) ->
  fst (serve_forever read_schema report_semantics machine self timeout connections w) = Ok tt /\
  (forall a v, In a connections ->
     sk_now (snd (_serve_accepted_connection read_schema report_semantics machine self timeout a v)) <=
     sk_now (ac_socket a) + timeout + Z.max 0 (ac_busy a)).
Proof.
  intros Ht Hcred. split.
  - revert w. induction connections as [|a connections IH]; intros w; [done|]. cbn [serve_forever]. unfold eff_bind, eff_catch.
    unfold _serve_accepted_connection at 1.
    destruct (serve_connection _ _ _ _ _ _ _) as [r [w1 d1]] eqn:Hs. cbn [fst].
    pose proof (serve_fails _ _ _ _ _ _ _ (fun e => Hcred a e (or_introl eq_refl)) Hs) as Hr.
    assert (Hrest : forall w, fst (serve_forever read_schema report_semantics machine self timeout connections w) = Ok tt).
    { intros. apply IH. intros. eapply Hcred; [by right|done]. }
    destruct r as [[]|e]; [apply Hrest|]. unfold handled in Hr. rewrite (Hr e eq_refl). apply Hrest.
  - intros a v _. unfold _serve_accepted_connection.
    set (d0 := {| _connection := ac_socket a; _deadline := _ |}). unfold serve_connection.
    destruct (ac_peercred a) as [[[pid uid] gid]|e0]; [|simpl; lia].
    destruct (keeps_read d0) as [H1 H2]; [unfold in_time; simpl; lia|].
    destruct (_read_json_line d0) as [received d1]. cbn [snd] in *.
    destruct (respond _ _ _ _ _ _ _ _ v) as [response w1].
    set (d2 := {| _connection := advance _ _; _deadline := _ |}).
    assert (Hbusy : sk_now (_connection d2) = sk_now (_connection d1) + ac_busy a) by done.
    destruct (_write_json_line response d2) as [r2 d3] eqn:Hw. cbn [snd].
    unfold in_time in H1. rewrite H2 in H1. cbn [_deadline d0] in H1.
    destruct (Z.leb_spec (sk_now (_connection d2)) (_deadline d2)) as [Hle|Hgt].
    + pose proof (keeps_write response d2 Hle) as [H3 H4]. rewrite Hw in H3, H4. cbn [snd] in *. unfold in_time in H3.
      rewrite H4 in H3. cbn [_deadline d2] in H3. rewrite H2 in H3. cbn [_deadline d0] in H3. lia.
    + assert (Hsame : sk_now (_connection d3) = sk_now (_connection d2)).
      { revert Hw. unfold _write_json_line, eff_bind, eff_lift. destruct (encode_frame response); [|by intros [= _ <-]].
        cbn [conn_sendall DeadlineSocket_Connection]. unfold _DeadlineSocket_sendall, eff_bind, _set_remaining_timeout.
        replace (_ <=? 0) with true by (symmetry; lia). by intros [= _ <-]. }
      lia.
Qed.
End Server.

(** ** The listening socket *)

(** The listener leaves what is already at its path alone, and runs its body only on a
    socket of the right owner, group and mode; afterwards its own socket is gone. *)
Lemma listener_guards m self parent appears bound {A} (body : eff (option NodeStat) A) path r path' :
  listener m self parent appears bound body path = (r, path') ->
  match path with
  | Some _ => is_ok r = false /\ path' = path
  | None =>
      forall a, r = Ok a -> appears = None /\ exists st after, nd_kind st = NodeSocket /\ nd_uid st = aa_authority_uid self /\
        nd_gid st = aa_worker_gid self /\ nd_mode st = mode_socket /\ body (Some st) = (Ok a, after) /\
        path' = remove_socket self after
  end.
Proof.
  unfold listener. destruct (assert_ready m self ;;? _assert_socket_directory self parent) as [u|e];
    [|by destruct path; intros [= <- <-]].
  destruct path as [st|]; [by intros [= <- <-]|]. destruct appears as [st|]; [by intros [= <- <-]|].
  set (st := {| nd_kind := nd_kind bound; nd_uid := _; nd_gid := _; nd_mode := _ |}).
  destruct (eff_bind _ _ (Some st)) as [r1 after] eqn:Eb. intros [= <- <-] a ->. split; [done|].
  apply eff_bind_ok in Eb as ([] & s1 & [Hc ->]%eff_lift_ok & Hb). unfold check_bound in Hc.
  guard_ok Hc. guard_ok Hc. guard_ok Hc. guard_ok Hc. simpl_bool.
  repeat match goal with E : (_ =? _) = true |- _ => apply Z.eqb_eq in E end.
  exists st, after. split_and!; done.
Qed.

(** When another process of the authority binds the path between the check and [bind],
    the listener fails, and removes the other's socket. *)
Example listener_removes_other_socket :
  let other := {| nd_kind := NodeSocket; nd_uid := 1000; nd_gid := 2000; nd_mode := mode_socket |} in
  let machine := {| m_platform := demo_platform; m_sys_platform := "linux"; m_has_geteuid := true; m_files := demo_files;
                    m_verify_time := 0; m_consume_time := demo_time |} in
  let self := {| aa_trust_store := ∅; aa_engagement := NoEngagement; aa_worker_identity := "w"; aa_worker_uid := 2000;
                 aa_worker_gid := 2000; aa_worker_pid := 42; aa_authority_uid := 1000 |} in
  let parent := {| nd_kind := NodeDir; nd_uid := 1000; nd_gid := 2000; nd_mode := mode_socket_dir |} in
  listener machine self (Some parent) (Some other) other (eff_ret tt) None = (raise OSError "Address already in use", None).
Proof. reflexivity. Qed.

(** ** Concrete parties *)

(** A host whose digests are the beginning of the text in hexadecimal, 64 characters. *)
#[local] Instance control_host : Host := {|
  float_repr := fun _ => "0.5";
  float_parse := fun _ => PyFin 1 (-1);
  sha256_hex := fun text => take_str 64 (hex_text text);
  hmac_sha256_hex := fun key text => take_str 64 (hex_text text);
  dumps_recurses := fun _ => false;
  loads_recurses := fun _ => false;
|}.

Definition control_plan_res : res ActionPlan :=
  ActionPlan_create any_schema no_reports (JStr "plan-demo1") (JStr "eng-demo1") (JStr "scen-demo1") (JStr "10.0.0.5")
    (JStr "red-team") (JList [JStr "scan"]) (JObj []) (JList []) (JStr "2025-06-15T00:00:00Z") (JStr "approved")
    JNull JNull JNull.

Definition control_plan : ActionPlan := match control_plan_res with Ok p => p | Raise _ => demo_plan end.

Definition control_auth : ExecutionAuthorization :=
  match create_execution_authorization any_schema no_reports demo_now "0123456789abcdef0123" (PlanObject control_plan)
          demo_signer (EngagementDict demo_engagement) "worker-1" 4 "interactive_confirmation" JNull JNull JNull with
  | Ok a => a
  | Raise _ => demo_auth
  end.

Definition control_store : ApprovalStore :=
  fst (store_authorization any_schema no_reports "2025-06-15T12:00:00Z" empty_store control_auth).

Definition control_machine : Machine :=
  {| m_platform := demo_platform; m_sys_platform := "linux"; m_has_geteuid := true; m_files := demo_files;
     m_verify_time := demo_now; m_consume_time := "2025-06-15T12:00:05Z" |}.

Definition control_authority : ApprovalAuthority :=
  {| aa_trust_store := demo_store; aa_engagement := EngagementDict demo_engagement; aa_worker_identity := "worker-1";
     aa_worker_uid := 2000; aa_worker_gid := 2000; aa_worker_pid := 4242; aa_authority_uid := 1000 |}.

Definition control_request_id : string := "12345678-1234-5678-1234-567812345678".

Definition control_items : list (string * json) :=
  match json_sort (consume_request_document control_request_id "auth-0123456789abcdef" control_plan "worker-1") with
  | JObj items => items
  | _ => []
  end.

Definition control_world : World := {| w_store := control_store; w_others := [] |}.

Notation demo_consume w :=
  (consume_document any_schema no_reports control_machine control_authority control_items 4242 2000 2000 w).

Lemma control_answers : is_ok (fst (demo_consume control_world)) = true.
Proof. vm_compute. reflexivity. Qed.

Lemma any_calls w : shared (fun _ => True) w.
Proof. unfold shared. apply list.Forall_true. intros. by apply list.Forall_true. Qed.

Lemma authority_consumes_verified_witness : exists response w' record,
  demo_consume control_world = (Ok response, w') /\
  select_consumption control_request_id (w_store w') = Some record /\ cr_target record = "10.0.0.5".
Proof.
  pose proof control_answers as Hok.
  destruct (demo_consume control_world) as [[response|e] w'] eqn:E; [clear Hok|discriminate Hok].
  destruct (authority_consumes_verified any_schema no_reports control_machine (fun _ => True) control_authority control_items 4242
    2000 2000 control_world response w' E (any_calls _))
    as (_ & _ & _ & d & plan & record & [Hd Hp] & _ & Hsel & (Hid & _ & _ & _ & _ & _ & _ & Ht) & _).
  assert (Hr : assoc "request_id" control_items = Some (JStr control_request_id)) by (vm_compute; reflexivity).
  rewrite Hr in Hid. injection Hid as Hid. exists response, w', record. split; [reflexivity|]. rewrite Hid. split; [exact Hsel|].
  assert (Htarget : forall d p, assoc "action_plan" control_items = Some d ->
    from_dict (A := ActionPlan) any_schema no_reports d = Ok p -> plan_target p = JStr "10.0.0.5").
  { clear. intros d p Hd Hp. vm_compute in Hd. injection Hd as <-. vm_compute in Hp. injection Hp as <-. reflexivity. }
  rewrite (Htarget d plan Hd Hp) in Ht. injection Ht as <-. reflexivity.
Defined.

Lemma authority_retry_idempotent_witness : exists response w' w2',
  demo_consume control_world = (Ok response, w') /\
  demo_consume {| w_store := w_store w'; w_others := [] |} = (Ok response, w2') /\ w_store w2' = w_store w'.
Proof.
  pose proof control_answers as Hok.
  destruct (demo_consume control_world) as [[response|e] w'] eqn:E; [clear Hok|discriminate Hok].
  assert (Hck : is_ok (check_request any_schema no_reports control_machine control_authority control_items 4242 2000 2000) = true)
    by (vm_compute; reflexivity).
  destruct (authority_retry_idempotent any_schema no_reports control_machine control_machine (fun _ => True) control_authority
    control_items 4242 2000 2000 control_world response w' {| w_store := w_store w'; w_others := [] |} eq_refl (any_calls _)
    (any_calls _) E ltac:(exists []; split; [constructor|reflexivity]) Hck) as (w2' & Hc & _ & Hq).
  exists response, w', w2'. split; [reflexivity|]. split; [exact Hc|]. exact (Hq eq_refl).
Defined.

(** A peer that sends half a request and stalls, one that resets, and one that is refused. *)
Definition bad_peers : list Accepted :=
  let k inbound := {| sk_now := 0; sk_timeout := 0; sk_inbound := inbound; sk_sendings := []; sk_sent := "" |} in
  [{| ac_peercred := Ok (4242, 2000, 2000); ac_socket := k [{| ar_delay := 1; ar_event := Data "{" "" |}]; ac_busy := 3 |};
   {| ac_peercred := Ok (1, 1, 1); ac_socket := k [{| ar_delay := 1; ar_event := Reset |}]; ac_busy := 0 |};
   {| ac_peercred := Raise (Exc ApprovalControlError "SO_PEERCRED"); ac_socket := k []; ac_busy := 0 |}].

Lemma peers_cannot_stop_authority_witness :
  fst (serve_forever any_schema no_reports control_machine control_authority 2000000 bad_peers control_world) = Ok tt.
Proof.
  apply (peers_cannot_stop_authority any_schema no_reports control_machine control_authority 2000000 bad_peers control_world).
  - lia.
  - intros a e [<-|[<-|[<-|[]]]]; intros [= <-]. reflexivity.
Defined.
