(* ===== verification/ControlLink.v ===== *)
(** * The control channel end to end

    The worker's client of [src/cops/execution/control.py] connected to the
    authority's server: the interface [Network] implemented by the server's code, with
    the faults a local stream socket has.  A receipt the client returns is then the
    record of a consumption that the authority verified. *)

From S2P Require Import Prelude PyStr Json JsonParse JsonFacts Canonical Documents Schema Contracts.
From S2P Require Import Models ModelsFacts.
From S2P Require Import ContractProps Authorization AuthorizationProps ApprovalStore ApprovalStoreProps.
From S2P Require Import Transport TransportProps Control ControlProps.

(** ** The connection *)

(** How one attempt to reach the authority goes: whether it is refused or not served;
    the ends of the connection, with their clocks and the outcomes of their writes; the
    credentials each side sees; how long the authority is busy; and how the bytes of
    each side reach the other. *)
Record Exchange := {
  ex_refused : bool; ex_served : bool; ex_client : Socket; ex_server : Socket;
  ex_client_sees : res (Z * Z * Z); ex_server_sees : res (Z * Z * Z); ex_busy : Z;
  ex_to_server : string -> list Arrival; ex_to_client : string -> list Arrival
}.

(** A stream socket cuts, delays and loses the end of what was sent; it does not invent
    or alter bytes.  Both ends are new. *)
Record faithful (x : Exchange) : Prop := {
  fresh_ends : sk_sent (ex_client x) = "" /\ sk_sent (ex_server x) = "";
  prefix_to_server : forall sent data, inbound_bytes (ex_to_server x sent) = Some data -> exists rest, sent = data +:+ rest;
  prefix_to_client : forall sent data, inbound_bytes (ex_to_client x sent) = Some data -> exists rest, sent = data +:+ rest;
}.

(** The authority with its world, and the attempts to come. *)
Record Link := { lk_world : World; lk_exchanges : list Exchange }.

Section Link.
Context `{Host} (read_schema : string -> option json) (report_semantics : string -> json -> res unit).
Variable machine : Machine.
Variable self : ApprovalAuthority.
Variable server_timeout : Z.

Definition link_dial : eff Link (res (Z * Z * Z) * Socket) := fun l =>
  match lk_exchanges l with
  | [] => (raise OSError "no route to the authority", l)
  | x :: rest =>
      if ex_refused x then (raise OSError "connection refused", {| lk_world := lk_world l; lk_exchanges := rest |})
      else (Ok (ex_client_sees x, ex_client x), l)
  end.

Definition link_answer (sent : string) (l : Link) : list Arrival * Link :=
  match lk_exchanges l with
  | [] => ([], l)
  | x :: rest =>
      if ex_served x then
        let a := {| ac_peercred := ex_server_sees x; ac_socket := set_inbound (ex_to_server x sent) (ex_server x);
                    ac_busy := ex_busy x |} in
        let '(_, w, socket) :=
          _serve_accepted_connection read_schema report_semantics machine self server_timeout a (lk_world l) in
        (ex_to_client x (sk_sent socket), {| lk_world := w; lk_exchanges := rest |})
      else ([], {| lk_world := lk_world l; lk_exchanges := rest |})
  end.

#[export] Instance Link_Network : Network Link := {| dial := link_dial; answer := link_answer |}.
End Link.

(** ** What is sent is a prefix of a frame *)

Lemma socket_sendall_sent data k r k' :
  socket_sendall data k = (r, k') ->
  (exists a b, sk_sent k' = sk_sent k +:+ a /\ data = a +:+ b) /\ (r = Ok tt -> sk_sent k' = sk_sent k +:+ data).
Proof.
  assert (Hpre : forall n, exists a b, sk_sent k +:+ take_str n data = sk_sent k +:+ a /\ data = a +:+ b).
  { intros n. exists (take_str n data), (drop_str n data). by rewrite take_drop_str. }
  assert (Hall : exists a b, sk_sent k +:+ data = sk_sent k +:+ a /\ data = a +:+ b).
  { exists data, "". by rewrite string_app_nil_r. }
  unfold socket_sendall. destruct (sk_sendings k) as [|n rest]; [by intros [= <- <-]|].
  destruct (_ <? _); [|destruct (sn_reset n)]; intros [= <- <-]; (split; [first [apply Hall | apply Hpre]|done]).
Qed.

Section Sent.
Context `{Host}.

(** Whatever happens to a write, the bytes that get out begin the frame. *)
Definition begins_frame (v : json) (sent : string) : Prop :=
  sent = "" \/ exists text rest, encode_frame v = Ok text /\ text = sent +:+ rest.

Lemma socket_write_sent v (k k' : Socket) r :
  _write_json_line v k = (r, k') -> sk_sent k = "" ->
  begins_frame v (sk_sent k') /\ (r = Ok tt -> encode_frame v = Ok (sk_sent k')).
Proof.
  unfold _write_json_line, eff_bind, eff_lift. intros Hw Hk. destruct (encode_frame v) as [text|e] eqn:E.
  - apply socket_sendall_sent in Hw as ((a & b & Ha & Hd) & Hok). rewrite Hk in Ha, Hok. simpl in Ha, Hok. split.
    + right. exists text, b. by rewrite Ha.
    + intros ->. by rewrite Hok.
  - injection Hw as <- <-. split; [by left|done].
Qed.

Lemma deadline_write_sent v (d d' : _DeadlineSocket) r :
  _write_json_line v d = (r, d') -> sk_sent (_connection d) = "" -> begins_frame v (sk_sent (_connection d')).
Proof.
  unfold _write_json_line, eff_bind at 1, eff_lift. intros Hw Hk. destruct (encode_frame v) as [text|e] eqn:E.
  - cbn [conn_sendall DeadlineSocket_Connection] in Hw. unfold _DeadlineSocket_sendall, eff_bind, _set_remaining_timeout in Hw.
    destruct (_ <=? 0); [injection Hw as _ <-; by left|]. unfold on_connection in Hw.
    cbn [_connection _deadline] in Hw. destruct (socket_sendall text _) as [r1 k1] eqn:Es. injection Hw as _ <-.
    apply socket_sendall_sent in Es as ((a & b & Ha & Hd) & _). cbn [sk_sent set_timeout] in Ha.
    rewrite Hk in Ha. simpl in Ha. right. exists text, b. simpl. by rewrite Ha.
  - injection Hw as _ <-. by left.
Qed.

Lemma read_keeps_sent v (d d' : _DeadlineSocket) :
  _read_json_line d = (v, d') -> sk_sent (_connection d') = sk_sent (_connection d).
Proof.
  assert (Hrecv : forall n (d d' : _DeadlineSocket) r, conn_recv n d = (r, d') ->
    sk_sent (_connection d') = sk_sent (_connection d)).
  { intros n e e' r. cbn [conn_recv DeadlineSocket_Connection].
    unfold _DeadlineSocket_recv, eff_bind, _set_remaining_timeout, on_connection.
    destruct (_ <=? 0); [by intros [= _ <-]|]. cbn [_connection _deadline]. unfold socket_recv.
    destruct (sk_inbound _) as [|a rest]; [by intros [= _ <-]|]. destruct (_ <? _); [by intros [= _ <-]|].
    destruct (ar_event a); by intros [= _ <-]. }
  assert (Hloop : forall fuel acc (d d' : _DeadlineSocket) r, read_loop fuel acc d = (r, d') ->
    sk_sent (_connection d') = sk_sent (_connection d)).
  { induction fuel as [|fuel IH]; intros acc e e' r; cbn [read_loop]; [by intros [= _ <-]|]. unfold eff_bind.
    destruct (conn_recv _ e) as [[chunk|x] e1] eqn:Er; apply Hrecv in Er; [|by intros [= _ <-]].
    destruct (chunk == ""); [by intros [= _ <-]|]. destruct (_ <? _); [by intros [= _ <-]|].
    intros Hl. apply IH in Hl. congruence. }
  unfold _read_json_line, eff_bind. destruct (read_loop _ "" d) as [[a|x] d1] eqn:E; apply Hloop in E; by intros [= _ <-].
Qed.

(** A document read from a prefix of a frame is the frame's. *)
Lemma read_of_frame v sent data w :
  begins_frame v sent -> float_free v = true -> keys_unique v = true -> is_dict v = true ->
  (exists rest, sent = data +:+ rest) -> parse_frame data = Ok w -> w = json_sort v.
Proof.
  intros Hsent Hf Hk Hd (rest & ->) Hp. destruct Hsent as [He|(text & rest' & He & ->)].
  - destruct data; [|done]. vm_compute in Hp. discriminate Hp.
  - destruct (String.string_dec (rest +:+ rest') "") as [E|E].
    + rewrite string_app_assoc, E, string_app_nil_r in He. rewrite (parse_encoded v data He Hf Hk Hd) in Hp. by injection Hp.
    + rewrite string_app_assoc in He.
      rewrite (parse_truncated v _ data (rest +:+ rest') He Hf eq_refl E) in Hp. discriminate Hp.
Qed.
End Sent.

(** ** The authority's world across the attempts *)

Definition call_request (c : call) : option string :=
  match c with
  | CallConsumeRequest _ _ rid _ _ _ _ _ _ => Some rid
  | _ => None
  end.

Section EndToEnd.
Context `{Host} (read_schema : string -> option json) (report_semantics : string -> json -> res unit).
Variable machine : Machine.
Variable self : ApprovalAuthority.
Variable server_timeout : Z.
Variable rid aid worker : string.
Variable plan : ActionPlan.

(** The other processes do not use the fresh identifier of this request. *)
Definition other_calls (c : call) : Prop := call_request c <> Some rid.

Notation later := (later read_schema report_semantics machine other_calls).
Notation shared := (shared other_calls).
Notation serve := (_serve_accepted_connection read_schema report_semantics machine self server_timeout).
Notation consume := (consume_document read_schema report_semantics machine self).
Notation verify_for plan auth :=
  (verify_execution_authorization read_schema report_semantics (m_verify_time machine) (AuthObject auth)
    (PlanObject plan) (Some (aa_trust_store self)) (aa_engagement self) (aa_worker_identity self) JNull).

Let request : json := consume_request_document rid aid plan worker.

Lemma exec_other s c s' e :
  exec read_schema report_semantics (m_platform machine) s c = (s', e) -> other_calls c ->
  select_consumption rid s = None -> select_consumption rid s' = None.
Proof.
  intros Hc Ho Hs. unfold select_consumption in *.
  destruct c as [now_iso auth|now_iso id expected w time minimum|files now_iso rid' rdigest target expected w uid time|files columns];
    cbn [exec] in Hc.
  - apply pair_equal_spec in Hc as [<- _]. unfold store_authorization. destruct (validate_contract _ _ _ _ _ _); [|done].
    destruct (transaction s _) as [s1 r] eqn:Ht. cbn [fst]. apply transaction_commit in Ht as [Hb|[-> _]]; [|done].
    rewrite conflict_on_integrity_ok in Hb. apply res_bind_ok in Hb as (row & _ & Hb).
    apply res_bind_ok in Hb as (s2 & Hi & [= <- <-]). unfold insert_approval in Hi.
    destruct (select_approval _ s); [done|]. by injection Hi as <-.
  - destruct (atomically_consume _ _ _ _ _ _ _ _ _) as [s1 r] eqn:Hr. injection Hc as <- _.
    by apply consume_cases in Hr as [[-> _]|(row & now & items & until & _ & _ & _ & _ & _ & [(_ & -> & _)|(_ & -> & _)])].
  - destruct (atomically_consume_request _ _ _ _ _ _ _ _ _ _ _ _ _) as [s1 r] eqn:Hr. injection Hc as <- _.
    apply consume_request_cases in Hr as [[-> _]|[(prior & _ & -> & _)|(id & row & now & items & until & _ & _ & _ & _ & _ & _ & _ & _ &
      [(_ & -> & _)|(_ & record & _ & E & _ & _ & _ & _ & _ & _ & _ & _ & _ & ->)])]]; try done.
    cbn [approval_consumptions]. rewrite find_append, Hs. cbn [List.find].
    destruct (cr_request_id record == rid) eqn:Eq; [|done]. simpl_bool. unfold other_calls in Ho. cbn [call_request] in Ho. congruence.
  - apply pair_equal_spec in Hc as [<- _]. unfold open_store. by destruct (_ensure_storage_security _ _).
Qed.

Lemma later_none s s' : later s s' -> select_consumption rid s = None -> select_consumption rid s' = None.
Proof.
  intros (calls & Hcalls & <-). revert s. induction Hcalls as [|c calls Hc Hcalls IH]; intros s Hs; [done|]. cbn [run].
  destruct (exec _ _ _ s c) as [s1 e] eqn:He. specialize (IH s1 (exec_other _ _ _ _ He Hc Hs)).
  by destruct (run _ _ _ s1 calls).
Qed.

(** The request was granted: its record is in the store, and came there by a
    consumption of the named authorization, which had verified for the plan. *)
Definition granted (record : ApprovalConsumptionRecord) (s : ApprovalStore) : Prop :=
  cr_request_id record = rid /\ select_consumption rid s = Some record /\ cr_authorization_id record = aid /\
  exists plan' auth s0 s1 s2,
    from_dict read_schema report_semantics (json_sort (to_dict plan)) = Ok plan' /\
    get_authorization read_schema report_semantics s0 aid = Ok (inl auth) /\ verify_for plan' auth = Ok auth /\
    later s0 s1 /\ consumed_for machine self s1 s2 aid record /\ later s2 s.

Definition settled (w : World) : Prop :=
  shared w /\ (select_consumption rid (w_store w) = None \/ exists record, granted record (w_store w)).

Lemma granted_later record s s' : later s s' -> granted record s -> granted record s'.
Proof.
  intros Hl (Erid & Hsel & Haid & plan' & auth & s0 & s1 & s2 & H1 & H2 & H3 & H4 & H5 & H6).
  split; [done|]. split.
  { rewrite <- Erid in Hsel |- * at 1. by eapply later_record. }
  split; [done|].
  exists plan', auth, s0, s1, s2. do 5 (split; [done|]). by etransitivity.
Qed.

Lemma settled_later w w' : shared w' -> later (w_store w) (w_store w') -> settled w -> settled w'.
Proof.
  intros Hw Hl [_ [Hn|(record & Hg)]]; (split; [done|]); [left|right].
  - by eapply later_none.
  - exists record. by eapply granted_later.
Qed.

Let request_items : list (string * json) := match json_sort request with JObj items => items | _ => [] end.

Lemma request_sorted : json_sort request = JObj request_items.
Proof. reflexivity. Qed.

Lemma request_fields :
  assoc "request_id" request_items = Some (JStr rid) /\ assoc "authorization_id" request_items = Some (JStr aid) /\
  assoc "action_plan" request_items = Some (json_sort (to_dict plan)).
Proof. split; [|split]; reflexivity. Qed.

Lemma consume_settled pid uid gid w r w' :
  settled w -> consume request_items pid uid gid w = (r, w') ->
  settled w' /\
  forall response, r = Ok response -> exists record, granted record (w_store w') /\ response = _consumption_response rid record.
Proof.
  intros [Hw Hcase] Hc. destruct request_fields as (Frid & Faid & Fplan). destruct r as [response|e].
  - apply (consume_document_ok _ _ _ other_calls) in Hc as (Hw' & rid' & aid' & plan' & dg & record & Hck & _ & -> & Ha & Hcons);
      [|done].
    apply check_request_ok in Hck as (_ & _ & Hrid & Haid & _ & d & Hd & Hp).
    rewrite Frid in Hrid. rewrite Faid in Haid. rewrite Fplan in Hd. simplify_eq.
    destruct Ha as (Ercord & Hsel & Hm). apply matching_iff in Hm as (_ & M2 & _). injection M2 as M2.
    assert (Hg : exists record', granted record' (w_store w') /\ select_consumption rid (w_store w') = Some record').
    { destruct Hcons as [Hl|(s0 & s1 & auth & Hl0 & Hget & Hv & Hl1 & Hnone & Hcf)].
      - destruct Hcase as [Hn|(record' & Hg)].
        + pose proof (later_none _ _ Hl Hn). congruence.
        + apply (granted_later _ _ _ Hl) in Hg. exists record'. split; [done|]. apply Hg.
      - exists record. split; [|done]. split; [done|]. split; [done|]. split; [done|].
        exists plan', auth, s0, s1, (w_store w'). do 5 (split; [done|]). reflexivity. }
    destruct Hg as (record' & Hg & Hsel'). rewrite Hsel in Hsel'. injection Hsel' as <-.
    split; [split; [done|right; by exists record]|]. intros response [= <-]. by exists record.
  - split; [|done]. apply (consume_document_raise _ _ _ other_calls) in Hc as (Hw' & Hcons); [|done].
    destruct Hcons as [Hl|(rid' & aid' & plan' & s1 & id & Hck & Hl & Hnone & Hs')]; [by eapply settled_later|].
    apply check_request_ok in Hck as (_ & _ & Hrid & _). rewrite Frid in Hrid. simplify_eq. split; [done|]. left.
    rewrite Hs'. exact Hnone.
Qed.

Hypothesis request_plain : float_free request = true /\ keys_unique request = true.

(** What the authority may answer to this request. *)
Definition reply (response : json) (s : ApprovalStore) : Prop :=
  (exists record, granted record s /\ response = _consumption_response rid record) \/
  (exists id, response = error_response id /\ (id = JNull \/ id = JStr rid)).

Lemma respond_settled received pid uid gid w response w' :
  settled w -> (forall v, received = Ok v -> v = JObj request_items) ->
  respond read_schema report_semantics machine self received pid uid gid w = (response, w') ->
  settled w' /\ reply response (w_store w').
Proof.
  intros Hw Hr. unfold respond. destruct received as [v|e].
  - rewrite (Hr v eq_refl). destruct (consume request_items pid uid gid w) as [[r|e] w1] eqn:Hc; intros [= <- <-];
      apply consume_settled in Hc as [Hw' Hres]; try done; (split; [done|]).
    + left. by apply Hres.
    + right. exists (JStr rid). split; [|by right]. destruct request_fields as (E & _). unfold assoc_default. by rewrite E.
  - intros [= <- <-]. split; [done|]. right. exists JNull. split; [done|by left].
Qed.

Lemma serve_settled a w r w' socket sent :
  settled w -> begins_frame request sent -> sk_sent (ac_socket a) = "" ->
  (forall data, inbound_bytes (sk_inbound (ac_socket a)) = Some data -> exists rest, sent = data +:+ rest) ->
  serve a w = (r, w', socket) ->
  settled w' /\ exists response, reply response (w_store w') /\ begins_frame response (sk_sent socket).
Proof.
  intros Hw Hsent Hnew Hin. unfold _serve_accepted_connection. set (d0 := {| _connection := ac_socket a; _deadline := _ |}).
  assert (Hnone : exists response, reply response (w_store w) /\ begins_frame response (sk_sent (ac_socket a))).
  { exists (error_response JNull). split; [right; exists JNull; split; [done|by left]|]. left. exact Hnew. }
  unfold serve_connection. destruct (ac_peercred a) as [[[pid uid] gid]|e]; [|by intros [= _ <- <-]].
  destruct (_read_json_line d0) as [received d1] eqn:Hread.
  assert (Hrec : forall v, received = Ok v -> v = JObj request_items).
  { intros v ->. apply read_ok in Hread as (data & Hp & Hv). rewrite <- request_sorted.
    apply (read_of_frame request sent data v); try done; [apply request_plain..|]. by apply Hin. }
  apply read_keeps_sent in Hread. destruct (respond _ _ _ _ received pid uid gid w) as [response w1] eqn:Hresp.
  apply respond_settled in Hresp as [Hw1 Hrep]; [|done|done].
  destruct (_write_json_line response _) as [r2 d2] eqn:Hwrite. intros [= _ <- <-].
  split; [done|]. exists response. split; [done|]. apply (deadline_write_sent response _ d2 r2 Hwrite).
  cbn [_connection sk_sent advance]. by rewrite Hread.
Qed.

Lemma reply_plain response s :
  reply response s -> float_free response = true /\ keys_unique response = true /\ is_dict response = true.
Proof. by intros [(record & _ & ->)|(id & -> & [-> | ->])]. Qed.

(** ** The client *)

Variable worker_machine : WorkerMachine.
Variable client : ApprovalControlClient.

#[local] Existing Instance Link_Network.
#[local] Instance link_network : Network Link := Link_Network read_schema report_semantics machine self server_timeout.

Definition link_ok (l : Link) : Prop := settled (lk_world l) /\ Forall faithful (lk_exchanges l).

Lemma dial_ok l r l' :
  link_dial l = (r, l') -> link_ok l ->
  link_ok l' /\
  match r with
  | Ok (_, k) => l' = l /\ exists x rest, lk_exchanges l = x :: rest /\ k = ex_client x
  | Raise _ => True
  end.
Proof.
  unfold link_dial. intros Hd Hl. destruct (lk_exchanges l) as [|x rest] eqn:El; [by injection Hd as <- <-|].
  destruct (ex_refused x); injection Hd as <- <-.
  - destruct Hl as [Hw Hx]. rewrite El in Hx. apply Forall_cons in Hx. split; [split; [done|apply Hx]|done].
  - split; [done|]. split; [done|]. by exists x, rest.
Qed.

Lemma answer_ok sent l inbound l' x rest :
  link_answer read_schema report_semantics machine self server_timeout sent l = (inbound, l') ->
  link_ok l -> lk_exchanges l = x :: rest -> begins_frame request sent ->
  link_ok l' /\
  exists response, reply response (w_store (lk_world l')) /\
    forall data v, inbound_bytes inbound = Some data -> parse_frame data = Ok v -> v = json_sort response.
Proof.
  unfold link_answer, link_ok. intros Ha [Hw Hx] El Hsent. rewrite El in Ha, Hx. apply Forall_cons in Hx as [Hfx Hrest].
  destruct (ex_served x).
  - destruct (serve _ _) as [[r w] socket] eqn:Hs. injection Ha as <- <-. cbn [lk_world lk_exchanges].
    apply (serve_settled _ _ _ _ _ sent) in Hs as (Hw' & response & Hrep & Hbeg); [|done|done|apply Hfx|apply Hfx].
    split; [done|]. exists response. split; [done|]. intros data v Hd Hp. apply Hfx in Hd.
    destruct (reply_plain _ _ Hrep) as (Hf & Hk & Hdict). by apply (read_of_frame response (sk_sent socket) data v).
  - injection Ha as <- <-. split; [done|]. exists (error_response JNull). split; [right; exists JNull; split; [done|by left]|].
    done.
Qed.

Lemma exchange_ok l r l' :
  _exchange worker_machine client request l = (r, l') -> link_ok l ->
  link_ok l' /\
  forall v, r = Ok v -> exists response, reply response (w_store (lk_world l')) /\ v = json_sort response.
Proof.
  unfold _exchange, eff_catch. intros He Hl.
  set (m := eff_bind dial _) in He.
  assert (Hm : forall r l', m l = (r, l') -> link_ok l' /\
    forall v, r = Ok v -> exists response, reply response (w_store (lk_world l')) /\ v = json_sort response).
  { clear He r l'. subst m. intros r l'. unfold eff_bind at 1. change (dial l) with (link_dial l).
    destruct (link_dial l) as [[[sockopt k]|e] l1] eqn:Hd; apply dial_ok in Hd as [Hl1 Hd]; try done;
      [|by intros [= <- <-]].
    destruct Hd as (-> & x & rest & El & ->). unfold eff_bind, eff_lift.
    destruct (_peer_credentials _ sockopt) as [[[pid uid] gid]|e]; [|by intros [= <- <-]].
    destruct (negb (uid =? _)); [by intros [= <- <-]|].
    destruct (_write_json_line request _) as [written k1] eqn:Hwrite.
    change (answer (sk_sent k1) l) with (link_answer read_schema report_semantics machine self server_timeout (sk_sent k1) l).
    destruct (link_answer _ _ _ _ _ (sk_sent k1) l) as [inbound l2] eqn:Ha.
    assert (Hnew : sk_sent (ex_client x) = "").
    { destruct Hl as [_ Hx]. rewrite El in Hx. apply Forall_cons in Hx as [Hx _]. apply Hx. }
    destruct (socket_write_sent request _ k1 written Hwrite Hnew) as [Hbeg _].
    destruct (answer_ok _ _ _ _ _ _ Ha Hl El Hbeg) as (Hl2 & response & Hrep & Hread).
    destruct written as [u|e]; [|by intros [= <- <-]]. intros [= <- <-]. split; [done|]. intros v Hv.
    exists response. split; [done|]. destruct (_read_json_line (set_inbound inbound k1)) as [rv k2] eqn:Hr. cbn [fst] in Hv.
    subst rv. apply read_ok in Hr as (data & Hp & Hparse). by apply (Hread data). }
  destruct (m l) as [[v|e] l1] eqn:Em; destruct (Hm _ _ eq_refl) as [Hl1 Hv]; [by injection He as <- <-|].
  destruct (is_os_error e); injection He as <- <-; done.
Qed.

Lemma attempts_ok n l r l' :
  attempts worker_machine client n request l = (r, l') -> link_ok l ->
  link_ok l' /\
  forall v, r = Ok v -> exists response, reply response (w_store (lk_world l')) /\ v = json_sort response.
Proof.
  revert l. induction n as [|n IH]; intros l; cbn [attempts]; [by intros [= <- <-]|]. unfold eff_catch. intros Ha Hl.
  destruct (_exchange worker_machine client request l) as [[v|e] l1] eqn:He; apply exchange_ok in He as [Hl1 Hv]; try done.
  - by injection Ha as <- <-.
  - destruct (is_transport_error e); [|by injection Ha as <- <-]. destruct n as [|n]; [by injection Ha as <- <-|].
    by apply (IH l1).
Qed.

Lemma check_binding_ok items name expected v :
  check_binding items name expected = Ok v -> assoc_default name items JNull = JStr v /\ expected = JStr v.
Proof.
  unfold check_binding. destruct (assoc_default name items JNull) as [| | | |s| |]; try done. intros Hv.
  guard_ok Hv. guard_ok Hv. injection Hv as <-. simpl_bool.
  match goal with E : str_is _ _ = true |- _ => by apply str_is_eq in E end.
Qed.

(** A response the client accepts is an answer to this request, for this plan. *)
Lemma check_response_ok items receipt :
  check_response items rid aid plan worker = Ok receipt ->
  assoc_default "ok" items JNull = JBool true /\
  assoc_default "authorization_id" items JNull = JStr (rc_authorization_id receipt) /\
  assoc_default "authorization_digest" items JNull = JStr (rc_authorization_digest receipt) /\
  (assoc_default "action_plan_id" items JNull = JStr (rc_action_plan_id receipt) /\
   plan_plan_id plan = JStr (rc_action_plan_id receipt)) /\
  (assoc_default "plan_digest" items JNull = JStr (rc_plan_digest receipt) /\
   plan_plan_digest plan = JStr (rc_plan_digest receipt)) /\
  (assoc_default "engagement_id" items JNull = JStr (rc_engagement_id receipt) /\
   plan_engagement_id plan = JStr (rc_engagement_id receipt)) /\
  (assoc_default "worker_identity" items JNull = JStr (rc_worker_identity receipt) /\ worker = rc_worker_identity receipt) /\
  (assoc_default "target" items JNull = JStr (rc_target receipt) /\ plan_target plan = JStr (rc_target receipt)).
Proof.
  unfold check_response. intros Hv. guard_ok Hv. guard_ok Hv. guard_ok Hv. guard_ok Hv. simpl_bool.
  destruct (assoc_default "authorization_digest" items JNull) as [| | | |dg| |]; try done. guard_ok Hv.
  apply res_bind_ok in Hv as (v1 & [B1 C1]%check_binding_ok & Hv).
  apply res_bind_ok in Hv as (v2 & [B2 C2]%check_binding_ok & Hv).
  apply res_bind_ok in Hv as (v3 & [B3 C3]%check_binding_ok & Hv).
  apply res_bind_ok in Hv as (v4 & [B4 C4]%check_binding_ok & Hv).
  apply res_bind_ok in Hv as (v5 & [B5 C5]%check_binding_ok & Hv). injection Hv as <-. injection C4 as C4.
  match goal with E : str_is _ aid = true |- _ => apply str_is_eq in E as Haid end.
  assert (Hok : assoc_default "ok" items JNull = JBool true).
  { destruct (assoc_default "ok" items JNull) as [|b| | | | |]; try discriminate. by destruct b. }
  split_and!; done.
Qed.

Definition receipt_of (record : ApprovalConsumptionRecord) : ApprovalConsumptionReceipt :=
  {| rc_authorization_id := cr_authorization_id record; rc_authorization_digest := cr_authorization_digest record;
     rc_action_plan_id := cr_action_plan_id record; rc_plan_digest := cr_plan_digest record;
     rc_engagement_id := cr_engagement_id record; rc_worker_identity := cr_worker_identity record;
     rc_target := cr_target record |}.

(** C8. A receipt is a verified consumption.  When the worker's client returns a
    receipt, over a connection that may refuse, delay, cut or lose what was sent and
    after however many attempts, and while other processes use the store: the store
    holds the record of this very request, the receipt is that record, it names the
    worker, plan, digest, engagement and target the worker asked for, and the record
    came into the store when the authority turned the named authorization, having found
    it approved and verified it for the plan, from approved to consumed.  The receipt is
    one that the client will vouch for. *)
Theorem worker_receipt_is_verified_consumption issued object_id l receipt issued' l' :
  shared (lk_world l) -> select_consumption rid (w_store (lk_world l)) = None -> Forall faithful (lk_exchanges l) ->
  consume_authorization worker_machine client rid object_id aid plan worker (issued, l) = (Ok receipt, (issued', l')) ->
  validate_receipt_provenance issued' receipt = Ok receipt /\
  exists record plan' auth s0 s1 s2,
    select_consumption rid (w_store (lk_world l')) = Some record /\ ro_receipt receipt = receipt_of record /\
    (plan_plan_id plan = JStr (cr_action_plan_id record) /\ plan_plan_digest plan = JStr (cr_plan_digest record) /\
     plan_engagement_id plan = JStr (cr_engagement_id record) /\ plan_target plan = JStr (cr_target record) /\
     worker = cr_worker_identity record /\ aid = cr_authorization_id record) /\
    from_dict read_schema report_semantics (json_sort (to_dict plan)) = Ok plan' /\
    get_authorization read_schema report_semantics s0 aid = Ok (inl auth) /\ verify_for plan' auth = Ok auth /\
    later s0 s1 /\ consumed_for machine self s1 s2 aid record /\ later s2 (w_store (lk_world l')).
Proof.
  intros Hw Hnone Hx. unfold consume_authorization.
  destruct (eff_bind _ _ l) as [[rc|e] l1] eqn:Hc; [|done]. intros [= <- <- <-].
  apply eff_bind_ok in Hc as ([] & l0 & [_ ->]%eff_lift_ok & Hc).
  apply eff_bind_ok in Hc as (response & l2 & Ha & [Hcheck ->]%eff_lift_ok).
  apply attempts_ok in Ha as [[[_ Hsettled] _] Hv]; [|by split; [split; [done|left]|]].
  destruct (Hv response eq_refl) as (reply' & Hrep & ->). split.
  { unfold validate_receipt_provenance. cbn [ro_id].
    pose proof (lookup_insert_eq (M := gmap Z) issued object_id {| ro_id := object_id; ro_receipt := rc |}) as Hl.
    unfold Issued in *. rewrite Hl. cbn [ro_id]. by rewrite Z.eqb_refl. }
  destruct Hrep as [(record & Hg & ->)|(id & -> & _)].
  - apply check_response_ok in Hcheck as (_ & E1 & E2 & [E3 P3] & [E4 P4] & [E5 P5] & [E6 P6] & [E7 P7]).
    change (JStr (cr_authorization_id record) = JStr (rc_authorization_id rc)) in E1.
    change (JStr (cr_authorization_digest record) = JStr (rc_authorization_digest rc)) in E2.
    change (JStr (cr_action_plan_id record) = JStr (rc_action_plan_id rc)) in E3.
    change (JStr (cr_plan_digest record) = JStr (rc_plan_digest rc)) in E4.
    change (JStr (cr_engagement_id record) = JStr (rc_engagement_id rc)) in E5.
    change (JStr (cr_worker_identity record) = JStr (rc_worker_identity rc)) in E6.
    change (JStr (cr_target record) = JStr (rc_target rc)) in E7.
    injection E1 as E1. injection E2 as E2. injection E3 as E3. injection E4 as E4. injection E5 as E5.
    injection E6 as E6. injection E7 as E7.
    destruct Hg as (_ & Hsel & Haid & plan' & auth & s0 & s1 & s2 & H1 & H2 & H3 & H4 & H5 & H6).
    exists record, plan', auth, s0, s1, s2. split; [done|]. cbn [ro_receipt]. split.
    { unfold receipt_of. rewrite E1, E2, E3, E4, E5, E6, E7. by destruct rc. }
    rewrite P3, P4, P5, P7, E3, E4, E5, E7, E6. split_and!; done.
  - apply check_response_ok in Hcheck as (Hok & _). vm_compute in Hok. discriminate Hok.
Qed.
End EndToEnd.

(** ** A worker that loses the first answer *)

#[local] Existing Instance control_host.

Definition new_socket (inbound : list Arrival) : Socket :=
  {| sk_now := 0; sk_timeout := 0; sk_inbound := inbound; sk_sendings := []; sk_sent := "" |}.

Definition whole (sent : string) : list Arrival :=
  [{| ar_delay := 1; ar_event := data sent |}; {| ar_delay := 1; ar_event := Eof |}].

(** Only the first [n] bytes arrive. *)
Definition cut (n : nat) (sent : string) : list Arrival := whole (take_str n sent).

Definition demo_exchange (to_client : string -> list Arrival) : Exchange :=
  {| ex_refused := false; ex_served := true; ex_client := new_socket []; ex_server := new_socket [];
     ex_client_sees := Ok (77, 1000, 1000); ex_server_sees := Ok (4242, 2000, 2000); ex_busy := 100;
     ex_to_server := whole; ex_to_client := to_client |}.

Definition demo_link : Link :=
  {| lk_world := control_world; lk_exchanges := [demo_exchange (cut 40); demo_exchange whole] |}.

Definition demo_worker : WorkerMachine :=
  {| wm_linux := true; wm_euid := 2000; wm_egid := 2000;
     wm_socket := Some {| nd_kind := NodeSocket; nd_uid := 1000; nd_gid := 2000; nd_mode := mode_socket |};
     wm_parent := Some {| nd_kind := NodeDir; nd_uid := 1000; nd_gid := 2000; nd_mode := mode_socket_dir |};
     wm_has_peercred := true |}.

Definition demo_client : ApprovalControlClient :=
  {| cl_expected_authority_uid := 1000; cl_worker_uid := None; cl_worker_gid := None; cl_timeout := 5000000 |}.

Lemma whole_bytes sent data : inbound_bytes (whole sent) = Some data -> data = sent.
Proof. destruct sent as [|c s]; [by intros [= <-]|]. simpl. intros [= <-]. by rewrite string_app_nil_r. Qed.

Lemma demo_faithful : Forall faithful (lk_exchanges demo_link).
Proof.
  assert (Hcut : forall n sent data, inbound_bytes (cut n sent) = Some data -> exists rest, sent = data +:+ rest).
  { intros n sent data ->%whole_bytes. exists (drop_str n sent). by rewrite take_drop_str. }
  assert (Hwhole : forall sent data, inbound_bytes (whole sent) = Some data -> exists rest, sent = data +:+ rest).
  { intros sent data ->%whole_bytes. exists "". by rewrite string_app_nil_r. }
  repeat constructor; try apply Hwhole. apply Hcut.
Qed.

Lemma worker_receipt_is_verified_consumption_witness : exists receipt issued' l' record,
  consume_authorization (H := control_host)
    (H0 := Link_Network any_schema no_reports control_machine control_authority 2000000)
    demo_worker demo_client control_request_id 1 "auth-0123456789abcdef" control_plan "worker-1"
    ((∅ : Issued), demo_link) = (Ok receipt, (issued', l')) /\
  select_consumption control_request_id (w_store (lk_world l')) = Some record /\ ro_receipt receipt = receipt_of record.
Proof.
  destruct (consume_authorization (H := control_host)
    (H0 := Link_Network any_schema no_reports control_machine control_authority 2000000)
    demo_worker demo_client control_request_id 1 "auth-0123456789abcdef" control_plan "worker-1"
    ((∅ : Issued), demo_link)) as [r [issued' l']] eqn:E.
  assert (Hok : is_ok r = true).
  { change r with (fst (r, (issued', l'))). rewrite <- E. vm_compute. reflexivity. }
  destruct r as [receipt|e]; [clear Hok|discriminate Hok].
  destruct (worker_receipt_is_verified_consumption any_schema no_reports control_machine control_authority 2000000
    control_request_id "auth-0123456789abcdef" "worker-1" control_plan
    ltac:(split; vm_compute; reflexivity) demo_worker demo_client ∅ 1 demo_link receipt issued' l'
    ltac:(constructor) ltac:(vm_compute; reflexivity) demo_faithful E)
    as (_ & record & _ & _ & _ & _ & _ & Hsel & Hrc & _).
  exists receipt, issued', l', record. split; [reflexivity|]. split; [exact Hsel|exact Hrc].
Defined.
