(* ===== verification/Budget.v ===== *)
(** * The assessment budget ledger: data and operations

    [src/cops/assessment_budget.py].  The SQLite database is a record of tables;
    [transaction] is the [_transaction] context manager with its savepoint, and
    every public method is one definition that runs a body in a transaction.
    The columns [request_json], [limits_json], [policy_json] and the receipts'
    [payload_json] hold the values whose canonical text the source stores and
    compares ([BudgetFacts] proves that the texts identify the values and that
    reading them back is the identity); the columns that hold a caller's mapping
    are texts.  File permissions and connection handling are not modelled. *)

From S2P Require Import Prelude PyStr Json JsonParse PyRegex Timestamp.

(** ** Validated values *)

Definition _ID : string := "^[A-Za-z0-9][A-Za-z0-9._:-]{0,127}$".
Definition _MAX_DISPATCH_INTENT_BYTES : Z := 64 * 1024.
Definition int64_max : Z := 2 ^ 63 - 1.
Definition _OUTCOMES : list string := ["completed"; "target_denied"; "runner_stopped"; "failed"; "cancelled"].

Definition _identifier (value field : string) : res unit :=
  raise_if negb (fullmatch _ID value) as ValueError msg field ;; Ok tt.

Definition _integer (value : Z) (field : string) (positive : bool) : res unit :=
  raise_if (value <? (if positive then 1 else 0)) || (int64_max <? value) as ValueError msg field ;; Ok tt.

(** [_timestamp_ms]; [astimezone(UTC)] subtracts the offset, and raises when the
    result is not a [datetime]. *)
Definition _timestamp_ms (value : option json) (field : string) : res Z :=
  match value with
  | Some (JStr s) =>
      match fromisoformat (replace_by "Z" "+00:00" s) with
      | Some (DateTime local (Some offset)) =>
          raise_if outside_datetime (unix_us local offset) as OverflowError msg "date value out of range" ;;
          let seconds := true_div (unix_us local offset) us_per_second in
          let milliseconds := float_trunc (float_mul seconds 1000) in
          raise_if (milliseconds <? 0) || (int64_max <? milliseconds) as ValueError msg field ;;
          Ok milliseconds
      | _ => raise ValueError field
      end
  | _ => raise ValueError field
  end.

Record BudgetLimits := {
  max_attempts : Z;
  max_estimated_tokens : Z;
  max_estimated_cost_microunits : Z;
  max_elapsed_ms : Z;
  max_concurrency : Z;
  max_retained_output_bytes : Z;
  max_depth : Z;
  max_children_per_parent : Z;
}.

#[export] Instance BudgetLimits_eq_dec : EqDecision BudgetLimits.
Proof. solve_decision. Defined.

Definition _LIMIT_FIELDS : list (string * (BudgetLimits -> Z)) := [
  ("max_attempts", max_attempts);
  ("max_estimated_tokens", max_estimated_tokens);
  ("max_estimated_cost_microunits", max_estimated_cost_microunits);
  ("max_elapsed_ms", max_elapsed_ms);
  ("max_concurrency", max_concurrency);
  ("max_retained_output_bytes", max_retained_output_bytes);
  ("max_depth", max_depth);
  ("max_children_per_parent", max_children_per_parent)].

(** [BudgetLimits.__post_init__]. *)
Definition BudgetLimits_init (l : BudgetLimits) : res unit :=
  for_each _LIMIT_FIELDS (fun '(field, get) => _integer (get l) field (negb (field == "max_depth"))).

Definition is_within (l parent : BudgetLimits) : bool :=
  forallb (fun '(_, get) => get l <=? get parent) _LIMIT_FIELDS.

Record BudgetPolicy := {
  engagement_id : string;
  limits : BudgetLimits;
  currency : string;
  price_source : string;
  price_version : string;
  price_effective_date : string;
  schema_version : string;
  price_error_policy : string;
}.

#[export] Instance BudgetPolicy_eq_dec : EqDecision BudgetPolicy.
Proof. solve_decision. Defined.

(** [BudgetPolicy.__post_init__]. *)
Definition BudgetPolicy_init (p : BudgetPolicy) : res unit :=
  _identifier (engagement_id p) "engagement_id" ;;?
  raise_if negb (fullmatch "[A-Z]{3}" (currency p)) as ValueError msg "currency" ;;
  _identifier (price_source p) "price_source" ;;?
  _identifier (price_version p) "price_version" ;;?
  raise_if negb (fullmatch "\d{4}-\d{2}-\d{2}" (price_effective_date p)) as ValueError msg "price_effective_date" ;;
  match date_fromisoformat (price_effective_date p) with
  | None => raise ValueError "price_effective_date"
  | Some _ =>
      raise_if negb (schema_version p == "cops.assessment-budget/v1") || negb (price_error_policy p == "deny")
        as ValueError msg "unsupported budget policy" ;;
      Ok tt
  end.

Record AttemptRequest := {
  attempt_id : string;
  parent_id : option string;
  estimated_tokens : Z;
  estimated_cost_microunits : Z;
  reserved_output_bytes : Z;
}.

#[export] Instance AttemptRequest_eq_dec : EqDecision AttemptRequest.
Proof. solve_decision. Defined.

(** [AttemptRequest.__post_init__]. *)
Definition AttemptRequest_init (r : AttemptRequest) : res unit :=
  _identifier (attempt_id r) "attempt_id" ;;?
  match parent_id r with
  | Some p =>
      _identifier p "parent_id" ;;?
      raise_if p == attempt_id r as ValueError msg "attempt cannot be its own parent" ;; Ok tt
  | None => Ok tt
  end ;;?
  _integer (estimated_tokens r) "estimated_tokens" false ;;?
  _integer (estimated_cost_microunits r) "estimated_cost_microunits" false ;;?
  _integer (reserved_output_bytes r) "reserved_output_bytes" false.

Record Receipt := {
  receipt_id : string;
  receipt_attempt_id : string;
  outcome : string;
  tokens : option Z;
  cost_microunits : option Z;
  retained_output_bytes : option Z;
}.

#[export] Instance Receipt_eq_dec : EqDecision Receipt.
Proof. solve_decision. Defined.

(** [Receipt.__post_init__]. *)
Definition Receipt_init (r : Receipt) : res unit :=
  _identifier (receipt_id r) "receipt_id" ;;?
  _identifier (receipt_attempt_id r) "attempt_id" ;;?
  raise_if negb (mem (outcome r) _OUTCOMES) as ValueError msg "outcome" ;;
  for_each [("tokens", tokens r); ("cost_microunits", cost_microunits r);
            ("retained_output_bytes", retained_output_bytes r)]
    (fun '(field, value) => match value with Some z => _integer z field false | None => Ok tt end).

(** All three usage figures are reported. *)
Definition known (r : Receipt) : bool :=
  bool_decide (is_Some (tokens r)) && bool_decide (is_Some (cost_microunits r)) &&
  bool_decide (is_Some (retained_output_bytes r)).

(** ** The tables *)

Inductive AState := Reserved | Dispatched | Uncertain | UsageUnknown | Settled | Released.

#[export] Instance AState_eq_dec : EqDecision AState.
Proof. solve_decision. Defined.

Definition _ACTIVE : list AState := [Reserved; Dispatched; Uncertain].
Definition _CHARGED : list AState := _ACTIVE ++ [UsageUnknown; Settled].

(** A row of [attempts] without its key. *)
Record Row := {
  row_request : AttemptRequest;
  row_limits : BudgetLimits;
  row_depth : Z;
  row_state : AState;
  actual_tokens : option Z;
  actual_cost_microunits : option Z;
  actual_output_bytes : option Z;
  row_outcome : option string;
  cancel_requested : bool;
}.

(** The columns copied out of the request when the row is inserted. *)
Definition row_parent (r : Row) : option string := parent_id (row_request r).

Definition set_state (s : AState) (r : Row) : Row :=
  {| row_request := row_request r; row_limits := row_limits r; row_depth := row_depth r;
     row_state := s; actual_tokens := actual_tokens r;
     actual_cost_microunits := actual_cost_microunits r; actual_output_bytes := actual_output_bytes r;
     row_outcome := row_outcome r; cancel_requested := cancel_requested r |}.

Record Prerequisite := {
  source_attempt_id : string;
  pre_payload : string;
  consumed_by_attempt_id : option string;
}.

Record Engagement := {
  eng_policy : BudgetPolicy;
  started_at_ms : Z;
  last_seen_ms : Z;
  cancelled : bool;
}.

Record Ledger := {
  engagement : option Engagement;
  attempts : gmap string Row;
  receipts : gmap string Receipt;
  prerequisites : gmap string Prerequisite;
  approvals : gmap string string;
  intents : gmap string string;
}.

Definition empty_ledger : Ledger :=
  {| engagement := None; attempts := ∅; receipts := ∅; prerequisites := ∅; approvals := ∅; intents := ∅ |}.

Definition set_engagement (e : Engagement) (db : Ledger) : Ledger :=
  {| engagement := Some e; attempts := attempts db; receipts := receipts db;
     prerequisites := prerequisites db; approvals := approvals db; intents := intents db |}.

Definition set_attempts (rows : gmap string Row) (db : Ledger) : Ledger :=
  {| engagement := engagement db; attempts := rows; receipts := receipts db;
     prerequisites := prerequisites db; approvals := approvals db; intents := intents db |}.

Definition set_receipts (rows : gmap string Receipt) (db : Ledger) : Ledger :=
  {| engagement := engagement db; attempts := attempts db; receipts := rows;
     prerequisites := prerequisites db; approvals := approvals db; intents := intents db |}.

Definition set_prerequisites (rows : gmap string Prerequisite) (db : Ledger) : Ledger :=
  {| engagement := engagement db; attempts := attempts db; receipts := receipts db;
     prerequisites := rows; approvals := approvals db; intents := intents db |}.

Definition set_approvals (rows : gmap string string) (db : Ledger) : Ledger :=
  {| engagement := engagement db; attempts := attempts db; receipts := receipts db;
     prerequisites := prerequisites db; approvals := rows; intents := intents db |}.

Definition set_intents (rows : gmap string string) (db : Ledger) : Ledger :=
  {| engagement := engagement db; attempts := attempts db; receipts := receipts db;
     prerequisites := prerequisites db; approvals := approvals db; intents := rows |}.

Definition see (now : Z) (e : Engagement) : Engagement :=
  {| eng_policy := eng_policy e; started_at_ms := started_at_ms e; last_seen_ms := now;
     cancelled := cancelled e |}.

(** The values the methods return. *)
Record Attempt := {
  att_id : string;
  att_parent : option string;
  att_state : AState;
  att_depth : Z;
}.

Record BudgetSnapshot := {
  charged_attempts : Z;
  charged_tokens : Z;
  charged_cost_microunits : Z;
  charged_output_bytes : Z;
  active_concurrency : Z;
  over_budget : bool;
}.

Record CancellationReport := {
  rep_attempt_id : string;
  requested : bool;
  stop_confirmed : bool;
  pending : bool;
  final_consumption_known : bool;
  rep_outcome : option string;
}.

Definition _attempt (id : string) (r : Row) : Attempt :=
  {| att_id := id; att_parent := row_parent r; att_state := row_state r; att_depth := row_depth r |}.

(** ** Accounting *)

Definition usage (state : AState) (actual : option Z) (estimated : Z) : res Z :=
  match state, actual with
  | Settled, Some reported => Ok reported
  | Settled, None => raise TypeError "sum"
  | _, Some reported => Ok (Z.max estimated reported)
  | _, None => Ok estimated
  end.

Definition is_charged (r : Row) : bool := mem (row_state r) _CHARGED.
Definition is_active (r : Row) : bool := mem (row_state r) _ACTIVE.

Definition usage_tokens (r : Row) : res Z :=
  usage (row_state r) (actual_tokens r) (estimated_tokens (row_request r)).
Definition usage_cost (r : Row) : res Z :=
  usage (row_state r) (actual_cost_microunits r) (estimated_cost_microunits (row_request r)).
Definition usage_output (r : Row) : res Z :=
  usage (row_state r) (actual_output_bytes r) (reserved_output_bytes (row_request r)).

Definition _charged (rows : list Row) : res BudgetSnapshot :=
  let charged := List.filter is_charged rows in
  let? ts := res_map usage_tokens charged in
  let? cs := res_map usage_cost charged in
  let? os := res_map usage_output charged in
  Ok {| charged_attempts := Z.of_nat (length charged);
        charged_tokens := sumZ id ts;
        charged_cost_microunits := sumZ id cs;
        charged_output_bytes := sumZ id os;
        active_concurrency := sumZ (fun r => if is_active r then 1 else 0) rows;
        over_budget := false |}.

Definition _within (s : BudgetSnapshot) (l : BudgetLimits) : bool :=
  (charged_attempts s <=? max_attempts l) &&
  (charged_tokens s <=? max_estimated_tokens l) &&
  (charged_cost_microunits s <=? max_estimated_cost_microunits l) &&
  (charged_output_bytes s <=? max_retained_output_bytes l) &&
  (active_concurrency s <=? max_concurrency l).

(** The rows a loop [while current is not None] over [parent_id] visits, from
    [id] upwards; [fuel] bounds their number. *)
Fixpoint chain (fuel : nat) (rows : gmap string Row) (id : option string) : res (list (string * Row)) :=
  match id with
  | None => Ok []
  | Some i =>
      match rows !! i with
      | None => Ok []
      | Some r =>
          match fuel with
          | O => raise OutOfFuel "chain"
          | S fuel => let? rest := chain fuel rows (row_parent r) in Ok ((i, r) :: rest)
          end
      end
  end.

(** A row at depth [d] has [d] ancestors. *)
Definition lineage (rows : gmap string Row) (id : string) : res (list (string * Row)) :=
  chain (match rows !! id with Some r => S (Z.to_nat (row_depth r)) | None => O end) rows (Some id).

Definition _descends_from (rows : gmap string Row) (id ancestor_id : string) : res bool :=
  let? path := lineage rows id in Ok (mem ancestor_id (map fst path)).

Fixpoint res_filter {A} (p : A -> res bool) (xs : list A) : res (list A) :=
  match xs with
  | [] => Ok []
  | x :: xs' => let? b := p x in let? ys := res_filter p xs' in Ok (if b then x :: ys else ys)
  end.

(** ** Operations *)

(** A reading of the caller's clock: [None] when it raises. *)
Definition _now (clock : option Z) : res Z :=
  match clock with
  | None => raise BudgetStoreError "clock unavailable"
  | Some value =>
      raise_if (value <? 0) || (int64_max <? value) as BudgetStoreError msg "clock returned an invalid timestamp" ;;
      Ok value
  end.

(** [with self._transaction() as (db, engagement, now): body]; a body that raises
    is rolled back to the savepoint, which already holds the new clock mark. *)
Definition transaction {A} (policy : BudgetPolicy) (clock : option Z) (db : Ledger)
    (body : Ledger -> Engagement -> Z -> res (Ledger * A)) : Ledger * res A :=
  match engagement db with
  | None => (db, raise BudgetStoreError "budget policy or engagement missing")
  | Some e =>
      if negb (eng_policy e == policy) then (db, raise BudgetStoreError "budget policy or engagement missing")
      else
        match _now clock with
        | Raise err => (db, Raise err)
        | Ok now =>
            if now <? last_seen_ms e then (db, raise BudgetStoreError "clock moved backward")
            else
              let db := set_engagement (see now e) db in
              match body db e now with
              | Ok (db', a) => (db', Ok a)
              | Raise err => (db, Raise err)
              end
        end
  end.

(** [AssessmentBudgetLedger.__init__] on an existing or a new file. *)
Definition open_ledger (policy : BudgetPolicy) (clock : option Z) (db : Ledger) : Ledger * res unit :=
  match _now clock with
  | Raise err => (db, Raise err)
  | Ok now =>
      match engagement db with
      | None =>
          (set_engagement {| eng_policy := policy; started_at_ms := now; last_seen_ms := now; cancelled := false |} db,
           Ok tt)
      | Some e =>
          if negb (eng_policy e == policy) then (db, raise BudgetStoreError "ledger policy mismatch")
          else if now <? last_seen_ms e then (db, raise BudgetStoreError "clock moved backward")
          else
            let db := set_engagement (see now e) db in
            (set_attempts ((fun r => if row_state r == Dispatched then set_state Uncertain r else r) <$> attempts db) db,
             Ok tt)
      end
  end.

(** [INSERT INTO attempts]: the primary key and the foreign key. *)
Definition insert_attempt (id : string) (r : Row) (db : Ledger) : res Ledger :=
  raise_if bool_decide (is_Some (attempts db !! id)) as BudgetStoreError msg "UNIQUE" ;;
  raise_if match row_parent r with
           | Some p => negb ((p == id) || bool_decide (is_Some (attempts db !! p)))
           | None => false
           end as BudgetStoreError msg "FOREIGN KEY" ;;
  Ok (set_attempts (<[id := r]> (attempts db)) db).

Section Operations.
Context `{Host}.
Variable policy : BudgetPolicy.

Definition sibling_count (rows : gmap string Row) (parent : string) : Z :=
  Z.of_nat (length (List.filter (fun '(_, r) => row_parent r == Some parent) (map_to_list rows))).

Definition elapsed (e : Engagement) (now : Z) : Z := now - started_at_ms e.

(** The branch of [reserve] for an attempt id that is already in the ledger. *)
Definition reserve_existing (db : Ledger) (request : AttemptRequest) (child_limits : option BudgetLimits)
    (existing : Row) : res Attempt :=
  let? inherited :=
    match row_parent existing with
    | None => Ok (limits policy)
    | Some p =>
        match attempts db !! p with
        | None => raise BudgetStoreError "attempt parent missing"
        | Some parent_row => Ok (row_limits parent_row)
        end
    end in
  raise_if negb (row_request existing == request) ||
           negb (row_limits existing == default inherited child_limits)
    as BudgetDenied msg "conflicting attempt id reuse" ;;
  Ok (_attempt (attempt_id request) existing).

(** The parent row of a request and the chain of its ancestors, none of them released. *)
Definition reserve_ancestors (db : Ledger) (request : AttemptRequest)
    : res (option Row * list (string * Row)) :=
  match parent_id request with
  | None => Ok (None, [])
  | Some p =>
      match attempts db !! p with
      | None => raise BudgetDenied "parent attempt unavailable"
      | Some parent =>
          raise_if row_state parent == Released as BudgetDenied msg "parent attempt unavailable" ;;
          let? ancestors := lineage (attempts db) p in
          for_each ancestors (fun '(_, current) =>
            raise_if row_state current == Released as BudgetDenied msg "parent attempt unavailable" ;; Ok tt) ;;?
          Ok (Some parent, ancestors)
      end
  end.

(** [self._within(self._charged(rows), limits)]. *)
Definition check_within (rows : list Row) (l : BudgetLimits) (message : string) : res unit :=
  let? s := _charged rows in
  raise_if negb (_within s l) as BudgetDenied msg message ;; Ok tt.

Definition rows_of (m : gmap string Row) : list Row := map snd (map_to_list m).

(** The rows for which [self._descends_from(row, ancestor, by_id)]. *)
Definition subtree (rows : gmap string Row) (ancestor : string) : res (list Row) :=
  let? members := res_filter (fun '(i, _) => _descends_from rows i ancestor) (map_to_list rows) in
  Ok (map snd members).

Definition new_row (request : AttemptRequest) (effective : BudgetLimits) (depth : Z) : Row :=
  {| row_request := request; row_limits := effective; row_depth := depth; row_state := Reserved;
     actual_tokens := None; actual_cost_microunits := None; actual_output_bytes := None;
     row_outcome := None; cancel_requested := false |}.

Definition reserve (clock : option Z) (db : Ledger) (request : AttemptRequest)
    (child_limits : option BudgetLimits) : Ledger * res Attempt :=
  transaction policy clock db (fun db e now =>
    match attempts db !! attempt_id request with
    | Some existing => let? a := reserve_existing db request child_limits existing in Ok (db, a)
    | None =>
        raise_if cancelled e as BudgetDenied msg "engagement cancelled" ;;
        raise_if max_elapsed_ms (limits policy) <? elapsed e now as BudgetDenied msg "budget deadline expired" ;;
        let? (parent, ancestors) := reserve_ancestors db request in
        let parent_limits := match parent with Some p => row_limits p | None => limits policy end in
        let effective := default parent_limits child_limits in
        raise_if negb (is_within effective parent_limits) as BudgetDenied msg "child limits widen parent" ;;
        raise_if match parent_id request with
                 | Some p => max_children_per_parent parent_limits <=? sibling_count (attempts db) p
                 | None => false
                 end as BudgetDenied msg "child fanout limit reached" ;;
        let depth := match parent with Some p => row_depth p + 1 | None => 0 end in
        raise_if (max_depth (limits policy) <? depth) ||
                 existsb (fun '(_, a) => max_depth (row_limits a) <? depth - row_depth a) ancestors
          as BudgetDenied msg "child depth limit reached" ;;
        for_each ancestors (fun '(_, a) =>
          raise_if max_elapsed_ms (row_limits a) <? elapsed e now as BudgetDenied msg "subtree deadline expired" ;;
          Ok tt) ;;?
        let row := new_row request effective depth in
        let? db := insert_attempt (attempt_id request) row db in
        check_within (rows_of (attempts db)) (limits policy) "aggregate budget exceeded" ;;?
        for_each ancestors (fun '(i, a) =>
          let? rows := subtree (attempts db) i in
          check_within rows (row_limits a) "subtree budget exceeded") ;;?
        check_within [row] effective "attempt exceeds child budget" ;;?
        Ok (db, _attempt (attempt_id request) row)
    end).

Definition get_attempt (clock : option Z) (db : Ledger) (id : string) : Ledger * res Attempt :=
  match _identifier id "attempt_id" with
  | Raise err => (db, Raise err)
  | Ok _ =>
      transaction policy clock db (fun db _ _ =>
        match attempts db !! id with
        | None => raise BudgetDenied "attempt not found"
        | Some row => Ok (db, _attempt id row)
        end)
  end.

Definition get_dispatch_intent (clock : option Z) (db : Ledger) (id : string) : Ledger * res json :=
  match _identifier id "attempt_id" with
  | Raise err => (db, Raise err)
  | Ok _ =>
      transaction policy clock db (fun db _ _ =>
        match intents db !! id with
        | None => raise BudgetDenied "dispatch intent not found"
        | Some text =>
            raise_if loads_recurses text as RecursionError msg "while decoding a JSON object" ;;
            match loads text with
            | Ok payload =>
                raise_if negb (is_dict payload) as BudgetStoreError msg "dispatch intent is malformed" ;;
                Ok (db, payload)
            | Raise err =>
                if is_value_error err then raise BudgetStoreError "dispatch intent is malformed" else Raise err
            end
        end)
  end.

(** [_canonical] of a caller's mapping; an integer too long to print is a [ValueError]. *)
Definition _canonical (value : json) : res string :=
  raise_if dumps_recurses value as RecursionError msg "while encoding a JSON object" ;;
  raise_if negb (printable value) as ValueError msg "int string conversion" ;; Ok (dumps true value).

(** The optional arguments of [mark_dispatched]: a dispatch intent is the items
    of a mapping. *)
Record DispatchArgs := {
  approval_receipt_id : option string;
  dispatch_intent : option (list (string * json));
  prerequisite_receipt_id : option string;
  expected_prerequisite : option (list (string * json));
}.

Definition no_dispatch_args : DispatchArgs :=
  {| approval_receipt_id := None; dispatch_intent := None; prerequisite_receipt_id := None;
     expected_prerequisite := None |}.

Definition same_presence {A B} (a : option A) (b : option B) : bool :=
  Bool.eqb (bool_decide (is_Some a)) (bool_decide (is_Some b)).

(** The approval window and the stored text of a dispatch intent. *)
Definition check_intent (items : list (string * json)) : res (Z * Z * string) :=
  let? issued := _timestamp_ms (assoc "approval_issued_at" items) "approval_issued_at" in
  let? expires := _timestamp_ms (assoc "approval_expires_at" items) "approval_expires_at" in
  raise_if expires <=? issued as ValueError msg "invalid dispatch approval window" ;;
  let? payload := _canonical (JObj items) in
  raise_if _MAX_DISPATCH_INTENT_BYTES <? slen payload as ValueError msg "dispatch intent exceeds size limit" ;;
  Ok (issued, expires, payload).

(** The checks before the transaction: the window and text of the intent, and
    the text of the expected prerequisite. *)
Definition check_dispatch (id : string) (args : DispatchArgs)
    : res (option (Z * Z * string) * option string) :=
  _identifier id "attempt_id" ;;?
  match approval_receipt_id args with
  | Some receipt => _identifier receipt "approval_receipt_id"
  | None => Ok tt
  end ;;?
  raise_if negb (same_presence (approval_receipt_id args) (dispatch_intent args))
    as ValueError msg "approval receipt and dispatch intent must be supplied together" ;;
  let? intent :=
    match dispatch_intent args with
    | Some items => let? checked := check_intent items in Ok (Some checked)
    | None => Ok None
    end in
  raise_if negb (same_presence (prerequisite_receipt_id args) (expected_prerequisite args))
    as ValueError msg "prerequisite receipt and payload must be supplied together" ;;
  match prerequisite_receipt_id args, expected_prerequisite args with
  | Some receipt, Some items =>
      _identifier receipt "prerequisite_receipt_id" ;;?
      let? payload := _canonical (JObj items) in
      Ok (intent, Some payload)
  | _, _ => Ok (intent, None)
  end.

(** Consume the validation prerequisite [receipt] for attempt [id]. *)
Definition consume_prerequisite (id receipt : string) (expected : string) (db : Ledger) : res Ledger :=
  match prerequisites db !! receipt with
  | None => raise BudgetDenied "validation prerequisite is missing or does not match"
  | Some p =>
      raise_if negb (pre_payload p == expected)
        as BudgetDenied msg "validation prerequisite is missing or does not match" ;;
      raise_if bool_decide (is_Some (consumed_by_attempt_id p))
        as BudgetDenied msg "validation prerequisite was already consumed" ;;
      Ok (set_prerequisites
            (<[receipt := {| source_attempt_id := source_attempt_id p; pre_payload := pre_payload p;
                             consumed_by_attempt_id := Some id |}]> (prerequisites db)) db)
  end.

(** Record the use of an approval receipt: its primary key and [UNIQUE] column. *)
Definition consume_approval (id receipt : string) (db : Ledger) : res Ledger :=
  raise_if bool_decide (is_Some (approvals db !! receipt))
    as BudgetDenied msg "approval receipt was already consumed" ;;
  raise_if mem id (map snd (map_to_list (approvals db))) as BudgetStoreError msg "UNIQUE" ;;
  Ok (set_approvals (<[receipt := id]> (approvals db)) db).

Definition insert_intent (id payload : string) (db : Ledger) : res Ledger :=
  raise_if bool_decide (is_Some (intents db !! id)) as BudgetStoreError msg "UNIQUE" ;;
  Ok (set_intents (<[id := payload]> (intents db)) db).

(** [UPDATE attempts SET ... WHERE attempt_id = id]. *)
Definition update_attempt (id : string) (f : Row -> Row) (db : Ledger) : Ledger :=
  set_attempts (alter f id (attempts db)) db.

(** Every row from the attempt up to its root is live and within its deadline. *)
Definition check_lineage (e : Engagement) (now : Z) (path : list (string * Row)) : res unit :=
  for_each path (fun '(_, current) =>
    raise_if row_state current == Released as BudgetDenied msg "ancestor attempt unavailable" ;;
    raise_if max_elapsed_ms (row_limits current) <? elapsed e now as BudgetDenied msg "subtree deadline expired" ;;
    Ok tt).

Definition mark_dispatched (clock : option Z) (db : Ledger) (id : string) (args : DispatchArgs)
    : Ledger * res Attempt :=
  match check_dispatch id args with
  | Raise err => (db, Raise err)
  | Ok (intent, expected) =>
      transaction policy clock db (fun db e now =>
        match attempts db !! id with
        | None => raise BudgetDenied "attempt not found"
        | Some row =>
            raise_if cancelled e as BudgetDenied msg "engagement cancelled" ;;
            raise_if max_elapsed_ms (limits policy) <? elapsed e now as BudgetDenied msg "budget deadline expired" ;;
            raise_if negb (row_state row == Reserved) as BudgetDenied msg "attempt is not reserved" ;;
            let? path := lineage (attempts db) id in
            check_lineage e now path ;;?
            raise_if match intent with
                     | Some (issued, expires, _) => negb ((issued <=? now) && (now <? expires))
                     | None => false
                     end as BudgetDenied msg "dispatch approval is not currently valid" ;;
            let? db :=
              match prerequisite_receipt_id args, expected with
              | Some receipt, Some payload => consume_prerequisite id receipt payload db
              | _, _ => Ok db
              end in
            let? db :=
              match approval_receipt_id args with
              | Some receipt => consume_approval id receipt db
              | None => Ok db
              end in
            let? db :=
              match intent with
              | Some (_, _, payload) => insert_intent id payload db
              | None => Ok db
              end in
            Ok (update_attempt id (set_state Dispatched) db, _attempt id (set_state Dispatched row))
        end)
  end.

Definition mark_uncertain (clock : option Z) (db : Ledger) (id : string) : Ledger * res Attempt :=
  match _identifier id "attempt_id" with
  | Raise err => (db, Raise err)
  | Ok _ =>
      transaction policy clock db (fun db _ _ =>
        match attempts db !! id with
        | None => raise BudgetDenied "no dispatch intent to mark uncertain"
        | Some row =>
            raise_if negb (mem (row_state row) [Dispatched; Uncertain])
              as BudgetDenied msg "no dispatch intent to mark uncertain" ;;
            Ok (update_attempt id (set_state Uncertain) db, _attempt id (set_state Uncertain row))
        end)
  end.

Definition release_undispatched (clock : option Z) (db : Ledger) (id : string) : Ledger * res Attempt :=
  match _identifier id "attempt_id" with
  | Raise err => (db, Raise err)
  | Ok _ =>
      transaction policy clock db (fun db _ _ =>
        match attempts db !! id with
        | None => raise BudgetDenied "attempt may be in flight"
        | Some row =>
            raise_if negb (mem (row_state row) [Reserved; Released]) as BudgetDenied msg "attempt may be in flight" ;;
            let? live :=
              res_filter (fun '(i, candidate) =>
                if negb (i == id) && negb (row_state candidate == Released)
                then _descends_from (attempts db) i id else Ok false) (map_to_list (attempts db)) in
            raise_if negb (Nat.eqb (length live) 0) as BudgetDenied msg "attempt has live descendants" ;;
            Ok (update_attempt id (set_state Released) db, _attempt id (set_state Released row))
        end)
  end.

(** The receipt id and the payload text of the validation prerequisite a caller
    of [reconcile] supplies, checked before the transaction. *)
Definition check_prerequisite (receipt : Receipt) (pid : option string) (payload : option (list (string * json)))
    : res (option (string * string)) :=
  raise_if negb (same_presence pid payload)
    as ValueError msg "validation prerequisite id and payload must be supplied together" ;;
  match pid, payload with
  | Some pid, Some items =>
      _identifier pid "validation_prerequisite_id" ;;?
      let? text := _canonical (JObj items) in
      raise_if negb (outcome receipt == "completed")
        as ValueError msg "only a completed attempt can establish a validation prerequisite" ;;
      Ok (Some (pid, text))
  | _, _ => Ok None
  end.

Definition prerequisite_matches (p : Prerequisite) (source text : string) : bool :=
  (source_attempt_id p == source) && (pre_payload p == text).

(** A receipt may only complete the figures an earlier revision left open. *)
Definition conflicting_revision (row : Row) (receipt : Receipt) : bool :=
  let differs (column field : option Z) := bool_decide (is_Some column) && negb (column == field) in
  (row_state row == UsageUnknown) &&
  (negb (Some (outcome receipt) == row_outcome row) ||
   differs (actual_tokens row) (tokens receipt) ||
   differs (actual_cost_microunits row) (cost_microunits receipt) ||
   differs (actual_output_bytes row) (retained_output_bytes receipt)).

(** Record the prerequisite of an attempt: the primary key, the unique index on
    the source and the foreign key. *)
Definition establish_prerequisite (source pid text : string) (db : Ledger) : res Ledger :=
  match prerequisites db !! pid with
  | Some existing =>
      raise_if negb (prerequisite_matches existing source text)
        as BudgetDenied msg "conflicting validation prerequisite" ;;
      Ok db
  | None =>
      raise_if mem source (map (fun '(_, p) => source_attempt_id p) (map_to_list (prerequisites db)))
        as BudgetDenied msg "attempt already established a validation prerequisite" ;;
      Ok (set_prerequisites
            (<[pid := {| source_attempt_id := source; pre_payload := text;
                         consumed_by_attempt_id := None |}]> (prerequisites db)) db)
  end.

Definition reconciled_state (receipt : Receipt) : AState := if known receipt then Settled else UsageUnknown.

Definition reconciled_row (receipt : Receipt) (row : Row) : Row :=
  {| row_request := row_request row; row_limits := row_limits row; row_depth := row_depth row;
     row_state := reconciled_state receipt; actual_tokens := tokens receipt;
     actual_cost_microunits := cost_microunits receipt; actual_output_bytes := retained_output_bytes receipt;
     row_outcome := Some (outcome receipt); cancel_requested := cancel_requested row |}.

(** [INSERT INTO receipts]. *)
Definition insert_receipt (receipt : Receipt) (db : Ledger) : res Ledger :=
  raise_if bool_decide (is_Some (receipts db !! receipt_id receipt)) as BudgetStoreError msg "UNIQUE" ;;
  Ok (set_receipts (<[receipt_id receipt := receipt]> (receipts db)) db).

Definition reconcile (clock : option Z) (db : Ledger) (receipt : Receipt) (pid : option string)
    (payload : option (list (string * json))) : Ledger * res Attempt :=
  match check_prerequisite receipt pid payload with
  | Raise err => (db, Raise err)
  | Ok pre =>
      transaction policy clock db (fun db _ _ =>
        let duplicate := receipts db !! receipt_id receipt in
        raise_if match duplicate with Some stored => negb (stored == receipt) | None => false end
          as BudgetDenied msg "conflicting receipt id reuse" ;;
        match attempts db !! receipt_attempt_id receipt with
        | None => raise BudgetDenied "attempt not found"
        | Some row =>
            match duplicate with
            | Some _ =>
                raise_if match pre with
                         | Some (pid, text) =>
                             match prerequisites db !! pid with
                             | Some existing => negb (prerequisite_matches existing (receipt_attempt_id receipt) text)
                             | None => true
                             end
                         | None => false
                         end as BudgetDenied msg "duplicate receipt cannot establish a validation prerequisite" ;;
                Ok (db, _attempt (receipt_attempt_id receipt) row)
            | None =>
                raise_if negb (mem (row_state row) [Dispatched; Uncertain; UsageUnknown])
                  as BudgetDenied msg "conflicting terminal receipt" ;;
                raise_if conflicting_revision row receipt as BudgetDenied msg "conflicting receipt revision" ;;
                raise_if match retained_output_bytes receipt with
                         | Some bytes => reserved_output_bytes (row_request row) <? bytes
                         | None => false
                         end as BudgetDenied msg "retained output exceeds reservation" ;;
                let? db :=
                  match pre with
                  | Some (pid, text) => establish_prerequisite (receipt_attempt_id receipt) pid text db
                  | None => Ok db
                  end in
                let db := update_attempt (receipt_attempt_id receipt) (reconciled_row receipt) db in
                let? db := insert_receipt receipt db in
                Ok (db, _attempt (receipt_attempt_id receipt) (reconciled_row receipt row))
            end
        end)
  end.

(** [reconciliation_is_durable]: a read-only connection, no clock. *)
Definition reconciliation_is_durable (db : Ledger) (receipt : Receipt) (pid : option string)
    (payload : option (list (string * json))) : res bool :=
  let? pre := check_prerequisite receipt pid payload in
  raise_if match engagement db with Some e => negb (eng_policy e == policy) | None => true end
    as BudgetStoreError msg "budget policy or engagement missing" ;;
  Ok (match receipts db !! receipt_id receipt with
      | None => false
      | Some stored =>
          (receipt_attempt_id stored == receipt_attempt_id receipt) && (stored == receipt) &&
          match attempts db !! receipt_attempt_id receipt with
          | None => false
          | Some row =>
              (row_state row == reconciled_state receipt) && (actual_tokens row == tokens receipt) &&
              (actual_cost_microunits row == cost_microunits receipt) &&
              (actual_output_bytes row == retained_output_bytes receipt) &&
              (row_outcome row == Some (outcome receipt)) &&
              match pre with
              | Some (pid, text) =>
                  match prerequisites db !! pid with
                  | Some p => prerequisite_matches p (receipt_attempt_id receipt) text &&
                              (consumed_by_attempt_id p == None)
                  | None => false
                  end
              | None =>
                  negb (mem (receipt_attempt_id receipt)
                          (map (fun '(_, p) => source_attempt_id p) (map_to_list (prerequisites db))))
              end
          end
      end).

(** The three [UPDATE] statements of [cancel] on one row. *)
Definition cancel_row (r : Row) : Row :=
  let r :=
    if is_active r
    then {| row_request := row_request r; row_limits := row_limits r; row_depth := row_depth r;
            row_state := row_state r; actual_tokens := actual_tokens r;
            actual_cost_microunits := actual_cost_microunits r; actual_output_bytes := actual_output_bytes r;
            row_outcome := row_outcome r; cancel_requested := true |}
    else r in
  if row_state r == Reserved then set_state Released r else r.

Definition cancel (clock : option Z) (db : Ledger) : Ledger * res unit :=
  transaction policy clock db (fun db e now =>
    let db := set_engagement {| eng_policy := eng_policy e; started_at_ms := started_at_ms e;
                                last_seen_ms := now; cancelled := true |} db in
    Ok (set_attempts (cancel_row <$> attempts db) db, tt)).

Definition cancellation_report (clock : option Z) (db : Ledger) (id : string) : Ledger * res CancellationReport :=
  match _identifier id "attempt_id" with
  | Raise err => (db, Raise err)
  | Ok _ =>
      transaction policy clock db (fun db _ _ =>
        match attempts db !! id with
        | None => raise BudgetDenied "attempt not found"
        | Some row =>
            let requested := cancel_requested row in
            let final := mem (row_state row) [Released; Settled] in
            let confirmed :=
              requested &&
              ((row_state row == Released) ||
               match row_outcome row with
               | Some o => mem o ["runner_stopped"; "cancelled"]
               | None => false
               end) in
            Ok (db, {| rep_attempt_id := id; requested := requested; stop_confirmed := confirmed;
                       pending := requested && negb final; final_consumption_known := final;
                       rep_outcome := row_outcome row |})
        end)
  end.

Definition snapshot (clock : option Z) (db : Ledger) : Ledger * res BudgetSnapshot :=
  transaction policy clock db (fun db _ _ =>
    let? s := _charged (rows_of (attempts db)) in
    Ok (db, {| charged_attempts := charged_attempts s; charged_tokens := charged_tokens s;
               charged_cost_microunits := charged_cost_microunits s;
               charged_output_bytes := charged_output_bytes s; active_concurrency := active_concurrency s;
               over_budget := negb (_within s (limits policy)) |})).

Definition remaining_elapsed_ms (clock : option Z) (db : Ledger) (id : option string) : Ledger * res Z :=
  match match id with Some i => _identifier i "attempt_id" | None => Ok tt end with
  | Raise err => (db, Raise err)
  | Ok _ =>
      transaction policy clock db (fun db e now =>
        let remaining := max_elapsed_ms (limits policy) - elapsed e now in
        match id with
        | None => Ok (db, Z.max 0 remaining)
        | Some i =>
            raise_if negb (bool_decide (is_Some (attempts db !! i))) as BudgetDenied msg "attempt not found" ;;
            let? path := lineage (attempts db) i in
            Ok (db, Z.max 0 (foldl (fun acc '(_, r) => Z.min acc (max_elapsed_ms (row_limits r) - elapsed e now))
                               remaining path))
        end)
  end.

(** [dispatch_fixture]: [callback] receives the ledger through its cancellation
    signal; [clock1] to [clock4] are the readings of the reservation, the
    dispatch, the reconciliation and the fallback. *)
Definition dispatch_fixture (clock1 clock2 clock3 clock4 : option Z) (db : Ledger) (request : AttemptRequest)
    (callback : Ledger -> Ledger * res Receipt) : Ledger * res Attempt :=
  let uncertain db err :=
    match mark_uncertain clock4 db (attempt_id request) with
    | (db, Ok _) => (db, Raise err)
    | (db, Raise err') => (db, Raise err')
    end in
  match reserve clock1 db request None with
  | (db, Raise err) => (db, Raise err)
  | (db, Ok _) =>
      match mark_dispatched clock2 db (attempt_id request) no_dispatch_args with
      | (db, Raise err) => (db, Raise err)
      | (db, Ok _) =>
          match callback db with
          | (db, Raise err) => uncertain db err
          | (db, Ok receipt) =>
              if negb (receipt_attempt_id receipt == attempt_id request)
              then uncertain db (Exc BudgetDenied "receipt attempt mismatch")
              else
                match reconcile clock3 db receipt None None with
                | (db, Ok a) => (db, Ok a)
                | (db, Raise err) => uncertain db err
                end
          end
      end
  end.

(** ** Histories *)

(** A call of one public method with the clock reading it makes. *)
Inductive Op :=
| OpOpen
| OpReserve (request : AttemptRequest) (child_limits : option BudgetLimits)
| OpGet (id : string)
| OpIntent (id : string)
| OpDispatch (id : string) (args : DispatchArgs)
| OpUncertain (id : string)
| OpRelease (id : string)
| OpReconcile (receipt : Receipt) (pid : option string) (payload : option (list (string * json)))
| OpCancel
| OpReport (id : string)
| OpSnapshot
| OpRemaining (id : option string).

Definition void {A} (r : Ledger * res A) : Ledger * res unit :=
  (fst r, let? _ := snd r in Ok tt).

Definition exec (op : Op) (clock : option Z) (db : Ledger) : Ledger * res unit :=
  match op with
  | OpOpen => open_ledger policy clock db
  | OpReserve request child => void (reserve clock db request child)
  | OpGet id => void (get_attempt clock db id)
  | OpIntent id => void (get_dispatch_intent clock db id)
  | OpDispatch id args => void (mark_dispatched clock db id args)
  | OpUncertain id => void (mark_uncertain clock db id)
  | OpRelease id => void (release_undispatched clock db id)
  | OpReconcile receipt pid payload => void (reconcile clock db receipt pid payload)
  | OpCancel => cancel clock db
  | OpReport id => void (cancellation_report clock db id)
  | OpSnapshot => void (snapshot clock db)
  | OpRemaining id => void (remaining_elapsed_ms clock db id)
  end.

(** The dataclass arguments of a call passed their [__post_init__]. *)
Definition op_valid (op : Op) : Prop :=
  match op with
  | OpReserve request child =>
      AttemptRequest_init request = Ok tt /\ (forall l, child = Some l -> BudgetLimits_init l = Ok tt)
  | OpReconcile receipt _ _ => Receipt_init receipt = Ok tt
  | _ => True
  end.

(** The ledgers any history of calls, failed ones included, can produce. *)
Inductive reachable : Ledger -> Prop :=
| reach_empty : reachable empty_ledger
| reach_step db op clock : reachable db -> op_valid op -> reachable (fst (exec op clock db)).

Fixpoint run (ops : list (Op * Z)) (db : Ledger) : Ledger :=
  match ops with
  | [] => db
  | (op, now) :: ops' => run ops' (fst (exec op (Some now) db))
  end.
End Operations.
