(* ===== verification/BudgetFacts.v ===== *)
(** * The assessment budget ledger: its transition system and invariants

    Every method of the ledger refines [step], an abstract transition system on
    the tables; the invariants are proved on [step].  The sums of the accounting
    code are [total] and [tree] of a measure on rows. *)

From S2P Require Import Prelude PyStr Json JsonParse PyRegex Timestamp Budget.

(** ** Measures *)

Definition value_of (r : res Z) : Z := match r with Ok z => z | Raise _ => 0 end.
Definition charge_count (r : Row) : Z := if is_charged r then 1 else 0.
Definition charge_tokens (r : Row) : Z := if is_charged r then value_of (usage_tokens r) else 0.
Definition charge_cost (r : Row) : Z := if is_charged r then value_of (usage_cost r) else 0.
Definition charge_output (r : Row) : Z := if is_charged r then value_of (usage_output r) else 0.
Definition active_count (r : Row) : Z := if is_active r then 1 else 0.

Definition msum (f : string -> Row -> Z) (rows : gmap string Row) : Z := sumZ (uncurry f) (map_to_list rows).
Definition total (m : Row -> Z) (rows : gmap string Row) : Z := msum (fun _ => m) rows.

(** [i] is [a] or has it among its ancestors. *)
Definition descends (rows : gmap string Row) (i a : string) : bool :=
  match _descends_from rows i a with Ok b => b | Raise _ => false end.

Definition tree (rows : gmap string Row) (a : string) (m : Row -> Z) : Z :=
  msum (fun i r => if descends rows i a then m r else 0) rows.

(** Tokens and cost up to what was reserved: a receipt may report more. *)
Definition capped_tokens (r : Row) : Z := Z.min (charge_tokens r) (estimated_tokens (row_request r)).
Definition capped_cost (r : Row) : Z := Z.min (charge_cost r) (estimated_cost_microunits (row_request r)).

(** The bounds that hold at all times, and all those checked at admission. *)
Definition held (sum : (Row -> Z) -> Z) (l : BudgetLimits) : Prop :=
  sum charge_count <= max_attempts l /\ sum charge_output <= max_retained_output_bytes l /\
  sum active_count <= max_concurrency l /\ sum capped_tokens <= max_estimated_tokens l /\
  sum capped_cost <= max_estimated_cost_microunits l.

Definition fits (sum : (Row -> Z) -> Z) (l : BudgetLimits) : Prop :=
  held sum l /\ sum charge_tokens <= max_estimated_tokens l /\
  sum charge_cost <= max_estimated_cost_microunits l.

Lemma msum_insert f i r rows : rows !! i = None -> msum f (<[i := r]> rows) = f i r + msum f rows.
Proof. intros Hi. unfold msum. by rewrite (sumZ_perm _ _ _ (map_to_list_insert rows i r Hi)). Qed.

Lemma msum_le f g rows rows' :
  (forall i, match rows !! i, rows' !! i with
             | Some r, Some r' => g i r' <= f i r
             | None, None => True
             | _, _ => False
             end) -> msum g rows' <= msum f rows.
Proof.
  revert rows'. induction rows as [|i r rows Hi IH] using map_ind; intros rows' Hle.
  - assert (rows' = ∅) as ->; [|done]. apply map_eq. intros i. specialize (Hle i).
    rewrite lookup_empty in Hle |- *. by destruct (rows' !! i).
  - pose proof (Hle i) as Hr. rewrite lookup_insert_eq in Hr.
    destruct (rows' !! i) as [r'|] eqn:Hi'; [|done].
    rewrite <- (insert_delete_id rows' i r'), !msum_insert by (done || apply lookup_delete_eq).
    enough (msum g (delete i rows') <= msum f rows) by lia. apply IH. intros j. specialize (Hle j).
    destruct (decide (i = j)) as [<-|Hj].
    + by rewrite lookup_delete_eq, Hi.
    + by rewrite lookup_delete_ne, lookup_insert_ne in * by done.
Qed.

Lemma msum_ext f g rows : (forall i r, rows !! i = Some r -> f i r = g i r) -> msum f rows = msum g rows.
Proof.
  intros Heq. apply Z.le_antisymm; apply msum_le; intros i; destruct (rows !! i) as [r|] eqn:E; try done;
    by rewrite (Heq i r E).
Qed.

Lemma msum_nonneg f rows : (forall i r, rows !! i = Some r -> 0 <= f i r) -> 0 <= msum f rows.
Proof.
  intros Hf. apply sumZ_nonneg. intros [i r] Hin. apply Hf, elem_of_map_to_list, list_elem_of_In, Hin.
Qed.

(** ** The accounting code *)

Lemma res_map_sum (f : Row -> res Z) rows vs :
  res_map f (List.filter is_charged rows) = Ok vs ->
  sumZ id vs = sumZ (fun r => if is_charged r then value_of (f r) else 0) rows.
Proof.
  revert vs. induction rows as [|r rows IH]; intros vs H; simpl in *; [by injection H as <-|].
  destruct (is_charged r); [|by rewrite (IH vs H)]. simpl in H.
  apply res_bind_ok in H as (v & Hv & (vs' & Hvs & [= <-])%res_bind_ok).
  simpl. by rewrite (IH vs' Hvs), Hv.
Qed.

Lemma length_filter_charged rows : Z.of_nat (length (List.filter is_charged rows)) = sumZ charge_count rows.
Proof. unfold charge_count. induction rows as [|r rows IH]; simpl; [done|]. destruct (is_charged r); simpl; lia. Qed.

Lemma charged_sums rows s : _charged rows = Ok s ->
  charged_attempts s = sumZ charge_count rows /\ charged_tokens s = sumZ charge_tokens rows /\
  charged_cost_microunits s = sumZ charge_cost rows /\ charged_output_bytes s = sumZ charge_output rows /\
  active_concurrency s = sumZ active_count rows.
Proof.
  unfold _charged. intros (ts & Ht & (cs & Hc & (os & Ho & [= <-])%res_bind_ok)%res_bind_ok)%res_bind_ok. simpl.
  by rewrite length_filter_charged, (res_map_sum _ _ _ Ht), (res_map_sum _ _ _ Hc), (res_map_sum _ _ _ Ho).
Qed.

Lemma check_within_fits rows l message : check_within rows l message = Ok tt -> fits (fun m => sumZ m rows) l.
Proof.
  unfold check_within. intros (s & Hs & H)%res_bind_ok. guard_ok H.
  apply charged_sums in Hs as (E1 & E2 & E3 & E4 & E5). unfold _within in *. simpl_bool.
  assert (sumZ capped_tokens rows <= sumZ charge_tokens rows) by (apply sumZ_mono; unfold capped_tokens; lia).
  assert (sumZ capped_cost rows <= sumZ charge_cost rows) by (apply sumZ_mono; unfold capped_cost; lia).
  unfold fits, held. lia.
Qed.

Lemma rows_of_total m rows : sumZ m (rows_of rows) = total m rows.
Proof.
  unfold rows_of, total, msum. rewrite sumZ_map. induction (map_to_list rows) as [|[i r] l IH]; simpl; [done|].
  by rewrite IH.
Qed.

Lemma res_filter_sum {A} (p : A -> res bool) (f : A -> Z) xs ys :
  res_filter p xs = Ok ys ->
  sumZ f ys = sumZ (fun x => match p x with Ok true => f x | _ => 0 end) xs.
Proof.
  revert ys. induction xs as [|x xs IH]; intros ys H; simpl in *; [by injection H as <-|].
  apply res_bind_ok in H as (b & Hb & (ys' & Hys & [= <-])%res_bind_ok). rewrite Hb, <- (IH ys' Hys).
  by destruct b.
Qed.

Lemma subtree_tree m rows a l : subtree rows a = Ok l -> sumZ m l = tree rows a m.
Proof.
  unfold subtree, tree, msum. intros (ys & Hys & [= <-])%res_bind_ok.
  rewrite sumZ_map, (res_filter_sum _ _ _ _ Hys). clear Hys. unfold descends.
  induction (map_to_list rows) as [|[i r] xs IH]; simpl; [done|].
  rewrite IH. by destruct (_descends_from rows i a) as [[]|].
Qed.

(** ** Ancestry *)

Definition ids_of (path : res (list (string * Row))) : res (list string) :=
  let? p := path in Ok (map fst p).

Lemma descends_ids rows i a :
  descends rows i a = match ids_of (lineage rows i) with Ok ids => mem a ids | Raise _ => false end.
Proof. unfold descends, _descends_from. by destruct (lineage rows i). Qed.

(** The part of the rows the walks over [parent_id] depend on. *)
Definition same_shape (rows rows' : gmap string Row) : Prop :=
  forall i, (fun r => (row_parent r, row_depth r)) <$> rows !! i = (fun r => (row_parent r, row_depth r)) <$> rows' !! i.

Lemma same_shape_chain rows rows' fuel id :
  same_shape rows rows' -> ids_of (chain fuel rows id) = ids_of (chain fuel rows' id).
Proof.
  intros Hs. revert id. induction fuel as [|fuel IH]; intros [i|]; try done; simpl; specialize (Hs i);
    destruct (rows !! i) as [r|], (rows' !! i) as [r'|]; try done.
  simpl in Hs. injection Hs as Hp _. rewrite Hp. specialize (IH (row_parent r')).
  by destruct (chain fuel rows _), (chain fuel rows' _); simplify_eq/=; rewrite ?IH.
Qed.

Lemma same_shape_descends rows rows' i a : same_shape rows rows' -> descends rows i a = descends rows' i a.
Proof.
  intros Hs. rewrite !descends_ids. unfold lineage. rewrite (same_shape_chain _ _ _ _ Hs).
  specialize (Hs i). destruct (rows !! i) as [r|], (rows' !! i) as [r'|]; try done.
  simpl in Hs. by injection Hs as _ ->.
Qed.

(** Every row hangs below its parent, one level deeper. *)
Definition forest (rows : gmap string Row) : Prop :=
  forall i r, rows !! i = Some r ->
    match row_parent r with
    | None => row_depth r = 0
    | Some p => exists rp, rows !! p = Some rp /\ row_depth r = row_depth rp + 1
    end /\ 0 <= row_depth r.

Section Forest.
Context (rows : gmap string Row) (Hforest : forest rows).

Lemma chain_total fuel i r :
  rows !! i = Some r -> (Z.to_nat (row_depth r) < fuel)%nat -> exists path, chain fuel rows (Some i) = Ok ((i, r) :: path).
Proof.
  revert i r. induction fuel as [|fuel IH]; intros i r Hi Hd; [lia|]. simpl. rewrite Hi.
  destruct (Hforest i r Hi) as [Hp Hnn]. destruct (row_parent r) as [p|].
  - destruct Hp as (rp & Hrp & Hd'). destruct (Hforest p rp Hrp) as [_ Hnn'].
    destruct (IH p rp Hrp ltac:(lia)) as (path & ->). by eexists.
  - exists []. by destruct fuel.
Qed.

Lemma lineage_total i r : rows !! i = Some r -> exists path, lineage rows i = Ok ((i, r) :: path).
Proof. intros Hi. unfold lineage. rewrite Hi. apply (chain_total _ i r); [done|lia]. Qed.

Lemma chain_more fuel fuel' id path :
  chain fuel rows id = Ok path -> (fuel <= fuel')%nat -> chain fuel' rows id = Ok path.
Proof.
  revert fuel' id path. induction fuel as [|fuel IH]; intros [|fuel'] [i|] path H Hle; try done; try lia;
    simpl in *; destruct (rows !! i) as [r|]; try done.
  apply res_bind_ok in H as (rest & Hrest & [= <-]). by rewrite (IH fuel' _ _ Hrest) by lia.
Qed.

(** The chain of a row is the row and the chain of its parent. *)
Lemma lineage_cons i r path : rows !! i = Some r -> lineage rows i = Ok path ->
  match row_parent r with
  | None => path = [(i, r)]
  | Some p => exists rest, lineage rows p = Ok rest /\ path = (i, r) :: rest
  end.
Proof.
  intros Hi Hl. unfold lineage in Hl. rewrite Hi in Hl. simpl in Hl. rewrite Hi in Hl.
  apply res_bind_ok in Hl as (rest & Hrest & [= <-]).
  destruct (Hforest i r Hi) as [Hp Hnn]. destruct (row_parent r) as [p|].
  - destruct Hp as (rp & Hrp & Hd). exists rest. split; [|done].
    destruct (lineage_total p rp Hrp) as (path & Hpath). rewrite Hpath. f_equal.
    unfold lineage in Hpath. rewrite Hrp in Hpath. apply (chain_more _ (Z.to_nat (row_depth r))) in Hpath; [|].
    + congruence.
    + destruct (Hforest p rp Hrp). lia.
  - by destruct (Z.to_nat (row_depth r)); injection Hrest as <-.
Qed.

Lemma chain_member fuel id path i r :
  chain fuel rows id = Ok path -> In (i, r) path -> rows !! i = Some r.
Proof.
  revert id path. induction fuel as [|fuel IH]; intros [j|] path H Hin; simpl in H; simplify_eq/=; try done;
    destruct (rows !! j) as [rj|] eqn:Hj; simplify_eq/=; try done.
  apply res_bind_ok in H as (rest & Hrest & [= <-]). destruct Hin as [[= <- <-]|Hin]; [done|]. by eapply IH.
Qed.

Lemma lineage_member j path i r : lineage rows j = Ok path -> In (i, r) path -> rows !! i = Some r.
Proof. apply chain_member. Qed.

Lemma descends_present i r : rows !! i = Some r -> descends rows i i = true.
Proof.
  intros Hi. rewrite descends_ids. destruct (lineage_total i r Hi) as (path & ->). simpl.
  unfold mem. simpl. by rewrite eqb_refl.
Qed.

Lemma descends_in i a r : rows !! i = Some r -> descends rows i a = true -> is_Some (rows !! a).
Proof.
  intros Hi. rewrite descends_ids. destruct (lineage_total i r Hi) as (path & E). rewrite E.
  unfold ids_of. cbn [res_bind]. intros Hm. apply mem_In in Hm.
  apply in_map_iff in Hm as ([j rj] & <- & Hin). apply (lineage_member _ _ _ _ E) in Hin. by exists rj.
Qed.

(** Adding a leaf below [p]. *)
Context (n : string) (x : Row) (Hfresh : rows !! n = None).

Lemma chain_insert fuel id path :
  (forall i, id = Some i -> is_Some (rows !! i)) -> chain fuel rows id = Ok path ->
  chain fuel (<[n := x]> rows) id = Ok path.
Proof.
  revert id path. induction fuel as [|fuel IH]; intros [i|] path Hid H; try done.
  - simpl in *. destruct (Hid i eq_refl) as [r Hr]. by rewrite Hr in H.
  - simpl in *. destruct (Hid i eq_refl) as [r Hr]. rewrite Hr in H.
    rewrite lookup_insert_ne, Hr by congruence. apply res_bind_ok in H as (rest & Hrest & [= <-]).
    rewrite (IH _ rest); [done| |done]. intros p Hp.
    destruct (Hforest i r Hr) as [Hpar _]. rewrite Hp in Hpar. destruct Hpar as (rp & ? & _). by exists rp.
Qed.

Lemma descends_insert i r a : rows !! i = Some r -> descends (<[n := x]> rows) i a = descends rows i a.
Proof.
  intros Hi. destruct (lineage_total i r Hi) as (path & E). unfold descends, _descends_from.
  replace (lineage (<[n := x]> rows) i) with (lineage rows i); [done|]. rewrite E. symmetry.
  unfold lineage in E |- *. rewrite lookup_insert_ne, Hi in * by congruence.
  apply chain_insert; [intros ? [= <-]; by exists r | done].
Qed.

Hypothesis Hleaf :
  match row_parent x with
  | None => row_depth x = 0
  | Some p => exists rp, rows !! p = Some rp /\ row_depth x = row_depth rp + 1
  end.

Lemma descends_new a :
  descends (<[n := x]> rows) n a = (a == n) || match row_parent x with Some p => descends rows p a | None => false end.
Proof.
  unfold descends, _descends_from. unfold lineage at 1. rewrite lookup_insert_eq. cbn [chain].
  rewrite lookup_insert_eq. destruct (row_parent x) as [p|].
  - destruct Hleaf as (rp & Hrp & Hd). destruct (lineage_total p rp Hrp) as (path & E). rewrite E.
    destruct (Hforest p rp Hrp) as [_ Hnn].
    rewrite (chain_insert _ (Some p) ((p, rp) :: path)); [done|intros ? [= <-]; by exists rp|].
    unfold lineage in E. rewrite Hrp in E. apply (chain_more _ _ _ _ E). lia.
  - destruct (Z.to_nat (row_depth x)); simpl; by rewrite orb_false_r.
Qed.

Lemma forest_insert : forest (<[n := x]> rows).
Proof.
  intros i r. destruct (decide (i = n)) as [->|Hne].
  - rewrite lookup_insert_eq. intros [= <-]. destruct (row_parent x) as [p|]; [|lia].
    destruct Hleaf as (rp & Hrp & Hd). destruct (Hforest p rp Hrp). split; [|lia].
    exists rp. rewrite lookup_insert_ne by congruence. done.
  - rewrite lookup_insert_ne by congruence. intros Hi. destruct (Hforest i r Hi) as [Hp Hnn]. split; [|done].
    destruct (row_parent r) as [p|]; [|done]. destruct Hp as (rp & Hrp & Hd). exists rp.
    rewrite lookup_insert_ne by congruence. done.
Qed.

Lemma tree_insert a m :
  tree (<[n := x]> rows) a m = (if descends (<[n := x]> rows) n a then m x else 0) + tree rows a m.
Proof.
  unfold tree. rewrite msum_insert by done. f_equal. apply msum_ext. intros i r Hi.
  by rewrite (descends_insert i r).
Qed.

(** Nothing descends from an id that is not in the ledger. *)
Lemma tree_absent a m : rows !! a = None -> tree rows a m = 0.
Proof.
  intros Ha. unfold tree. rewrite (msum_ext _ (fun _ _ => 0)).
  - unfold msum. induction (map_to_list rows) as [|[i r] l IH]; [done|]. exact IH.
  - intros i r Hi. destruct (descends rows i a) eqn:E; [|done].
    apply (descends_in i a r Hi) in E as [? ?]. congruence.
Qed.
End Forest.

(** The ancestors of a row, itself included, are the rows on its chain. *)
Lemma descends_path rows i a ra path :
  lineage rows i = Ok path -> descends rows i a = true -> rows !! a = Some ra -> In (a, ra) path.
Proof.
  intros Hl Hd Ha. rewrite descends_ids, Hl in Hd. unfold ids_of in Hd. cbn [res_bind] in Hd.
  apply mem_In, in_map_iff in Hd as ([a' ra'] & Ea & Hin). simpl in Ea. subst a'.
  apply (lineage_member _ _ _ _ _ Hl) in Hin as Hra. by assert (ra' = ra) as <- by congruence.
Qed.

Lemma forest_shape rows rows' : same_shape rows rows' -> forest rows -> forest rows'.
Proof.
  intros Hs Hf i r' Hi. pose proof (Hs i) as Hsi. rewrite Hi in Hsi.
  destruct (rows !! i) as [r|] eqn:Hr; [|done]. injection Hsi as Hp Hd. destruct (Hf i r Hr) as [H1 H2].
  rewrite <- Hp, <- Hd. split; [|done]. destruct (row_parent r) as [p|]; [|done].
  destruct H1 as (rp & Hrp & H1). pose proof (Hs p) as Hsp. rewrite Hrp in Hsp.
  destruct (rows' !! p) as [rp'|] eqn:E; [|done]. injection Hsp as _ Hdp. exists rp'. split; [done|congruence].
Qed.

(** ** The transition system *)

(** The ways one row changes. *)
Inductive row_step (r : Row) : Row -> Prop :=
| rs_stay : row_step r r
| rs_dispatch : row_state r = Reserved -> row_step r (set_state Dispatched r)
| rs_uncertain : row_state r = Dispatched \/ row_state r = Uncertain -> row_step r (set_state Uncertain r)
| rs_release : row_state r = Reserved \/ row_state r = Released -> row_step r (set_state Released r)
| rs_reconcile receipt :
    row_state r = Dispatched \/ row_state r = Uncertain \/ row_state r = UsageUnknown ->
    Receipt_init receipt = Ok tt -> conflicting_revision r receipt = false ->
    (forall b, retained_output_bytes receipt = Some b -> b <= reserved_output_bytes (row_request r)) ->
    row_step r (reconciled_row receipt r)
| rs_cancel : row_step r (cancel_row r).

(** A transaction that passed the policy and clock checks: the ledger its body runs on. *)
Definition opened (policy : BudgetPolicy) (db : Ledger) (e : Engagement) (now : Z) (db' : Ledger) : Prop :=
  engagement db = Some e /\ eng_policy e = policy /\ last_seen_ms e <= now /\ 0 <= now <= int64_max /\
  db' = set_engagement (see now e) db.

(** The conditions of an admission, with the chain of ancestors and the depth. *)
Record admissible (policy : BudgetPolicy) (e : Engagement) (now : Z) (rows : gmap string Row)
    (request : AttemptRequest) (effective : BudgetLimits) (path : list (string * Row)) (depth : Z) : Prop := {
  adm_request : AttemptRequest_init request = Ok tt;
  adm_fresh : rows !! attempt_id request = None;
  adm_live : cancelled e = false;
  adm_deadline : elapsed e now <= max_elapsed_ms (limits policy);
  adm_depth : depth <= max_depth (limits policy);
  adm_limits :
    BudgetLimits_init effective = Ok tt \/
    match parent_id request with
    | None => effective = limits policy
    | Some p => exists rp, rows !! p = Some rp /\ effective = row_limits rp
    end;
  adm_parent :
    match parent_id request with
    | None => path = [] /\ depth = 0 /\ is_within effective (limits policy) = true
    | Some p =>
        exists rp, rows !! p = Some rp /\ lineage rows p = Ok path /\ depth = row_depth rp + 1 /\
          is_within effective (row_limits rp) = true /\
          sibling_count rows p < max_children_per_parent (row_limits rp)
    end;
  adm_path : forall i a, In (i, a) path ->
    row_state a <> Released /\ depth - row_depth a <= max_depth (row_limits a) /\
    elapsed e now <= max_elapsed_ms (row_limits a) /\
    fits (tree (<[attempt_id request := new_row request effective depth]> rows) i) (row_limits a);
  adm_total : fits (fun m => total m (<[attempt_id request := new_row request effective depth]> rows)) (limits policy);
  adm_own : fits (fun m => m (new_row request effective depth)) effective;
}.

Inductive step (policy : BudgetPolicy) (db : Ledger) : Ledger -> Prop :=
| st_stay : step policy db db
| st_create now : engagement db = None -> 0 <= now <= int64_max ->
    step policy db (set_engagement {| eng_policy := policy; started_at_ms := now; last_seen_ms := now;
                                      cancelled := false |} db)
| st_seen e now db' : opened policy db e now db' -> step policy db db'
| st_recover e now db' : opened policy db e now db' ->
    step policy db
      (set_attempts ((fun r => if row_state r == Dispatched then set_state Uncertain r else r) <$> attempts db') db')
| st_admit e now db' request effective path depth : opened policy db e now db' ->
    admissible policy e now (attempts db) request effective path depth ->
    step policy db (set_attempts (<[attempt_id request := new_row request effective depth]> (attempts db')) db')
| st_dispatch e now db' id r intent expected args db1 db2 db3 : opened policy db e now db' ->
    attempts db !! id = Some r -> row_state r = Reserved -> cancelled e = false ->
    elapsed e now <= max_elapsed_ms (limits policy) ->
    (forall path, lineage (attempts db) id = Ok path -> check_lineage e now path = Ok tt) ->
    (forall issued expires text, intent = Some (issued, expires, text) -> issued <= now < expires) ->
    match prerequisite_receipt_id args, expected with
    | Some receipt, Some payload => consume_prerequisite id receipt payload db' = Ok db1
    | _, _ => db1 = db'
    end ->
    match approval_receipt_id args with
    | Some receipt => consume_approval id receipt db1 = Ok db2
    | None => db2 = db1
    end ->
    match intent with
    | Some (_, _, payload) => insert_intent id payload db2 = Ok db3
    | None => db3 = db2
    end ->
    step policy db (update_attempt id (set_state Dispatched) db3)
| st_update e now db' id r f : opened policy db e now db' -> attempts db !! id = Some r ->
    (f = set_state Uncertain /\ (row_state r = Dispatched \/ row_state r = Uncertain)) \/
    (f = set_state Released /\ (row_state r = Reserved \/ row_state r = Released) /\
     forall i c, attempts db !! i = Some c -> i <> id -> row_state c <> Released ->
       descends (attempts db) i id = false) ->
    step policy db (update_attempt id f db')
| st_reconcile e now db' receipt r pre db1 db2 : opened policy db e now db' ->
    attempts db !! receipt_attempt_id receipt = Some r -> row_step r (reconciled_row receipt r) ->
    row_state r = Dispatched \/ row_state r = Uncertain \/ row_state r = UsageUnknown ->
    match pre with
    | Some (pid, text) => establish_prerequisite (receipt_attempt_id receipt) pid text db' = Ok db1
    | None => db1 = db'
    end ->
    insert_receipt receipt (update_attempt (receipt_attempt_id receipt) (reconciled_row receipt) db1) = Ok db2 ->
    step policy db db2
| st_cancel e now db' : opened policy db e now db' ->
    step policy db
      (set_attempts (cancel_row <$> attempts db')
         (set_engagement {| eng_policy := eng_policy e; started_at_ms := started_at_ms e;
                            last_seen_ms := now; cancelled := true |} db')).

(** ** The methods refine it *)

Lemma _now_ok clock now : _now clock = Ok now -> 0 <= now <= int64_max.
Proof. destruct clock; simpl; [|done]. intros H. guard_ok H. injection H as <-. simpl_bool. lia. Qed.

(** A transaction runs its body on the opened ledger, or leaves at most the clock mark. *)
Lemma transaction_result {A} policy clock db (body : Ledger -> Engagement -> Z -> res (Ledger * A)) db' r :
  transaction policy clock db body = (db', r) ->
  match r with
  | Ok a => exists e now db0, opened policy db e now db0 /\ clock = Some now /\ body db0 e now = Ok (db', a)
  | Raise _ => db' = db \/ exists e now, opened policy db e now db'
  end.
Proof.
  unfold transaction. destruct (engagement db) as [e|] eqn:He; [|intros [= <- <-]; by left].
  destruct (eng_policy e == policy) eqn:Hp; simpl; [|intros [= <- <-]; by left]. simpl_bool.
  destruct (_now clock) as [now|err] eqn:Hnow; [|intros [= <- <-]; by left].
  destruct (now <? last_seen_ms e) eqn:Hlast; [intros [= <- <-]; by left|].
  assert (Ho : opened policy db e now (set_engagement (see now e) db)).
  { repeat split; try done; simpl_bool; try lia; by eapply _now_ok. }
  destruct (body _ e now) as [[db'' a]|err] eqn:Hb; intros [= <- <-]; [|right; by exists e, now].
  exists e, now, (set_engagement (see now e) db). split; [done|]. split; [|done].
  destruct clock; simpl in Hnow; [|done]. guard_ok Hnow. by injection Hnow as <-.
Qed.

Lemma transaction_step {A} policy clock db (body : Ledger -> Engagement -> Z -> res (Ledger * A)) :
  (forall e now db' db'' a, opened policy db e now db' -> body db' e now = Ok (db'', a) -> step policy db db'') ->
  step policy db (fst (transaction policy clock db body)).
Proof.
  intros Hbody. destruct (transaction policy clock db body) as [db' [a|err]] eqn:E; apply transaction_result in E; simpl.
  - destruct E as (e & now & db0 & Ho & _ & Hb). by eapply Hbody.
  - destruct E as [->|(e & now & Ho)]; [apply st_stay|by eapply st_seen].
Qed.

Lemma opened_attempts policy db e now db' : opened policy db e now db' -> attempts db' = attempts db.
Proof. by intros (_ & _ & _ & _ & ->). Qed.

(** A body that only reads. *)
Lemma read_step {A} policy clock db (body : Ledger -> Engagement -> Z -> res (Ledger * A)) :
  (forall e now db' db'' a, body db' e now = Ok (db'', a) -> db'' = db') ->
  step policy db (fst (transaction policy clock db body)).
Proof.
  intros Hread. apply transaction_step. intros e now db' db'' a Ho Hb. rewrite (Hread _ _ _ _ _ Hb).
  by eapply st_seen.
Qed.

Lemma guarded_step {A} policy db db' (r : res A) : step policy db db' -> step policy db (fst (db', r)).
Proof. done. Qed.

#[local] Opaque AttemptRequest_init Receipt_init _identifier int64_max.

Section Refinement.
Context `{Host}.
Variable policy : BudgetPolicy.

(** Peel the guards and binds of a successful body. *)
Ltac body H :=
  repeat (first
    [ progress inv_ok
    | guard_ok H
    | progress cbn [fst snd] in H
    | match type of H with
      | (let (_, _) := ?x in _) = Ok _ => destruct x
      end ]).

Lemma for_each_In {A} (xs : list A) (f : A -> res unit) x : for_each xs f = Ok tt -> In x xs -> f x = Ok tt.
Proof. rewrite for_each_ok, list.Forall_forall. intros Hf Hin. by apply Hf, list_elem_of_In. Qed.

Lemma insert_attempt_ok id r db db' : insert_attempt id r db = Ok db' ->
  attempts db !! id = None /\ db' = set_attempts (<[id := r]> (attempts db)) db.
Proof.
  unfold insert_attempt. intros Hi. body Hi. split; [|done].
  apply bool_decide_eq_false in Heqb. by apply eq_None_not_Some.
Qed.

(** A successful [reserve] finds the attempt in the ledger or admits it. *)
Lemma reserve_admits clock db request child db'' a :
  AttemptRequest_init request = Ok tt -> (forall l, child = Some l -> BudgetLimits_init l = Ok tt) ->
  reserve policy clock db request child = (db'', Ok a) ->
  exists e now db', opened policy db e now db' /\ clock = Some now /\
    ((is_Some (attempts db !! attempt_id request) /\ db'' = db') \/
     exists effective path depth, admissible policy e now (attempts db) request effective path depth /\
       db'' = set_attempts (<[attempt_id request := new_row request effective depth]> (attempts db')) db').
Proof.
  intros Hreq Hchild (e & now & db' & Ho & Hclock & Hb)%transaction_result. exists e, now, db'. split; [done|]. split; [done|].
  rewrite (opened_attempts _ _ _ _ _ Ho) in Hb. destruct (attempts db !! attempt_id request) eqn:Hfresh.
  { apply res_bind_ok in Hb as (? & _ & [= <- _]). left. split; [by eexists|done]. }
  right. destruct (cancelled e) eqn:Hc; [done|]. destruct (max_elapsed_ms _ <? _) eqn:Hel; [done|].
  apply res_bind_ok in Hb as ([parent path] & Hpath & Hb).
  cbv zeta in Hb.
  set (plim := match parent with Some p => row_limits p | None => limits policy end) in Hb.
  set (eff := default plim child) in Hb.
  destruct (negb (is_within eff plim)) eqn:Hw; [done|].
  destruct (match parent_id request with Some p => _ | None => false end) eqn:Hsib; [done|].
  set (depth := match parent with Some p => row_depth p + 1 | None => 0 end) in Hb.
  destruct (_ || existsb _ path) eqn:Hdepth; [done|].
  apply res_bind_ok in Hb as ([] & Hel2 & Hb). apply res_bind_ok in Hb as (db1 & Hins & Hb).
  apply insert_attempt_ok in Hins as [_ ->]. rewrite (opened_attempts _ _ _ _ _ Ho) in *.
  apply res_bind_ok in Hb as ([] & Htot & Hb). apply res_bind_ok in Hb as ([] & Hsub & Hb).
  apply res_bind_ok in Hb as ([] & Hown & [= <- _]).
  exists eff, path, depth. simpl in *. split; [|by rewrite <- (opened_attempts _ _ _ _ _ Ho)].
  simpl_bool. constructor; [done..|lia|lia| | | | | ].
  - unfold eff. destruct child as [l|]; [left; by apply Hchild|]. right. simpl. unfold plim.
    unfold reserve_ancestors in Hpath. destruct (parent_id request) as [p|]; [|by injection Hpath as <- _].
    rewrite (opened_attempts _ _ _ _ _ Ho) in Hpath.
    destruct (attempts db !! p) as [rp|]; [|done]. destruct (row_state rp == Released); [done|].
    apply res_bind_ok in Hpath as (? & _ & (_ & _ & [= <- _])%res_bind_ok). by exists rp.
  - unfold reserve_ancestors in Hpath. destruct (parent_id request) as [p|].
    + rewrite (opened_attempts _ _ _ _ _ Ho) in Hpath.
      destruct (attempts db !! p) as [rp|] eqn:Hrp; [|done]. destruct (row_state rp == Released); [done|].
      apply res_bind_ok in Hpath as (path' & Hl & (_ & _ & [= <- <-])%res_bind_ok).
      exists rp. simpl_bool. done.
    + injection Hpath as <- <-. done.
  - intros i x Hin. apply (for_each_In _ _ _ Hel2) in Hin as Hel3. apply (for_each_In _ _ _ Hsub) in Hin as Hsub3.
    simpl in Hel3. destruct (max_elapsed_ms (row_limits x) <? _) eqn:Hel4; [done|]. simpl_bool.
    apply res_bind_ok in Hsub3 as (l & Hl & Hfit%check_within_fits).
    split; [|split; [|split]].
    + unfold reserve_ancestors in Hpath. destruct (parent_id request) as [p|]; [|by injection Hpath as <- <-].
      destruct (attempts db' !! p) as [rp|]; [|done]. destruct (row_state rp == Released); [done|].
      apply res_bind_ok in Hpath as (path' & _ & ([] & Hrel & [= _ <-])%res_bind_ok).
      apply (for_each_In _ _ _ Hrel) in Hin. simpl in Hin. destruct (row_state x == Released) eqn:E; [done|].
      by simpl_bool.
    + apply Z.nlt_ge. intros Hlt. enough (existsb (fun '(_, a) => max_depth (row_limits a) <? depth - row_depth a) path = true) by congruence.
      apply existsb_exists. exists (i, x). split; [done|]. by apply Z.ltb_lt.
    + lia.
    + unfold fits, held in *. by rewrite <- !(subtree_tree _ _ _ _ Hl).
  - apply check_within_fits in Htot. unfold fits, held in *. by rewrite <- !rows_of_total.
  - apply check_within_fits in Hown. unfold fits, held, sumZ in *. simpl in Hown. by rewrite !Z.add_0_r in Hown.
Qed.

Lemma reserve_step clock db request child :
  AttemptRequest_init request = Ok tt -> (forall l, child = Some l -> BudgetLimits_init l = Ok tt) ->
  step policy db (fst (reserve policy clock db request child)).
Proof.
  intros Hreq Hchild. destruct (reserve policy clock db request child) as [db'' [a|err]] eqn:E; simpl.
  - destruct (reserve_admits _ _ _ _ _ _ Hreq Hchild E) as (e & now & db' & Ho & _ & [[_ ->]|(eff & path & depth & Ha & ->)]).
    + by eapply st_seen.
    + by eapply st_admit.
  - apply transaction_result in E as [->|(e & now & Ho)]; [apply st_stay|by eapply st_seen].
Qed.

Lemma mark_dispatched_step clock db id args : step policy db (fst (mark_dispatched policy clock db id args)).
Proof.
  unfold mark_dispatched. destruct (check_dispatch id args) as [[intent expected]|]; [|apply st_stay].
  apply transaction_step. intros e now db' db'' a Ho Hb.
  rewrite (opened_attempts _ _ _ _ _ Ho) in Hb. destruct (attempts db !! id) as [r|] eqn:Hr; [|done].
  destruct (cancelled e) eqn:Hc; [done|]. destruct (max_elapsed_ms _ <? _) eqn:Hel; [done|].
  destruct (negb (row_state r == Reserved)) eqn:Hst; [done|].
  apply res_bind_ok in Hb as (path & Hl & ([] & Hcl & Hb)%res_bind_ok).
  destruct (match intent with Some _ => _ | None => false end) eqn:Hwin; [done|].
  apply res_bind_ok in Hb as (db1 & H1 & (db2 & H2 & (db3 & H3 & [= <- _])%res_bind_ok)%res_bind_ok).
  simpl_bool. eapply (st_dispatch _ _ e now db' id r intent expected args db1 db2 db3); try done; try lia.
  - intros path' Hl'. congruence.
  - intros issued expires text ->. simpl_bool. lia.
  - destruct (prerequisite_receipt_id args), expected; congruence.
  - destruct (approval_receipt_id args); congruence.
  - destruct intent as [[[? ?] ?]|]; congruence.
Qed.

Lemma mark_uncertain_step clock db id : step policy db (fst (mark_uncertain policy clock db id)).
Proof.
  unfold mark_uncertain. destruct (_identifier id _); [|apply st_stay].
  apply transaction_step. intros e now db' db'' x Ho Hb.
  rewrite (opened_attempts _ _ _ _ _ Ho) in Hb. destruct (attempts db !! id) as [r|] eqn:Hr; [|done].
  destruct (negb (mem (row_state r) [Dispatched; Uncertain])) eqn:Hst; [done|]. injection Hb as <- _.
  simpl_bool. apply mem_In in Hst. eapply st_update; [done..|]. left. split; [done|].
  simpl in Hst. naive_solver.
Qed.

Lemma res_filter_nil {A} (p : A -> res bool) xs : res_filter p xs = Ok [] -> forall x, In x xs -> p x = Ok false.
Proof.
  induction xs as [|x xs IH]; simpl; [done|]. intros (b & Hb & (ys & Hys & Hn)%res_bind_ok)%res_bind_ok y [<-|Hin].
  - by destruct b.
  - destruct b; [done|]. injection Hn as ->. by apply IH.
Qed.

Lemma release_step clock db id : step policy db (fst (release_undispatched policy clock db id)).
Proof.
  unfold release_undispatched. destruct (_identifier id _); [|apply st_stay].
  apply transaction_step. intros e now db' db'' x Ho Hb.
  rewrite (opened_attempts _ _ _ _ _ Ho) in Hb. destruct (attempts db !! id) as [r|] eqn:Hr; [|done].
  destruct (negb (mem (row_state r) [Reserved; Released])) eqn:Hst; [done|].
  apply res_bind_ok in Hb as (live & Hlive & Hb). destruct (negb (Nat.eqb _ _)) eqn:Hlen; [done|]. injection Hb as <- _.
  simpl_bool. apply mem_In in Hst. apply Nat.eqb_eq, length_zero_iff_nil in Hlen as ->.
  eapply st_update; [done..|]. right. split; [done|]. split; [simpl in Hst; naive_solver|].
  intros i c Hi Hne Hrel. apply elem_of_map_to_list, list_elem_of_In in Hi.
  apply (res_filter_nil _ _ Hlive) in Hi. simpl in Hi. unfold descends.
  apply eqb_neq in Hne, Hrel. rewrite Hne, Hrel in Hi. simpl in Hi. by rewrite Hi.
Qed.

Lemma reconcile_step clock db receipt pid payload :
  Receipt_init receipt = Ok tt -> step policy db (fst (reconcile policy clock db receipt pid payload)).
Proof.
  intros Hinit. unfold reconcile. destruct (check_prerequisite receipt pid payload) as [pre|]; [|apply st_stay].
  apply transaction_step. intros e now db' db'' x Ho Hb.
  cbv zeta in Hb. destruct (match receipts db' !! _ with Some _ => _ | None => _ end) eqn:Hdup; [done|].
  rewrite (opened_attempts _ _ _ _ _ Ho) in Hb.
  destruct (attempts db !! receipt_attempt_id receipt) as [r|] eqn:Hr; [|done].
  destruct (receipts db' !! receipt_id receipt) as [stored|].
  { destruct (match pre with Some _ => _ | None => _ end); [done|]. injection Hb as <- _. by eapply st_seen. }
  destruct (negb (mem _ _)) eqn:Hst; [done|]. destruct (conflicting_revision r receipt) eqn:Hrev; [done|].
  destruct (match retained_output_bytes receipt with Some _ => _ | None => _ end) eqn:Hout; [done|].
  apply res_bind_ok in Hb as (db1 & H1 & (db2 & H2 & [= <- _])%res_bind_ok).
  simpl_bool. apply mem_In in Hst.
  assert (Hst' : row_state r = Dispatched \/ row_state r = Uncertain \/ row_state r = UsageUnknown)
    by (clear -Hst; simpl in Hst; naive_solver).
  eapply (st_reconcile _ _ e now db' receipt r pre db1 db2); try done.
  - apply rs_reconcile; try done. intros b Eb. rewrite Eb in Hout. simpl_bool. lia.
  - destruct pre as [[? ?]|]; congruence.
Qed.

Lemma cancel_step clock db : step policy db (fst (cancel policy clock db)).
Proof. apply transaction_step. intros e now db' db'' x Ho [= <- _]. by eapply st_cancel. Qed.

Lemma open_step clock db : step policy db (fst (open_ledger policy clock db)).
Proof.
  unfold open_ledger. destruct (_now clock) as [now|] eqn:Hnow; [|apply st_stay]. apply _now_ok in Hnow.
  destruct (engagement db) as [e|] eqn:He; [|by apply st_create].
  destruct (eng_policy e == policy) eqn:Hp; [|apply st_stay]. simpl.
  destruct (now <? last_seen_ms e) eqn:Hlast; [apply st_stay|]. simpl_bool. simpl.
  by apply (st_recover _ _ e now (set_engagement (see now e) db)).
Qed.

Lemma get_attempt_step clock db id : step policy db (fst (get_attempt policy clock db id)).
Proof.
  unfold get_attempt. destruct (_identifier id _); [|apply st_stay]. apply read_step. intros e now db' db'' x Hb.
  destruct (attempts db' !! id); [by injection Hb|done].
Qed.

Lemma get_intent_step clock db id : step policy db (fst (get_dispatch_intent policy clock db id)).
Proof.
  unfold get_dispatch_intent. destruct (_identifier id _); [|apply st_stay]. apply read_step.
  intros e now db' db'' x Hb. destruct (intents db' !! id) as [text|]; [|done]. guard_ok Hb.
  destruct (loads text) as [v|err]; [|by destruct (is_value_error err)].
  destruct (negb (is_dict v)); [done|by injection Hb].
Qed.

Lemma report_step clock db id : step policy db (fst (cancellation_report policy clock db id)).
Proof.
  unfold cancellation_report. destruct (_identifier id _); [|apply st_stay]. apply read_step.
  intros e now db' db'' x Hb. destruct (attempts db' !! id); [by injection Hb|done].
Qed.

Lemma snapshot_step clock db : step policy db (fst (snapshot policy clock db)).
Proof. apply read_step. intros e now db' db'' x (s & _ & [= <- _])%res_bind_ok. done. Qed.

Lemma remaining_step clock db id : step policy db (fst (remaining_elapsed_ms policy clock db id)).
Proof.
  unfold remaining_elapsed_ms. destruct (match id with Some i => _ | None => _ end); [|apply st_stay]. apply read_step.
  intros e now db' db'' x Hb. destruct id as [i|]; [|by injection Hb].
  destruct (negb _); [done|]. apply res_bind_ok in Hb as (path & _ & [= <- _]). done.
Qed.

(** Every call is a step. *)
Lemma exec_step op clock db : op_valid op -> step policy db (fst (exec policy op clock db)).
Proof.
  destruct op; simpl; intros Hv.
  - apply open_step.
  - destruct Hv. by apply reserve_step.
  - apply get_attempt_step.
  - apply get_intent_step.
  - apply mark_dispatched_step.
  - apply mark_uncertain_step.
  - apply release_step.
  - by apply reconcile_step.
  - apply cancel_step.
  - apply report_step.
  - apply snapshot_step.
  - apply remaining_step.
Qed.
End Refinement.
