(* ===== verification/BudgetInv.v ===== *)
(** * The assessment budget ledger: invariants and properties

    Invariants of the transition system of [BudgetFacts] and, through its
    refinement theorem, of every reachable ledger. *)

From S2P Require Import Prelude PyStr Json JsonParse PyRegex Timestamp Budget BudgetFacts.

#[local] Opaque AttemptRequest_init Receipt_init BudgetLimits_init _identifier int64_max.

(** ** Rows *)

(** The usage columns of a row are those its state promises. *)
Definition usage_ok (r : Row) : Prop :=
  0 <= estimated_tokens (row_request r) /\ 0 <= estimated_cost_microunits (row_request r) /\
  0 <= reserved_output_bytes (row_request r) /\
  (forall b, actual_output_bytes r = Some b -> b <= reserved_output_bytes (row_request r)) /\
  match row_state r with
  | Settled =>
      is_Some (actual_tokens r) /\ is_Some (actual_cost_microunits r) /\ is_Some (actual_output_bytes r) /\
      is_Some (row_outcome r)
  | UsageUnknown => is_Some (row_outcome r)
  | _ => actual_tokens r = None /\ actual_cost_microunits r = None /\ actual_output_bytes r = None /\
         row_outcome r = None
  end.

Lemma integer_nonneg v field positive : _integer v field positive = Ok tt -> 0 <= v.
Proof. unfold _integer. intros H. guard_ok H. simpl_bool. destruct positive; lia. Qed.

Lemma AttemptRequest_init_nonneg q : AttemptRequest_init q = Ok tt ->
  0 <= estimated_tokens q /\ 0 <= estimated_cost_microunits q /\ 0 <= reserved_output_bytes q.
Proof.
  with_strategy transparent [AttemptRequest_init] (unfold AttemptRequest_init).
  intros (? & _ & (? & _ & ([] & ?%integer_nonneg & ([] & ?%integer_nonneg & ?%integer_nonneg)%res_bind_ok)%res_bind_ok)%res_bind_ok)%res_bind_ok.
  done.
Qed.

Lemma known_iff receipt : known receipt = true <->
  is_Some (tokens receipt) /\ is_Some (cost_microunits receipt) /\ is_Some (retained_output_bytes receipt).
Proof. unfold known. rewrite !andb_true_iff, !bool_decide_eq_true. tauto. Qed.

Lemma row_step_static r r' : row_step r r' ->
  row_request r' = row_request r /\ row_limits r' = row_limits r /\ row_depth r' = row_depth r.
Proof.
  destruct 1; try done. unfold cancel_row. destruct (is_active r); simpl; by destruct (row_state r == Reserved).
Qed.

Lemma cancel_row_cases r :
  (row_state r = Reserved /\ row_state (cancel_row r) = Released) \/
  (row_state r <> Reserved /\ row_state (cancel_row r) = row_state r).
Proof.
  unfold cancel_row. destruct (row_state r) eqn:E; unfold is_active; rewrite E; simpl; rewrite ?E; simpl; auto.
  all: right; rewrite E; done.
Qed.

Lemma cancel_row_columns r :
  actual_tokens (cancel_row r) = actual_tokens r /\ actual_cost_microunits (cancel_row r) = actual_cost_microunits r /\
  actual_output_bytes (cancel_row r) = actual_output_bytes r /\ row_outcome (cancel_row r) = row_outcome r.
Proof. unfold cancel_row. destruct (is_active r); simpl; by destruct (row_state r == Reserved). Qed.

Lemma usage_ok_step r r' : row_step r r' -> usage_ok r -> usage_ok r'.
Proof.
  intros Hs (Ht & Hc & Ho & Hb & Hst). pose proof (row_step_static _ _ Hs) as (Hq & _ & _).
  unfold usage_ok. rewrite Hq. do 3 (split; [done|]). destruct Hs as [|E|E|E|receipt E Hi Hrev Hout|]; simpl.
  - done.
  - by rewrite E in Hst.
  - split; [done|]. by destruct E as [E|E]; rewrite E in Hst.
  - split; [done|]. by destruct E as [E|E]; rewrite E in Hst.
  - split; [done|]. unfold reconciled_state. destruct (known receipt) eqn:K; [|by eexists].
    apply known_iff in K as (? & ? & ?). by eauto.
  - destruct (cancel_row_columns r) as (-> & -> & -> & ->).
    destruct (cancel_row_cases r) as [[E ->]|[_ ->]]; [by rewrite E in Hst|done].
Qed.

(** What an attempt is charged only falls, except its tokens and cost when a
    receipt reports more than was reserved. *)
Lemma charge_step_held r r' : row_step r r' -> usage_ok r ->
  charge_count r' <= charge_count r /\ charge_output r' <= charge_output r /\ active_count r' <= active_count r.
Proof.
  intros Hs (Ht & Hc & Ho & Hb & Hst).
  unfold charge_count, charge_output, active_count, is_charged, is_active, usage_output.
  destruct Hs as [|E|E|E|receipt E Hi Hrev Hout|].
  - lia.
  - simpl. rewrite E. simpl. lia.
  - simpl. destruct E as [E|E]; rewrite E; simpl; lia.
  - simpl. destruct E as [E|E]; rewrite E in *; simpl; [|lia]. destruct Hst as (_ & _ & -> & _). simpl. lia.
  - simpl. assert (Hu : reserved_output_bytes (row_request r) <= value_of (usage (row_state r) (actual_output_bytes r) (reserved_output_bytes (row_request r)))).
    { destruct E as [E|[E|E]]; rewrite E; simpl; destruct (actual_output_bytes r); simpl; lia. }
    assert (Hn : value_of (usage (reconciled_state receipt) (retained_output_bytes receipt) (reserved_output_bytes (row_request r))) <= reserved_output_bytes (row_request r)).
    { unfold reconciled_state. destruct (known receipt), (retained_output_bytes receipt) as [b|]; simpl;
        try (specialize (Hout b eq_refl)); lia. }
    destruct E as [E|[E|E]]; rewrite E in *; unfold reconciled_state in *; destruct (known receipt); simpl in *; lia.
  - destruct (cancel_row_columns r) as (_ & _ & -> & _).
    replace (row_request (cancel_row r)) with (row_request r) by (symmetry; apply (row_step_static _ _ (rs_cancel r))).
    destruct (cancel_row_cases r) as [[E E']|[_ ->]]; [|lia]. rewrite E, E' in *. simpl.
    destruct Hst as (_ & _ & -> & _). simpl. lia.
Qed.

(** Tokens and cost are charged at their reservation until a final receipt. *)
Lemma capped_step r r' : row_step r r' -> usage_ok r ->
  capped_tokens r' <= capped_tokens r /\ capped_cost r' <= capped_cost r.
Proof.
  intros Hs (Ht & Hc & Ho & Hb & Hst).
  unfold capped_tokens, capped_cost, charge_tokens, charge_cost, is_charged, usage_tokens, usage_cost.
  destruct Hs as [|E|E|E|receipt E Hi Hrev Hout|].
  - lia.
  - simpl. rewrite E in *. simpl. destruct Hst as (-> & -> & _). lia.
  - simpl. destruct E as [E|E]; rewrite E in *; simpl; lia.
  - simpl. destruct E as [E|E]; rewrite E in *; simpl; destruct Hst as (E1 & E2 & _); rewrite ?E1, ?E2; simpl; lia.
  - simpl. split.
    + assert (estimated_tokens (row_request r) <= value_of (usage (row_state r) (actual_tokens r) (estimated_tokens (row_request r)))).
      { destruct E as [E|[E|E]]; rewrite E; simpl; destruct (actual_tokens r); simpl; lia. }
      destruct E as [E|[E|E]]; rewrite E in *; simpl in *; lia.
    + assert (estimated_cost_microunits (row_request r) <= value_of (usage (row_state r) (actual_cost_microunits r) (estimated_cost_microunits (row_request r)))).
      { destruct E as [E|[E|E]]; rewrite E; simpl; destruct (actual_cost_microunits r); simpl; lia. }
      destruct E as [E|[E|E]]; rewrite E in *; simpl in *; lia.
  - destruct (cancel_row_columns r) as (-> & -> & _ & _).
    replace (row_request (cancel_row r)) with (row_request r) by (symmetry; apply (row_step_static _ _ (rs_cancel r))).
    destruct (cancel_row_cases r) as [[E E']|[_ ->]]; [|lia]. rewrite E, E' in *. simpl.
    destruct Hst as (-> & -> & _). simpl. lia.
Qed.

Lemma charge_step r r' : row_step r r' -> usage_ok r ->
  Forall (fun m : Row -> Z => m r' <= m r) [charge_count; charge_output; active_count; capped_tokens; capped_cost].
Proof.
  intros Hs Hu. destruct (charge_step_held _ _ Hs Hu) as (? & ? & ?). destruct (capped_step _ _ Hs Hu) as (? & ?).
  by repeat constructor.
Qed.

Lemma held_mono (sum sum' : (Row -> Z) -> Z) l :
  (forall m, (forall r r', row_step r r' -> usage_ok r -> m r' <= m r) -> sum' m <= sum m) -> held sum l -> held sum' l.
Proof.
  intros Hm (H1 & H2 & H3 & H4 & H5).
  assert (Hall : forall m, In m [charge_count; charge_output; active_count; capped_tokens; capped_cost] -> sum' m <= sum m).
  { intros m Hin. apply Hm. intros r r' Hs Hu. pose proof (charge_step _ _ Hs Hu) as Hf.
    rewrite list.Forall_forall in Hf. by apply Hf, list_elem_of_In. }
  unfold held. repeat split; (etrans; [apply Hall; simpl; tauto|done]).
Qed.

(** ** The tables of attempts *)

Definition rows_step (rows rows' : gmap string Row) : Prop :=
  forall i, match rows !! i, rows' !! i with
            | Some r, Some r' => row_step r r'
            | None, None => True
            | _, _ => False
            end.

Lemma rows_step_refl rows : rows_step rows rows.
Proof. intros i. destruct (rows !! i); [constructor|done]. Qed.

Lemma rows_step_fmap (f : Row -> Row) rows : (forall r, row_step r (f r)) -> rows_step rows (f <$> rows).
Proof. intros Hf i. rewrite lookup_fmap. destruct (rows !! i); simpl; auto. Qed.

Lemma rows_step_alter f i r rows : rows !! i = Some r -> row_step r (f r) -> rows_step rows (alter f i rows).
Proof.
  intros Hi Hf j. destruct (decide (i = j)) as [<-|Hne].
  - by rewrite lookup_alter_eq, Hi.
  - rewrite lookup_alter_ne by done. apply rows_step_refl.
Qed.

Lemma rows_step_lookup rows rows' i r' : rows_step rows rows' -> rows' !! i = Some r' ->
  exists r, rows !! i = Some r /\ row_step r r'.
Proof. intros Hs Hi. specialize (Hs i). rewrite Hi in Hs. destruct (rows !! i) as [r|]; [by exists r|done]. Qed.

Lemma rows_step_shape rows rows' : rows_step rows rows' -> same_shape rows rows'.
Proof.
  intros Hs i. specialize (Hs i). destruct (rows !! i), (rows' !! i); try done. simpl.
  apply row_step_static in Hs as (Hq & _ & Hd). unfold row_parent. by rewrite Hq, Hd.
Qed.

Lemma consume_prerequisite_attempts id k text db db' :
  consume_prerequisite id k text db = Ok db' -> attempts db' = attempts db.
Proof.
  unfold consume_prerequisite. intros H. guard_ok H. guard_ok H. guard_ok H. by injection H as <-.
Qed.

Lemma consume_approval_attempts id k db db' : consume_approval id k db = Ok db' -> attempts db' = attempts db.
Proof. unfold consume_approval. intros H. guard_ok H. guard_ok H. by injection H as <-. Qed.

Lemma insert_intent_attempts id t db db' : insert_intent id t db = Ok db' -> attempts db' = attempts db.
Proof. unfold insert_intent. intros H. guard_ok H. by injection H as <-. Qed.

Lemma establish_attempts s k t db db' : establish_prerequisite s k t db = Ok db' -> attempts db' = attempts db.
Proof.
  unfold establish_prerequisite. intros H. destruct (prerequisites db !! k); guard_ok H; by injection H as <-.
Qed.

Lemma insert_receipt_attempts rc db db' : insert_receipt rc db = Ok db' -> attempts db' = attempts db.
Proof. unfold insert_receipt. intros H. guard_ok H. by injection H as <-. Qed.

(** A step moves every row along or admits one attempt. *)
Lemma step_rows policy db db' : step policy db db' ->
  rows_step (attempts db) (attempts db') \/
  exists e now request effective path depth,
    engagement db = Some e /\ last_seen_ms e <= now /\ eng_policy e = policy /\
    admissible policy e now (attempts db) request effective path depth /\
    attempts db' = <[attempt_id request := new_row request effective depth]> (attempts db).
Proof.
  destruct 1 as [|now He Hn|e now db' Ho|e now db' Ho|e now db' request eff path depth Ho Ha
    |e now db' id r intent expected args db1 db2 db3 Ho Hr Hst Hc Hel Hl Hw H1 H2 H3
    |e now db' id r f Ho Hr Hf|e now db' receipt r pre db1 db2 Ho Hr Hs Hst H1 H2|e now db' Ho];
    try (pose proof (opened_attempts _ _ _ _ _ Ho) as Eo).
  - left. apply rows_step_refl.
  - left. apply rows_step_refl.
  - left. rewrite Eo. apply rows_step_refl.
  - left. simpl. rewrite Eo. apply rows_step_fmap. intros r.
    destruct (row_state r == Dispatched) eqn:E; [|constructor]. simpl_bool. constructor. auto.
  - right. exists e, now, request, eff, path, depth. simpl. rewrite Eo. by destruct Ho as (? & ? & ? & _ & _).
  - left. unfold update_attempt. simpl.
    assert (attempts db3 = attempts db) as ->.
    { transitivity (attempts db2); [|transitivity (attempts db1)].
      - destruct intent as [[[? ?] ?]|]; [by eapply insert_intent_attempts|by subst].
      - destruct (approval_receipt_id args); [by eapply consume_approval_attempts|by subst].
      - rewrite <- Eo. destruct (prerequisite_receipt_id args), expected; try (by subst).
        by eapply consume_prerequisite_attempts. }
    apply (rows_step_alter _ id r); [done|]. by constructor.
  - left. unfold update_attempt. simpl. rewrite Eo. apply (rows_step_alter _ id r); [done|].
    destruct Hf as [[-> ?]|(-> & ? & _)]; by constructor.
  - left. rewrite (insert_receipt_attempts _ _ _ H2). unfold update_attempt. simpl.
    assert (attempts db1 = attempts db) as ->.
    { rewrite <- Eo. destruct pre as [[? ?]|]; [by eapply establish_attempts|by subst]. }
    by apply (rows_step_alter _ (receipt_attempt_id receipt) r).
  - left. simpl. rewrite Eo. apply rows_step_fmap. constructor.
Qed.

(** ** The budget invariant *)

Section Invariant.
Variable policy : BudgetPolicy.
Hypothesis Hlimits : BudgetLimits_init (limits policy) = Ok tt.

Record rows_inv (rows : gmap string Row) : Prop := {
  ri_forest : forest rows;
  ri_row : forall i r, rows !! i = Some r ->
    attempt_id (row_request r) = i /\ usage_ok r /\ row_depth r <= max_depth (limits policy);
  ri_limits : forall i r, rows !! i = Some r ->
    match row_parent r with
    | None => is_within (row_limits r) (limits policy) = true
    | Some p => exists rp, rows !! p = Some rp /\ is_within (row_limits r) (row_limits rp) = true
    end;
  ri_total : held (fun m => total m rows) (limits policy);
  ri_tree : forall a ra, rows !! a = Some ra -> held (tree rows a) (row_limits ra);
}.

Lemma limits_nonneg field get l :
  BudgetLimits_init l = Ok tt -> In (field, get) _LIMIT_FIELDS -> 0 <= get l.
Proof.
  with_strategy transparent [BudgetLimits_init] (unfold BudgetLimits_init).
  intros Hl Hin. apply (for_each_In _ _ _ Hl) in Hin. by apply integer_nonneg in Hin.
Qed.

Lemma rows_inv_empty : rows_inv ∅.
Proof.
  constructor.
  - intros i r. by rewrite lookup_empty.
  - intros i r. by rewrite lookup_empty.
  - intros i r. by rewrite lookup_empty.
  - pose proof (fun f g => limits_nonneg f g _ Hlimits) as Hn. unfold held, total, msum. simpl.
    repeat split; eapply Hn; simpl; eauto 10.
  - intros i r. by rewrite lookup_empty.
Qed.

Lemma charge_total rows rows' m :
  rows_step rows rows' -> (forall i r, rows !! i = Some r -> usage_ok r) ->
  (forall r r', row_step r r' -> usage_ok r -> m r' <= m r) -> total m rows' <= total m rows.
Proof.
  intros Hs Hu Hm. apply msum_le. intros i. specialize (Hs i).
  destruct (rows !! i) as [r|] eqn:E, (rows' !! i); try done. by apply Hm, (Hu i).
Qed.

Lemma charge_tree rows rows' m a :
  rows_step rows rows' -> (forall i r, rows !! i = Some r -> usage_ok r) ->
  (forall r r', row_step r r' -> usage_ok r -> m r' <= m r) -> tree rows' a m <= tree rows a m.
Proof.
  intros Hs Hu Hm. apply msum_le. intros i. pose proof (Hs i) as Hsi.
  destruct (rows !! i) as [r|] eqn:E, (rows' !! i) as [r'|]; try done.
  rewrite <- (same_shape_descends _ _ i a (rows_step_shape _ _ Hs)).
  destruct (descends rows i a); [|lia]. by apply Hm, (Hu i).
Qed.

Lemma rows_inv_step rows rows' : rows_step rows rows' -> rows_inv rows -> rows_inv rows'.
Proof.
  intros Hs [Hf Hr Hl Ht Hd]. assert (Hu : forall i r, rows !! i = Some r -> usage_ok r) by (intros i r Hi; apply (Hr i r Hi)).
  constructor.
  - by eapply forest_shape, Hf; apply rows_step_shape.
  - intros i r' Hi. destruct (rows_step_lookup _ _ _ _ Hs Hi) as (r & Hr0 & Hst).
    destruct (row_step_static _ _ Hst) as (-> & _ & ->). destruct (Hr i r Hr0) as (? & ? & ?).
    split; [done|]. split; [|done]. by apply (usage_ok_step r).
  - intros i r' Hi. destruct (rows_step_lookup _ _ _ _ Hs Hi) as (r & Hr0 & Hst).
    destruct (row_step_static _ _ Hst) as (Hq & Hrl & _). unfold row_parent. rewrite Hq, Hrl.
    specialize (Hl i r Hr0). unfold row_parent in Hl. destruct (parent_id (row_request r)) as [p|]; [|done].
    destruct Hl as (rp & Hp & Hw). pose proof (Hs p) as Hsp. rewrite Hp in Hsp.
    destruct (rows' !! p) as [rp'|]; [|done]. exists rp'. apply row_step_static in Hsp as (_ & -> & _). done.
  - eapply held_mono, Ht. intros m Hm. by apply charge_total.
  - intros a ra' Ha. destruct (rows_step_lookup _ _ _ _ Hs Ha) as (ra & Ha0 & Hst).
    destruct (row_step_static _ _ Hst) as (_ & -> & _). specialize (Hd a ra Ha0).
    eapply held_mono, Hd. intros m Hm. by apply charge_tree.
Qed.

Lemma AttemptRequest_init_own q : AttemptRequest_init q = Ok tt -> parent_id q <> Some (attempt_id q).
Proof.
  with_strategy transparent [AttemptRequest_init] (unfold AttemptRequest_init).
  intros ([] & _ & ([] & Hp & _)%res_bind_ok)%res_bind_ok Heq. rewrite Heq in Hp.
  apply res_bind_ok in Hp as (? & _ & Hp). by rewrite eqb_refl in Hp.
Qed.

Lemma rows_inv_admit e now rows request eff path depth :
  rows_inv rows -> admissible policy e now rows request eff path depth ->
  rows_inv (<[attempt_id request := new_row request eff depth]> rows).
Proof.
  intros [Hf Hr Hl Ht Hd] [Hq Hn _ _ Hdep _ Hp Hpath Htot Hown].
  set (x := new_row request eff depth) in *. set (n := attempt_id request) in *.
  assert (Hleaf : match row_parent x with
                  | None => row_depth x = 0
                  | Some p => exists rp, rows !! p = Some rp /\ row_depth x = row_depth rp + 1
                  end).
  { unfold row_parent, x. simpl. destruct (parent_id request) as [p|]; [|apply Hp].
    destruct Hp as (rp & ? & _ & ? & _). by exists rp. }
  constructor.
  - by apply forest_insert.
  - intros i r. destruct (decide (i = n)) as [->|Hne].
    + rewrite lookup_insert_eq. intros [= <-]. split; [done|]. split; [|done].
      destruct (AttemptRequest_init_nonneg _ Hq) as (? & ? & ?). by repeat split.
    + rewrite lookup_insert_ne by done. apply Hr.
  - intros i r. destruct (decide (i = n)) as [->|Hne].
    + rewrite lookup_insert_eq. intros [= <-]. unfold row_parent. simpl.
      destruct (parent_id request) as [p|]; [|apply Hp]. destruct Hp as (rp & Hrp & _ & _ & Hw & _).
      exists rp. rewrite lookup_insert_ne by congruence. done.
    + rewrite lookup_insert_ne by done. intros Hi. specialize (Hl i r Hi).
      destruct (row_parent r) as [p|]; [|done]. destruct Hl as (rp & Hrp & Hw). exists rp.
      rewrite lookup_insert_ne by congruence. done.
  - apply Htot.
  - intros a ra. destruct (decide (a = n)) as [->|Hne].
    + rewrite lookup_insert_eq. intros [= <-]. destruct Hown as (Hheld & _).
      unfold held in *. rewrite !tree_insert, !tree_absent, !descends_new, eqb_refl by done. simpl.
      change (row_limits x) with eff. lia.
    + rewrite lookup_insert_ne by done. intros Ha.
      destruct (descends (<[n:=x]> rows) n a) eqn:E.
      * rewrite descends_new in E by done. apply eqb_neq in Hne. rewrite Hne in E. simpl in E.
        unfold row_parent in E. simpl in E. destruct (parent_id request) as [p|]; [|done].
        destruct Hp as (rp & _ & Hlin & _).
        by destruct (Hpath a ra (descends_path _ _ _ _ _ Hlin E Ha)) as (_ & _ & _ & Hfit & _).
      * unfold held. rewrite !tree_insert, E by done. specialize (Hd a ra Ha). unfold held in Hd. lia.
Qed.

Lemma step_rows_inv db db' : step policy db db' -> rows_inv (attempts db) -> rows_inv (attempts db').
Proof.
  intros [Hs|(e & now & request & eff & path & depth & _ & _ & _ & Ha & ->)]%step_rows Hi.
  - by eapply rows_inv_step.
  - by eapply rows_inv_admit.
Qed.

(** *** Depth and fan-out *)

Definition child_of (p : string) (r : Row) : Z := if row_parent r == Some p then 1 else 0.

Lemma sibling_count_msum rows p : sibling_count rows p = msum (fun _ => child_of p) rows.
Proof.
  unfold sibling_count, msum. induction (map_to_list rows) as [|[i r] l IH]; [done|].
  unfold sumZ in *. simpl. rewrite <- IH. unfold child_of. destruct (row_parent r == Some p); simpl; lia.
Qed.

(** The part of the limits that is about the shape of the forest. *)
Record shape_inv (rows : gmap string Row) : Prop := {
  si_valid : forall i r, rows !! i = Some r -> BudgetLimits_init (row_limits r) = Ok tt;
  si_fanout : forall a ra, rows !! a = Some ra -> sibling_count rows a <= max_children_per_parent (row_limits ra);
  si_depth : forall i r a ra, rows !! i = Some r -> rows !! a = Some ra -> descends rows i a = true ->
    row_depth r - row_depth ra <= max_depth (row_limits ra);
}.

Lemma shape_inv_empty : shape_inv ∅.
Proof. constructor; intros i r; by rewrite lookup_empty. Qed.

Lemma shape_inv_step rows rows' : rows_step rows rows' -> shape_inv rows -> shape_inv rows'.
Proof.
  intros Hs [Hv Hf Hd]. constructor.
  - intros i r' Hi. destruct (rows_step_lookup _ _ _ _ Hs Hi) as (r & Hr & (_ & -> & _)%row_step_static). by eapply Hv.
  - intros a ra' Ha. destruct (rows_step_lookup _ _ _ _ Hs Ha) as (ra & Hra & (_ & -> & _)%row_step_static).
    etrans; [|by apply Hf]. rewrite !sibling_count_msum. apply msum_le. intros i. specialize (Hs i).
    destruct (rows !! i) as [r|], (rows' !! i) as [r'|]; try done.
    destruct (row_step_static _ _ Hs) as (Hq & _ & _). unfold child_of, row_parent. by rewrite Hq.
  - intros i r' a ra' Hi Ha Hdesc. rewrite <- (same_shape_descends rows rows') in Hdesc by (by apply rows_step_shape).
    destruct (rows_step_lookup _ _ _ _ Hs Hi) as (r & Hr & (_ & _ & ->)%row_step_static).
    destruct (rows_step_lookup _ _ _ _ Hs Ha) as (ra & Hra & (_ & -> & ->)%row_step_static). by eapply Hd.
Qed.

Lemma no_children rows a : forest rows -> rows !! a = None -> sibling_count rows a = 0.
Proof.
  intros Hf Ha. rewrite sibling_count_msum, (msum_ext _ (fun _ _ => 0)).
  - unfold msum. induction (map_to_list rows) as [|[i r] l IH]; [done|]. exact IH.
  - intros i r Hi. unfold child_of. destruct (row_parent r == Some a) eqn:E; [|done]. simpl_bool.
    destruct (Hf i r Hi) as [Hp _]. rewrite E in Hp. destruct Hp as (rp & Hrp & _). congruence.
Qed.

Lemma shape_inv_admit e now rows request eff path depth :
  rows_inv rows -> shape_inv rows -> admissible policy e now rows request eff path depth ->
  shape_inv (<[attempt_id request := new_row request eff depth]> rows).
Proof.
  intros Hinv [Hv Hc Hd] [Hq Hn _ _ Hdep Hlim Hp Hpath _ _]. pose proof (ri_forest _ Hinv) as Hf.
  set (x := new_row request eff depth) in *. set (n := attempt_id request) in *.
  assert (Hleaf : match row_parent x with
                  | None => row_depth x = 0
                  | Some p => exists rp, rows !! p = Some rp /\ row_depth x = row_depth rp + 1
                  end).
  { unfold row_parent, x. simpl. destruct (parent_id request) as [p|]; [|apply Hp].
    destruct Hp as (rp & ? & _ & ? & _). by exists rp. }
  assert (Heff : BudgetLimits_init eff = Ok tt).
  { destruct Hlim as [?|Hlim]; [done|]. destruct (parent_id request) as [p|]; [|by subst eff].
    destruct Hlim as (rp & Hrp & ->). by eapply Hv. }
  assert (Hcount : forall a, sibling_count (<[n := x]> rows) a = child_of a x + sibling_count rows a).
  { intros a. by rewrite !sibling_count_msum, msum_insert. }
  constructor.
  - intros i r [[<- <-]|[_ Hi]]%lookup_insert_Some; [done|by eapply Hv].
  - intros a ra Ha. rewrite Hcount. unfold child_of, row_parent, x. simpl.
    apply lookup_insert_Some in Ha as [[<- <-]|[Hne Ha]].
    + rewrite (no_children rows n Hf Hn). destruct (parent_id request == Some n) eqn:E.
      * simpl_bool. by destruct (AttemptRequest_init_own _ Hq).
      * simpl. eapply (limits_nonneg "max_children_per_parent"); [done|simpl; tauto].
    + destruct (parent_id request == Some a) eqn:E; [|by apply Hc]. simpl_bool. rewrite E in Hp.
      destruct Hp as (rp & Hrp & _ & _ & _ & Hsib). assert (rp = ra) as -> by congruence. lia.
  - intros i r a ra Hi Ha Hdesc. apply lookup_insert_Some in Hi as [[<- <-]|[Hne Hi]].
    + rewrite descends_new in Hdesc by done. apply lookup_insert_Some in Ha as [[<- <-]|[Hne Ha]].
      * rewrite Z.sub_diag. eapply (limits_nonneg "max_depth"); [done|simpl; tauto].
      * apply orb_true_iff in Hdesc as [?|Hdesc]; [simpl_bool; congruence|]. unfold row_parent in Hdesc. simpl in Hdesc.
        destruct (parent_id request) as [p|]; [|done]. destruct Hp as (rp & _ & Hlin & _).
        by apply (Hpath a ra (descends_path _ _ _ _ _ Hlin Hdesc Ha)).
    + rewrite (descends_insert rows Hf n x Hn i r a Hi) in Hdesc. apply lookup_insert_Some in Ha as [[<- <-]|[_ Ha]]; [|by eapply Hd].
      apply (descends_in rows Hf i n r Hi) in Hdesc as [? ?]. congruence.
Qed.

Lemma step_shape_inv db db' : step policy db db' -> rows_inv (attempts db) -> shape_inv (attempts db) -> shape_inv (attempts db').
Proof.
  intros [Hs|(e & now & request & eff & path & depth & _ & _ & _ & Ha & ->)]%step_rows Hi Hsh.
  - by eapply shape_inv_step.
  - by eapply shape_inv_admit.
Qed.

Context `{Host}.

Lemma reachable_rows_inv db : reachable policy db -> rows_inv (attempts db).
Proof.
  induction 1 as [|db op clock _ IH Hv]; [apply rows_inv_empty|].
  eapply step_rows_inv, IH. by apply exec_step.
Qed.

Lemma reachable_shape_inv db : reachable policy db -> shape_inv (attempts db).
Proof.
  induction 1 as [|db op clock Hr IH Hv]; [apply shape_inv_empty|].
  by eapply step_shape_inv, IH; [apply exec_step|apply reachable_rows_inv].
Qed.
End Invariant.

(** ** The other tables *)

(** The attempt's dispatch was recorded at some time. *)
Definition started (r : Row) : Prop := row_state r <> Reserved /\ row_state r <> Released.

Lemma started_step r r' : row_step r r' -> started r -> started r'.
Proof.
  unfold started. intros Hs [H1 H2]. destruct Hs as [|E|E|E|receipt E|]; simpl; try done.
  - by destruct E.
  - unfold reconciled_state. by destruct (known receipt).
  - by destruct (cancel_row_cases r) as [[E _]|[_ ->]].
Qed.

Definition has_started (db : Ledger) (id : string) : Prop := exists r, attempts db !! id = Some r /\ started r.

Lemma has_started_step policy db db' id : step policy db db' -> has_started db id -> has_started db' id.
Proof.
  intros [Hs|(e & now & request & eff & path & depth & _ & _ & _ & Ha & E)]%step_rows (r & Hr & Hst).
  - specialize (Hs id). rewrite Hr in Hs. destruct (attempts db' !! id) as [r'|] eqn:E; [|done].
    exists r'. split; [done|]. by eapply started_step.
  - exists r. rewrite E, lookup_insert_ne; [done|]. intros <-. destruct Ha. congruence.
Qed.

(** The effect of one call on the engagement and the single-use tables. *)
Record tables_step (db db' : Ledger) : Prop := {
  ts_engagement : forall e, engagement db = Some e -> exists e',
    engagement db' = Some e' /\ eng_policy e' = eng_policy e /\ started_at_ms e' = started_at_ms e /\
    last_seen_ms e <= last_seen_ms e' /\ (cancelled e = true -> cancelled e' = true);
  ts_receipts : forall k rc, receipts db !! k = Some rc -> receipts db' !! k = Some rc;
  ts_new_receipt : forall k rc, receipts db' !! k = Some rc -> receipts db !! k = Some rc \/
    (k = receipt_id rc /\ exists r, attempts db' !! receipt_attempt_id rc = Some r /\
       (row_state r = Settled \/ row_state r = UsageUnknown));
  ts_prerequisites : forall k p, prerequisites db !! k = Some p -> exists p',
    prerequisites db' !! k = Some p' /\ source_attempt_id p' = source_attempt_id p /\ pre_payload p' = pre_payload p /\
    (forall id, consumed_by_attempt_id p = Some id -> consumed_by_attempt_id p' = Some id);
  ts_consumed : forall k p id, prerequisites db' !! k = Some p -> consumed_by_attempt_id p = Some id ->
    (exists p0, prerequisites db !! k = Some p0 /\ consumed_by_attempt_id p0 = Some id) \/ has_started db' id;
  ts_approvals : forall k id, approvals db !! k = Some id -> approvals db' !! k = Some id;
  ts_new_approval : approvals db' = approvals db \/ exists k id,
    approvals db !! k = None /\ ~ In id (map snd (map_to_list (approvals db))) /\ has_started db' id /\
    approvals db' = <[k := id]> (approvals db);
  ts_intents : forall id t, intents db !! id = Some t -> intents db' !! id = Some t;
  ts_new_intent : forall id t, intents db' !! id = Some t -> intents db !! id = Some t \/ has_started db' id;
}.

(** Nothing but the engagement, moved on as a transaction does, and the attempts. *)
Lemma tables_step_rows db db' :
  (forall e, engagement db = Some e -> exists e',
    engagement db' = Some e' /\ eng_policy e' = eng_policy e /\ started_at_ms e' = started_at_ms e /\
    last_seen_ms e <= last_seen_ms e' /\ (cancelled e = true -> cancelled e' = true)) ->
  receipts db' = receipts db -> prerequisites db' = prerequisites db -> approvals db' = approvals db ->
  intents db' = intents db -> tables_step db db'.
Proof.
  intros He E1 E2 E3 E4. constructor; rewrite ?E1, ?E2, ?E3, ?E4; eauto 10.
Qed.

Lemma opened_engagement policy db e now db1 (db2 : Ledger) :
  opened policy db e now db1 -> engagement db2 = engagement db1 ->
  forall e0, engagement db = Some e0 -> exists e',
    engagement db2 = Some e' /\ eng_policy e' = eng_policy e0 /\ started_at_ms e' = started_at_ms e0 /\
    last_seen_ms e0 <= last_seen_ms e' /\ (cancelled e0 = true -> cancelled e' = true).
Proof.
  intros (He & _ & Hl & _ & ->) E e0 He0. rewrite E. exists (see now e). assert (e0 = e) as -> by congruence. done.
Qed.

(** One [mark_dispatched]: the prerequisite, the approval and the intent. *)
Lemma dispatch_tables policy db e now db' id r intent expected args db1 db2 db3 :
  opened policy db e now db' -> attempts db !! id = Some r ->
  match prerequisite_receipt_id args, expected with
  | Some receipt, Some payload => consume_prerequisite id receipt payload db' = Ok db1
  | _, _ => db1 = db'
  end ->
  match approval_receipt_id args with
  | Some receipt => consume_approval id receipt db1 = Ok db2
  | None => db2 = db1
  end ->
  match intent : option (Z * Z * string) with
  | Some (_, _, payload) => insert_intent id payload db2 = Ok db3
  | None => db3 = db2
  end ->
  (attempts db3 = attempts db /\ engagement db3 = engagement db' /\ receipts db3 = receipts db) /\
  (prerequisites db3 = prerequisites db \/
   exists k p, prerequisites db !! k = Some p /\ consumed_by_attempt_id p = None /\
     prerequisites db3 = <[k := {| source_attempt_id := source_attempt_id p; pre_payload := pre_payload p;
                                   consumed_by_attempt_id := Some id |}]> (prerequisites db)) /\
  (approvals db3 = approvals db \/
   exists k, approvals db !! k = None /\ ~ In id (map snd (map_to_list (approvals db))) /\
     approvals db3 = <[k := id]> (approvals db)) /\
  (intents db3 = intents db \/ exists t, intents db !! id = None /\ intents db3 = <[id := t]> (intents db)).
Proof.
  intros (_ & _ & _ & _ & ->) Hr H1 H2 H3.
  assert (E1 : (attempts db1 = attempts db /\ engagement db1 = engagement (set_engagement (see now e) db) /\
                receipts db1 = receipts db /\ approvals db1 = approvals db /\ intents db1 = intents db) /\
    (prerequisites db1 = prerequisites db \/
     exists k p, prerequisites db !! k = Some p /\ consumed_by_attempt_id p = None /\
       prerequisites db1 = <[k := {| source_attempt_id := source_attempt_id p; pre_payload := pre_payload p;
                                     consumed_by_attempt_id := Some id |}]> (prerequisites db))).
  { destruct (prerequisite_receipt_id args) as [k|], expected as [text|]; try (subst; split; [done|by left]).
    unfold consume_prerequisite in H1. simpl in H1. destruct (prerequisites db !! k) as [p|] eqn:Hp; [|done].
    guard_ok H1. guard_ok H1. injection H1 as <-. split; [done|]. right. exists k, p.
    split; [done|]. split; [|done]. apply eq_None_not_Some. by apply bool_decide_eq_false in Heqb0. }
  destruct E1 as [(Ea & Ee & Er & Eap & Ei) Ep].
  assert (E2 : (attempts db2 = attempts db1 /\ engagement db2 = engagement db1 /\ receipts db2 = receipts db1 /\
                prerequisites db2 = prerequisites db1 /\ intents db2 = intents db1) /\
    (approvals db2 = approvals db1 \/
     exists k, approvals db1 !! k = None /\ ~ In id (map snd (map_to_list (approvals db1))) /\
       approvals db2 = <[k := id]> (approvals db1))).
  { destruct (approval_receipt_id args) as [k|]; [|subst; split; [done|by left]].
    unfold consume_approval in H2. guard_ok H2. guard_ok H2. injection H2 as <-. split; [done|]. right. exists k.
    split; [apply eq_None_not_Some; by apply bool_decide_eq_false in Heqb|]. split; [|done].
    by apply mem_not_In. }
  destruct E2 as [(Ea2 & Ee2 & Er2 & Ep2 & Ei2) Eap2].
  assert (E3 : (attempts db3 = attempts db2 /\ engagement db3 = engagement db2 /\ receipts db3 = receipts db2 /\
                prerequisites db3 = prerequisites db2 /\ approvals db3 = approvals db2) /\
    (intents db3 = intents db2 \/ exists t, intents db2 !! id = None /\ intents db3 = <[id := t]> (intents db2))).
  { destruct intent as [[[? ?] t]|]; [|subst; split; [done|by left]]. unfold insert_intent in H3. guard_ok H3. injection H3 as <-.
    split; [done|]. right. exists t. split; [|done]. apply eq_None_not_Some. by apply bool_decide_eq_false in Heqb. }
  destruct E3 as [(Ea3 & Ee3 & Er3 & Ep3 & Eap3) Ei3].
  rewrite Eap3, Ep3, Ep2, Ea3, Ea2, Ea, Ee3, Ee2, Ee, Er3, Er2, Er, Ei2, Ei in *. rewrite Eap in *. done.
Qed.

Lemma alter_started id f r (db db' : Ledger) :
  attempts db !! id = Some r -> started (f r) -> attempts db' = alter f id (attempts db) -> has_started db' id.
Proof. intros Hr Hs E. exists (f r). by rewrite E, lookup_alter_eq, Hr. Qed.

Lemma step_tables policy db db' : step policy db db' -> tables_step db db'.
Proof.
  destruct 1 as [|now He Hn|e now db' Ho|e now db' Ho|e now db' request eff path depth Ho Ha
    |e now db' id r intent expected args db1 db2 db3 Ho Hr Hst Hc Hel Hl Hw H1 H2 H3
    |e now db' id r f Ho Hr Hf|e now db' receipt r pre db1 db2 Ho Hr Hs Hst H1 H2|e now db' Ho].
  - apply tables_step_rows; [|done..]. intros e He. by exists e.
  - apply tables_step_rows; [|done..]. intros e He'. congruence.
  - apply tables_step_rows; [by eapply opened_engagement|..]; by destruct Ho as (_ & _ & _ & _ & ->).
  - apply tables_step_rows; [by eapply opened_engagement|..]; by destruct Ho as (_ & _ & _ & _ & ->).
  - apply tables_step_rows; [by eapply opened_engagement|..]; by destruct Ho as (_ & _ & _ & _ & ->).
  - destruct (dispatch_tables _ _ _ _ _ _ _ _ _ _ _ _ _ Ho Hr H1 H2 H3) as ((Ea & Ee & Er) & Hp & Hap & Hi).
    assert (Hstarted : has_started (update_attempt id (set_state Dispatched) db3) id).
    { eapply (alter_started id (set_state Dispatched) r db); [done| |by simpl; rewrite Ea]. by split. }
    constructor; simpl; rewrite ?Er; try by auto.
    + by eapply opened_engagement.
    + intros k p Hk. destruct Hp as [->|(k' & p' & Hk' & Hnone & ->)]; [by exists p|].
      destruct (decide (k = k')) as [->|Hne]; [|by rewrite lookup_insert_ne by done; exists p; eauto].
      rewrite lookup_insert_eq. assert (p' = p) as -> by congruence. eexists. split; [done|]. simpl.
      do 2 (split; [done|]). intros i Hi'. congruence.
    + intros k p i Hk Hcons. destruct Hp as [E|(k' & p' & Hk' & Hnone & E)]; rewrite E in Hk; [by eauto|].
      destruct (decide (k = k')) as [->|Hne]; [|by rewrite lookup_insert_ne in Hk by done; eauto].
      rewrite lookup_insert_eq in Hk. injection Hk as <-. simpl in Hcons. injection Hcons as <-. by right.
    + intros k i Hk. destruct Hap as [->|(k' & Hk' & Hnin & ->)]; [done|].
      rewrite lookup_insert_ne; [done|congruence].
    + destruct Hap as [->|(k' & Hk' & Hnin & ->)]; [by left|]. right. by exists k', id.
    + intros i t Ht. destruct Hi as [->|(t' & Hnone & ->)]; [done|]. rewrite lookup_insert_ne; [done|congruence].
    + intros i t Ht. destruct Hi as [E|(t' & Hnone & E)]; rewrite E in Ht; [by left|].
      destruct (decide (i = id)) as [->|Hne]; [by right|]. rewrite lookup_insert_ne in Ht by done. by left.
  - apply tables_step_rows; [by eapply opened_engagement|..]; by destruct Ho as (_ & _ & _ & _ & ->).
  - unfold insert_receipt in H2. guard_ok H2. injection H2 as <-.
    apply bool_decide_eq_false in Heqb.
    assert (E1 : (attempts db1 = attempts db /\ engagement db1 = engagement db' /\ receipts db1 = receipts db /\
        approvals db1 = approvals db /\ intents db1 = intents db) /\
      (prerequisites db1 = prerequisites db \/ exists k p, prerequisites db !! k = None /\
         consumed_by_attempt_id p = None /\ prerequisites db1 = <[k := p]> (prerequisites db))).
    { destruct Ho as (_ & _ & _ & _ & ->).
      destruct pre as [[k text]|]; [|subst; split; [done|by left]]. unfold establish_prerequisite in H1. simpl in H1.
      destruct (prerequisites db !! k) as [p|] eqn:Hk; guard_ok H1; injection H1 as <-; (split; [done|]);
        [by left|]. right. exists k. eexists. split; [done|]. split; [|reflexivity]. done. }
    destruct E1 as [(Ea & Ee & Er & Eap & Ei) Hp]. unfold update_attempt in *. simpl in *. rewrite Er in Heqb.
    constructor; simpl; rewrite ?Er, ?Eap, ?Ei; try by auto.
    + eapply opened_engagement; [exact Ho|done].
    + intros k rc Hk. rewrite lookup_insert_ne; [done|]. intros <-. apply Heqb. by eexists.
    + intros k rc. destruct (decide (k = receipt_id receipt)) as [->|Hne].
      * rewrite lookup_insert_eq. intros [= <-]. right. split; [done|].
        exists (reconciled_row receipt r). rewrite Ea, lookup_alter_eq, Hr. split; [done|]. simpl.
        unfold reconciled_state. destruct (known receipt); auto.
      * rewrite lookup_insert_ne by done. by left.
    + intros k p Hk. destruct Hp as [->|(k' & p' & Hk' & _ & ->)]; [by exists p|].
      rewrite lookup_insert_ne by congruence. by exists p.
    + intros k p i Hk Hcons. destruct Hp as [E|(k' & p' & Hk' & Hnone & E)]; rewrite E in Hk; [by eauto|].
      destruct (decide (k = k')) as [->|Hne]; [|by rewrite lookup_insert_ne in Hk by done; eauto].
      rewrite lookup_insert_eq in Hk. congruence.
  - destruct Ho as (He & Hp & Hle & _ & ->). apply tables_step_rows; [|done..].
    intros e0 He0. assert (e0 = e) as -> by congruence. by eexists.
Qed.

Record tables_inv (db : Ledger) : Prop := {
  ti_fresh : engagement db = None -> attempts db = ∅;
  ti_clock : forall e, engagement db = Some e -> 0 <= started_at_ms e <= last_seen_ms e;
  ti_cancelled : forall e i r, engagement db = Some e -> cancelled e = true ->
    attempts db !! i = Some r -> row_state r <> Reserved;
  ti_receipts : forall k rc, receipts db !! k = Some rc -> k = receipt_id rc /\
    exists r, attempts db !! receipt_attempt_id rc = Some r /\ (row_state r = Settled \/ row_state r = UsageUnknown);
  ti_consumed : forall k p id, prerequisites db !! k = Some p -> consumed_by_attempt_id p = Some id -> has_started db id;
  ti_approvals : forall k id, approvals db !! k = Some id -> has_started db id;
  ti_approvals_inj : forall k1 k2 id, approvals db !! k1 = Some id -> approvals db !! k2 = Some id -> k1 = k2;
  ti_intents : forall id t, intents db !! id = Some t -> has_started db id;
}.

Lemma tables_inv_empty : tables_inv empty_ledger.
Proof. constructor; try done; intros *; simpl; by rewrite lookup_empty. Qed.

Lemma reconciled_kept r r' : row_step r r' ->
  row_state r = Settled \/ row_state r = UsageUnknown -> row_state r' = Settled \/ row_state r' = UsageUnknown.
Proof.
  intros Hs E. destruct Hs as [|E'|E'|E'|receipt E'|]; simpl.
  - done.
  - destruct E; congruence.
  - destruct E, E'; congruence.
  - destruct E, E'; congruence.
  - unfold reconciled_state. destruct (known receipt); auto.
  - destruct (cancel_row_cases r) as [[E' _]|[_ ->]]; [destruct E; congruence|done].
Qed.

Lemma reconciled_step policy db db' id : step policy db db' ->
  (exists r, attempts db !! id = Some r /\ (row_state r = Settled \/ row_state r = UsageUnknown)) ->
  exists r, attempts db' !! id = Some r /\ (row_state r = Settled \/ row_state r = UsageUnknown).
Proof.
  intros [Hs|(e & now & request & eff & path & depth & _ & _ & _ & Ha & E)]%step_rows (r & Hr & Hst).
  - specialize (Hs id). rewrite Hr in Hs. destruct (attempts db' !! id) as [r'|] eqn:E; [|done].
    exists r'. split; [done|]. by eapply reconciled_kept.
  - exists r. rewrite E, lookup_insert_ne; [done|]. intros <-. destruct Ha. congruence.
Qed.

Lemma row_step_reserved r r' : row_step r r' -> row_state r' = Reserved -> row_state r = Reserved.
Proof.
  destruct 1 as [|E|E|E|receipt E|]; simpl; try done.
  - unfold reconciled_state. by destruct (known receipt).
  - destruct (cancel_row_cases r) as [[E _]|[_ ->]]; done.
Qed.

(** Where the engagement of the ledger after a step comes from. *)
Lemma step_engagement policy db db' e' : step policy db db' -> engagement db' = Some e' ->
  (engagement db = None /\ cancelled e' = false /\ attempts db' = attempts db /\
     0 <= started_at_ms e' /\ started_at_ms e' = last_seen_ms e') \/
  exists e, engagement db = Some e /\ started_at_ms e' = started_at_ms e /\ last_seen_ms e <= last_seen_ms e' /\
    (cancelled e' = cancelled e \/ (cancelled e' = true /\ attempts db' = cancel_row <$> attempts db)).
Proof.
  destruct 1 as [|now He Hn|e now db' Ho|e now db' Ho|e now db' request eff path depth Ho Ha
    |e now db' id r intent expected args db1 db2 db3 Ho Hr Hst Hc Hel Hl Hw H1 H2 H3
    |e now db' id r f Ho Hr Hf|e now db' receipt r pre db1 db2 Ho Hr Hs Hst H1 H2|e now db' Ho]; intros He'.
  - right. exists e'. split; [done|]. split; [done|]. split; [lia|by left].
  - left. injection He' as <-. simpl. by repeat split; try lia.
  - right. exists e. destruct Ho as (? & ? & ? & ? & ->). injection He' as <-. simpl. repeat split; by auto.
  - right. exists e. destruct Ho as (? & ? & ? & ? & ->). injection He' as <-. simpl. repeat split; by auto.
  - right. exists e. destruct Ho as (? & ? & ? & ? & ->). injection He' as <-. simpl. repeat split; by auto.
  - right. exists e. destruct (dispatch_tables _ _ _ _ _ _ _ _ _ _ _ _ _ Ho Hr H1 H2 H3) as ((_ & Ee & _) & _).
    destruct Ho as (? & ? & ? & ? & ->). simpl in *. rewrite Ee in He'. injection He' as <-. simpl. repeat split; by auto.
  - right. exists e. destruct Ho as (? & ? & ? & ? & ->). injection He' as <-. simpl. repeat split; by auto.
  - right. exists e. unfold insert_receipt in H2. guard_ok H2. injection H2 as <-. simpl in He'.
    assert (engagement db1 = engagement db') as Ee.
    { destruct pre as [[k text]|]; [|by subst]. unfold establish_prerequisite in H1.
      destruct (prerequisites db' !! k); guard_ok H1; by injection H1 as <-. }
    destruct Ho as (? & ? & ? & ? & ->). rewrite Ee in He'. injection He' as <-. simpl. repeat split; by auto.
  - right. exists e. destruct Ho as (? & ? & ? & ? & ->). injection He' as <-. simpl. repeat split; by auto.
Qed.

Lemma tables_inv_step policy db db' : step policy db db' -> tables_inv db -> tables_inv db'.
Proof.
  intros Hs [Hf Hc Hcan Hr Hcons Hap Hinj Hi]. pose proof (step_tables _ _ _ Hs) as [Te Tr Tnr Tp Tc Ta Tna Ti Tni].
  pose proof (step_engagement policy db db') as He.
  constructor.
  - intros Hn. destruct (engagement db) as [e|] eqn:E; [destruct (Te e eq_refl) as (? & ? & _); congruence|].
    destruct (step_rows _ _ _ Hs) as [Hrows|(e & _ & _ & _ & _ & _ & E' & _)]; [|congruence].
    apply map_eq. intros i. rewrite lookup_empty. specialize (Hrows i).
    rewrite (Hf eq_refl), lookup_empty in Hrows. by destruct (attempts db' !! i).
  - intros e' He'. destruct (He e' Hs He') as [(_ & _ & _ & ? & ?)|(e & E & -> & ? & _)]; [lia|].
    specialize (Hc e E). lia.
  - intros e' i r' He' Hcan' Hi'. destruct (He e' Hs He') as [(_ & ? & _)|(e & E & _ & _ & [Ec|[_ Ec]])]; [congruence| |].
    + destruct (step_rows _ _ _ Hs) as [Hrows|(e0 & now & request & eff & path & depth & E' & _ & _ & Ha & _)].
      * destruct (rows_step_lookup _ _ _ _ Hrows Hi') as (r & Hr0 & Hst). intros E'.
        apply (row_step_reserved _ _ Hst) in E'. apply (Hcan e i r); congruence.
      * destruct Ha. congruence.
    + rewrite Ec, lookup_fmap in Hi'. destruct (attempts db !! i) as [r|]; [|done]. injection Hi' as <-.
      destruct (cancel_row_cases r) as [[_ ->]|[? ->]]; done.
  - intros k rc Hk. destruct (Tnr k rc Hk) as [Hk'|Hk']; [|done]. destruct (Hr k rc Hk') as [? Hx]. split; [done|].
    by eapply reconciled_step.
  - intros k p id Hk Hid. destruct (Tc k p id Hk Hid) as [(p0 & Hk' & Hid')|]; [|done].
    eapply has_started_step; [done|]. by eapply Hcons.
  - intros k id Hk. destruct Tna as [E|(k' & id' & _ & _ & Hst & E)]; rewrite E in Hk.
    + eapply has_started_step, Hap; done.
    + destruct (decide (k = k')) as [->|Hne].
      * rewrite lookup_insert_eq in Hk. by injection Hk as <-.
      * rewrite lookup_insert_ne in Hk by done. eapply has_started_step, Hap; done.
  - intros k1 k2 id Hk1 Hk2. destruct Tna as [E|(k' & id' & _ & Hnin & _ & E)]; rewrite E in Hk1, Hk2.
    + by eapply Hinj.
    + assert (Hold : forall k, k <> k' -> <[k' := id']> (approvals db) !! k = Some id' -> False).
      { intros k Hne Hk. rewrite lookup_insert_ne in Hk by done. apply Hnin, in_map_iff. exists (k, id').
        split; [done|]. by apply list_elem_of_In, elem_of_map_to_list. }
      destruct (decide (k1 = k')) as [->|Hne1], (decide (k2 = k')) as [->|Hne2]; [done| | |].
      * rewrite lookup_insert_eq in Hk1. injection Hk1 as <-. by destruct (Hold k2).
      * rewrite lookup_insert_eq in Hk2. injection Hk2 as <-. by destruct (Hold k1).
      * rewrite lookup_insert_ne in Hk1, Hk2 by done. by eapply Hinj.
  - intros id t Ht. destruct (Tni id t Ht) as [Ht'|]; [|done]. eapply has_started_step, Hi; done.
Qed.
