(* ===== verification/BudgetProps.v ===== *)
(** * The assessment budget ledger: properties

    What the ledger promises to the dispatch boundary, for every history of
    calls: bounds of the engagement and of every subtree, finality of terminal
    attempts and of cancellation, single use of approvals and prerequisites,
    idempotent reservation, atomic failure. *)

From stdpp Require Import relations.
From S2P Require Import Prelude PyStr Json JsonParse JsonScan JsonFacts Canonical PyRegex Timestamp.
From S2P Require Import Budget.
From S2P Require Import BudgetFacts BudgetInv.

#[local] Opaque AttemptRequest_init Receipt_init BudgetLimits_init _identifier int64_max.

(** ** Histories of calls *)

Section Histories.
Context `{Host}.
Variable policy : BudgetPolicy.

Definition call (db db' : Ledger) : Prop := exists op clock, op_valid op /\ db' = fst (exec policy op clock db).

(** Any sequence of calls. *)
Definition history : Ledger -> Ledger -> Prop := rtc call.

Lemma call_step db db' : call db db' -> step policy db db'.
Proof. intros (op & clock & Hv & ->). by apply exec_step. Qed.

(** What every step preserves, a history preserves. *)
Lemma history_ind (P : Ledger -> Prop) db db' :
  (forall d d', step policy d d' -> P d -> P d') -> history db db' -> P db -> P db'.
Proof. intros HP. induction 1 as [|d1 d2 d3 Hc _ IH]; [done|]. intros Hd. by eapply IH, HP, Hd; apply call_step. Qed.

Lemma history_ind_call (P : Ledger -> Prop) db db' :
  (forall d d', call d d' -> P d -> P d') -> history db db' -> P db -> P db'.
Proof. intros HP. induction 1 as [|d1 d2 d3 Hc _ IH]; [done|]. intros Hd. by eapply IH, HP, Hd. Qed.

Lemma reachable_call db db' : reachable policy db -> call db db' -> reachable policy db'.
Proof. intros Hr (op & clock & Hv & ->). by constructor. Qed.

Lemma reachable_history db db' : reachable policy db -> history db db' -> reachable policy db'.
Proof.
  intros Hr Hh. induction Hh as [|d1 d2 d3 (op & clock & Hv & ->) _ IH]; [done|]. apply IH. by constructor.
Qed.

Lemma reachable_tables_inv db : reachable policy db -> tables_inv db.
Proof.
  induction 1 as [|db op clock _ IH Hv]; [apply tables_inv_empty|].
  by eapply tables_inv_step, IH; apply exec_step.
Qed.

Lemma history_cancelled db db' e : history db db' -> engagement db = Some e -> cancelled e = true ->
  exists e', engagement db' = Some e' /\ cancelled e' = true.
Proof.
  intros Hh He Hc. apply (history_ind (fun d => exists e', engagement d = Some e' /\ cancelled e' = true) db db'); eauto.
  intros d d' Hs (e1 & He1 & Hc1). destruct (step_tables _ _ _ Hs) as [Te _ _ _ _ _ _ _ _].
  destruct (Te e1 He1) as (e2 & ? & _ & _ & _ & ?). eauto.
Qed.

Lemma history_approvals db db' k id : history db db' -> approvals db !! k = Some id -> approvals db' !! k = Some id.
Proof. intros Hh. apply (history_ind (fun d => approvals d !! k = Some id) db db'); [|done]. intros d d' Hs. apply (step_tables _ _ _ Hs). Qed.

Lemma history_intents db db' id t : history db db' -> intents db !! id = Some t -> intents db' !! id = Some t.
Proof. intros Hh. apply (history_ind (fun d => intents d !! id = Some t) db db'); [|done]. intros d d' Hs. apply (step_tables _ _ _ Hs). Qed.

Lemma history_consumed db db' k id :
  history db db' -> (exists p, prerequisites db !! k = Some p /\ consumed_by_attempt_id p = Some id) ->
  exists p, prerequisites db' !! k = Some p /\ consumed_by_attempt_id p = Some id.
Proof.
  intros Hh. apply (history_ind (fun d => exists p, prerequisites d !! k = Some p /\ consumed_by_attempt_id p = Some id) db db'); [|done].
  intros d d' Hs (p & Hp & Hid). destruct (step_tables _ _ _ Hs) as [_ _ _ Tp _ _ _ _ _].
  destruct (Tp k p Hp) as (p' & ? & _ & _ & Hc). exists p'. auto.
Qed.

(** A row keeps its request, limits and depth. *)
Lemma history_static db db' i r : history db db' -> attempts db !! i = Some r -> exists r',
  attempts db' !! i = Some r' /\ row_request r' = row_request r /\ row_limits r' = row_limits r /\ row_depth r' = row_depth r.
Proof.
  intros Hh Hr. apply (history_ind (fun d => exists r', attempts d !! i = Some r' /\ row_request r' = row_request r /\
    row_limits r' = row_limits r /\ row_depth r' = row_depth r) db db'); eauto.
  intros d d' Hs (r1 & Hr1 & E1 & E2 & E3). destruct (step_rows _ _ _ Hs) as [Hrows|(e & now & q & eff & path & depth & _ & _ & _ & Ha & E)].
  - specialize (Hrows i). rewrite Hr1 in Hrows. destruct (attempts d' !! i) as [r2|]; [|done]. exists r2.
    apply row_step_static in Hrows as (-> & -> & ->). done.
  - exists r1. rewrite E, lookup_insert_ne; [done|]. intros <-. destruct Ha. congruence.
Qed.

Lemma terminal_step r r' : row_step r r' -> row_state r = Settled \/ row_state r = Released -> r' = r.
Proof.
  destruct 1 as [|E|E|E|receipt E|]; intros Ht.
  - done.
  - destruct Ht; congruence.
  - destruct Ht, E; congruence.
  - destruct E as [E|E]; [destruct Ht; congruence|]. destruct r. simpl in *. by rewrite E.
  - destruct Ht as [Ht|Ht], E as [E|[E|E]]; congruence.
  - unfold cancel_row, is_active. by destruct Ht as [Ht|Ht]; rewrite Ht; simpl; rewrite Ht.
Qed.

Lemma dispatched_from r r' : row_step r r' -> row_state r' = Dispatched -> row_state r <> Reserved -> row_state r = Dispatched.
Proof.
  destruct 1 as [|E|E|E|receipt E|]; simpl; try done.
  - unfold reconciled_state. by destruct (known receipt).
  - by destruct (cancel_row_cases r) as [[? ?]|[_ ->]].
Qed.

(** The policy an engagement was created with. *)
Lemma history_policy db db' e : history db db' -> engagement db = Some e -> eng_policy e = policy ->
  exists e', engagement db' = Some e' /\ eng_policy e' = policy.
Proof.
  intros Hh He Hp. apply (history_ind (fun d => exists e', engagement d = Some e' /\ eng_policy e' = policy) db db'); eauto.
  intros d d' Hs (e1 & He1 & Hp1). destruct (step_tables _ _ _ Hs) as [Te _ _ _ _ _ _ _ _].
  destruct (Te e1 He1) as (e2 & ? & ? & _). exists e2. split; [done|congruence].
Qed.
End Histories.

Lemma is_within_trans a b c : is_within a b = true -> is_within b c = true -> is_within a c = true.
Proof.
  unfold is_within. rewrite !forallb_forall. intros H1 H2 [f g] Hin.
  specialize (H1 _ Hin). specialize (H2 _ Hin). simpl in *. simpl_bool. apply Z.leb_le. lia.
Qed.

(** Limits only narrow on the way down. *)
Lemma rows_inv_limits policy rows i r : rows_inv policy rows -> rows !! i = Some r ->
  is_within (row_limits r) (limits policy) = true.
Proof.
  intros Hinv. remember (Z.to_nat (row_depth r)) as d eqn:Hd. revert i r Hd.
  induction d as [d IH] using lt_wf_ind. intros i r -> Hi. pose proof (ri_limits _ _ Hinv i r Hi) as Hl.
  destruct (ri_forest _ _ Hinv i r Hi) as [Hp Hnn]. destruct (row_parent r) as [p|]; [|done].
  destruct Hl as (rp & Hrp & Hw). destruct Hp as (rp' & Hrp' & Hdep).
  assert (rp' = rp) as -> by congruence. destruct (ri_forest _ _ Hinv p rp Hrp) as [_ Hnn'].
  eapply is_within_trans; [done|]. eapply (IH (Z.to_nat (row_depth rp))); [lia|done|done].
Qed.

(** ** Errors *)

(** The error classes the module documents; a constraint of the database is not
    the way a request is refused. *)
Definition documented (e : exc) : Prop :=
  In (exc_cls e) [ValueError; BudgetDenied; BudgetStoreError] /\ ~ In (exc_msg e) ["UNIQUE"; "FOREIGN KEY"].




(** When a call may fail in one of the two ways the module does not document. *)
Class Undocumented := { overflows : Prop; recurses : Prop }.

Section Errors.
Context `{Undocumented}.

Definition expected (e : exc) : Prop :=
  documented e \/ (exc_cls e = OverflowError /\ overflows) \/ (exc_cls e = RecursionError /\ recurses).










End Errors.


Section Bodies.
Context `{Undocumented}.



#[local] Opaque _timestamp_ms.


End Bodies.

Section Safety.
Context `{Host} `{Undocumented}.
Variable policy : BudgetPolicy.
Variable db : Ledger.
Hypothesis Hrows : rows_inv policy (attempts db).
Hypothesis Htables : tables_inv db.





Lemma rows_of_In r rows : In r (rows_of rows) <-> exists i, rows !! i = Some r.
Proof.
  unfold rows_of. rewrite in_map_iff. split.
  - intros ([i r'] & <- & Hin). exists i. by apply elem_of_map_to_list, list_elem_of_In.
  - intros [i Hi]. exists (i, r). split; [done|]. by apply list_elem_of_In, elem_of_map_to_list.
Qed.


















End Safety.

(** ** Successful calls *)

Section Calls.
Context `{Host}.
Variable policy : BudgetPolicy.

Lemma transaction_ok {A} clock db (body : Ledger -> Engagement -> Z -> res (Ledger * A)) db' a :
  transaction policy clock db body = (db', Ok a) -> exists e now db0,
    opened policy db e now db0 /\ clock = Some now /\ body db0 e now = Ok (db', a).
Proof. exact (transaction_result _ _ _ _ _ (Ok a)). Qed.

(** What a successful dispatch recorded. *)
Lemma mark_dispatched_ok clock db id args db' a :
  mark_dispatched policy clock db id args = (db', Ok a) ->
  (exists r, attempts db !! id = Some r /\ row_state r = Reserved) /\
  (exists r, attempts db' !! id = Some r /\ row_state r = Dispatched) /\
  (forall k, approval_receipt_id args = Some k -> approvals db !! k = None /\ approvals db' !! k = Some id) /\
  (forall k, prerequisite_receipt_id args = Some k ->
     (exists p, prerequisites db !! k = Some p /\ consumed_by_attempt_id p = None) /\
     exists p, prerequisites db' !! k = Some p /\ consumed_by_attempt_id p = Some id) /\
  (forall items, dispatch_intent args = Some items -> printable (JObj items) = true /\
     intents db' !! id = Some (dumps true (JObj items))).
Proof.
  unfold mark_dispatched. destruct (check_dispatch id args) as [[intent expected]|] eqn:Hcheck; [|done].
  intros (e & now & db0 & Ho & _ & Hb)%transaction_ok.
  pose proof (opened_attempts _ _ _ _ _ Ho) as Ea. rewrite Ea in Hb.
  destruct (attempts db !! id) as [r|] eqn:Hr; [|done]. guard_ok Hb. guard_ok Hb. guard_ok Hb.
  apply res_bind_ok in Hb as (path & _ & ([] & _ & Hb)%res_bind_ok). guard_ok Hb.
  apply res_bind_ok in Hb as (db1 & H1 & (db2 & H2 & (db3 & H3 & [= <- _])%res_bind_ok)%res_bind_ok).
  assert (E1 : attempts db1 = attempts db /\ approvals db1 = approvals db /\
    forall k, prerequisite_receipt_id args = Some k -> is_Some expected ->
      (exists p, prerequisites db !! k = Some p /\ consumed_by_attempt_id p = None) /\
      exists p, prerequisites db1 !! k = Some p /\ consumed_by_attempt_id p = Some id).
  { destruct Ho as (_ & _ & _ & _ & ->).
    destruct (prerequisite_receipt_id args) as [k|], expected as [t|]; try (injection H1 as <-; split; [done|]; split; [done|]; intros ? ? [? ?]; done).
    unfold consume_prerequisite in H1. simpl in H1. destruct (prerequisites db !! k) as [p|] eqn:Hp; [|done].
    guard_ok H1. destruct (bool_decide (is_Some (consumed_by_attempt_id p))) eqn:Hcons; [done|].
    injection H1 as <-. split; [done|]. split; [done|]. intros k' [= <-] _. split.
    - exists p. split; [done|]. apply eq_None_not_Some. by apply bool_decide_eq_false in Hcons.
    - simpl. rewrite lookup_insert_eq. by eexists. }
  destruct E1 as (Ea1 & Eap1 & Hpre).
  assert (E2 : attempts db2 = attempts db1 /\ prerequisites db2 = prerequisites db1 /\
    forall k, approval_receipt_id args = Some k -> approvals db !! k = None /\ approvals db2 !! k = Some id).
  { destruct (approval_receipt_id args) as [k|]; [|by injection H2 as <-]. unfold consume_approval in H2.
    destruct (bool_decide (is_Some (approvals db1 !! k))) eqn:Hk; [done|]. guard_ok H2. injection H2 as <-. split; [done|]. split; [done|].
    intros k' [= <-]. rewrite Eap1 in Hk. split; [|simpl; by rewrite lookup_insert_eq].
    apply eq_None_not_Some. by apply bool_decide_eq_false in Hk. }
  destruct E2 as (Ea2 & Ep2 & Hap).
  assert (E3 : attempts db3 = attempts db2 /\ prerequisites db3 = prerequisites db2 /\ approvals db3 = approvals db2 /\
    forall i x t, intent = Some (i, x, t) -> intents db3 !! id = Some t).
  { destruct intent as [[[? ?] t]|]; [|by injection H3 as <-]. unfold insert_intent in H3. guard_ok H3.
    injection H3 as <-. repeat split; try done. intros ? ? ? [= _ _ <-]. simpl. by rewrite lookup_insert_eq. }
  destruct E3 as (Ea3 & Ep3 & Eap3 & Hint).
  unfold check_dispatch in Hcheck.
  apply res_bind_ok in Hcheck as (_ & _ & (_ & _ & Hcheck)%res_bind_ok). guard_ok Hcheck.
  apply res_bind_ok in Hcheck as (intent' & Hintent & Hcheck).
  destruct (negb (same_presence (prerequisite_receipt_id args) _)) eqn:Hsame; [done|].
  assert (intent' = intent /\ (is_Some (prerequisite_receipt_id args) -> is_Some expected)) as [-> Hexp].
  { apply negb_false_iff in Hsame. unfold same_presence in Hsame. apply eqb_prop in Hsame.
    destruct (prerequisite_receipt_id args), (expected_prerequisite args); try done.
    - apply res_bind_ok in Hcheck as (_ & _ & (t & _ & [= <- <-])%res_bind_ok). split; [done|]. by eexists.
    - injection Hcheck as <- <-. split; [done|]. by intros [? ?]. }
  simpl_bool. split; [by exists r|]. split; [|split; [|split]].
  - exists (set_state Dispatched r). unfold update_attempt. simpl. by rewrite Ea3, Ea2, Ea1, lookup_alter_eq, Hr.
  - intros k Hk. unfold update_attempt. simpl. rewrite Eap3. by apply Hap.
  - intros k Hk. unfold update_attempt. simpl. rewrite Ep3, Ep2. apply Hpre; [done|]. apply Hexp. by exists k.
  - intros items Hitems. rewrite Hitems in Hintent. unfold check_intent in Hintent.
    apply res_bind_ok in Hintent as (c & Hc & [= <-]).
    apply res_bind_ok in Hc as (i & _ & (x & _ & Hc)%res_bind_ok). guard_ok Hc.
    apply res_bind_ok in Hc as (t & Ht & Hc). guard_ok Hc. injection Hc as <-.
    unfold _canonical in Ht. guard_ok Ht. guard_ok Ht. injection Ht as <-. simpl_bool. split; [done|]. by eapply Hint.
Qed.

(** The row a successful reservation leaves, for a new or a repeated request. *)
Lemma reserve_ok clock db q child db' a : reserve policy clock db q child = (db', Ok a) ->
  exists e now r, engagement db = Some e /\ eng_policy e = policy /\ clock = Some now /\ last_seen_ms e <= now /\
  attempts db' !! attempt_id q = Some r /\
  row_request r = q /\ a = _attempt (attempt_id q) r /\
  match parent_id q with
  | None => row_limits r = default (limits policy) child
  | Some p => exists rp, attempts db' !! p = Some rp /\ row_limits r = default (row_limits rp) child
  end /\
  match attempts db !! attempt_id q with
  | Some _ => attempts db' = attempts db
  | None => attempts db' = <[attempt_id q := r]> (attempts db) /\ row_state r = Reserved
  end.
Proof.
  intros (e & now & db0 & Ho & Hclock & Hb)%transaction_ok. pose proof (opened_attempts _ _ _ _ _ Ho) as Ea.
  exists e, now. destruct Ho as (He & Hpol & Hlast & _ & Hdb0). cbv zeta in Hb.
  destruct (attempts db0 !! attempt_id q) as [r|] eqn:Hr.
  - apply res_bind_ok in Hb as (x & Hx & [= <- <-]). exists r. rewrite Ea in *. rewrite Hr.
    unfold reserve_existing in Hx. apply res_bind_ok in Hx as (inh & Hinh & Hx). guard_ok Hx. injection Hx as <-.
    simpl_bool. repeat (split; [done|]). split; [|done]. subst q. unfold row_parent in Hinh. rewrite Ea in Hinh.
    destruct (parent_id (row_request r)) as [p|]; [|by injection Hinh as <-].
    destruct (attempts db !! p) as [rp|]; [|done]. injection Hinh as <-. by exists rp.
  - rewrite Ea in Hr. rewrite Hr. guard_ok Hb. guard_ok Hb.
    apply res_bind_ok in Hb as ([parent path] & Hpath & Hb). guard_ok Hb. guard_ok Hb. guard_ok Hb.
    apply res_bind_ok in Hb as ([] & _ & (db1 & [_ ->]%insert_attempt_ok & Hb)%res_bind_ok).
    apply res_bind_ok in Hb as ([] & _ & ([] & _ & ([] & _ & [= <- <-])%res_bind_ok)%res_bind_ok).
    eexists. do 4 (split; [done|]). simpl. rewrite lookup_insert_eq, Ea. split; [done|]. split; [done|]. split; [done|].
    split; [|done]. simpl. unfold reserve_ancestors in Hpath. rewrite Ea in Hpath.
    destruct (parent_id q) as [p|]; [|by injection Hpath as <- _].
    destruct (attempts db !! p) as [rp|] eqn:Hrp; [|done]. destruct (row_state rp == Released); [done|].
    apply res_bind_ok in Hpath as (? & _ & (_ & _ & [= <- _])%res_bind_ok). exists rp.
    rewrite lookup_insert_ne by congruence. done.
Qed.
End Calls.

(** ** Limits *)

Section Limits.
Context `{Host}.
Variable policy : BudgetPolicy.

(** No receipt of the attempt reported more than it had reserved. *)
Definition within_reservation (r : Row) : Prop :=
  charge_tokens r <= estimated_tokens (row_request r) /\ charge_cost r <= estimated_cost_microunits (row_request r).

(** The rows are within the limits of the policy and of their ancestors. *)
Definition rows_within (rows : gmap string Row) : Prop :=
  held (fun m => total m rows) (limits policy) /\
  ((forall i r, rows !! i = Some r -> within_reservation r) -> fits (fun m => total m rows) (limits policy)) /\
  forall a ra, rows !! a = Some ra ->
    is_within (row_limits ra) (limits policy) = true /\
    held (tree rows a) (row_limits ra) /\
    ((forall i r, rows !! i = Some r -> descends rows i a = true -> within_reservation r) -> fits (tree rows a) (row_limits ra)) /\
    row_depth ra <= max_depth (limits policy) /\
    sibling_count rows a <= max_children_per_parent (row_limits ra) /\
    (forall i r, rows !! i = Some r -> descends rows i a = true -> row_depth r - row_depth ra <= max_depth (row_limits ra)).

(** Attempt [n] was admitted in time, and with it everything is within its limits. *)
Definition admitted_within (db db' : Ledger) (n : string) (clock : option Z) : Prop :=
  fits (fun m => total m (attempts db')) (limits policy) /\
  exists e now, engagement db = Some e /\ clock = Some now /\ elapsed e now <= max_elapsed_ms (limits policy) /\
    forall a ra, attempts db' !! a = Some ra -> descends (attempts db') n a = true ->
      fits (tree (attempts db') a) (row_limits ra) /\ (a <> n -> elapsed e now <= max_elapsed_ms (row_limits ra)).

Lemma capped_total rows : (forall i r, rows !! i = Some r -> within_reservation r) ->
  held (fun m => total m rows) (limits policy) -> fits (fun m => total m rows) (limits policy).
Proof.
  intros Hw (? & ? & ? & Ht & Hc). unfold fits.
  assert (total capped_tokens rows = total charge_tokens rows /\ total capped_cost rows = total charge_cost rows) as [<- <-].
  { split; apply msum_ext; intros i r Hi; destruct (Hw i r Hi); unfold capped_tokens, capped_cost; lia. }
  unfold held. lia.
Qed.

Lemma capped_tree rows a l : (forall i r, rows !! i = Some r -> descends rows i a = true -> within_reservation r) ->
  held (tree rows a) l -> fits (tree rows a) l.
Proof.
  intros Hw (? & ? & ? & Ht & Hc). unfold fits.
  assert (tree rows a capped_tokens = tree rows a charge_tokens /\ tree rows a capped_cost = tree rows a charge_cost) as [<- <-].
  { split; apply msum_ext; intros i r Hi; destruct (descends rows i a) eqn:E; try done;
      destruct (Hw i r Hi E); unfold capped_tokens, capped_cost; lia. }
  unfold held. lia.
Qed.

Lemma rows_inv_within rows : rows_inv policy rows -> shape_inv rows -> rows_within rows.
Proof.
  intros Hinv Hsh. split; [apply (ri_total _ _ Hinv)|]. split; [intros; by apply capped_total, (ri_total _ _ Hinv)|].
  intros a ra Ha. pose proof (ri_tree _ _ Hinv a ra Ha). split; [by eapply rows_inv_limits|]. split; [done|].
  split; [intros; by apply capped_tree|]. split; [by apply (ri_row _ _ Hinv a ra)|]. split; [by apply (si_fanout _ Hsh)|].
  intros i r Hi Hd. by eapply (si_depth _ Hsh).
Qed.

Lemma reserve_within db clock q child db' att :
  rows_inv policy (attempts db) -> AttemptRequest_init q = Ok tt -> (forall l, child = Some l -> BudgetLimits_init l = Ok tt) ->
  attempts db !! attempt_id q = None -> reserve policy clock db q child = (db', Ok att) ->
  admitted_within db db' (attempt_id q) clock.
Proof.
  intros Hinv Hq Hc Hn Hres. destruct (reserve_admits _ _ _ _ _ _ _ Hq Hc Hres) as (e & now & db0 & Ho & Hclock & Hcase).
  destruct Hcase as [[[? ?] _]|(eff & path & depth & Ha & ->)]; [congruence|]. rewrite (opened_attempts _ _ _ _ _ Ho).
  unfold admitted_within. simpl.
  pose proof (rows_inv_admit policy e now _ q eff path depth Hinv Ha) as Hinv'.
  destruct Ha as [_ _ _ Hel _ _ Hp Hpath Htot Hown]. split; [exact Htot|]. exists e, now.
  split; [by destruct Ho|]. split; [done|]. split; [done|]. intros a ra Hra Hd.
  apply lookup_insert_Some in Hra as [[<- <-]|[Hne Hra]].
  - split; [|done]. pose proof (ri_forest _ _ Hinv) as Hf. unfold fits, held in *.
    rewrite !tree_insert, !tree_absent, !Hd by done. simpl. change (row_limits _) with eff. lia.
  - assert (Hleaf : In (a, ra) path); [|by destruct (Hpath a ra Hleaf) as (_ & _ & ? & ?)].
    rewrite descends_new in Hd; [|apply (ri_forest _ _ Hinv)|done|].
    + apply orb_true_iff in Hd as [?|Hd]; [simpl_bool; congruence|]. unfold row_parent in Hd. simpl in Hd.
      destruct (parent_id q) as [p|]; [|done]. destruct Hp as (rp & _ & Hlin & _).
      by apply (descends_path _ _ _ _ _ Hlin).
    + unfold row_parent. simpl. destruct (parent_id q) as [p|]; [|apply Hp]. destruct Hp as (rp & ? & _ & ? & _). by exists rp.
Qed.

Lemma mark_dispatched_deadline db clock id args db' att :
  mark_dispatched policy clock db id args = (db', Ok att) ->
  exists e now, engagement db = Some e /\ clock = Some now /\ elapsed e now <= max_elapsed_ms (limits policy) /\
    forall a ra, attempts db !! a = Some ra -> descends (attempts db) id a = true ->
      elapsed e now <= max_elapsed_ms (row_limits ra).
Proof.
  unfold mark_dispatched. destruct (check_dispatch id args) as [[intent expected]|err]; [|done].
  intros (e & now & db0 & Ho & Hclock & Hb)%transaction_result. rewrite (opened_attempts _ _ _ _ _ Ho) in Hb.
  destruct (attempts db !! id) as [r|] eqn:Hr; [|done]. guard_ok Hb. guard_ok Hb. guard_ok Hb. simpl_bool.
  apply res_bind_ok in Hb as (path & Hl & ([] & Hpath & _)%res_bind_ok). exists e, now.
  split; [by destruct Ho|]. split; [done|]. split; [done|]. intros a ra Ha Hd.
  pose proof (for_each_In _ _ _ Hpath (descends_path _ _ _ _ _ Hl Hd Ha)) as Hrow. simpl in Hrow.
  guard_ok Hrow. guard_ok Hrow. simpl_bool. lia.
Qed.
End Limits.

(** ** Properties *)

Section Properties.
Context `{Host}.
Variable policy : BudgetPolicy.
Hypothesis Hlimits : BudgetLimits_init (limits policy) = Ok tt.

(** C1. In every reachable ledger the engagement and the subtree of every attempt
    stay within their limits: on the charged attempts, the retained output bytes, the
    active attempts, the depth and the children of an attempt, and on the tokens and
    the cost up to what was reserved.  A receipt may report more tokens or a higher
    cost than its attempt had reserved; where none does, the full charges are within
    the limits.  The limits of an attempt never exceed the policy's.  A call that
    admits an attempt leaves the full charges of the engagement and of every subtree
    the attempt is in within their limits, and is made before the deadlines of the
    engagement and of its ancestors; a dispatch is made before those of the
    engagement, the attempt and its ancestors. *)
Theorem budget_never_exceeded (db : Ledger) : reachable policy db ->
  rows_within policy (attempts db) /\
  (forall clock q child db' att, AttemptRequest_init q = Ok tt ->
     (forall l, child = Some l -> BudgetLimits_init l = Ok tt) -> attempts db !! attempt_id q = None ->
     reserve policy clock db q child = (db', Ok att) -> admitted_within policy db db' (attempt_id q) clock) /\
  (forall clock id args db' att, mark_dispatched policy clock db id args = (db', Ok att) ->
     exists e now, engagement db = Some e /\ clock = Some now /\ elapsed e now <= max_elapsed_ms (limits policy) /\
       forall a ra, attempts db !! a = Some ra -> descends (attempts db) id a = true ->
         elapsed e now <= max_elapsed_ms (row_limits ra)).
Proof.
  intros Hr. pose proof (reachable_rows_inv policy Hlimits db Hr) as Hinv. split; [|split].
  - apply rows_inv_within; [done|by eapply reachable_shape_inv].
  - intros clock q child db' att Hq Hc Hn Hres. by eapply reserve_within.
  - intros clock id args db' att. by apply mark_dispatched_deadline.
Qed.

(** [snapshot] of a reachable ledger reports exactly the charged totals, and
    flags [over_budget] only when a receipt reported more tokens or a higher cost
    than its attempt had reserved. *)
Theorem snapshot_exact (db db' : Ledger) (clock : option Z) (s : BudgetSnapshot) :
  reachable policy db -> snapshot policy clock db = (db', Ok s) ->
  charged_attempts s = total charge_count (attempts db) /\ charged_tokens s = total charge_tokens (attempts db) /\
  charged_cost_microunits s = total charge_cost (attempts db) /\
  charged_output_bytes s = total charge_output (attempts db) /\
  active_concurrency s = total active_count (attempts db) /\
  (over_budget s = true -> exists i r, attempts db !! i = Some r /\
     (estimated_tokens (row_request r) < charge_tokens r \/
      estimated_cost_microunits (row_request r) < charge_cost r)).
Proof.
  intros Hinv%reachable_rows_inv (e & now & db0 & Ho & _ & Hb)%transaction_ok; [|done].
  rewrite (opened_attempts _ _ _ _ _ Ho) in Hb. apply res_bind_ok in Hb as (s0 & Hs0 & [= _ <-]).
  apply charged_sums in Hs0 as (E1 & E2 & E3 & E4 & E5). rewrite !rows_of_total in *. simpl.
  do 5 (split; [done|]). intros Hover.
  set (over := fun r => (estimated_tokens (row_request r) <? charge_tokens r) ||
                        (estimated_cost_microunits (row_request r) <? charge_cost r)).
  destruct (existsb over (rows_of (attempts db))) eqn:Hex.
  - apply existsb_exists in Hex as (r & [i Hi]%rows_of_In & Hr). exists i, r. split; [done|].
    unfold over in Hr. apply orb_true_iff in Hr as [?|?]; simpl_bool; lia.
  - assert (Hno : forall i r, attempts db !! i = Some r -> over r = false).
    { intros i r Hi. apply not_true_is_false. intros Hr. enough (existsb over (rows_of (attempts db)) = true) by congruence.
      apply existsb_exists. exists r. split; [|done]. apply rows_of_In. by exists i. }
    destruct (ri_total _ _ Hinv) as (? & ? & ? & Hct & Hcc).
    assert (total capped_tokens (attempts db) = total charge_tokens (attempts db)) as Et.
    { apply msum_ext. intros i r Hi. specialize (Hno i r Hi). unfold over, capped_tokens in *. simpl_bool. lia. }
    assert (total capped_cost (attempts db) = total charge_cost (attempts db)) as Ec.
    { apply msum_ext. intros i r Hi. specialize (Hno i r Hi). unfold over, capped_cost in *. simpl_bool. lia. }
    apply negb_true_iff in Hover. unfold _within in Hover. rewrite E1, E2, E3, E4, E5 in Hover.
    exfalso. apply not_true_iff_false in Hover. apply Hover. rewrite !andb_true_iff, !Z.leb_le. lia.
Qed.

(** Cancellation is final: after it, whatever is called, the engagement stays
    cancelled, no attempt is admitted, no attempt is waiting in [reserved], and
    none becomes dispatched that was not. *)
Theorem cancellation_final (db db' : Ledger) (e : Engagement) :
  reachable policy db -> engagement db = Some e -> cancelled e = true -> history policy db db' ->
  (exists e', engagement db' = Some e' /\ cancelled e' = true) /\
  (forall i, is_Some (attempts db' !! i) <-> is_Some (attempts db !! i)) /\
  (forall i r', attempts db' !! i = Some r' -> row_state r' <> Reserved /\
     (row_state r' = Dispatched -> exists r, attempts db !! i = Some r /\ row_state r = Dispatched)).
Proof.
  intros Hr He Hc Hh. split; [by eapply history_cancelled|].
  enough (Hgoal : (reachable policy db' /\ exists e', engagement db' = Some e' /\ cancelled e' = true) /\
    (forall i, is_Some (attempts db' !! i) <-> is_Some (attempts db !! i)) /\
    (forall i r', attempts db' !! i = Some r' -> row_state r' = Dispatched ->
       exists r, attempts db !! i = Some r /\ row_state r = Dispatched)).
  { destruct Hgoal as ((Hr' & e' & He' & Hc') & Hdom & Hdis). split; [done|]. intros i r' Hi. split; [|by apply Hdis].
    by apply (ti_cancelled _ (reachable_tables_inv _ _ Hr') e' i). }
  pattern db'. eapply history_ind_call; [|exact Hh|by eauto 10].
  intros d d' Hcall ((Hrd & ed & Hed & Hcd) & Hdom & Hdis).
  split; [split; [by eapply reachable_call|by eapply history_cancelled; [apply rtc_once|..]]|].
  destruct (step_rows _ _ _ (call_step _ _ _ Hcall)) as [Hrows|(e3 & now & q & eff & path & depth & He3 & _ & _ & Ha & _)];
    [|destruct Ha; congruence].
  split.
  - intros i. rewrite <- Hdom. specialize (Hrows i).
    destruct (attempts d !! i), (attempts d' !! i); try done; by split; intros [? ?].
  - intros i r' Hi Hst. destruct (rows_step_lookup _ _ _ _ Hrows Hi) as (r & Hi2 & Hrs).
    apply (Hdis i r Hi2), (dispatched_from _ _ Hrs Hst).
    by apply (ti_cancelled _ (reachable_tables_inv _ _ Hrd) ed i r).
Qed.

(** A settled or released attempt never changes again: no call can restart it,
    charge it anew or edit its usage. *)
Theorem terminal_attempts_final (db db' : Ledger) (i : string) (r : Row) :
  attempts db !! i = Some r -> row_state r = Settled \/ row_state r = Released ->
  history policy db db' -> attempts db' !! i = Some r.
Proof.
  intros Hi Ht Hh. apply (history_ind policy (fun d => attempts d !! i = Some r) db db'); try done.
  intros d d' Hs Hd. destruct (step_rows _ _ _ Hs) as [Hrows|(e & now & q & eff & path & depth & _ & _ & _ & Ha & E)].
  - specialize (Hrows i). rewrite Hd in Hrows. destruct (attempts d' !! i) as [r'|]; [|done].
    by rewrite (terminal_step _ _ Hrows Ht).
  - rewrite E, lookup_insert_ne; [done|]. intros <-. destruct Ha. congruence.
Qed.

(** C36. An approval receipt and a validation prerequisite each allow one dispatch:
    no two successful dispatches of a history name the same one, and no attempt is
    dispatched twice. *)
Theorem approvals_single_use (db1 db1' db2 db2' : Ledger) clock1 clock2 id1 id2 args1 args2 a1 a2 :
  mark_dispatched policy clock1 db1 id1 args1 = (db1', Ok a1) -> history policy db1' db2 ->
  mark_dispatched policy clock2 db2 id2 args2 = (db2', Ok a2) ->
  id1 <> id2 /\
  (is_Some (approval_receipt_id args1) -> approval_receipt_id args1 <> approval_receipt_id args2) /\
  (is_Some (prerequisite_receipt_id args1) -> prerequisite_receipt_id args1 <> prerequisite_receipt_id args2).
Proof.
  intros (_ & (r1 & Hr1 & Hst1) & Ha1 & Hp1 & _)%mark_dispatched_ok Hh ((r2 & Hr2 & Hst2) & _ & Ha2 & Hp2 & _)%mark_dispatched_ok.
  split; [|split].
  - intros <-. enough (has_started db2 id1) as (r & ? & ? & _) by congruence.
    apply (history_ind policy (fun d => has_started d id1) db1' db2); [|done|].
    + intros d d' Hs. by eapply has_started_step.
    + exists r1. split; [done|]. by split; rewrite Hst1.
  - intros [k Hk] Heq. destruct (Ha1 k Hk) as [_ H1]. rewrite Hk in Heq. symmetry in Heq.
    destruct (Ha2 k Heq) as [H2 _]. apply (history_approvals _ _ _ _ _ Hh) in H1. congruence.
  - intros [k Hk] Heq. destruct (Hp1 k Hk) as [_ H1]. rewrite Hk in Heq. symmetry in Heq.
    destruct (Hp2 k Heq) as [(p & H2 & H2') _]. apply (history_consumed _ _ _ _ _ Hh) in H1 as (p' & ? & ?). congruence.
Qed.


(** A reservation can be retried at any later time: whatever happened in
    between, the same request with the same limits succeeds, leaves every table
    as it is, and answers for the same attempt. *)
Theorem reserve_idempotent (db db1 db2 : Ledger) clock now q child a e :
  reserve policy clock db q child = (db1, Ok a) -> history policy db1 db2 ->
  engagement db2 = Some e -> last_seen_ms e <= now <= int64_max -> 0 <= now ->
  exists a', reserve policy (Some now) db2 q child = (set_engagement (see now e) db2, Ok a') /\
    att_id a' = att_id a /\ att_parent a' = att_parent a /\ att_depth a' = att_depth a.
Proof.
  intros Hres Hh He Hnow Hpos.
  destruct (reserve_ok _ _ _ _ _ _ _ Hres) as (e0 & now0 & r & He0 & Hpol & _ & _ & Hr & Hq & -> & Hlim & _).
  destruct (history_static _ _ _ _ _ Hh Hr) as (r2 & Hr2 & Eq2 & El2 & Ed2).
  exists (_attempt (attempt_id q) r2). split; [|simpl; unfold row_parent; by rewrite Eq2].
  apply transaction_ok in Hres as (e1 & now1 & db0 & (He1 & Hpol1 & _ & _ & Hdb0) & _ & Hbody).
  assert (Hpol2 : eng_policy e = policy).
  { assert (Heng : engagement db1 = engagement db0).
    { cbv zeta in Hbody. destruct (attempts db0 !! attempt_id q).
      - by apply res_bind_ok in Hbody as (? & _ & [= <- _]).
      - do 2 guard_ok Hbody. apply res_bind_ok in Hbody as ([parent path] & _ & Hbody). do 3 guard_ok Hbody.
        apply res_bind_ok in Hbody as ([] & _ & (db3 & [_ ->]%insert_attempt_ok & Hbody)%res_bind_ok).
        by apply res_bind_ok in Hbody as ([] & _ & ([] & _ & ([] & _ & [= <- _])%res_bind_ok)%res_bind_ok). }
    destruct (history_policy policy db1 db2 (see now1 e1) Hh) as (e2 & He2 & ?); [by rewrite Heng, Hdb0|done|congruence]. }
  unfold reserve, transaction. rewrite He, Hpol2, eqb_refl. simpl.
  destruct ((now <? 0) || (int64_max <? now)) eqn:E; [apply orb_true_iff in E as [?|?]; simpl_bool; lia|].
  destruct (now <? last_seen_ms e) eqn:E'; [simpl_bool; lia|]. simpl. rewrite Hr2.
  unfold reserve_existing. unfold row_parent. rewrite Eq2, Hq. simpl.
  destruct (parent_id q) as [p|].
  - destruct Hlim as (rp & Hrp & Hlim). destruct (history_static _ _ _ _ _ Hh Hrp) as (rp2 & Hrp2 & _ & Elp & _).
    rewrite Hrp2. simpl. by rewrite El2, Hlim, Elp, eqb_refl, eqb_refl.
  - simpl. by rewrite El2, Hlim, eqb_refl, eqb_refl.
Qed.

(** C38. A call that raises changes nothing but the clock mark, and the clock mark
    never moves back. *)
Theorem failed_call_atomic (db : Ledger) (op : Op) (clock : option Z) err :
  snd (exec policy op clock db) = Raise err -> fst (exec policy op clock db) = db \/
  exists e now, engagement db = Some e /\ last_seen_ms e <= now /\
    fst (exec policy op clock db) = set_engagement (see now e) db.
Proof.
  assert (Ht : forall A (body : Ledger -> Engagement -> Z -> res (Ledger * A)) err,
    snd (transaction policy clock db body) = Raise err ->
    fst (transaction policy clock db body) = db \/ exists e now, engagement db = Some e /\ last_seen_ms e <= now /\
      fst (transaction policy clock db body) = set_engagement (see now e) db).
  { intros A body err'. unfold transaction. destruct (engagement db) as [e|]; [|by left].
    destruct (negb _); [by left|]. destruct (_now clock) as [now|]; [|by left].
    destruct (now <? last_seen_ms e) eqn:E; [by left|]. simpl_bool.
    destruct (body _ e now) as [[? ?]|]; [done|]. intros _. right. by exists e, now. }
  assert (Hvoid : forall A (r : Ledger * res A), snd (void r) = Raise err -> exists err', snd r = Raise err').
  { intros A [d [x|e]]; simpl; [done|]. by eexists. }
  destruct op; cbn [exec]; try (intros [err' Herr]%Hvoid; cbn [void fst]; revert Herr).
  - unfold open_ledger. destruct (_now clock) as [now|]; [|by left]. destruct (engagement db) as [e|]; [|done].
    destruct (negb _); [by left|]. destruct (now <? _); [by left|done].
  - apply Ht.
  - unfold get_attempt. destruct (_identifier id _); [apply Ht|by left].
  - unfold get_dispatch_intent. destruct (_identifier id _); [apply Ht|by left].
  - unfold mark_dispatched. destruct (check_dispatch id args) as [[? ?]|]; [apply Ht|by left].
  - unfold mark_uncertain. destruct (_identifier id _); [apply Ht|by left].
  - unfold release_undispatched. destruct (_identifier id _); [apply Ht|by left].
  - unfold reconcile. destruct (check_prerequisite receipt pid payload); [apply Ht|by left].
  - apply Ht.
  - unfold cancellation_report. destruct (_identifier id _); [apply Ht|by left].
  - apply Ht.
  - unfold remaining_elapsed_ms. destruct (match id with Some i => _ | None => _ end); [apply Ht|by left].
Qed.
(** The dispatch intent of a successful dispatch is durable: at any later time
    [get_dispatch_intent] returns that document, its keys sorted, where its text is not
    nested beyond the recursion limit. *)
Theorem dispatch_intent_durable (db db1 db2 : Ledger) clock now id args items a e :
  mark_dispatched policy clock db id args = (db1, Ok a) -> dispatch_intent args = Some items ->
  float_free (JObj items) = true -> keys_unique (JObj items) = true ->
  loads_recurses (dumps true (JObj items)) = false -> history policy db1 db2 ->
  engagement db2 = Some e -> eng_policy e = policy -> last_seen_ms e <= now <= int64_max -> 0 <= now ->
  snd (get_dispatch_intent policy (Some now) db2 id) = Ok (json_sort (JObj items)).
Proof.
  intros Hm Hitems Hf Hk Hrec Hh He Hp Hnow Hpos.
  destruct (mark_dispatched_ok _ _ _ _ _ _ _ Hm) as (_ & _ & _ & _ & Hi).
  destruct (Hi items Hitems) as [Hprint Hstored]. apply (history_intents _ _ _ _ _ Hh) in Hstored.
  assert (Hid : _identifier id "attempt_id" = Ok tt).
  { unfold mark_dispatched, check_dispatch in Hm. by destruct (_identifier id "attempt_id") as [[]|]. }
  unfold get_dispatch_intent. rewrite Hid. unfold transaction. rewrite He, Hp, eqb_refl. simpl.
  destruct ((now <? 0) || (int64_max <? now)) eqn:E; [apply orb_true_iff in E as [?|?]; simpl_bool; lia|].
  destruct (now <? last_seen_ms e) eqn:E'; [simpl_bool; lia|]. simpl. rewrite Hstored, Hrec.
  rewrite loads_printed by done. rewrite json_sort_obj. simpl. by rewrite sort_items_map.
Qed.
End Properties.

(** ** A concrete history *)

Lemma reachable_run `{Host} policy ops db : reachable policy db -> Forall (fun x => op_valid (fst x)) ops ->
  reachable policy (run policy ops db).
Proof.
  intros Hr Hv. revert db Hr. induction Hv as [|[op now] ops Hop _ IH]; intros db Hr; simpl; [done|].
  apply IH. by constructor.
Qed.

Lemma history_run `{Host} policy ops db : Forall (fun x => op_valid (fst x)) ops -> history policy db (run policy ops db).
Proof.
  intros Hv. revert db. induction Hv as [|[op now] ops Hop _ IH]; intros db; simpl; [constructor|].
  eapply rtc_l; [|apply IH]. by exists op, (Some now).
Qed.

Definition demo_limits : BudgetLimits :=
  {| max_attempts := 3; max_estimated_tokens := 100; max_estimated_cost_microunits := 100; max_elapsed_ms := 1000;
     max_concurrency := 2; max_retained_output_bytes := 100; max_depth := 2; max_children_per_parent := 2 |}.

Definition demo_policy : BudgetPolicy :=
  {| engagement_id := "eng-1"; limits := demo_limits; currency := "USD"; price_source := "list"; price_version := "v1";
     price_effective_date := "2026-01-01"; schema_version := "cops.assessment-budget/v1"; price_error_policy := "deny" |}.

Definition demo_request (id : string) (parent : option string) : AttemptRequest :=
  {| attempt_id := id; parent_id := parent; estimated_tokens := 10; estimated_cost_microunits := 10;
     reserved_output_bytes := 20 |}.

Definition demo_intent (receipt : string) : DispatchArgs :=
  {| approval_receipt_id := Some receipt;
     dispatch_intent := Some [("approval_issued_at", JStr "1970-01-01T00:00:00Z");
                              ("approval_expires_at", JStr "1970-01-01T00:00:01Z")];
     prerequisite_receipt_id := None; expected_prerequisite := None |}.

(** It reports more tokens than were reserved. *)
Definition demo_receipt : Receipt :=
  {| receipt_id := "r1"; receipt_attempt_id := "a"; outcome := "completed"; tokens := Some 500;
     cost_microunits := Some 6; retained_output_bytes := Some 7 |}.

Definition demo_ops : list (Op * Z) := [
  (OpOpen, 1); (OpReserve (demo_request "a" None) None, 2); (OpReserve (demo_request "b" (Some "a")) None, 3);
  (OpDispatch "a" (demo_intent "ap1"), 4); (OpReconcile demo_receipt None None, 5)].

Lemma demo_ops_valid ops : In ops [demo_ops; [(OpCancel, 6); (OpReserve (demo_request "c" None) None, 7)]] ->
  Forall (fun x => op_valid (fst x)) ops.
Proof. intros [<-|[<-|[]]]; repeat constructor; try discriminate; vm_compute; reflexivity. Qed.

Definition demo_ledger : Ledger := @run demo_host demo_policy demo_ops empty_ledger.

Lemma demo_reachable : @reachable demo_host demo_policy demo_ledger.
Proof. apply reachable_run; [constructor|]. apply demo_ops_valid. by left. Qed.

(** The ledger with [a] alone. *)
Definition demo_first : Ledger := @run demo_host demo_policy (firstn 2 demo_ops) empty_ledger.

Lemma demo_first_reachable : @reachable demo_host demo_policy demo_first.
Proof. apply reachable_run; [constructor|]. apply Forall_take, demo_ops_valid. by left. Qed.

(** The receipt of [a] reported 500 tokens: the capped charges are within the limits,
    and [over_budget] is set; no attempt is admitted any more, while before it [b] was. *)
Example demo_over_budget :
  total charge_tokens (attempts demo_ledger) = 510 /\
  snd (reserve demo_policy (Some 6) demo_ledger (demo_request "c" None) None) =
    raise BudgetDenied "aggregate budget exceeded".
Proof. split; vm_compute; reflexivity. Qed.

Lemma budget_never_exceeded_witness :
  held (fun m => total m (attempts demo_ledger)) demo_limits /\ total active_count (attempts demo_ledger) = 1 /\
  exists db' att, reserve demo_policy (Some 5) demo_first (demo_request "b" (Some "a")) None = (db', Ok att) /\
    admitted_within demo_policy demo_first db' "b" (Some 5).
Proof.
  assert (Hl : BudgetLimits_init (limits demo_policy) = Ok tt) by (vm_compute; reflexivity).
  split; [exact (proj1 (proj1 (@budget_never_exceeded demo_host demo_policy Hl demo_ledger demo_reachable)))|].
  split; [vm_compute; reflexivity|].
  assert (E : exists db' att, reserve demo_policy (Some 5) demo_first (demo_request "b" (Some "a")) None = (db', Ok att))
    by (eexists _, _; vm_compute; reflexivity).
  destruct E as (db' & att & E). exists db', att. split; [exact E|].
  refine (proj1 (proj2 (@budget_never_exceeded demo_host demo_policy Hl demo_first _)) (Some 5) (demo_request "b" (Some "a"))
    None db' att _ _ _ E); [exact demo_first_reachable|vm_compute; reflexivity|discriminate|vm_compute; reflexivity].
Defined.

Lemma snapshot_exact_witness : exists i r, attempts demo_ledger !! i = Some r /\
  (estimated_tokens (row_request r) < charge_tokens r \/ estimated_cost_microunits (row_request r) < charge_cost r).
Proof.
  assert (E : exists db s, snapshot demo_policy (Some 9) demo_ledger = (db, Ok s) /\ over_budget s = true)
    by (eexists _, _; vm_compute; split; reflexivity).
  destruct E as (db & s & E & Hover).
  refine (proj2 (proj2 (proj2 (proj2 (proj2 (@snapshot_exact demo_host demo_policy _ demo_ledger db (Some 9) s demo_reachable E)))))
    Hover).
  vm_compute. reflexivity.
Defined.

Definition demo_cancelled : Ledger := @run demo_host demo_policy [(OpCancel, 6)] demo_ledger.
Definition demo_after : Ledger :=
  @run demo_host demo_policy [(OpReserve (demo_request "c" None) None, 7)] demo_cancelled.

Lemma cancellation_final_witness : ~ is_Some (attempts demo_after !! "c").
Proof.
  assert (Hr : @reachable demo_host demo_policy demo_cancelled).
  { apply reachable_run; [apply demo_reachable|]. repeat constructor. }
  assert (Hh : @history demo_host demo_policy demo_cancelled demo_after).
  { apply history_run. repeat constructor; try discriminate; vm_compute; reflexivity. }
  assert (E : exists e, engagement demo_cancelled = Some e /\ cancelled e = true)
    by (eexists; vm_compute; split; reflexivity).
  destruct E as (e & He & Hc). intros Hs.
  apply (proj1 (proj2 (@cancellation_final demo_host demo_policy demo_cancelled demo_after e Hr He Hc Hh))) in Hs.
  destruct Hs as [r Hs]. vm_compute in Hs. discriminate.
Defined.

Lemma terminal_attempts_final_witness :
  attempts (@run demo_host demo_policy [(OpCancel, 6)] demo_ledger) !! "a" = attempts demo_ledger !! "a".
Proof.
  assert (E : exists r, attempts demo_ledger !! "a" = Some r /\ row_state r = Settled)
    by (eexists; vm_compute; split; reflexivity).
  destruct E as (r & E & Hst). rewrite E.
  apply (@terminal_attempts_final demo_host demo_policy demo_ledger); [exact E | by left |].
  apply history_run. repeat constructor.
Defined.




(** The ledger before the dispatch of [a], and after it. *)
Definition demo_reserved : Ledger := @run demo_host demo_policy (firstn 3 demo_ops) empty_ledger.
Definition demo_dispatched : Ledger :=
  fst (@mark_dispatched demo_host demo_policy (Some 4) demo_reserved "a" (demo_intent "ap1")).

Lemma demo_dispatch : exists a,
  @mark_dispatched demo_host demo_policy (Some 4) demo_reserved "a" (demo_intent "ap1") = (demo_dispatched, Ok a).
Proof. eexists. vm_compute. reflexivity. Qed.

Lemma approvals_single_use_witness :
  "a" <> "b" /\ approval_receipt_id (demo_intent "ap1") <> approval_receipt_id (demo_intent "ap2").
Proof.
  destruct demo_dispatch as [a1 E1].
  assert (E2 : exists db a, @mark_dispatched demo_host demo_policy (Some 5) demo_dispatched "b" (demo_intent "ap2") = (db, Ok a))
    by (eexists _, _; vm_compute; reflexivity).
  destruct E2 as (db & a2 & E2).
  pose proof (@approvals_single_use demo_host demo_policy demo_reserved demo_dispatched demo_dispatched db
    (Some 4) (Some 5) "a" "b" (demo_intent "ap1") (demo_intent "ap2") a1 a2 E1 (rtc_refl _ _) E2) as (H1 & H2 & _).
  split; [exact H1 | apply H2; eexists; reflexivity].
Defined.

Lemma reserve_idempotent_witness : exists db a,
  reserve demo_policy (Some 9) demo_ledger (demo_request "b" (Some "a")) None = (db, Ok a) /\ att_id a = "b".
Proof.
  destruct (reserve demo_policy (Some 3) (@run demo_host demo_policy (firstn 2 demo_ops) empty_ledger)
              (demo_request "b" (Some "a")) None) as [db r] eqn:E.
  assert (El : demo_ledger = @run demo_host demo_policy (skipn 3 demo_ops) db).
  { replace db with (fst (reserve demo_policy (Some 3) (@run demo_host demo_policy (firstn 2 demo_ops) empty_ledger)
      (demo_request "b" (Some "a")) None)) by (rewrite E; reflexivity). vm_compute. reflexivity. }
  assert (Hr : exists a, r = Ok a /\ att_id a = "b").
  { replace r with (snd (reserve demo_policy (Some 3) (@run demo_host demo_policy (firstn 2 demo_ops) empty_ledger)
      (demo_request "b" (Some "a")) None)) by (rewrite E; reflexivity). eexists. vm_compute. split; reflexivity. }
  destruct Hr as (a & -> & Ha).
  assert (Ee : exists e, engagement demo_ledger = Some e /\ last_seen_ms e = 5) by (eexists; vm_compute; split; reflexivity).
  destruct Ee as (e & Ee & Hl).
  assert (Hh : @history demo_host demo_policy db demo_ledger).
  { rewrite El. apply history_run. repeat constructor; try discriminate; vm_compute; reflexivity. }
  destruct (@reserve_idempotent demo_host demo_policy _ db demo_ledger (Some 3) 9 (demo_request "b" (Some "a")) None a e
    E Hh Ee) as (a' & E' & Hid & _); [rewrite Hl; split; vm_compute; discriminate | vm_compute; discriminate |].
  exists (set_engagement (see 9 e) demo_ledger), a'. split; [exact E' | congruence].
Defined.

Lemma failed_call_atomic_witness :
  attempts (fst (@exec demo_host demo_policy (OpUncertain "b") (Some 6) demo_ledger)) = attempts demo_ledger.
Proof.
  assert (E : exists err, snd (@exec demo_host demo_policy (OpUncertain "b") (Some 6) demo_ledger) = Raise err)
    by (eexists; vm_compute; reflexivity).
  destruct E as [err E].
  destruct (@failed_call_atomic demo_host demo_policy demo_ledger (OpUncertain "b") (Some 6) err E) as [-> | (e & now & _ & _ & ->)];
    reflexivity.
Defined.

Lemma dispatch_intent_durable_witness : exists items,
  snd (@get_dispatch_intent demo_host demo_policy (Some 9) demo_ledger "a") = Ok (json_sort (JObj items)).
Proof.
  destruct demo_dispatch as [a E].
  assert (Ee : exists e, engagement demo_ledger = Some e /\ last_seen_ms e = 5 /\ eng_policy e = demo_policy)
    by (eexists; vm_compute; repeat split; reflexivity).
  destruct Ee as (e & Ee & Hl & Hp).
  assert (Hh : @history demo_host demo_policy demo_dispatched demo_ledger).
  { replace demo_ledger with (@run demo_host demo_policy (skipn 4 demo_ops) demo_dispatched) by (vm_compute; reflexivity).
    apply history_run. repeat constructor. }
  eexists. eapply (@dispatch_intent_durable demo_host demo_policy demo_reserved demo_dispatched demo_ledger (Some 4) 9
    "a" (demo_intent "ap1") _ a e E eq_refl); [reflexivity | reflexivity | reflexivity | exact Hh | exact Ee | exact Hp | |].
  - rewrite Hl. split; vm_compute; discriminate.
  - vm_compute. discriminate.
Defined.
